(* ===== verification/_CoqProject ===== *)
-Q . S2P
Prelude.v
Host.v
Blehr.v
Reliable.v
Lifecycle.v
HciH4.v
Rtos.v
Transport.v
Interleave.v
Loopback.v
Backpressure.v
Channel.v
System.v
Duplex.v
ReaderLoop.v
