(* ===== verification/Prelude.v ===== *)
(** * NimBLE on RT-Thread: the heart-rate peripheral and its HCI UART transport

    This library models, and proves properties of, the boundary layer of a
    Bluetooth Low Energy peripheral:

    - [src/apps/blehr/src/blehr.c]: the heart-rate application, a
      connection / subscription state machine driven by GAP events of the
      NimBLE host and by a one-second callout that sends notifications;
    - [src/nimble/transport/rtthread/src/ble_hci_rtthread.c]: the HCI
      transport over an RT-Thread serial device (H4 framing), with its
      blocking writers and its reader thread;
    - [src/porting/npl/rtthread/include/console/console.h]: a one-line macro
      (not modelled: it renames a print function).

    The two C files do not call each other: the application talks to the
    NimBLE host, the host talks to the controller through the transport.
    The host is outside the sources, so each file is verified against an
    interface of its environment.

    ** Files

    - [Prelude] (this file): machine integers as [Z] with explicit
      wrap-around ([u8], [u16], [size_t]), the outcome type [res] (a failed
      [assert], an access outside a buffer and a loop that runs out of fuel
      are values [Abort _]), the state-and-failure monad [M] in which every
      C function is written, its notations (scope [nimble_scope]), the
      hint databases and generic lemmas.
    - [Host]: what blehr.c calls in the NimBLE host and in the porting layer,
      as the type class [HostStack] (operations named as the C functions)
      with its laws [HostStackLaws], the class [HostReliable] of hosts that
      accept every request, and the scripted reference host [ref_host].
    - [Blehr]: blehr.c, function by function.  The statics of the file are
      the record [blehr]; [struct ble_gap_event] is the inductive
      [ble_gap_event]; each C function is one definition with the C name.
      For every handler an equation gives its exact result on each branch;
      the theorems are read off these equations.
    - [Reliable]: the handlers on a host that accepts every request, as
      statements [did m w r a calls armed] (result, statics, calls added to
      the log, state of the callout).
    - [Lifecycle]: the peripheral as a transition system: the callbacks the
      host invokes ([input]), [step] and [run], reachability ([reaches]),
      invariants by induction on runs, the machine of the specification
      ([spec_state], [spec_step], with the environment assumptions
      [allowed]) and the forward simulation between the two ([R],
      [refines]).
    - [HciH4]: the H4 decoder and encoder.  The decoder is not among the
      sources; it is modelled from the specification, one octet at a time
      ([h4_byte]), with round-trip and chunking lemmas and the decoder's
      soundness (well-formed states [sm_wf], valid packets only, no octet
      lost).
    - [Rtos]: what ble_hci_rtthread.c calls in RT-Thread and NimBLE, as a
      record [rtos] of functions from the calls made so far to the answer
      of the next call; the observations [wire], [delivered],
      [read_octets]; the classes [SaneDevice] and [ProgressingDevice];
      reference devices.
    - [Transport]: ble_hci_rtthread.c, function by function, over [rtos]:
      the statics are the record [transport].
    - [Interleave]: the two senders of ble_hci_rtthread.c as threads, a
      step being one call of [rt_device_write] or the release of the
      buffer ([thread_step]); a sender alone ([run_alone]) and two senders
      under a schedule ([run_sched]).
    - [Loopback]: the requests of the host served in sequence ([tx],
      [send_all]) and two transports on one serial link: the device [link]
      at the far end reads what the near end wrote; the class
      [PeerDelivers] of peers whose octets arrive.
    - [Backpressure]: a serial port with a receive buffer of fixed size
      and no flow control ([fifo], [fifo_rtos]): the peer's octets arrive
      while the reader sleeps ([arrive]) and the oldest are overwritten
      when the buffer is full; a read takes from its head ([fetch]).
    - [Channel]: what the driver promises its users, a pair of queues of
      packets ([chan], [chan_step], [chan_run]); the operations of the
      driver ([op], [drive]) and the relation [chan_rel] between its
      worlds and the states of the channel.
    - [System]: the application and the transport on the two sides of the
      host: a state [sys] holds a world of each, an operation is a
      callback into the application followed by the host sending what it
      asked for, or an iteration of the reader ([sys_step]); how the host
      encodes a request into packets is the parameter [HostEgress].
    - [Duplex]: the reader thread of ble_hci_rtthread.c step by step
      ([reader], [reader_step]: the read, one step per octet decoded, the
      sleep) and the reader scheduled against the two senders
      ([run_tasks]); the views [rx_view] and [tx_view] of the calls and the
      class [FullDuplex] of devices whose directions are independent.
    - [ReaderLoop]: the reader's [while (1)] as an interaction tree
      ([entry_tree], over the events [readerE]) with the environment as a
      handler ([handle]); the coinductive property [polite].

    ** What is proved

    - [Blehr]: functional behaviour of every handler on every branch,
      failed assertions included: the first call of the entry point and
      the order of its calls, the sync callback when the address is
      accepted and when it is refused, a subscribe event on the
      measurement characteristic and on any other, a tick with and
      without a subscription; each of connect failure, disconnect and
      advertising-complete starts advertising exactly once.
    - [Lifecycle]: the simulated heart rate stays in [[90, 160)] along
      every run; the values a subscriber receives, with the wrap after 70
      ticks; every notification goes to the connection handle of the most
      recent subscription; from power-on, on a reliable host, every run the
      specification's environment allows refines the specification's
      machine (same outputs in the same order); the end-to-end session of
      the specification.  Where the code departs from the specification
      (a disconnection clears nothing; an unsubscribe re-arms the callout;
      the heart rate is reset lazily), the departure is a theorem.
    - [Transport]: the writing loop terminates on a device that makes
      progress and writes exactly the buffer; it spins on a stalled link
      and runs beyond the buffer on a device that over-reports; the
      senders write the H4 encoding of what they are given and release the
      buffer once; what the command sender writes decodes to the command
      sent under any chunking; the reader is sound for any device (what it
      hands to the host is what the decoder produces on the octets read:
      valid packets only, and no octet lost, repeated or moved) and total
      while the peer sends valid ACL and event packets; it
      asserts on a command and on a malformed type octet; initialisation
      succeeds exactly when the device is found and not busy and the
      thread is created, and starts exactly one reader.
    - [Interleave]: two senders that do not overlap leave two packets on
      the wire; two senders that overlap leave the type octet
      of one inside the packet of the other, because the code takes no
      lock, and the far end's decoder does not see the command that was
      sent; under every schedule the wire gains an interleaving of the two
      encodings, so octets are never lost or reordered within a packet.
    - [Loopback]: any sequence of commands and ACL data served by the
      senders leaves on the wire the encodings of the packets in order,
      which a decoder turns back into the packets sent; when the peer's
      octets arrive, the reader hands every packet to the host within one
      iteration per octet; ACL data sent by one transport is handed to the
      host of a second transport at the far end of the link as the packets
      that were sent, in order.
    - [Backpressure]: when no more octets arrive between two reads than
      one read takes (63) and than the buffer holds, the reader loses
      nothing and hands the host every packet; whatever arrives, the
      reader takes at most 63 octets per iteration, so what arrives
      beyond that and the buffer is lost, and the decoder, which cannot
      resynchronise, then asserts; at the default line (115200 baud, 10
      bits per octet) the reader keeps up while its periods last no more
      than 5 milliseconds.
    - [Channel]: after a successful initialisation every sequence of
      sends and reader iterations is a run of the channel (a forward
      simulation): packets go out in the order sent and come in as a
      prefix, in order, of what the peer sends.
    - [System]: the refinements of [Lifecycle] and [Channel] composed:
      from power-on, while the environment behaves as the specification
      assumes, the wire holds the packets of the outputs of the
      specification's machine, whole and in order.
    - [Duplex]: a run of the reader and two senders under any schedule is, seen
      from each side, that side running by itself, so the two directions
      do not interfere, and two schedules that give each side the same
      slots end in worlds that neither side can tell apart ([same_world],
      an equivalence the observations respect); while the peer sends, no
      schedule makes a task abort, the senders' octets reach the wire
      and, given 65 steps per octet, the host has every packet.
    - [ReaderLoop]: for as long as the loop of the reader runs and
      whatever its environment answers, every read asks for 63 octets at
      offset 0 and the thread sleeps between two reads.

    ** Lemmas about the model

    Some parts of the code are rendered more than once: the senders as
    functions ([Transport]) and as threads ([Interleave]), the reader as
    iterations ([Transport]), as steps ([Duplex]) and as a tree
    ([ReaderLoop]).  That the renderings agree says nothing of the driver,
    since an error of transcription would be in both; it is what lets a
    theorem proved of one rendering be used for another, and it is proved
    as lemmas: [Interleave.thread_refines_sender],
    [Duplex.reader_steps_refine_entry], [ReaderLoop.runs_entry_body] and
    [ReaderLoop.entry_tree_unfolds].  In the same way
    [Lifecycle.run_wf] (the statics of blehr.c stay within their C types
    along every run) is true of any C program: it shows that the model
    wraps its integers where C does, so that no theorem is about a value
    the variable could not hold.

    ** Conventions, bounds, fuel

    - [uint8_t], [uint16_t] and [size_t] values are [Z] with [u8], [u16],
      [size_t] applied where C would wrap ([is_u8], [is_u16], [is_int] are
      the ranges); [bool] is [bool]; a pointer is a
      [Z] with 0 for NULL; a buffer is the list of its octets.
    - Asserts are modelled as enabled (no NDEBUG).
    - Return codes of the environment are not fixed by the model: theorems
      quantify over every host satisfying [HostStackLaws] and over every
      [rtos]; concrete runs use the reference instances.
    - blehr.c has no loop.  In ble_hci_rtthread.c the loop of
      [rtthread_ble_hci_uart_write_all] takes fuel, one unit per
      iteration: on a device that makes progress [size] units are enough
      ([Transport.write_all_terminates]), 65535 for any mbuf segment; the
      result does not depend on further fuel ([Transport.write_all_fuel]).
      The loop over the mbuf chain is structural.  The reader's [while (1)]
      never returns: [rtthread_hci_uart_entry n] is its first [n]
      iterations and the theorems hold for every [n]; [ReaderLoop] has
      the loop itself, without fuel.
    - [ARRAY_SIZE] is defined in ble_hci_rtthread.c under [#ifndef], as
      the size of the array less the size of an element.  The model takes
      this definition, so the reader asks for 63 octets: none of the
      headers the file includes is among the sources, and one that
      defined [ARRAY_SIZE] as the usual quotient would make the request
      64, the size of [rx].  The theorems that name 63 or 65
      ([Backpressure], [Duplex], [ReaderLoop]) are about the file as it
      reads by itself.
    - In [Interleave] a thread needs at most [work t] steps, the octets it
      has to write plus its last call; a schedule is a list of booleans,
      one per step, and a sender that has returned is skipped.
    - In [Backpressure] time is counted in periods of the reader, a read
      and a sleep: the octets that arrive between two reads are accounted
      to the sleep between them, which loses nothing because nothing else
      takes octets from the port; [arr k] octets arrive in period [k].
    - In [Duplex] a schedule is a list of tasks, one per step; an
      iteration of the reader takes at most 65 steps (the read, at most 63
      octets, the sleep), so 65 steps per octet of the peer's stream are
      enough to deliver it.

    ** Not modelled

    - the NimBLE host itself (GAP, GATT, ATT, L2CAP) and the GATT table of
      the heart-rate service: in [System] the packets the host builds are
      a parameter, and the host reacts to no packet it receives;
    - [MODLOG_DFLT] in blehr.c: the macro expands to a print or to nothing
      according to the log level the host is built with, which the sources
      do not fix (the [printf] calls of both files are modelled);
    - console.h, whose only line renames a print function that neither C
      file calls;
    - preemption inside a call of the environment, and the scheduling of
      the host's own thread: the tasks of [Duplex] are the reader and the
      senders the host calls, switched between calls;
    - the serial driver of RT-Thread itself: [Backpressure] models its
      receive buffer by what the reader can observe of it, and how long a
      period of the reader lasts (the tick of the kernel, the time the
      host takes for a packet) is a parameter;
    - a read that fails: [rt_device_read] returns a size, so the reader
      cannot tell an error from an empty buffer;
    - buffer allocation inside the H4 decoder, ISO and SCO packets. *)

From Stdlib Require Import ZArith Lia String.
From stdpp Require Import base tactics option list numbers strings.

#[local] Open Scope Z_scope.

(** ** Text *)

(** The newline that ends a line of output, ["\n"] in C. *)
Definition LF : string := String (Ascii.ascii_of_nat 10) EmptyString.

(** ** Machine integers *)

(** Value of a C expression of type [uint8_t]. *)
Definition u8 (z : Z) : Z := z mod 256.

(** Value of a C expression of type [uint16_t]. *)
Definition u16 (z : Z) : Z := z mod 65536.

(** Value of a C expression of type [size_t] or [rt_size_t] (32 bits on the
    targets of RT-Thread). *)
Definition size_t (z : Z) : Z := z mod 2 ^ 32.

Definition is_u8 (z : Z) : Prop := 0 <= z < 256.
Definition is_u16 (z : Z) : Prop := 0 <= z < 65536.

(** The values of a C [int] (32 bits). *)
Definition is_int (z : Z) : Prop := - 2 ^ 31 <= z < 2 ^ 31.

#[export] Instance is_u8_dec z : Decision (is_u8 z).
Proof. unfold is_u8. apply _. Defined.

#[export] Instance is_u16_dec z : Decision (is_u16 z).
Proof. unfold is_u16. apply _. Defined.

#[export] Instance is_int_dec z : Decision (is_int z).
Proof. unfold is_int. apply _. Defined.

(** ** Outcomes: a value, or an aborted program *)

(** A failed [assert]; an access outside an array (undefined behaviour in
    C); a loop that did not finish within the iterations the model was
    given. *)
Inductive fault : Type :=
| AssertFail (site : string)
| OutOfBounds (site : string)
| OutOfFuel (site : string).

Inductive res (A : Type) : Type :=
| Ok (a : A)
| Abort (f : fault).

Arguments Ok {A} a.
Arguments Abort {A} f.

#[export] Instance fault_eq_dec : EqDecision fault.
Proof. solve_decision. Defined.

#[export] Instance res_eq_dec `{EqDecision A} : EqDecision (res A).
Proof. solve_decision. Defined.

Definition is_ok {A} (r : res A) : bool :=
  match r with Ok _ => true | Abort _ => false end.

(** ** The state-and-failure monad

    A C function that reads and writes the statics of its file, calls into
    its environment and may fail an assertion is a function from the state
    before to either the result and the state after, or an abort. *)

Definition M (S A : Type) : Type := S -> res (A * S).

Definition ret {S A} (a : A) : M S A := fun s => Ok (a, s).

Definition bind {S A B} (m : M S A) (k : A -> M S B) : M S B :=
  fun s => match m s with
           | Ok (a, s') => k a s'
           | Abort e => Abort e
           end.

Definition get {S} : M S S := fun s => Ok (s, s).
Definition gets {S A} (f : S -> A) : M S A := fun s => Ok (f s, s).
Definition put {S} (s : S) : M S unit := fun _ => Ok (tt, s).
Definition modify {S} (f : S -> S) : M S unit := fun s => Ok (tt, f s).
Definition abort {S A} (e : fault) : M S A := fun _ => Abort e.

(** C's [assert(b)]. *)
Definition assert_ {S} (b : bool) (site : string) : M S unit :=
  if b then ret tt else abort (AssertFail site).

Declare Scope nimble_scope.
Delimit Scope nimble_scope with nimble.

Notation "x <- m ;; k" := (bind m (fun x => k))
  (at level 100, m at next level, right associativity) : nimble_scope.
Notation "m ;; k" := (bind m (fun _ => k))
  (at level 100, right associativity) : nimble_scope.

(** ** Tactics and hint databases *)

Create HintDb nimble discriminated.
Create Rewrite HintDb nimble_rw.

(** [unfold_m]: unfold the monad's combinators in the goal. *)
Ltac unfold_m :=
  cbv beta iota delta [bind ret get gets put modify abort assert_].

(** [case_eqb]: case on a comparison [x =? y] of the goal, outermost
    first; [case_ltb] the same for [x <? y]. *)
Ltac case_eqb :=
  match goal with
  | |- context [Z.eqb ?x ?y] => destruct (Z.eqb_spec x y)
  end.

Ltac case_ltb :=
  match goal with
  | |- context [Z.ltb ?x ?y] => destruct (Z.ltb_spec x y)
  end.

(** ** Lemmas *)

Lemma u8_range z : is_u8 (u8 z).
Proof. unfold is_u8, u8. apply Z.mod_pos_bound. lia. Qed.

Lemma u16_range z : is_u16 (u16 z).
Proof. unfold is_u16, u16. apply Z.mod_pos_bound. lia. Qed.

Lemma u8_small z : is_u8 z -> u8 z = z.
Proof. unfold is_u8, u8. intros. apply Z.mod_small. lia. Qed.

Lemma u16_small z : is_u16 z -> u16 z = z.
Proof. unfold is_u16, u16. intros. apply Z.mod_small. lia. Qed.

Lemma u8_idemp z : u8 (u8 z) = u8 z.
Proof. apply u8_small, u8_range. Qed.

Lemma u8_is_u16 z : is_u8 z -> is_u16 z.
Proof. unfold is_u8, is_u16. lia. Qed.

Lemma size_t_small z : 0 <= z < 2 ^ 32 -> size_t z = z.
Proof. apply Z.mod_small. Qed.

Lemma size_t_range z : 0 <= size_t z < 2 ^ 32.
Proof. apply Z.mod_pos_bound. lia. Qed.

(** [size_t] subtraction below zero wraps to the top of the range. *)
Lemma size_t_underflow a b :
  0 <= a < b -> b < 2 ^ 32 -> size_t (a - b) = 2 ^ 32 - (b - a).
Proof.
  intros. unfold size_t.
  rewrite <- (Z.mod_small (2 ^ 32 - (b - a)) (2 ^ 32)) by lia.
  rewrite <- (Z_mod_plus_full (a - b) 1). f_equal. lia.
Qed.

#[export] Hint Resolve u8_range u16_range u8_is_u16 : nimble.
#[export] Hint Rewrite u8_idemp : nimble_rw.

Section MonadLaws.
Context {S A B C : Type}.

Lemma bind_ret_l (a : A) (k : A -> M S B) s : bind (ret a) k s = k a s.
Proof. reflexivity. Qed.

Lemma bind_ret_r (m : M S A) s : bind m ret s = m s.
Proof. unfold bind, ret. destruct (m s) as [[a s']|e]; reflexivity. Qed.

Lemma bind_assoc (m : M S A) (k : A -> M S B) (h : B -> M S C) s :
  bind (bind m k) h s = bind m (fun a => bind (k a) h) s.
Proof. unfold bind. destruct (m s) as [[a s']|e]; reflexivity. Qed.

Lemma bind_ok (m : M S A) (k : A -> M S B) s a s' :
  m s = Ok (a, s') -> bind m k s = k a s'.
Proof. unfold bind. intros ->. reflexivity. Qed.

Lemma bind_abort (m : M S A) (k : A -> M S B) s e :
  m s = Abort e -> bind m k s = Abort e.
Proof. unfold bind. intros ->. reflexivity. Qed.

Lemma bind_ok_inv (m : M S A) (k : A -> M S B) s b s'' :
  bind m k s = Ok (b, s'') ->
  exists a s', m s = Ok (a, s') /\ k a s' = Ok (b, s'').
Proof.
  unfold bind. destruct (m s) as [[a s']|e]; [|discriminate].
  intros Hk. exists a, s'. auto.
Qed.

End MonadLaws.

#[export] Hint Rewrite @bind_ret_l @bind_ret_r @bind_assoc : nimble_rw.
