(* ===== verification/Host.v ===== *)
(** * Host: the NimBLE host and porting layer, as blehr.c sees them

    blehr.c calls the GAP and GATT client of the NimBLE host, the mbuf pool
    and the callout (timer) of the porting layer.  None of that code is part
    of the modelled sources, so it is an interface here:

    - [HostStack H]: a host state [H] with one operation per C function that
      blehr.c calls ([printf] of the C library included), named as in C, returning the C return value and the new
      host state; two observations, [callout_armed] (is the callout
      [blehr_tx_timer] scheduled) and [host_log] (the calls made so far, with
      what they returned);
    - [HostStackLaws H]: what the application relies on: every operation
      logs itself and nothing else, only the callout operations change
      [callout_armed], and an mbuf built from a flat buffer holds that
      buffer;
    - [ref_host]: a scripted host (return codes are read from a list, 0 when
      the list is exhausted) with its instances of both classes.  Concrete
      scenarios run on it by computation. *)

From Stdlib Require Import ZArith Lia String.
From stdpp Require Import base tactics option list numbers strings.
From S2P Require Import Prelude.

#[local] Open Scope Z_scope.

(** ** Constants of the NimBLE headers that blehr.c names *)

Definition BLE_HS_ADV_F_DISC_GEN : Z := 0x02.
Definition BLE_HS_ADV_F_BREDR_UNSUP : Z := 0x04.
Definition BLE_HS_ADV_TX_PWR_LVL_AUTO : Z := -128.
Definition BLE_GAP_CONN_MODE_UND : Z := 2.
Definition BLE_GAP_DISC_MODE_GEN : Z := 2.
Definition BLE_OWN_ADDR_RANDOM : Z := 0x01.
Definition BLE_HS_FOREVER : Z := 0x7fffffff.

(** ** Arguments of the calls *)

(** [struct ble_hs_adv_fields], the fields blehr.c sets; every other field
    is zero after the [memset]. *)
Record ble_hs_adv_fields : Type := {
  flags : Z;
  tx_pwr_lvl_is_present : bool;
  tx_pwr_lvl : Z;
  name : string;
  name_len : Z;
  name_is_complete : bool;
}.

(** [struct ble_gap_adv_params], likewise. *)
Record ble_gap_adv_params : Type := {
  conn_mode : Z;
  disc_mode : Z;
}.

(** One call of blehr.c into the host, with what it returned. *)
Inductive host_call : Type :=
| adv_set_fields_call (f : ble_hs_adv_fields) (rc : Z)
| adv_start_call (own_addr_type duration : Z) (p : ble_gap_adv_params) (rc : Z)
| callout_stop_call
| callout_reset_call (ticks : Z) (rc : Z)
| mbuf_from_flat_call (data : list Z) (om : option (list Z))
| notify_custom_call (conn_handle attr_handle : Z) (om : option (list Z)) (rc : Z)
| id_set_rnd_call (addr : list Z) (rc : Z)
| sync_cb_set_call
| callout_init_call
| gatt_svr_init_call (rc : Z)
| device_name_set_call (name : string) (rc : Z)
| hs_thread_startup_call
| print_call (format : string) (args : list Z).

#[export] Instance ble_hs_adv_fields_eq_dec : EqDecision ble_hs_adv_fields.
Proof. solve_decision. Defined.

#[export] Instance ble_gap_adv_params_eq_dec : EqDecision ble_gap_adv_params.
Proof. solve_decision. Defined.

#[export] Instance host_call_eq_dec : EqDecision host_call.
Proof. solve_decision. Defined.

(** ** The interface *)

Class HostStack (H : Type) : Type := {
  (** ticks per second of the RT-Thread kernel (rtconfig.h) *)
  RT_TICK_PER_SECOND : Z;
  ble_gap_adv_set_fields : ble_hs_adv_fields -> H -> Z * H;
  (** [ble_gap_adv_start(own_addr_type, NULL, duration, params,
      blehr_gap_event, NULL)] *)
  ble_gap_adv_start : Z -> Z -> ble_gap_adv_params -> H -> Z * H;
  (** the callout operations act on [blehr_tx_timer], the only callout *)
  ble_npl_callout_init : H -> H;
  ble_npl_callout_stop : H -> H;
  ble_npl_callout_reset : Z -> H -> Z * H;
  (** [None] is the NULL mbuf *)
  ble_hs_mbuf_from_flat : list Z -> H -> option (list Z) * H;
  ble_gattc_notify_custom : Z -> Z -> option (list Z) -> H -> Z * H;
  ble_hs_id_set_rnd : list Z -> H -> Z * H;
  (** [ble_hs_cfg.sync_cb = blehr_on_sync] *)
  ble_hs_cfg_set_sync_cb : H -> H;
  gatt_svr_init : H -> Z * H;
  ble_svc_gap_device_name_set : string -> H -> Z * H;
  ble_hs_thread_startup : H -> H;
  (** [printf(format, args...)] of the C library, with integer arguments *)
  printf : string -> list Z -> H -> H;
  (** observations *)
  callout_armed : H -> bool;
  host_log : H -> list host_call;
}.

Class HostStackLaws (H : Type) `{HostStack H} : Prop := {
  adv_set_fields_log f h :
    host_log (ble_gap_adv_set_fields f h).2 =
    host_log h ++ [adv_set_fields_call f (ble_gap_adv_set_fields f h).1];
  adv_set_fields_armed f h :
    callout_armed (ble_gap_adv_set_fields f h).2 = callout_armed h;
  adv_start_log t d p h :
    host_log (ble_gap_adv_start t d p h).2 =
    host_log h ++ [adv_start_call t d p (ble_gap_adv_start t d p h).1];
  adv_start_armed t d p h :
    callout_armed (ble_gap_adv_start t d p h).2 = callout_armed h;
  callout_init_log h :
    host_log (ble_npl_callout_init h) = host_log h ++ [callout_init_call];
  callout_init_armed h :
    callout_armed (ble_npl_callout_init h) = false;
  callout_stop_log h :
    host_log (ble_npl_callout_stop h) = host_log h ++ [callout_stop_call];
  callout_stop_armed h :
    callout_armed (ble_npl_callout_stop h) = false;
  callout_reset_log t h :
    host_log (ble_npl_callout_reset t h).2 =
    host_log h ++ [callout_reset_call t (ble_npl_callout_reset t h).1];
  callout_reset_armed t h :
    callout_armed (ble_npl_callout_reset t h).2 =
    if decide ((ble_npl_callout_reset t h).1 = 0) then true
    else callout_armed h;
  mbuf_from_flat_log d h :
    host_log (ble_hs_mbuf_from_flat d h).2 =
    host_log h ++ [mbuf_from_flat_call d (ble_hs_mbuf_from_flat d h).1];
  mbuf_from_flat_armed d h :
    callout_armed (ble_hs_mbuf_from_flat d h).2 = callout_armed h;
  mbuf_from_flat_data d h om :
    (ble_hs_mbuf_from_flat d h).1 = Some om -> om = d;
  notify_custom_log c a om h :
    host_log (ble_gattc_notify_custom c a om h).2 =
    host_log h ++
    [notify_custom_call c a om (ble_gattc_notify_custom c a om h).1];
  notify_custom_armed c a om h :
    callout_armed (ble_gattc_notify_custom c a om h).2 = callout_armed h;
  id_set_rnd_log a h :
    host_log (ble_hs_id_set_rnd a h).2 =
    host_log h ++ [id_set_rnd_call a (ble_hs_id_set_rnd a h).1];
  id_set_rnd_armed a h :
    callout_armed (ble_hs_id_set_rnd a h).2 = callout_armed h;
  sync_cb_log h :
    host_log (ble_hs_cfg_set_sync_cb h) = host_log h ++ [sync_cb_set_call];
  sync_cb_armed h :
    callout_armed (ble_hs_cfg_set_sync_cb h) = callout_armed h;
  gatt_svr_init_log h :
    host_log (gatt_svr_init h).2 =
    host_log h ++ [gatt_svr_init_call (gatt_svr_init h).1];
  gatt_svr_init_armed h :
    callout_armed (gatt_svr_init h).2 = callout_armed h;
  device_name_set_log n h :
    host_log (ble_svc_gap_device_name_set n h).2 =
    host_log h ++
    [device_name_set_call n (ble_svc_gap_device_name_set n h).1];
  device_name_set_armed n h :
    callout_armed (ble_svc_gap_device_name_set n h).2 = callout_armed h;
  hs_thread_startup_log h :
    host_log (ble_hs_thread_startup h) =
    host_log h ++ [hs_thread_startup_call];
  hs_thread_startup_armed h :
    callout_armed (ble_hs_thread_startup h) = callout_armed h;
  printf_log fmt args h :
    host_log (printf fmt args h) = host_log h ++ [print_call fmt args];
  printf_armed fmt args h :
    callout_armed (printf fmt args h) = callout_armed h;
}.

Create Rewrite HintDb host.

#[export] Hint Rewrite
  @adv_set_fields_log @adv_set_fields_armed @adv_start_log @adv_start_armed
  @callout_init_log @callout_init_armed @callout_stop_log @callout_stop_armed
  @callout_reset_log @callout_reset_armed
  @mbuf_from_flat_log @mbuf_from_flat_armed
  @notify_custom_log @notify_custom_armed @id_set_rnd_log @id_set_rnd_armed
  @sync_cb_log @sync_cb_armed @gatt_svr_init_log @gatt_svr_init_armed
  @device_name_set_log @device_name_set_armed
  @hs_thread_startup_log @hs_thread_startup_armed
  @printf_log @printf_armed
  using (typeclasses eauto) : host.

(** A host that accepts every request: in the states [reliable] holds of,
    every call of the application returns success and leads to such a
    state again. *)
Class HostReliable (H : Type) `{HostStack H} : Type := {
  reliable : H -> Prop;
  reliable_adv_set_fields f h :
    reliable h ->
    (ble_gap_adv_set_fields f h).1 = 0 /\
    reliable (ble_gap_adv_set_fields f h).2;
  reliable_adv_start t d p h :
    reliable h ->
    (ble_gap_adv_start t d p h).1 = 0 /\ reliable (ble_gap_adv_start t d p h).2;
  reliable_callout_stop h :
    reliable h -> reliable (ble_npl_callout_stop h);
  reliable_callout_reset t h :
    reliable h ->
    (ble_npl_callout_reset t h).1 = 0 /\ reliable (ble_npl_callout_reset t h).2;
  reliable_mbuf_from_flat d h :
    reliable h ->
    (ble_hs_mbuf_from_flat d h).1 = Some d /\
    reliable (ble_hs_mbuf_from_flat d h).2;
  reliable_notify_custom c a om h :
    reliable h ->
    (ble_gattc_notify_custom c a om h).1 = 0 /\
    reliable (ble_gattc_notify_custom c a om h).2;
  reliable_id_set_rnd a h :
    reliable h ->
    (ble_hs_id_set_rnd a h).1 = 0 /\ reliable (ble_hs_id_set_rnd a h).2;
  reliable_sync_cb h :
    reliable h -> reliable (ble_hs_cfg_set_sync_cb h);
  reliable_callout_init h :
    reliable h -> reliable (ble_npl_callout_init h);
  reliable_gatt_svr_init h :
    reliable h -> reliable (gatt_svr_init h).2;
  reliable_device_name_set n h :
    reliable h ->
    (ble_svc_gap_device_name_set n h).1 = 0 /\
    reliable (ble_svc_gap_device_name_set n h).2;
  reliable_hs_thread_startup h :
    reliable h -> reliable (ble_hs_thread_startup h);
}.

(** ** Reading the log *)

(** The notifications a log records: connection handle, attribute handle
    and payload of each [ble_gattc_notify_custom], in order. *)
Definition notification (c : host_call) : option (Z * Z * option (list Z)) :=
  match c with
  | notify_custom_call conn attr om _ => Some (conn, attr, om)
  | _ => None
  end.

Definition notifications (l : list host_call) :
  list (Z * Z * option (list Z)) :=
  omap notification l.

(** ** The reference host

    It logs every call and keeps the callout's flag.  The return code of a
    call that returns one is the head of [rh_script] (0, success, when the
    script is exhausted); [ble_hs_mbuf_from_flat] returns NULL when that
    code is not 0. *)

Record ref_host : Type := {
  rh_log : list host_call;
  rh_armed : bool;
  rh_script : list Z;
}.

Definition rh_init (script : list Z) : ref_host :=
  {| rh_log := []; rh_armed := false; rh_script := script |}.

(** Take the next return code from the script and log the call made with
    it. *)
Definition rh_call (c : Z -> host_call) (h : ref_host) : Z * ref_host :=
  let rc := hd 0 (rh_script h) in
  (rc, {| rh_log := rh_log h ++ [c rc]; rh_armed := rh_armed h;
          rh_script := tl (rh_script h) |}).

Definition rh_void (c : host_call) (armed : bool -> bool) (h : ref_host) :
  ref_host :=
  {| rh_log := rh_log h ++ [c]; rh_armed := armed (rh_armed h);
     rh_script := rh_script h |}.

Definition rh_callout_reset (t : Z) (h : ref_host) : Z * ref_host :=
  let rc := hd 0 (rh_script h) in
  (rc, {| rh_log := rh_log h ++ [callout_reset_call t rc];
          rh_armed := if decide (rc = 0) then true else rh_armed h;
          rh_script := tl (rh_script h) |}).

Definition rh_mbuf_from_flat (d : list Z) (h : ref_host) :
  option (list Z) * ref_host :=
  let om := if decide (hd 0 (rh_script h) = 0) then Some d else None in
  (om, {| rh_log := rh_log h ++ [mbuf_from_flat_call d om];
          rh_armed := rh_armed h; rh_script := tl (rh_script h) |}).

#[export] Instance ref_host_stack : HostStack ref_host := {
  RT_TICK_PER_SECOND := 1000;
  ble_gap_adv_set_fields f := rh_call (adv_set_fields_call f);
  ble_gap_adv_start t d p := rh_call (adv_start_call t d p);
  ble_npl_callout_init := rh_void callout_init_call (fun _ => false);
  ble_npl_callout_stop := rh_void callout_stop_call (fun _ => false);
  ble_npl_callout_reset := rh_callout_reset;
  ble_hs_mbuf_from_flat := rh_mbuf_from_flat;
  ble_gattc_notify_custom c a om := rh_call (notify_custom_call c a om);
  ble_hs_id_set_rnd a := rh_call (id_set_rnd_call a);
  ble_hs_cfg_set_sync_cb := rh_void sync_cb_set_call id;
  gatt_svr_init := rh_call gatt_svr_init_call;
  ble_svc_gap_device_name_set n := rh_call (device_name_set_call n);
  ble_hs_thread_startup := rh_void hs_thread_startup_call id;
  printf fmt args := rh_void (print_call fmt args) id;
  callout_armed := rh_armed;
  host_log := rh_log;
}.

#[export] Instance ref_host_laws : HostStackLaws ref_host.
Proof.
  split; try reflexivity.
  intros d h om. cbn. case_decide; congruence.
Qed.

(** The reference host is reliable once its script is exhausted. *)
#[export] Instance ref_host_reliable : HostReliable ref_host.
Proof.
  refine {| reliable h := rh_script h = [] |}; cbn;
    try (intros; unfold rh_call, rh_callout_reset, rh_mbuf_from_flat; cbn;
         match goal with E : rh_script _ = [] |- _ => rewrite E end; done).
Defined.

(** ** Lemmas on logs *)

Lemma notifications_app l k :
  notifications (l ++ k) = notifications l ++ notifications k.
Proof. apply omap_app. Qed.

Lemma notifications_nil : notifications [] = [].
Proof. reflexivity. Qed.

Lemma notifications_cons c l :
  notifications (c :: l) =
  match notification c with
  | Some n => n :: notifications l
  | None => notifications l
  end.
Proof. unfold notifications. cbn. destruct (notification c); reflexivity. Qed.

#[export] Hint Rewrite notifications_app notifications_cons notifications_nil
  @app_nil_r : host.

