(* ===== verification/Blehr.v ===== *)
(** * Blehr: the heart-rate application, src/apps/blehr/src/blehr.c

    The file's statics are the record [blehr]; together with the host they
    form the [world] every function runs in.  Each C function is one
    definition with the C name, written in the monad [M world] of the
    prelude: a call into the host is [call], a write to a static is
    [set_app], a C [assert] is [assert_].  The [printf] of [blehr_on_sync] is
    a call like the others.  [MODLOG_DFLT] is left out: the macro expands
    to a print or to nothing according to the log level the host is built
    with, which the sources do not fix, and it changes no state.

    The handle [hrs_hrm_handle] of the heart-rate measurement characteristic
    is set by the GATT server when it registers the service and never
    changes afterwards; it is a parameter of the definitions that read it. *)

From Stdlib Require Import ZArith Lia String.
From stdpp Require Import base tactics option list numbers strings.
From S2P Require Import Prelude Host.

#[local] Open Scope Z_scope.
#[local] Open Scope nimble_scope.

(** ** Data *)

(** The statics of blehr.c: the four of file scope and [init_flag], the
    static local of [ble_hr] ([blehr_tx_timer] lives in the host, [hrm] is
    overwritten before each use). *)
Record blehr : Type := {
  notify_state : bool;
  notify_conn_handle : Z;
  blehr_addr_type : Z;
  heartrate : Z;
  (** [static int init_flag = 0] in [ble_hr] *)
  init_flag : Z;
}.

(** Their values when the program starts. *)
Definition blehr_init : blehr :=
  {| notify_state := false; notify_conn_handle := 0; blehr_addr_type := 0;
     heartrate := 90; init_flag := 0 |}.

Definition device_name : string := "blehr_sensor".

(** [struct ble_gap_event], the event types the handler distinguishes and
    the fields it reads; [BLE_GAP_EVENT_OTHER] stands for every type the
    [switch] has no case for. *)
Inductive ble_gap_event : Type :=
| BLE_GAP_EVENT_CONNECT (status : Z)
| BLE_GAP_EVENT_DISCONNECT (reason : Z)
| BLE_GAP_EVENT_ADV_COMPLETE
| BLE_GAP_EVENT_SUBSCRIBE (attr_handle : Z) (cur_notify : bool) (conn_handle : Z)
| BLE_GAP_EVENT_MTU (conn_handle value : Z)
| BLE_GAP_EVENT_OTHER (type : Z).

#[export] Instance blehr_eq_dec : EqDecision blehr.
Proof. solve_decision. Defined.

#[export] Instance ble_gap_event_eq_dec : EqDecision ble_gap_event.
Proof. solve_decision. Defined.

Definition set_notify_state (b : bool) (a : blehr) : blehr :=
  {| notify_state := b; notify_conn_handle := notify_conn_handle a;
     blehr_addr_type := blehr_addr_type a; heartrate := heartrate a;
     init_flag := init_flag a |}.

Definition set_notify_conn_handle (c : Z) (a : blehr) : blehr :=
  {| notify_state := notify_state a; notify_conn_handle := c;
     blehr_addr_type := blehr_addr_type a; heartrate := heartrate a;
     init_flag := init_flag a |}.

Definition set_blehr_addr_type (t : Z) (a : blehr) : blehr :=
  {| notify_state := notify_state a;
     notify_conn_handle := notify_conn_handle a;
     blehr_addr_type := t; heartrate := heartrate a;
     init_flag := init_flag a |}.

Definition set_heartrate (h : Z) (a : blehr) : blehr :=
  {| notify_state := notify_state a;
     notify_conn_handle := notify_conn_handle a;
     blehr_addr_type := blehr_addr_type a; heartrate := h;
     init_flag := init_flag a |}.

Definition set_init_flag (f : Z) (a : blehr) : blehr :=
  {| notify_state := notify_state a;
     notify_conn_handle := notify_conn_handle a;
     blehr_addr_type := blehr_addr_type a; heartrate := heartrate a;
     init_flag := f |}.

(** The advertisement data [blehr_advertise] builds in [fields]. *)
Definition blehr_adv_fields : ble_hs_adv_fields :=
  {| flags := Z.lor BLE_HS_ADV_F_DISC_GEN BLE_HS_ADV_F_BREDR_UNSUP;
     tx_pwr_lvl_is_present := true;
     tx_pwr_lvl := BLE_HS_ADV_TX_PWR_LVL_AUTO;
     name := device_name;
     name_len := Z.of_nat (String.length device_name);
     name_is_complete := true |}.

(** The advertising parameters it builds in [adv_params]. *)
Definition blehr_adv_params : ble_gap_adv_params :=
  {| conn_mode := BLE_GAP_CONN_MODE_UND;
     disc_mode := BLE_GAP_DISC_MODE_GEN |}.

(** The random address [blehr_on_sync] sets. *)
Definition blehr_rnd_addr : list Z := [0xcc; 0xbb; 0xaa; 0x33; 0x22; 0x11].

(** The application and the host it runs on. *)
Record world (H : Type) : Type := World {
  app : blehr;
  host : H;
}.

Arguments World {H} app host.
Arguments app {H} w.
Arguments host {H} w.

Section Blehr.
Context {H : Type} `{HostStack H}.

(** A call into the host that returns a value. *)
Definition call {A} (f : H -> A * H) : M (world H) A :=
  fun w => Ok ((f (host w)).1, World (app w) (f (host w)).2).

(** A call into the host that returns nothing. *)
Definition call_ (f : H -> H) : M (world H) unit :=
  fun w => Ok (tt, World (app w) (f (host w))).

(** Read, write a static. *)
Definition get_app {A} (f : blehr -> A) : M (world H) A :=
  fun w => Ok (f (app w), w).

Definition set_app (f : blehr -> blehr) : M (world H) unit :=
  fun w => Ok (tt, World (f (app w)) (host w)).

(** ** The functions of blehr.c *)

Definition blehr_advertise : M (world H) unit :=
  rc <- call (ble_gap_adv_set_fields blehr_adv_fields) ;;
  if negb (rc =? 0) then ret tt
  else
    addr_type <- get_app blehr_addr_type ;;
    rc <- call (ble_gap_adv_start addr_type BLE_HS_FOREVER blehr_adv_params) ;;
    if negb (rc =? 0) then ret tt else ret tt.

Definition blehr_tx_hrate_stop : M (world H) unit :=
  call_ ble_npl_callout_stop.

Definition blehr_tx_hrate_reset : M (world H) unit :=
  rc <- call (ble_npl_callout_reset RT_TICK_PER_SECOND) ;;
  assert_ (rc =? 0) "blehr_tx_hrate_reset: rc == 0".

Definition blehr_tx_hrate (hrs_hrm_handle : Z) : M (world H) unit :=
  ns <- get_app notify_state ;;
  if negb ns then
    blehr_tx_hrate_stop ;;
    set_app (set_heartrate 90)
  else
    hr <- get_app heartrate ;;
    let hrm := [0x06; hr] in
    set_app (set_heartrate (u8 (hr + 1))) ;;
    hr' <- get_app heartrate ;;
    (if hr' =? 160 then set_app (set_heartrate 90) else ret tt) ;;
    om <- call (ble_hs_mbuf_from_flat hrm) ;;
    conn <- get_app notify_conn_handle ;;
    rc <- call (ble_gattc_notify_custom conn hrs_hrm_handle om) ;;
    assert_ (rc =? 0) "blehr_tx_hrate: rc == 0" ;;
    blehr_tx_hrate_reset.

Definition blehr_gap_event (hrs_hrm_handle : Z) (event : ble_gap_event) :
  M (world H) Z :=
  match event with
  | BLE_GAP_EVENT_CONNECT status =>
      if negb (status =? 0) then blehr_advertise else ret tt
  | BLE_GAP_EVENT_DISCONNECT _ => blehr_advertise
  | BLE_GAP_EVENT_ADV_COMPLETE => blehr_advertise
  | BLE_GAP_EVENT_SUBSCRIBE attr_handle cur_notify conn_handle =>
      if attr_handle =? hrs_hrm_handle then
        set_app (set_notify_state cur_notify) ;;
        set_app (set_notify_conn_handle conn_handle) ;;
        blehr_tx_hrate_reset
      else if negb (attr_handle =? hrs_hrm_handle) then
        set_app (set_notify_state cur_notify) ;;
        set_app (set_notify_conn_handle 0) ;;
        blehr_tx_hrate_stop
      else ret tt
  | BLE_GAP_EVENT_MTU _ _ => ret tt
  | BLE_GAP_EVENT_OTHER _ => ret tt
  end ;;
  ret 0.

Definition blehr_on_sync : M (world H) unit :=
  rc <- call (ble_hs_id_set_rnd blehr_rnd_addr) ;;
  if negb (0 =? rc) then
    call_ (printf ("Set random address error (0x%x)" +:+ LF) [rc])
  else
    set_app (set_blehr_addr_type BLE_OWN_ADDR_RANDOM) ;;
    blehr_advertise.

Definition ble_hr : M (world H) Z :=
  flag <- get_app init_flag ;;
  if negb (flag =? 0) then ret 0
  else
    set_app (set_init_flag 1) ;;
    call_ ble_hs_cfg_set_sync_cb ;;
    call_ ble_npl_callout_init ;;
    _ <- call gatt_svr_init ;;
    rc <- call (ble_svc_gap_device_name_set device_name) ;;
    assert_ (rc =? 0) "ble_hr: RT_ASSERT(rc == 0)" ;;
    call_ ble_hs_thread_startup ;;
    ret 0.

End Blehr.

(** ** Specification functions *)

(** The heart rate after one beat: one more in a [uint8_t], and 90 again
    instead of 160. *)
Definition hr_next (hr : Z) : Z :=
  let hr' := u8 (hr + 1) in if hr' =? 160 then 90 else hr'.

(** The simulated heart rate is in range. *)
Definition hr_ok (a : blehr) : Prop := 90 <= heartrate a < 160.

#[export] Instance hr_ok_dec a : Decision (hr_ok a).
Proof. unfold hr_ok. apply _. Defined.

(** The statics hold values of their C types: [uint16_t
    notify_conn_handle], [uint8_t blehr_addr_type], [uint8_t heartrate],
    [int init_flag]. *)
Definition blehr_wf (a : blehr) : Prop :=
  is_u16 (notify_conn_handle a) /\ is_u8 (blehr_addr_type a) /\
  is_u8 (heartrate a) /\ is_int (init_flag a).

#[export] Instance blehr_wf_dec a : Decision (blehr_wf a).
Proof. unfold blehr_wf. apply _. Defined.

(** So do the fields of an event that the handler reads ([int status],
    [int reason], [uint16_t] handles and MTU, [uint8_t type]). *)
Definition event_wf (e : ble_gap_event) : Prop :=
  match e with
  | BLE_GAP_EVENT_CONNECT status => is_int status
  | BLE_GAP_EVENT_DISCONNECT reason => is_int reason
  | BLE_GAP_EVENT_ADV_COMPLETE => True
  | BLE_GAP_EVENT_SUBSCRIBE attr_handle _ conn_handle =>
      is_u16 attr_handle /\ is_u16 conn_handle
  | BLE_GAP_EVENT_MTU conn_handle value => is_u16 conn_handle /\ is_u16 value
  | BLE_GAP_EVENT_OTHER type => is_u8 type
  end.

#[export] Instance event_wf_dec e : Decision (event_wf e).
Proof. destruct e; apply _. Defined.

(** The sites of the assertions. *)
Definition assert_notify : fault := AssertFail "blehr_tx_hrate: rc == 0".
Definition assert_reset : fault := AssertFail "blehr_tx_hrate_reset: rc == 0".
Definition assert_name_set : fault := AssertFail "ble_hr: RT_ASSERT(rc == 0)".

(** The events after which the handler starts advertising again. *)
Definition readvertises (e : ble_gap_event) : bool :=
  match e with
  | BLE_GAP_EVENT_CONNECT status => negb (status =? 0)
  | BLE_GAP_EVENT_DISCONNECT _ | BLE_GAP_EVENT_ADV_COMPLETE => true
  | _ => false
  end.

(** The events the handler does nothing for. *)
Definition ignores (e : ble_gap_event) : bool :=
  match e with
  | BLE_GAP_EVENT_CONNECT status => status =? 0
  | BLE_GAP_EVENT_MTU _ _ | BLE_GAP_EVENT_OTHER _ => true
  | _ => false
  end.

(** What [blehr_advertise] appends to the log: the advertisement data,
    and the start of advertising when the data were accepted. *)
Definition advertise_calls (addr_type rc1 rc2 : Z) : list host_call :=
  adv_set_fields_call blehr_adv_fields rc1 ::
  (if decide (rc1 = 0)
   then [adv_start_call addr_type BLE_HS_FOREVER blehr_adv_params rc2]
   else []).


(** ** Facts *)

(** In the range of the simulation the increment does not wrap. *)
Lemma hr_next_small hr : 90 <= hr < 160 ->
  hr_next hr = if hr + 1 =? 160 then 90 else hr + 1.
Proof.
  intros Hr. unfold hr_next. by rewrite u8_small by (unfold is_u8; lia).
Qed.

Lemma hr_next_range hr : 90 <= hr < 160 -> 90 <= hr_next hr < 160.
Proof.
  intros. rewrite hr_next_small by done.
  destruct (Z.eqb_spec (hr + 1) 160); lia.
Qed.

Lemma hr_next_mod hr : 90 <= hr < 160 -> hr_next hr = 90 + (hr - 90 + 1) mod 70.
Proof.
  intros. rewrite hr_next_small by done.
  destruct (Z.eqb_spec (hr + 1) 160) as [E|E].
  - replace (hr - 90 + 1) with 70 by lia. reflexivity.
  - rewrite Z.mod_small; lia.
Qed.


Lemma set_heartrate_twice a x y :
  set_heartrate x (set_heartrate y a) = set_heartrate x a.
Proof. reflexivity. Qed.

(** [mrun]: run a handler one layer down to its host calls. *)
Ltac mrun :=
  unfold blehr_tx_hrate, blehr_gap_event, blehr_on_sync, ble_hr,
    blehr_advertise, blehr_tx_hrate_reset, blehr_tx_hrate_stop,
    bind, call, call_, get_app, set_app, assert_, ret, abort; cbn -[Z.eqb].

(** [case_rc]: case on the first test of a return code. *)
Ltac case_rc := case_eqb; cbn -[Z.eqb].

(** [solve_wf]: ranges of statics and event fields, by arithmetic. *)
Ltac solve_wf :=
  unfold blehr_wf, event_wf, is_u8, is_u16, is_int, BLE_OWN_ADDR_RANDOM in *;
  cbn in *; lia.

Section BlehrFacts.
Context {H : Type} `{HostStackLaws H}.
Implicit Types (w : world H) (hrm : Z) (e : ble_gap_event).

Lemma blehr_advertise_eq w :
  let f := ble_gap_adv_set_fields blehr_adv_fields (host w) in
  blehr_advertise w =
  Ok (tt, World (app w)
      (if decide (f.1 = 0)
       then (ble_gap_adv_start (blehr_addr_type (app w)) BLE_HS_FOREVER
               blehr_adv_params f.2).2
       else f.2)).
Proof. mrun. repeat case_rc; case_decide; done. Qed.

Lemma blehr_tx_hrate_reset_eq w :
  let r := ble_npl_callout_reset RT_TICK_PER_SECOND (host w) in
  blehr_tx_hrate_reset w =
  if decide (r.1 = 0) then Ok (tt, World (app w) r.2) else Abort assert_reset.
Proof. mrun. case_rc; case_decide; done. Qed.

Lemma blehr_tx_hrate_stale_eq hrm w :
  notify_state (app w) = false ->
  blehr_tx_hrate hrm w =
  Ok (tt, World (set_heartrate 90 (app w)) (ble_npl_callout_stop (host w))).
Proof. intros Hn. mrun. rewrite Hn. reflexivity. Qed.

Lemma blehr_tx_hrate_beat_eq hrm w :
  notify_state (app w) = true -> hr_ok (app w) ->
  let hr := heartrate (app w) in
  let m := ble_hs_mbuf_from_flat [6; hr] (host w) in
  let n := ble_gattc_notify_custom (notify_conn_handle (app w)) hrm m.1 m.2 in
  let r := ble_npl_callout_reset RT_TICK_PER_SECOND n.2 in
  blehr_tx_hrate hrm w =
  if decide (n.1 = 0) then
    if decide (r.1 = 0)
    then Ok (tt, World (set_heartrate (hr_next hr) (app w)) r.2)
    else Abort assert_reset
  else Abort assert_notify.
Proof.
  intros Hn Hr. mrun. rewrite Hn. cbn. unfold hr_next. cbv zeta.
  repeat case_rc; repeat case_decide; done.
Qed.

Lemma blehr_gap_event_readvertise_eq hrm e w :
  readvertises e = true ->
  blehr_gap_event hrm e w =
  match blehr_advertise w with
  | Ok (_, w') => Ok (0, w')
  | Abort f => Abort f
  end.
Proof.
  destruct e; cbn; try discriminate; intros He;
    unfold blehr_gap_event, bind, ret; try rewrite He; reflexivity.
Qed.

Lemma blehr_gap_event_ignored_eq hrm e w :
  ignores e = true -> blehr_gap_event hrm e w = Ok (0, w).
Proof.
  destruct e; cbn; try discriminate; intros He;
    unfold blehr_gap_event, bind, ret; try rewrite He; reflexivity.
Qed.

Lemma blehr_gap_event_subscribe_eq hrm cur c w :
  let r := ble_npl_callout_reset RT_TICK_PER_SECOND (host w) in
  blehr_gap_event hrm (BLE_GAP_EVENT_SUBSCRIBE hrm cur c) w =
  if decide (r.1 = 0)
  then Ok (0, World (set_notify_conn_handle c (set_notify_state cur (app w)))
                r.2)
  else Abort assert_reset.
Proof. mrun. rewrite Z.eqb_refl. cbn. case_rc; case_decide; done. Qed.

Lemma blehr_gap_event_subscribe_other_eq hrm a cur c w :
  a <> hrm ->
  blehr_gap_event hrm (BLE_GAP_EVENT_SUBSCRIBE a cur c) w =
  Ok (0, World (set_notify_conn_handle 0 (set_notify_state cur (app w)))
           (ble_npl_callout_stop (host w))).
Proof. intros Ha. mrun. repeat case_rc; congruence. Qed.

Lemma blehr_on_sync_eq w :
  let s := ble_hs_id_set_rnd blehr_rnd_addr (host w) in
  blehr_on_sync w =
  if decide (s.1 = 0)
  then blehr_advertise
         (World (set_blehr_addr_type BLE_OWN_ADDR_RANDOM (app w)) s.2)
  else Ok (tt, World (app w)
             (printf ("Set random address error (0x%x)" +:+ LF) [s.1] s.2)).
Proof.
  cbn zeta. unfold blehr_on_sync, bind, call, call_, set_app, ret.
  cbn -[Z.eqb].
  repeat case_rc; repeat case_decide; congruence.
Qed.

Lemma ble_hr_again_eq w : init_flag (app w) <> 0 -> ble_hr w = Ok (0, w).
Proof. intros Hf. mrun. case_rc; done. Qed.

Lemma ble_hr_first_eq w :
  init_flag (app w) = 0 ->
  let h1 := ble_npl_callout_init (ble_hs_cfg_set_sync_cb (host w)) in
  let g := gatt_svr_init h1 in
  let n := ble_svc_gap_device_name_set device_name g.2 in
  ble_hr w =
  if decide (n.1 = 0)
  then Ok (0, World (set_init_flag 1 (app w)) (ble_hs_thread_startup n.2))
  else Abort assert_name_set.
Proof. intros Hf. mrun. rewrite Hf. cbn. case_rc; case_decide; done. Qed.

Lemma blehr_advertise_spec w :
  exists w' rc1 rc2,
    blehr_advertise w = Ok (tt, w') /\ app w' = app w /\
    callout_armed (host w') = callout_armed (host w) /\
    host_log (host w') =
    host_log (host w) ++ advertise_calls (blehr_addr_type (app w)) rc1 rc2.
Proof.
  pose proof (blehr_advertise_eq w) as Heq. cbn zeta in Heq.
  set (f := ble_gap_adv_set_fields blehr_adv_fields (host w)) in *.
  set (s := ble_gap_adv_start _ _ _ _) in *.
  eexists _, f.1, s.1. split; [exact Heq|]. cbn. unfold advertise_calls.
  case_decide; subst f s; autorewrite with host;
    rewrite <- ?app_assoc; done.
Qed.

Lemma blehr_tx_hrate_frame hrm w w' :
  hr_ok (app w) -> blehr_tx_hrate hrm w = Ok (tt, w') ->
  hr_ok (app w') /\ exists hr, app w' = set_heartrate hr (app w).
Proof.
  intros Hr. destruct (notify_state (app w)) eqn:Hn.
  - rewrite (blehr_tx_hrate_beat_eq hrm w Hn Hr). cbn zeta.
    repeat case_decide; try discriminate. intros [= <-]. cbn.
    split; [apply hr_next_range, Hr | eauto].
  - rewrite (blehr_tx_hrate_stale_eq hrm w Hn). intros [= <-]. cbn.
    split; [unfold hr_ok; cbn; lia | eauto].
Qed.

Lemma ble_gap_event_cases e :
  readvertises e = true \/ ignores e = true \/
  exists a cur c, e = BLE_GAP_EVENT_SUBSCRIBE a cur c.
Proof.
  destruct e as [st| | | | |]; cbn; eauto 6.
  destruct (st =? 0); auto.
Qed.

Lemma blehr_gap_event_frame hrm e w r w' :
  blehr_gap_event hrm e w = Ok (r, w') ->
  heartrate (app w') = heartrate (app w) /\
  blehr_addr_type (app w') = blehr_addr_type (app w) /\
  init_flag (app w') = init_flag (app w) /\
  (notify_conn_handle (app w') = notify_conn_handle (app w) \/
   notify_conn_handle (app w') = 0 \/
   exists a cur, e = BLE_GAP_EVENT_SUBSCRIBE a cur (notify_conn_handle (app w'))).
Proof.
  destruct (ble_gap_event_cases e) as [He|[He|(a & cur & c & ->)]].
  - rewrite blehr_gap_event_readvertise_eq by done.
    destruct (blehr_advertise_spec w) as (w1 & ? & ? & -> & Ha & _).
    intros [= <- <-]. rewrite Ha. auto 10.
  - rewrite blehr_gap_event_ignored_eq by done. intros [= <- <-]. auto 10.
  - destruct (decide (a = hrm)) as [->|Ha].
    + rewrite blehr_gap_event_subscribe_eq. cbn zeta. case_decide; [|done].
      intros [= <- <-]. cbn. eauto 10.
    + rewrite blehr_gap_event_subscribe_other_eq by done.
      intros [= <- <-]. cbn. auto 10.
Qed.

Lemma blehr_on_sync_frame w w' :
  blehr_on_sync w = Ok (tt, w') ->
  exists t, app w' = set_blehr_addr_type t (app w).
Proof.
  rewrite blehr_on_sync_eq. cbn zeta. case_decide.
  - destruct (blehr_advertise_spec
      (World (set_blehr_addr_type BLE_OWN_ADDR_RANDOM (app w))
         (ble_hs_id_set_rnd blehr_rnd_addr (host w)).2))
      as (w1 & ? & ? & -> & Ha & _).
    intros [= <-]. rewrite Ha. eauto.
  - intros [= <-]. exists (blehr_addr_type (app w)). by destruct w as [[] ?].
Qed.

(** Every function keeps the statics within their types, on any host and
    whatever the heart rate is. *)
Lemma blehr_tx_hrate_wf hrm w w' :
  blehr_wf (app w) -> blehr_tx_hrate hrm w = Ok (tt, w') -> blehr_wf (app w').
Proof.
  intros Hwf. pose proof (u8_range (heartrate (app w) + 1)).
  mrun. destruct (notify_state (app w)); cbn -[Z.eqb];
    repeat case_rc; intros; simplify_eq/=; solve_wf.
Qed.

Lemma blehr_gap_event_wf hrm e w r w' :
  blehr_wf (app w) -> event_wf e -> blehr_gap_event hrm e w = Ok (r, w') ->
  blehr_wf (app w').
Proof.
  intros Hwf He Hrun.
  destruct (blehr_gap_event_frame hrm e w r w' Hrun) as (Hh & Ht & Hf & Hc).
  destruct Hc as [Hc|[Hc|(a & cur & ->)]]; solve_wf.
Qed.

Lemma blehr_on_sync_wf w w' :
  blehr_wf (app w) -> blehr_on_sync w = Ok (tt, w') -> blehr_wf (app w').
Proof.
  intros Hwf. rewrite blehr_on_sync_eq. cbn zeta. case_decide.
  - destruct (blehr_advertise_spec
      (World (set_blehr_addr_type BLE_OWN_ADDR_RANDOM (app w))
         (ble_hs_id_set_rnd blehr_rnd_addr (host w)).2))
      as (w1 & ? & ? & -> & Ha & _).
    intros [= <-]. rewrite Ha. solve_wf.
  - by intros [= <-].
Qed.

Lemma ble_hr_wf w r w' :
  blehr_wf (app w) -> ble_hr w = Ok (r, w') -> blehr_wf (app w').
Proof.
  intros Hwf. destruct (decide (init_flag (app w) = 0)) as [Hf|Hf].
  - rewrite ble_hr_first_eq by done. cbn zeta. case_decide; [|done].
    intros [= <- <-]. solve_wf.
  - rewrite ble_hr_again_eq by done. by intros [= <- <-].
Qed.

(** C10: a tick while the subscription is active sends exactly one
    notification, [0x06; heartrate], to [notify_conn_handle] on the
    measurement characteristic, moves the heart rate to the next value and
    schedules the next tick. *)
Theorem blehr_tx_hrate_notifies hrm w w' :
  notify_state (app w) = true -> hr_ok (app w) ->
  blehr_tx_hrate hrm w = Ok (tt, w') ->
  exists om,
    app w' = set_heartrate (hr_next (heartrate (app w))) (app w) /\
    host_log (host w') = host_log (host w) ++
      [mbuf_from_flat_call [6; heartrate (app w)] om;
       notify_custom_call (notify_conn_handle (app w)) hrm om 0;
       callout_reset_call RT_TICK_PER_SECOND 0] /\
    (forall d, om = Some d -> d = [6; heartrate (app w)]) /\
    callout_armed (host w') = true.
Proof.
  intros Hn Hr. rewrite (blehr_tx_hrate_beat_eq hrm w Hn Hr). cbn zeta.
  repeat case_decide; try discriminate. intros [= <-]. cbn.
  eexists. split; [reflexivity|]. autorewrite with host.
  repeat match goal with E : _ = 0 |- _ => rewrite E; clear E end.
  rewrite <- !app_assoc. cbn. split_and!; [reflexivity | | done].
  intros d Hd. eapply mbuf_from_flat_data, Hd.
Qed.

(** C18: a tick that finds the subscription cleared sends nothing: it stops
    the callout, puts the heart rate back to 90 and leaves every other
    static as it was. *)
Theorem blehr_tx_hrate_stale hrm w :
  notify_state (app w) = false ->
  exists w',
    blehr_tx_hrate hrm w = Ok (tt, w') /\
    app w' = set_heartrate 90 (app w) /\
    callout_armed (host w') = false /\
    host_log (host w') = host_log (host w) ++ [callout_stop_call].
Proof.
  intros Hn. eexists. split; [apply blehr_tx_hrate_stale_eq, Hn|]. cbn.
  autorewrite with host. done.
Qed.

(** C35: a tick with the subscription active returns exactly when the host
    accepts the notification and the rescheduling; a refused notification
    fails the first assertion, a refused rescheduling the second. *)
Theorem blehr_tx_hrate_ok_iff hrm w :
  notify_state (app w) = true -> hr_ok (app w) ->
  let m := ble_hs_mbuf_from_flat [6; heartrate (app w)] (host w) in
  let n := ble_gattc_notify_custom (notify_conn_handle (app w)) hrm m.1 m.2 in
  let r := ble_npl_callout_reset RT_TICK_PER_SECOND n.2 in
  (is_ok (blehr_tx_hrate hrm w) = true <-> n.1 = 0 /\ r.1 = 0) /\
  (n.1 <> 0 -> blehr_tx_hrate hrm w = Abort assert_notify) /\
  (n.1 = 0 -> r.1 <> 0 -> blehr_tx_hrate hrm w = Abort assert_reset).
Proof.
  intros Hn Hr. rewrite (blehr_tx_hrate_beat_eq hrm w Hn Hr). cbn zeta.
  repeat case_decide; cbn; intuition congruence.
Qed.

(** C28: a subscribe event on the measurement characteristic records the
    new state and the connection handle and schedules a tick, whether the
    central subscribed or unsubscribed. *)
Theorem blehr_subscribe_arms hrm cur c w r w' :
  blehr_gap_event hrm (BLE_GAP_EVENT_SUBSCRIBE hrm cur c) w = Ok (r, w') ->
  r = 0 /\
  app w' = set_notify_conn_handle c (set_notify_state cur (app w)) /\
  callout_armed (host w') = true /\
  host_log (host w') =
  host_log (host w) ++ [callout_reset_call RT_TICK_PER_SECOND 0].
Proof.
  rewrite blehr_gap_event_subscribe_eq. cbn zeta.
  case_decide as Hrc; [|discriminate]. intros [= <- <-]. cbn.
  autorewrite with host. rewrite Hrc. case_decide; done.
Qed.

(** C40: a subscribe event on any other characteristic records the new
    state with connection handle 0 and stops the callout; the heart rate is
    kept. *)
Theorem blehr_subscribe_other_stops hrm a cur c w :
  a <> hrm ->
  exists w',
    blehr_gap_event hrm (BLE_GAP_EVENT_SUBSCRIBE a cur c) w = Ok (0, w') /\
    app w' = set_notify_conn_handle 0 (set_notify_state cur (app w)) /\
    callout_armed (host w') = false /\
    host_log (host w') = host_log (host w) ++ [callout_stop_call].
Proof.
  intros Ha. eexists.
  split; [apply blehr_gap_event_subscribe_other_eq, Ha|]. cbn.
  autorewrite with host. done.
Qed.

(** C29: a failed connection, a disconnection and the end of advertising
    each start advertising once: the advertisement data are set, and
    advertising is started when they were accepted.  Nothing else changes:
    the statics and the callout are as before. *)
Theorem blehr_gap_event_readvertises_once hrm e w :
  readvertises e = true ->
  exists w' rc1 rc2,
    blehr_gap_event hrm e w = Ok (0, w') /\ app w' = app w /\
    callout_armed (host w') = callout_armed (host w) /\
    host_log (host w') =
    host_log (host w) ++ advertise_calls (blehr_addr_type (app w)) rc1 rc2.
Proof.
  intros He. rewrite (blehr_gap_event_readvertise_eq hrm e w He).
  destruct (blehr_advertise_spec w) as (w' & rc1 & rc2 & -> & Hw).
  exists w', rc1, rc2. done.
Qed.

(** C37: the sync callback.  When the host is synchronised the application
    sets its random address; when that is accepted it records the random
    address type and advertises with it, once, and when it is refused it
    prints the return code and does nothing more.  It always returns and
    leaves the callout as it is. *)
Theorem blehr_on_sync_spec w :
  let s := ble_hs_id_set_rnd blehr_rnd_addr (host w) in
  exists w',
    blehr_on_sync w = Ok (tt, w') /\
    callout_armed (host w') = callout_armed (host w) /\
    if decide (s.1 = 0) then
      app w' = set_blehr_addr_type BLE_OWN_ADDR_RANDOM (app w) /\
      exists rc1 rc2,
        host_log (host w') =
        host_log (host w) ++
        id_set_rnd_call blehr_rnd_addr 0 ::
        advertise_calls BLE_OWN_ADDR_RANDOM rc1 rc2
    else
      app w' = app w /\
      host_log (host w') =
      host_log (host w) ++
      [id_set_rnd_call blehr_rnd_addr s.1;
       print_call ("Set random address error (0x%x)" +:+ LF) [s.1]].
Proof.
  cbn zeta. rewrite blehr_on_sync_eq. cbn zeta. case_decide as Hrc.
  - destruct (blehr_advertise_spec
      (World (set_blehr_addr_type BLE_OWN_ADDR_RANDOM (app w))
         (ble_hs_id_set_rnd blehr_rnd_addr (host w)).2))
      as (w' & rc1 & rc2 & -> & Happ & Harm & Hlog).
    cbn in *. autorewrite with host in Harm, Hlog. rewrite Hrc in Hlog.
    exists w'. split_and!; [done..|]. exists rc1, rc2.
    rewrite Hlog, <- app_assoc. done.
  - eexists. split; [reflexivity|]. cbn. autorewrite with host.
    by rewrite <- app_assoc.
Qed.

(** C38: the first call of the entry point.  It stops at the assertion on
    the device name or returns 0; when it returns it has set the flag,
    registered the sync callback, initialised the callout and the GATT
    server, set the device name and started the host thread, in this order
    and with no other call; the return code of the GATT server's
    initialisation is not looked at. *)
Theorem ble_hr_first w :
  init_flag (app w) = 0 ->
  match ble_hr w with
  | Ok (r, w') =>
      r = 0 /\ app w' = set_init_flag 1 (app w) /\
      callout_armed (host w') = false /\
      exists rc,
        host_log (host w') =
        host_log (host w) ++
        [sync_cb_set_call; callout_init_call; gatt_svr_init_call rc;
         device_name_set_call device_name 0; hs_thread_startup_call]
  | Abort e => e = assert_name_set
  end.
Proof.
  intros Hf. rewrite (ble_hr_first_eq w Hf). cbn zeta.
  case_decide as Hrc; [|done]. cbn.
  autorewrite with host. rewrite Hrc, <- !app_assoc. eauto.
Qed.

(** The entry point is idempotent: calling it twice is calling it
    once. *)
Lemma ble_hr_idempotent w :
  bind ble_hr (fun _ => ble_hr) w = ble_hr w.
Proof.
  unfold bind. destruct (decide (init_flag (app w) = 0)) as [Hf|Hf].
  - rewrite (ble_hr_first_eq w Hf). cbn zeta.
    case_decide; [|reflexivity]. apply ble_hr_again_eq. cbn. lia.
  - rewrite (ble_hr_again_eq w Hf). apply ble_hr_again_eq, Hf.
Qed.

End BlehrFacts.

(** ** The theorems at concrete worlds, on the reference host *)

(** A world in which the central with connection handle [c] is subscribed
    and the heart rate is [hr]; the host answers from [script]. *)
Definition w_subscribed (hr c : Z) (script : list Z) : world ref_host :=
  World (set_heartrate hr (set_notify_conn_handle c
           (set_notify_state true blehr_init))) (rh_init script).

(** The world at program start. *)
Definition w_start (script : list Z) : world ref_host :=
  World blehr_init (rh_init script).

(** The world a run ends in ([w] itself when it aborts). *)
Definition final {A} (m : M (world ref_host) A) (w : world ref_host) :
  world ref_host :=
  match m w with Ok (_, w') => w' | Abort _ => w end.

Definition w_beat1 : world ref_host :=
  Eval vm_compute in final (blehr_tx_hrate 3) (w_subscribed 90 1 []).

Definition w_sub1 : world ref_host :=
  Eval vm_compute in
    final (blehr_gap_event 3 (BLE_GAP_EVENT_SUBSCRIBE 3 false 1)) (w_start []).

Definition w_init1 : world ref_host :=
  Eval vm_compute in final ble_hr (w_start []).

Lemma blehr_tx_hrate_notifies_witness :
  exists om,
    app w_beat1 = set_heartrate (hr_next 90) (app (w_subscribed 90 1 [])) /\
    host_log (host w_beat1) =
      host_log (host (w_subscribed 90 1 [])) ++
      [mbuf_from_flat_call [6; 90] om;
       notify_custom_call 1 3 om 0;
       callout_reset_call RT_TICK_PER_SECOND 0] /\
    (forall d, om = Some d -> d = [6; 90]) /\
    callout_armed (host w_beat1) = true.
Proof.
  apply (blehr_tx_hrate_notifies 3 (w_subscribed 90 1 []) w_beat1);
    [reflexivity | unfold hr_ok; cbn; lia | reflexivity].
Defined.

Lemma blehr_tx_hrate_stale_witness :
  exists w',
    blehr_tx_hrate 3 (w_start []) = Ok (tt, w') /\
    app w' = set_heartrate 90 (app (w_start [])) /\
    callout_armed (host w') = false /\
    host_log (host w') = host_log (host (w_start [])) ++ [callout_stop_call].
Proof. apply (blehr_tx_hrate_stale 3 (w_start [])). reflexivity. Defined.

Lemma blehr_tx_hrate_ok_iff_witness :
  let w := w_subscribed 159 1 [0; 7] in
  let m := ble_hs_mbuf_from_flat [6; 159] (host w) in
  let n := ble_gattc_notify_custom 1 3 m.1 m.2 in
  let r := ble_npl_callout_reset RT_TICK_PER_SECOND n.2 in
  (is_ok (blehr_tx_hrate 3 w) = true <-> n.1 = 0 /\ r.1 = 0) /\
  (n.1 <> 0 -> blehr_tx_hrate 3 w = Abort assert_notify) /\
  (n.1 = 0 -> r.1 <> 0 -> blehr_tx_hrate 3 w = Abort assert_reset).
Proof.
  apply (blehr_tx_hrate_ok_iff 3 (w_subscribed 159 1 [0; 7]));
    [reflexivity | unfold hr_ok; cbn; lia].
Defined.

Lemma blehr_subscribe_arms_witness :
  0 = 0 /\
  app w_sub1 =
  set_notify_conn_handle 1 (set_notify_state false (app (w_start []))) /\
  callout_armed (host w_sub1) = true /\
  host_log (host w_sub1) =
  host_log (host (w_start [])) ++ [callout_reset_call RT_TICK_PER_SECOND 0].
Proof.
  apply (blehr_subscribe_arms 3 false 1 (w_start []) 0 w_sub1). reflexivity.
Defined.

Lemma blehr_subscribe_other_stops_witness :
  exists w',
    blehr_gap_event 3 (BLE_GAP_EVENT_SUBSCRIBE 8 true 1)
      (w_subscribed 105 1 []) = Ok (0, w') /\
    app w' = set_notify_conn_handle 0
               (set_notify_state true (app (w_subscribed 105 1 []))) /\
    callout_armed (host w') = false /\
    host_log (host w') =
    host_log (host (w_subscribed 105 1 [])) ++ [callout_stop_call].
Proof.
  apply (blehr_subscribe_other_stops 3 8 true 1 (w_subscribed 105 1 [])).
  lia.
Defined.

Lemma blehr_gap_event_readvertises_once_witness :
  exists w' rc1 rc2,
    blehr_gap_event 3 (BLE_GAP_EVENT_DISCONNECT 19)
      (w_subscribed 105 1 []) = Ok (0, w') /\
    app w' = app (w_subscribed 105 1 []) /\
    callout_armed (host w') = callout_armed (host (w_subscribed 105 1 [])) /\
    host_log (host w') =
    host_log (host (w_subscribed 105 1 [])) ++ advertise_calls 0 rc1 rc2.
Proof.
  apply (blehr_gap_event_readvertises_once 3 (BLE_GAP_EVENT_DISCONNECT 19)
           (w_subscribed 105 1 [])).
  reflexivity.
Defined.

Lemma blehr_on_sync_spec_witness :
  let w := w_start [] in
  let s := ble_hs_id_set_rnd blehr_rnd_addr (host w) in
  exists w',
    blehr_on_sync w = Ok (tt, w') /\
    callout_armed (host w') = callout_armed (host w) /\
    if decide (s.1 = 0) then
      app w' = set_blehr_addr_type BLE_OWN_ADDR_RANDOM (app w) /\
      exists rc1 rc2,
        host_log (host w') =
        host_log (host w) ++
        id_set_rnd_call blehr_rnd_addr 0 ::
        advertise_calls BLE_OWN_ADDR_RANDOM rc1 rc2
    else
      app w' = app w /\
      host_log (host w') =
      host_log (host w) ++
      [id_set_rnd_call blehr_rnd_addr s.1;
       print_call ("Set random address error (0x%x)" +:+ LF) [s.1]].
Proof. apply (blehr_on_sync_spec (w_start [])). Defined.

Lemma ble_hr_first_witness :
  0 = 0 /\ app w_init1 = set_init_flag 1 (app (w_start [])) /\
  callout_armed (host w_init1) = false /\
  exists rc,
    host_log (host w_init1) =
    host_log (host (w_start [])) ++
    [sync_cb_set_call; callout_init_call; gatt_svr_init_call rc;
     device_name_set_call device_name 0; hs_thread_startup_call].
Proof. exact (ble_hr_first (w_start []) eq_refl). Defined.
