(* ===== verification/Reliable.v ===== *)
(** * Reliable: the handlers of blehr.c on a host that accepts every request

    The return codes of the host decide which branch a handler takes.  On a
    host in a [reliable] state every request succeeds, so every handler
    returns, and its result is a function of the statics alone.  The lemmas
    of this file give that result for each handler: the new statics, what
    was appended to the host's log, the state of the callout, and that the
    host is reliable again.  [Lifecycle] builds its runs on them. *)

From Stdlib Require Import ZArith Lia String.
From stdpp Require Import base tactics option list numbers strings.
From S2P Require Import Prelude Host Blehr.

#[local] Open Scope Z_scope.

(** What a handler did: it returned, in a world with statics [a], with
    [calls] appended to the log, the callout in state [armed], on a host
    that is reliable again. *)
Definition did `{HostReliable H} {A} (m : M (world H) A) (w : world H)
    (r : A) (a : blehr) (calls : list host_call) (armed : bool) : Prop :=
  exists w',
    m w = Ok (r, w') /\ app w' = a /\
    host_log (host w') = host_log (host w) ++ calls /\
    callout_armed (host w') = armed /\ reliable (host w').

(** The calls of one [blehr_advertise] that succeeds. *)
Definition advertised (addr_type : Z) : list host_call :=
  [adv_set_fields_call blehr_adv_fields 0;
   adv_start_call addr_type BLE_HS_FOREVER blehr_adv_params 0].

(** The calls of one tick that notifies heart rate [hr] to [conn]. *)
Definition notified `{HostStack H} (hrm conn hr : Z) : list host_call :=
  [mbuf_from_flat_call [6; hr] (Some [6; hr]);
   notify_custom_call conn hrm (Some [6; hr]) 0;
   callout_reset_call RT_TICK_PER_SECOND 0].

(** [use_reliable]: replace the return codes of the calls in the goal by
    success, and derive that the host stays reliable. *)
Ltac use_reliable :=
  repeat match goal with
  | Hr : reliable ?h |- context [ble_gap_adv_set_fields ?f ?h] =>
      lazymatch goal with
      | _ : reliable (ble_gap_adv_set_fields f h).2 |- _ => fail
      | _ => destruct (reliable_adv_set_fields f h Hr) as [?E ?R]
      end
  | Hr : reliable ?h |- context [ble_gap_adv_start ?t ?d ?p ?h] =>
      lazymatch goal with
      | _ : reliable (ble_gap_adv_start t d p h).2 |- _ => fail
      | _ => destruct (reliable_adv_start t d p h Hr) as [?E ?R]
      end
  | Hr : reliable ?h |- context [ble_npl_callout_reset ?t ?h] =>
      lazymatch goal with
      | _ : reliable (ble_npl_callout_reset t h).2 |- _ => fail
      | _ => destruct (reliable_callout_reset t h Hr) as [?E ?R]
      end
  | Hr : reliable ?h |- context [ble_hs_mbuf_from_flat ?d ?h] =>
      lazymatch goal with
      | _ : reliable (ble_hs_mbuf_from_flat d h).2 |- _ => fail
      | _ => destruct (reliable_mbuf_from_flat d h Hr) as [?E ?R]
      end
  | Hr : reliable ?h |- context [ble_gattc_notify_custom ?c ?a ?om ?h] =>
      lazymatch goal with
      | _ : reliable (ble_gattc_notify_custom c a om h).2 |- _ => fail
      | _ => destruct (reliable_notify_custom c a om h Hr) as [?E ?R]
      end
  | Hr : reliable ?h |- context [ble_hs_id_set_rnd ?a ?h] =>
      lazymatch goal with
      | _ : reliable (ble_hs_id_set_rnd a h).2 |- _ => fail
      | _ => destruct (reliable_id_set_rnd a h Hr) as [?E ?R]
      end
  | E : ?x = _ |- context [?x] => rewrite !E
  end.

(** [did_done]: close a [did] goal whose run is already an [Ok]. *)
Ltac did_done :=
  eexists; split; [reflexivity|]; cbn; autorewrite with host;
  use_reliable; rewrite <- ?app_assoc; cbn;
  repeat case_decide; try congruence; split_and!;
  try done; try (by apply reliable_callout_stop).

Section Reliable.
Context {H : Type} `{HostStackLaws H} `{!HostReliable H}.
Implicit Types (w : world H) (hrm : Z) (e : ble_gap_event).

Lemma blehr_advertise_did w :
  reliable (host w) ->
  did blehr_advertise w tt (app w)
    (advertised (blehr_addr_type (app w))) (callout_armed (host w)).
Proof.
  intros Hr. unfold did. rewrite blehr_advertise_eq. cbn zeta.
  use_reliable. case_decide; [|done]. did_done.
Qed.

Lemma blehr_tx_hrate_beat_did hrm w :
  reliable (host w) -> notify_state (app w) = true -> hr_ok (app w) ->
  did (blehr_tx_hrate hrm) w tt
    (set_heartrate (hr_next (heartrate (app w))) (app w))
    (notified hrm (notify_conn_handle (app w)) (heartrate (app w))) true.
Proof.
  intros Hr Hn Hhr. unfold did.
  rewrite (blehr_tx_hrate_beat_eq hrm w Hn Hhr). cbn zeta.
  use_reliable. repeat (case_decide; [|done]). did_done.
Qed.

Lemma blehr_tx_hrate_stale_did hrm w :
  reliable (host w) -> notify_state (app w) = false ->
  did (blehr_tx_hrate hrm) w tt (set_heartrate 90 (app w))
    [callout_stop_call] false.
Proof.
  intros Hr Hn. unfold did. rewrite (blehr_tx_hrate_stale_eq hrm w Hn).
  did_done.
Qed.

Lemma blehr_subscribe_did hrm cur c w :
  reliable (host w) ->
  did (blehr_gap_event hrm (BLE_GAP_EVENT_SUBSCRIBE hrm cur c)) w 0
    (set_notify_conn_handle c (set_notify_state cur (app w)))
    [callout_reset_call RT_TICK_PER_SECOND 0] true.
Proof.
  intros Hr. unfold did. rewrite blehr_gap_event_subscribe_eq. cbn zeta.
  use_reliable. case_decide; [|done]. did_done.
Qed.

Lemma blehr_subscribe_other_did hrm a cur c w :
  reliable (host w) -> a <> hrm ->
  did (blehr_gap_event hrm (BLE_GAP_EVENT_SUBSCRIBE a cur c)) w 0
    (set_notify_conn_handle 0 (set_notify_state cur (app w)))
    [callout_stop_call] false.
Proof.
  intros Hr Ha. unfold did.
  rewrite (blehr_gap_event_subscribe_other_eq hrm a cur c w Ha).
  did_done.
Qed.

Lemma blehr_readvertise_did hrm e w :
  reliable (host w) -> readvertises e = true ->
  did (blehr_gap_event hrm e) w 0 (app w)
    (advertised (blehr_addr_type (app w))) (callout_armed (host w)).
Proof.
  intros Hr He. unfold did.
  rewrite (blehr_gap_event_readvertise_eq hrm e w He).
  destruct (blehr_advertise_did w Hr) as (w' & -> & Hw). eauto.
Qed.

Lemma blehr_ignored_did hrm e w :
  reliable (host w) -> ignores e = true ->
  did (blehr_gap_event hrm e) w 0 (app w) [] (callout_armed (host w)).
Proof.
  intros Hr He. unfold did. rewrite (blehr_gap_event_ignored_eq hrm e w He).
  eexists. split; [reflexivity|]. rewrite app_nil_r. done.
Qed.

Lemma blehr_on_sync_did w :
  reliable (host w) ->
  did blehr_on_sync w tt (set_blehr_addr_type BLE_OWN_ADDR_RANDOM (app w))
    (id_set_rnd_call blehr_rnd_addr 0 :: advertised BLE_OWN_ADDR_RANDOM)
    (callout_armed (host w)).
Proof.
  intros Hr. unfold did. rewrite blehr_on_sync_eq. cbn zeta.
  use_reliable. case_decide; [|done].
  destruct (blehr_advertise_did
    (World (set_blehr_addr_type BLE_OWN_ADDR_RANDOM (app w))
       (ble_hs_id_set_rnd blehr_rnd_addr (host w)).2))
    as (w' & -> & Ha & Hl & Hc & Hr'); [done|].
  cbn in *. autorewrite with host in Hl, Hc. rewrite E in Hl.
  exists w'. rewrite Hl, <- app_assoc. done.
Qed.

Lemma ble_hr_first_did w :
  reliable (host w) -> init_flag (app w) = 0 ->
  exists rc,
    did ble_hr w 0 (set_init_flag 1 (app w))
      [sync_cb_set_call; callout_init_call; gatt_svr_init_call rc;
       device_name_set_call device_name 0; hs_thread_startup_call] false.
Proof.
  intros Hr Hf. unfold did. rewrite (ble_hr_first_eq w Hf). cbn zeta.
  pose proof (reliable_gatt_svr_init _
    (reliable_callout_init _ (reliable_sync_cb _ Hr))) as Hg.
  destruct (reliable_device_name_set device_name _ Hg) as [E Hn].
  case_decide; [|done]. eexists _, _. split; [reflexivity|]. cbn.
  autorewrite with host. rewrite E, <- !app_assoc.
  split_and!; try done. by apply reliable_hs_thread_startup.
Qed.

End Reliable.
