(* ===== verification/Lifecycle.v ===== *)
(** * Lifecycle: the peripheral as a transition system

    The NimBLE host runs the callbacks of blehr.c one at a time in its own
    thread: the sync callback, the GAP event callback and the callout's
    tick.  An [input] is one such invocation, [step] runs the callback, [run]
    a sequence of them.  The tick is [enabled] only while the callout is
    armed.

    The file then states the specification's state machine ([spec_state],
    [spec_step]: phases idle, advertising, connected; the subscriber; the
    simulated value) with its outputs ([out]), what it assumes of the
    central and the host ([allowed]), and the relation [Rel] between the
    statics of blehr.c and a state of that machine.  The refinement theorem
    says that on every allowed sequence of inputs the code produces the
    outputs of the machine. *)

From Stdlib Require Import ZArith Lia String.
From stdpp Require Import base tactics option list numbers strings.
From S2P Require Import Prelude Host Blehr Reliable.

#[local] Open Scope Z_scope.
#[local] Open Scope nimble_scope.

(** ** The code as a transition system *)

(** One invocation of a callback by the host. *)
Inductive input : Type :=
| ISync
| IGap (e : ble_gap_event)
| ITick.

#[export] Instance input_eq_dec : EqDecision input.
Proof. solve_decision. Defined.

Section Machine.
Context {H : Type} `{HostStack H}.

Definition step (hrm : Z) (i : input) : M (world H) unit :=
  match i with
  | ISync => blehr_on_sync
  | IGap e => _ <- blehr_gap_event hrm e ;; ret tt
  | ITick => blehr_tx_hrate hrm
  end.

Fixpoint run (hrm : Z) (tr : list input) : M (world H) unit :=
  match tr with
  | [] => ret tt
  | i :: tr => step hrm i ;; run hrm tr
  end.

(** The callout fires only while it is armed. *)
Definition enabled (w : world H) (i : input) : bool :=
  match i with
  | ITick => callout_armed (host w)
  | _ => true
  end.

(** [reaches hrm w is w']: from [w] the inputs [is], each enabled when it
    arrives, lead to [w'] without a failed assertion. *)
Inductive reaches (hrm : Z) (w : world H) : list input -> world H -> Prop :=
| reaches_nil : reaches hrm w [] w
| reaches_snoc tr w1 i w2 :
    reaches hrm w tr w1 -> enabled w1 i = true ->
    step hrm i w1 = Ok (tt, w2) ->
    reaches hrm w (tr ++ [i]) w2.

End Machine.

(** An input whose event has fields of their C types. *)
Definition input_wf (i : input) : Prop :=
  match i with
  | IGap e => event_wf e
  | _ => True
  end.

#[export] Instance input_wf_dec i : Decision (input_wf i).
Proof. destruct i; apply _. Defined.

(** The subscription an input announces for the measurement
    characteristic. *)
Definition sub_of (hrm : Z) (i : input) : option (bool * Z) :=
  match i with
  | IGap (BLE_GAP_EVENT_SUBSCRIBE a cur c) =>
      if decide (a = hrm) then Some (cur, c) else None
  | _ => None
  end.

(** The most recent one. *)
Definition last_sub (hrm : Z) (tr : list input) : option (bool * Z) :=
  last (omap (sub_of hrm) tr).

(** The heart rate after [n] beats. *)
Definition hr_after (n : nat) (hr : Z) : Z := Nat.iter n hr_next hr.

(** The notifications of [n] successive ticks from heart rate [hr]. *)
Definition beats (hrm conn hr : Z) (n : nat) :
  list (Z * Z * option (list Z)) :=
  map (fun k => (conn, hrm, Some [6; hr_after k hr])) (seq 0 n).

(** ** The specification's state machine *)

Inductive phase : Type := Idle | Advertising | Connected.

#[export] Instance phase_eq_dec : EqDecision phase.
Proof. solve_decision. Defined.

(** [sub]: the connection handle of the subscriber, if any; [value]: the
    simulated sensor value; [stale]: a tick may still be queued although the
    subscription was cleared. *)
Record spec_state : Type := {
  ph : phase;
  sub : option Z;
  value : Z;
  stale : bool;
}.

Definition spec_init : spec_state :=
  {| ph := Idle; sub := None; value := 90; stale := false |}.

(** What the peripheral does that its environment sees. *)
Inductive out : Type :=
| OSetAddr (addr : list Z)
| OAdvertise (own_addr_type : Z)
| ONotify (conn attr : Z) (payload : list Z).

#[export] Instance out_eq_dec : EqDecision out.
Proof. solve_decision. Defined.

Definition spec_subscribe (hrm : Z) (s : spec_state) (a : Z) (cur : bool)
    (c : Z) : spec_state :=
  if decide (a = hrm) then
    if cur then {| ph := ph s; sub := Some c; value := value s; stale := false |}
    else {| ph := ph s; sub := None; value := 90; stale := true |}
  else {| ph := ph s; sub := None; value := 90; stale := stale s |}.

Definition spec_step (hrm : Z) (s : spec_state) (i : input) :
  spec_state * list out :=
  match i with
  | ISync =>
      ({| ph := Advertising; sub := sub s; value := value s;
          stale := stale s |},
       [OSetAddr blehr_rnd_addr; OAdvertise BLE_OWN_ADDR_RANDOM])
  | IGap (BLE_GAP_EVENT_CONNECT status) =>
      if status =? 0 then
        ({| ph := Connected; sub := None; value := 90; stale := stale s |}, [])
      else (s, [OAdvertise BLE_OWN_ADDR_RANDOM])
  | IGap (BLE_GAP_EVENT_DISCONNECT _) =>
      ({| ph := Advertising; sub := None; value := 90; stale := stale s |},
       [OAdvertise BLE_OWN_ADDR_RANDOM])
  | IGap BLE_GAP_EVENT_ADV_COMPLETE => (s, [OAdvertise BLE_OWN_ADDR_RANDOM])
  | IGap (BLE_GAP_EVENT_SUBSCRIBE a cur c) => (spec_subscribe hrm s a cur c, [])
  | IGap (BLE_GAP_EVENT_MTU _ _) | IGap (BLE_GAP_EVENT_OTHER _) => (s, [])
  | ITick =>
      match sub s with
      | Some c =>
          ({| ph := ph s; sub := sub s; value := hr_next (value s);
              stale := stale s |},
           [ONotify c hrm [6; value s]])
      | None =>
          ({| ph := ph s; sub := None; value := value s; stale := false |}, [])
      end
  end.

Fixpoint spec_run (hrm : Z) (s : spec_state) (tr : list input) :
  spec_state * list out :=
  match tr with
  | [] => (s, [])
  | i :: tr =>
      let r := spec_step hrm s i in
      let r' := spec_run hrm r.1 tr in
      (r'.1, r.2 ++ r'.2)
  end.

(** What the specification assumes of its environment: events arrive in
    the phase the transition table has them in; the host reports the end of
    the subscription before it reports the disconnection; the central does
    not subscribe again while a tick is still queued, and subscribes to no
    other characteristic while it is subscribed or a tick is queued; the
    callout fires only when it was armed. *)
Definition allowed (hrm : Z) (s : spec_state) (i : input) : bool :=
  match i with
  | ISync => bool_decide (ph s = Idle)
  | IGap (BLE_GAP_EVENT_CONNECT _) | IGap BLE_GAP_EVENT_ADV_COMPLETE =>
      bool_decide (ph s = Advertising)
  | IGap (BLE_GAP_EVENT_DISCONNECT _) =>
      bool_decide (ph s = Connected) && bool_decide (sub s = None)
  | IGap (BLE_GAP_EVENT_SUBSCRIBE a cur c) =>
      bool_decide (ph s = Connected) &&
      (if decide (a = hrm) then (if cur then negb (stale s) else true)
       else bool_decide (sub s = None) && negb (stale s))
  | IGap (BLE_GAP_EVENT_MTU _ _) | IGap (BLE_GAP_EVENT_OTHER _) => true
  | ITick => bool_decide (is_Some (sub s)) || stale s
  end.

Fixpoint env_ok (hrm : Z) (s : spec_state) (tr : list input) : bool :=
  match tr with
  | [] => true
  | i :: tr => allowed hrm s i && env_ok hrm (spec_step hrm s i).1 tr
  end.

(** What a call in the host's log shows to the environment. *)
Definition observation (c : host_call) : option out :=
  match c with
  | id_set_rnd_call a rc => if decide (rc = 0) then Some (OSetAddr a) else None
  | adv_start_call t _ _ rc =>
      if decide (rc = 0) then Some (OAdvertise t) else None
  | notify_custom_call c a (Some p) rc =>
      if decide (rc = 0) then Some (ONotify c a p) else None
  | _ => None
  end.

Definition observe (l : list host_call) : list out := omap observation l.

(** The statics [a] and the callout's state [armed] represent the state
    [s] of the specification's machine. *)
Definition Rel (a : blehr) (armed : bool) (s : spec_state) : Prop :=
  (ph s <> Idle -> blehr_addr_type a = BLE_OWN_ADDR_RANDOM) /\
  (ph s <> Connected -> sub s = None) /\
  match sub s with
  | Some c =>
      stale s = false /\ notify_state a = true /\
      notify_conn_handle a = c /\ armed = true /\
      heartrate a = value s /\ 90 <= value s < 160
  | None =>
      value s = 90 /\
      if stale s then notify_state a = false /\ armed = true
      else armed = false /\ heartrate a = 90
  end.

Definition R `{HostStack H} (w : world H) (s : spec_state) : Prop :=
  Rel (app w) (callout_armed (host w)) s.

(** The invariant of guarded runs: while the callout is armed and the
    subscription flag is set, the stored connection handle is the one of
    the last subscription to the measurement characteristic. *)
Definition targets_subscriber `{HostStack H} (hrm : Z) (tr : list input)
    (w : world H) : Prop :=
  callout_armed (host w) = true -> notify_state (app w) = true ->
  last_sub hrm tr = Some (true, notify_conn_handle (app w)).

(** Running [m] in [w] refines a step of the specification to [s'] with
    outputs [outs]. *)
Definition refines `{HostReliable H} {A} (m : M (world H) A) (w : world H)
    (s' : spec_state) (outs : list out) : Prop :=
  exists r w',
    m w = Ok (r, w') /\ R w' s' /\ reliable (host w') /\
    observe (host_log (host w')) = observe (host_log (host w)) ++ outs.

(** The session of the specification's end-to-end scenario: the central
    with connection handle [c] connects, subscribes, receives two
    notifications, unsubscribes, and disconnects after the queued tick. *)
Definition session (hrm c : Z) : list input :=
  [ISync; IGap (BLE_GAP_EVENT_CONNECT 0);
   IGap (BLE_GAP_EVENT_SUBSCRIBE hrm true c); ITick; ITick;
   IGap (BLE_GAP_EVENT_SUBSCRIBE hrm false c); ITick;
   IGap (BLE_GAP_EVENT_DISCONNECT 19)].


(** ** Facts *)

Lemma hr_after_S n hr : hr_after (S n) hr = hr_next (hr_after n hr).
Proof. reflexivity. Qed.

Lemma hr_after_range n hr : 90 <= hr < 160 -> 90 <= hr_after n hr < 160.
Proof.
  intros Hr. induction n as [|n IH]; [exact Hr|].
  rewrite hr_after_S. apply hr_next_range, IH.
Qed.

Lemma hr_after_mod n hr :
  90 <= hr < 160 -> hr_after n hr = 90 + (hr - 90 + Z.of_nat n) mod 70.
Proof.
  intros Hr. induction n as [|n IH].
  - cbn. rewrite Z.add_0_r, Z.mod_small; lia.
  - rewrite hr_after_S, hr_next_mod by (apply hr_after_range, Hr).
    rewrite IH.
    replace (90 + (hr - 90 + Z.of_nat n) `mod` 70 - 90 + 1)
      with ((hr - 90 + Z.of_nat n) `mod` 70 + 1) by lia.
    rewrite Zplus_mod_idemp_l. f_equal. f_equal. lia.
Qed.

Lemma beats_S hrm conn hr n :
  beats hrm conn hr (S n) =
  (conn, hrm, Some [6; hr]) :: beats hrm conn (hr_next hr) n.
Proof.
  unfold beats. cbn [seq map]. f_equal. rewrite <- seq_shift, map_map.
  apply map_ext. intros k. unfold hr_after.
  rewrite Nat.iter_succ_r. reflexivity.
Qed.

Lemma observe_app l k : observe (l ++ k) = observe l ++ observe k.
Proof. apply omap_app. Qed.

Lemma last_sub_snoc hrm tr i :
  last_sub hrm (tr ++ [i]) =
  match sub_of hrm i with Some s => Some s | None => last_sub hrm tr end.
Proof.
  unfold last_sub. rewrite omap_app. cbn.
  destruct (sub_of hrm i); [apply last_snoc | by rewrite app_nil_r].
Qed.

Section Runs.
Context {H : Type} `{HostStackLaws H}.
Implicit Types (w : world H) (hrm : Z) (i : input) (tr : list input).

Lemma run_app hrm tr1 tr2 w :
  run hrm (tr1 ++ tr2) w = bind (run hrm tr1) (fun _ => run hrm tr2) w.
Proof.
  revert w. induction tr1 as [|i tr1 IH]; intros w; [reflexivity|].
  cbn -[step]. unfold bind in *.
  destruct (step hrm i w) as [[[] w1]|f]; [apply IH | reflexivity].
Qed.

Lemma run_snoc hrm tr i w w1 w2 :
  run hrm tr w = Ok (tt, w1) -> step hrm i w1 = Ok (tt, w2) ->
  run hrm (tr ++ [i]) w = Ok (tt, w2).
Proof.
  intros Hr Hs. rewrite run_app. unfold bind. rewrite Hr. cbn.
  unfold bind. rewrite Hs. reflexivity.
Qed.

Lemma reaches_run hrm w tr w' :
  reaches hrm w tr w' -> run hrm tr w = Ok (tt, w').
Proof. induction 1; [reflexivity | eauto using run_snoc]. Qed.

Lemma step_gap_inv hrm e w w' :
  step hrm (IGap e) w = Ok (tt, w') ->
  exists r, blehr_gap_event hrm e w = Ok (r, w').
Proof.
  unfold step, bind, ret.
  destruct (blehr_gap_event hrm e w) as [[r w1]|f]; [|discriminate].
  intros [= <-]. eauto.
Qed.

(** What one enabled step does to the subscription and the callout. *)
Lemma step_subscription hrm i w w' :
  hr_ok (app w) -> enabled w i = true -> step hrm i w = Ok (tt, w') ->
  hr_ok (app w') /\
  match sub_of hrm i with
  | Some (cur, c) =>
      notify_state (app w') = cur /\ notify_conn_handle (app w') = c
  | None =>
      callout_armed (host w') = false \/
      (notify_state (app w') = notify_state (app w) /\
       notify_conn_handle (app w') = notify_conn_handle (app w) /\
       callout_armed (host w') = callout_armed (host w))
  end.
Proof.
  intros Hhr Hen Hstep. destruct i as [|e|]; cbn [sub_of].
  - unfold step in Hstep. revert Hstep. rewrite blehr_on_sync_eq. cbn zeta.
    case_decide.
    + destruct (blehr_advertise_spec
        (World (set_blehr_addr_type BLE_OWN_ADDR_RANDOM (app w))
           (ble_hs_id_set_rnd blehr_rnd_addr (host w)).2))
        as (w1 & ? & ? & -> & Ha & Hc & _).
      intros [= <-]. rewrite Ha, Hc. cbn. autorewrite with host. auto.
    + intros [= <-]. cbn. autorewrite with host. auto.
  - apply step_gap_inv in Hstep as [r Hstep].
    destruct (ble_gap_event_cases e) as [He|[He|(a & cur & c & ->)]].
    + rewrite blehr_gap_event_readvertise_eq in Hstep by done.
      destruct (blehr_advertise_spec w) as (w1 & ? & ? & Hw & Ha & Hc & _).
      rewrite Hw in Hstep. injection Hstep as <- <-. rewrite Ha, Hc.
      destruct e; try discriminate; auto.
    + rewrite blehr_gap_event_ignored_eq in Hstep by done.
      injection Hstep as <- <-. destruct e; try discriminate; auto.
    + case_decide as Ha; [subst a|].
      * rewrite blehr_gap_event_subscribe_eq in Hstep. cbn zeta in Hstep.
        case_decide; [|done]. injection Hstep as <- <-. done.
      * rewrite blehr_gap_event_subscribe_other_eq in Hstep by done.
        injection Hstep as <- <-. cbn. autorewrite with host. auto.
  - unfold step in Hstep. cbn in Hen.
    destruct (notify_state (app w)) eqn:Hn.
    + rewrite (blehr_tx_hrate_beat_eq hrm w Hn Hhr) in Hstep.
      cbn zeta in Hstep. repeat case_decide; try discriminate.
      injection Hstep as <-. cbn. autorewrite with host.
      split; [apply hr_next_range, Hhr|]. right.
      case_decide; [|done]. rewrite Hen. done.
    + rewrite (blehr_tx_hrate_stale_eq hrm w Hn) in Hstep.
      injection Hstep as <-. cbn. autorewrite with host.
      split; [unfold hr_ok; cbn; lia | auto].
Qed.
Lemma step_hr_ok hrm i w w' :
  hr_ok (app w) -> step hrm i w = Ok (tt, w') -> hr_ok (app w').
Proof.
  intros Hhr Hstep. destruct i as [|e|].
  - apply blehr_on_sync_frame in Hstep as [t ->]. exact Hhr.
  - apply step_gap_inv in Hstep as [r Hstep].
    apply blehr_gap_event_frame in Hstep as (Hh & _).
    unfold hr_ok. rewrite Hh. exact Hhr.
  - eapply blehr_tx_hrate_frame; eauto.
Qed.

Lemma reaches_inv hrm w0 tr w :
  hr_ok (app w0) -> callout_armed (host w0) = false ->
  reaches hrm w0 tr w ->
  hr_ok (app w) /\ targets_subscriber hrm tr w.
Proof.
  intros Hhr0 Harm0. induction 1 as [|tr w1 i w2 _ [Hhr IH] Hen Hstep].
  { split; [done|]. intros Ha. congruence. }
  destruct (step_subscription hrm i w1 w2 Hhr Hen Hstep) as [Hhr2 Hsub].
  split; [done|]. unfold targets_subscriber. rewrite last_sub_snoc.
  destruct (sub_of hrm i) as [[cur c]|].
  - destruct Hsub as [<- <-]. by intros _ ->.
  - destruct Hsub as [->|(-> & -> & ->)]; [done | exact IH].
Qed.

(** C22: the simulated heart rate stays in the range [90, 160) along every
    run of callbacks, in whatever order the host invokes them. *)
Theorem run_hr_ok hrm tr w w' :
  hr_ok (app w) -> run hrm tr w = Ok (tt, w') -> hr_ok (app w').
Proof.
  revert w. induction tr as [|i tr IH]; intros w Hhr; cbn -[step].
  - intros [= <-]. exact Hhr.
  - unfold bind. destruct (step hrm i w) as [[[] w1]|f] eqn:Hs; [|done].
    apply IH. eapply step_hr_ok; eauto.
Qed.

Lemma step_wf hrm i w w' :
  blehr_wf (app w) -> input_wf i -> step hrm i w = Ok (tt, w') ->
  blehr_wf (app w').
Proof.
  intros Hwf Hi Hstep. destruct i as [|e|].
  - eauto using blehr_on_sync_wf.
  - apply step_gap_inv in Hstep as [r Hstep]. eauto using blehr_gap_event_wf.
  - eauto using blehr_tx_hrate_wf.
Qed.

(** The statics keep values of their C types.  On any host, whatever
    the heart rate and the subscription are, a run of callbacks whose events
    carry fields of their C types ends with [notify_conn_handle] a
    [uint16_t], [blehr_addr_type] and [heartrate] a [uint8_t] and
    [init_flag] an [int]: the integers of the model never leave the ranges
    of the variables they stand for. *)
Lemma run_wf hrm tr w w' :
  blehr_wf (app w) -> Forall input_wf tr -> run hrm tr w = Ok (tt, w') ->
  blehr_wf (app w').
Proof.
  intros Hwf Htr. revert w Hwf.
  induction Htr as [|i tr Hi _ IH]; intros w Hwf; cbn -[step].
  - by intros [= <-].
  - unfold bind. destruct (step hrm i w) as [[[] w1]|f] eqn:Hs; [|done].
    eauto using step_wf.
Qed.

(** C5: a tick sends at most one notification, and it sends it to the
    connection handle of the most recent subscribe event on the measurement
    characteristic, which announced a subscription. *)
Theorem notifications_go_to_subscriber hrm w0 tr w w' :
  hr_ok (app w0) -> callout_armed (host w0) = false ->
  reaches hrm w0 tr w -> enabled w ITick = true ->
  step hrm ITick w = Ok (tt, w') ->
  notifications (host_log (host w')) = notifications (host_log (host w)) \/
  exists c om,
    last_sub hrm tr = Some (true, c) /\
    notifications (host_log (host w')) =
    notifications (host_log (host w)) ++ [(c, hrm, om)].
Proof.
  intros Hhr0 Harm0 Hreach Hen Hstep.
  destruct (reaches_inv hrm w0 tr w Hhr0 Harm0 Hreach) as [Hhr Htgt].
  unfold step in Hstep. cbn in Hen. destruct (notify_state (app w)) eqn:Hn.
  - right. rewrite (blehr_tx_hrate_beat_eq hrm w Hn Hhr) in Hstep.
    cbn zeta in Hstep. repeat case_decide; try discriminate.
    injection Hstep as <-. cbn. autorewrite with host. cbn.
    rewrite ?app_nil_r. eauto.
  - left. rewrite (blehr_tx_hrate_stale_eq hrm w Hn) in Hstep.
    injection Hstep as <-. cbn. autorewrite with host. cbn.
    by rewrite ?app_nil_r.
Qed.

End Runs.

(** [solve_rel]: prove that statics represent a state of the
    specification, from the hypothesis that they represented the state
    before. *)
Ltac solve_rel :=
  repeat match goal with
  | HR : R _ ?s |- _ => unfold R, Rel in HR; destruct HR as (? & ? & ?)
  end;
  unfold Rel, hr_ok in *; cbn in *;
  repeat match goal with
  | Hx : context [sub ?s] |- _ => is_var s; destruct s; cbn in *
  | |- context [sub ?s] => is_var s; destruct s; cbn in *
  end;
  repeat match goal with
  | Hal : _ && _ = true |- _ => apply andb_true_iff in Hal as [? ?]
  | Hal : _ || _ = true |- _ => apply orb_true_iff in Hal as [?|?]
  | Hal : bool_decide _ = true |- _ => apply bool_decide_eq_true in Hal
  | Hal : negb _ = true |- _ => apply negb_true_iff in Hal
  end;
  repeat case_match; simplify_eq/=; try done;
  try (intuition (auto; try congruence; try lia)).

Section Refinement.
Context {H : Type} `{HostStackLaws H} `{!HostReliable H}.
Implicit Types (w : world H) (hrm : Z) (i : input) (tr : list input)
  (s : spec_state).

Lemma did_refines {A} (m : M (world H) A) w r a calls armed s' :
  did m w r a calls armed -> Rel a armed s' ->
  refines m w s' (observe calls).
Proof.
  intros (w' & Hm & <- & Hl & <- & Hr) HR. exists r, w'.
  rewrite Hl, observe_app. done.
Qed.

Lemma refines_step_gap hrm e w s' outs :
  refines (blehr_gap_event hrm e) w s' outs ->
  refines (step hrm (IGap e)) w s' outs.
Proof.
  intros (r & w' & Hm & Hw). exists tt, w'. split; [|done].
  unfold step, bind, ret. by rewrite Hm.
Qed.

Lemma sync_refines hrm w s :
  R w s -> reliable (host w) -> allowed hrm s ISync = true ->
  refines (step hrm ISync) w (spec_step hrm s ISync).1
    (spec_step hrm s ISync).2.
Proof.
  intros HR Hr Hal.
  eapply (did_refines _ _ _ _ _ _ _ (blehr_on_sync_did w Hr)). solve_rel.
Qed.

Lemma readvertise_refines hrm e w s :
  R w s -> reliable (host w) -> readvertises e = true ->
  allowed hrm s (IGap e) = true ->
  refines (step hrm (IGap e)) w (spec_step hrm s (IGap e)).1
    (spec_step hrm s (IGap e)).2.
Proof.
  intros HR Hr He Hal. apply refines_step_gap.
  pose proof (blehr_readvertise_did hrm e w Hr He) as Hd.
  assert (ph s <> Idle) as Hph
    by (destruct e; try done; cbn in Hal; destruct (ph s); done).
  rewrite (proj1 HR Hph) in Hd.
  destruct e as [st| | | | |]; try done; cbn in He |- *;
    rewrite ?(proj1 (negb_true_iff _) He);
    apply (did_refines _ _ _ _ _ _ _ Hd); solve_rel.
Qed.

Lemma ignored_refines hrm e w s :
  R w s -> reliable (host w) -> ignores e = true ->
  allowed hrm s (IGap e) = true ->
  refines (step hrm (IGap e)) w (spec_step hrm s (IGap e)).1
    (spec_step hrm s (IGap e)).2.
Proof.
  intros HR Hr He Hal. apply refines_step_gap.
  pose proof (blehr_ignored_did hrm e w Hr He) as Hd.
  destruct e as [st| | | | |]; try done; cbn in He |- *; rewrite ?He;
    apply (did_refines _ _ _ _ _ _ _ Hd); solve_rel.
Qed.

Lemma subscribe_refines hrm a cur c w s :
  R w s -> reliable (host w) ->
  allowed hrm s (IGap (BLE_GAP_EVENT_SUBSCRIBE a cur c)) = true ->
  refines (step hrm (IGap (BLE_GAP_EVENT_SUBSCRIBE a cur c))) w
    (spec_subscribe hrm s a cur c) [].
Proof.
  intros HR Hr Hal. apply refines_step_gap. unfold spec_subscribe.
  cbn in Hal. destruct (decide (a = hrm)) as [->|Ha].
  - apply (did_refines _ _ _ _ _ _ _ (blehr_subscribe_did hrm cur c w Hr)).
    destruct cur; solve_rel.
  - apply (did_refines _ _ _ _ _ _ _
             (blehr_subscribe_other_did hrm a cur c w Hr Ha)).
    solve_rel.
Qed.

Lemma tick_refines hrm w s :
  R w s -> reliable (host w) -> allowed hrm s ITick = true ->
  refines (step hrm ITick) w (spec_step hrm s ITick).1
    (spec_step hrm s ITick).2.
Proof.
  intros HR Hr Hal. unfold step. cbn. destruct (sub s) as [c|] eqn:Hs.
  - assert (notify_state (app w) = true /\ hr_ok (app w) /\
            notify_conn_handle (app w) = c /\ heartrate (app w) = value s)
      as (Hn & Hhr & <- & <-) by (clear Hal; solve_rel).
    apply (did_refines _ _ _ _ _ _ _
             (blehr_tx_hrate_beat_did hrm w Hr Hn Hhr)).
    pose proof (hr_next_range _ Hhr). clear Hal. solve_rel.
  - assert (notify_state (app w) = false) as Hn by solve_rel.
    apply (did_refines _ _ _ _ _ _ _
             (blehr_tx_hrate_stale_did hrm w Hr Hn)).
    solve_rel.
Qed.

Lemma step_refines hrm i w s :
  R w s -> reliable (host w) -> allowed hrm s i = true ->
  refines (step hrm i) w (spec_step hrm s i).1 (spec_step hrm s i).2.
Proof.
  intros HR Hr Hal. destruct i as [|e|].
  - by apply sync_refines.
  - destruct (ble_gap_event_cases e) as [He|[He|(a & cur & c & ->)]].
    + by apply readvertise_refines.
    + by apply ignored_refines.
    + by apply subscribe_refines.
  - by apply tick_refines.
Qed.

Lemma run_refines hrm tr w s :
  R w s -> reliable (host w) -> env_ok hrm s tr = true ->
  exists w',
    run hrm tr w = Ok (tt, w') /\ R w' (spec_run hrm s tr).1 /\
    reliable (host w') /\
    observe (host_log (host w')) =
    observe (host_log (host w)) ++ (spec_run hrm s tr).2.
Proof.
  revert w s. induction tr as [|i tr IH]; intros w s HR Hr Hok.
  { exists w. cbn. rewrite app_nil_r. done. }
  cbn in Hok. apply andb_true_iff in Hok as [Hal Hok].
  destruct (step_refines hrm i w s HR Hr Hal) as ([] & w1 & Hs & HR1 & Hr1 & Ho1).
  destruct (IH w1 _ HR1 Hr1 Hok) as (w' & Hrun & HR' & Hr' & Ho').
  exists w'. cbn -[step]. unfold bind. rewrite Hs, Ho', Ho1, app_assoc. done.
Qed.

Lemma did_step_gap hrm e w r a calls armed :
  did (blehr_gap_event hrm e) w r a calls armed ->
  did (step hrm (IGap e)) w tt a calls armed.
Proof.
  intros (w' & Hm & Hw). exists w'. split; [|done].
  unfold step, bind, ret. by rewrite Hm.
Qed.

(** A run whose first step [did] its work continues from any world that
    step may have left. *)
Lemma run_cons_did hrm i tr w a c b (P : world H -> Prop) :
  did (step hrm i) w tt a c b ->
  (forall w1, app w1 = a -> host_log (host w1) = host_log (host w) ++ c ->
      callout_armed (host w1) = b -> reliable (host w1) ->
      exists w', run hrm tr w1 = Ok (tt, w') /\ P w') ->
  exists w', run hrm (i :: tr) w = Ok (tt, w') /\ P w'.
Proof.
  intros (w1 & Hm & Ha & Hl & Hc & Hr) Hk.
  destruct (Hk w1 Ha Hl Hc Hr) as (w' & Hk' & HP).
  exists w'. cbn -[step]. unfold bind. by rewrite Hm.
Qed.

Lemma run_nil_did hrm w (P : world H -> Prop) :
  P w -> exists w', run hrm [] w = Ok (tt, w') /\ P w'.
Proof. eauto. Qed.

End Refinement.

(** [run_did l]: run the next step of the goal with the lemma [l]. *)
Ltac run_did l :=
  eapply run_cons_did;
  [ first [exact l | exact (did_step_gap _ _ _ _ _ _ _ l)] |];
  let w1 := fresh "w" in
  let Ha := fresh "Ha" in
  let Hl := fresh "Hl" in
  let Hc := fresh "Hc" in
  let Hr := fresh "Hr" in
  intros w1 Ha Hl Hc Hr.

Section Scenarios.
Context {H : Type} `{HostStackLaws H} `{!HostReliable H}.
Implicit Types (w : world H) (hrm : Z) (i : input) (tr : list input)
  (s : spec_state).

Lemma set_heartrate_same a : set_heartrate (heartrate a) a = a.
Proof. by destruct a. Qed.

Lemma run_ticks hrm n w :
  reliable (host w) -> notify_state (app w) = true -> hr_ok (app w) ->
  exists w',
    run hrm (replicate n ITick) w = Ok (tt, w') /\
    app w' = set_heartrate (hr_after n (heartrate (app w))) (app w) /\
    reliable (host w') /\
    notifications (host_log (host w')) =
    notifications (host_log (host w)) ++
    beats hrm (notify_conn_handle (app w)) (heartrate (app w)) n.
Proof.
  revert w. induction n as [|n IH]; intros w Hr Hn Hhr.
  { exists w. cbn. by rewrite set_heartrate_same, app_nil_r. }
  destruct (blehr_tx_hrate_beat_did hrm w Hr Hn Hhr)
    as (w1 & Hs & Ha & Hl & _ & Hr1).
  destruct (IH w1) as (w' & Hrun & Ha' & Hr' & Hl');
    [done | by rewrite Ha | rewrite Ha; by apply hr_next_range |].
  exists w'.
  change (run hrm (replicate (S n) ITick) w)
    with (bind (step hrm ITick) (fun _ => run hrm (replicate n ITick)) w).
  unfold bind, step. rewrite Hs. split; [done|].
  rewrite Ha', Hl', Hl, Ha, beats_S. cbn [heartrate set_heartrate].
  unfold hr_after. rewrite Nat.iter_succ_r. unfold notified.
  autorewrite with host. cbn. by rewrite <- app_assoc.
Qed.

(** C27: while the subscription is active, [n] ticks send [n]
    notifications to the subscriber; the [k]-th carries the heart rate
    90 + (hr - 90 + k) mod 70, where [hr] is the heart rate at the start. *)
Theorem ticks_notify_in_sequence hrm n w :
  reliable (host w) -> notify_state (app w) = true -> hr_ok (app w) ->
  exists w',
    run hrm (replicate n ITick) w = Ok (tt, w') /\
    notifications (host_log (host w')) =
    notifications (host_log (host w)) ++
    map (fun k => (notify_conn_handle (app w), hrm,
                   Some [6; 90 + (heartrate (app w) - 90 + Z.of_nat k) mod 70]))
        (seq 0 n).
Proof.
  intros Hr Hn Hhr.
  destruct (run_ticks hrm n w Hr Hn Hhr) as (w' & Hrun & _ & _ & Hl).
  exists w'. split; [done|]. rewrite Hl. f_equal. unfold beats.
  apply map_ext. intros k. by rewrite hr_after_mod.
Qed.

(** C23: from heart rate 90, seventy ticks deliver 90, 91, ..., 159 and
    the seventy-first delivers 90 again. *)
Theorem heart_rate_wraps_after_70_ticks hrm w :
  reliable (host w) -> notify_state (app w) = true ->
  heartrate (app w) = 90 ->
  exists w',
    run hrm (replicate 71 ITick) w = Ok (tt, w') /\
    notifications (host_log (host w')) =
    notifications (host_log (host w)) ++
    map (fun v => (notify_conn_handle (app w), hrm, Some [6; v]))
        (seqZ 90 70 ++ [90]).
Proof.
  intros Hr Hn Hhr.
  destruct (run_ticks hrm 71 w Hr Hn) as (w' & Hrun & _ & _ & Hl).
  { unfold hr_ok. lia. }
  exists w'. split; [done|]. rewrite Hl, Hhr. reflexivity.
Qed.

(** C1: refinement, from power-on.  On a host that accepts every request,
    after [ble_hr] every sequence of callbacks that the specification's
    environment allows runs without a failed assertion, ends in statics that
    represent the state of the specification's machine, and shows its
    environment exactly the outputs of that machine: the address set, the
    advertising started, the notifications sent, in order. *)
Theorem blehr_refines_spec hrm tr h :
  reliable h -> env_ok hrm spec_init tr = true ->
  exists w',
    bind ble_hr (fun _ => run hrm tr) (World blehr_init h) = Ok (tt, w') /\
    R w' (spec_run hrm spec_init tr).1 /\
    observe (host_log (host w')) =
    observe (host_log h) ++ (spec_run hrm spec_init tr).2.
Proof.
  intros Hr Hok.
  destruct (ble_hr_first_did (World blehr_init h) Hr eq_refl)
    as (rc & w1 & Hinit & Ha & Hl & Hc & Hr1).
  destruct (run_refines hrm tr w1 spec_init) as (w' & Hrun & HR & _ & Ho);
    [unfold R; rewrite Ha, Hc; solve_rel | done..|].
  exists w'. unfold bind. rewrite Hinit, Ho, Hl, observe_app. cbn.
  by rewrite app_nil_r.
Qed.

Lemma session_spec hrm c :
  env_ok hrm spec_init (session hrm c) = true /\
  spec_run hrm spec_init (session hrm c) =
  ({| ph := Advertising; sub := None; value := 90; stale := false |},
   [OSetAddr blehr_rnd_addr; OAdvertise BLE_OWN_ADDR_RANDOM;
    ONotify c hrm [6; 90]; ONotify c hrm [6; 91];
    OAdvertise BLE_OWN_ADDR_RANDOM]).
Proof.
  unfold session. cbn. unfold spec_subscribe. rewrite !decide_True by done.
  cbn. done.
Qed.

(** The end-to-end session: connect, subscribe, two ticks,
    unsubscribe, the queued tick, disconnect.  The central receives
    [0x06; 90] and [0x06; 91] and nothing after it unsubscribed; the
    peripheral advertises again after the disconnection, with the heart rate
    back at 90 and the callout stopped. *)
Lemma end_to_end_session hrm c w :
  R w spec_init -> reliable (host w) ->
  exists w',
    run hrm (session hrm c) w = Ok (tt, w') /\
    observe (host_log (host w')) =
    observe (host_log (host w)) ++
    [OSetAddr blehr_rnd_addr; OAdvertise BLE_OWN_ADDR_RANDOM;
     ONotify c hrm [6; 90]; ONotify c hrm [6; 91];
     OAdvertise BLE_OWN_ADDR_RANDOM] /\
    heartrate (app w') = 90 /\ callout_armed (host w') = false.
Proof.
  intros HR Hr. destruct (session_spec hrm c) as [Hok Hspec].
  destruct (run_refines hrm _ w spec_init HR Hr Hok)
    as (w' & Hrun & HR' & _ & Ho).
  rewrite Hspec in HR', Ho. exists w'.
  split; [exact Hrun|]. split; [exact Ho|]. clear Hrun Ho Hok Hspec.
  solve_rel.
Qed.

(** C30: a disconnection alone clears nothing: if the subscription flag is
    still set when it arrives, the next tick notifies the old connection
    handle, where the specification's machine sends nothing. *)
Theorem disconnect_keeps_notifying hrm reason w :
  reliable (host w) -> notify_state (app w) = true -> hr_ok (app w) ->
  let tr := [IGap (BLE_GAP_EVENT_DISCONNECT reason); ITick] in
  (exists w',
     run hrm tr w = Ok (tt, w') /\
     notifications (host_log (host w')) =
     notifications (host_log (host w)) ++
     [(notify_conn_handle (app w), hrm, Some [6; heartrate (app w)])]) /\
  forall s, (spec_run hrm s tr).2 = [OAdvertise BLE_OWN_ADDR_RANDOM].
Proof.
  intros Hr Hn Hhr tr. split; [|intros s; cbn; by destruct (sub s)].
  run_did (blehr_readvertise_did hrm (BLE_GAP_EVENT_DISCONNECT reason) w Hr eq_refl).
  assert (notify_state (app w0) = true /\ hr_ok (app w0)) as [Hn0 Hhr0]
    by (by rewrite Ha).
  run_did (blehr_tx_hrate_beat_did hrm w0 Hr0 Hn0 Hhr0).
  apply run_nil_did. rewrite Hl0, Hl, Ha. unfold notified, advertised.
  autorewrite with host. cbn. by autorewrite with host.
Qed.

(** C33: no reset on disconnect.  After a session that left the heart rate
    at some value, a disconnection followed by a new connection and a new
    subscription continues from that value, where the specification's
    machine restarts every session at 90. *)
Theorem reconnect_keeps_heart_rate hrm reason c w :
  reliable (host w) -> notify_state (app w) = true -> hr_ok (app w) ->
  let tr := [IGap (BLE_GAP_EVENT_DISCONNECT reason);
             IGap (BLE_GAP_EVENT_CONNECT 0);
             IGap (BLE_GAP_EVENT_SUBSCRIBE hrm true c); ITick] in
  (exists w',
     run hrm tr w = Ok (tt, w') /\
     notifications (host_log (host w')) =
     notifications (host_log (host w)) ++
     [(c, hrm, Some [6; heartrate (app w)])]) /\
  forall s, (spec_run hrm s tr).2 =
            [OAdvertise BLE_OWN_ADDR_RANDOM; ONotify c hrm [6; 90]].
Proof.
  intros Hr Hn Hhr tr. split.
  - run_did (blehr_readvertise_did hrm (BLE_GAP_EVENT_DISCONNECT reason) w
               Hr eq_refl).
    run_did (blehr_ignored_did hrm (BLE_GAP_EVENT_CONNECT 0) w0 Hr0 eq_refl).
    run_did (blehr_subscribe_did hrm true c w1 Hr1).
    assert (notify_state (app w2) = true /\ hr_ok (app w2)) as [Hn2 Hhr2]
      by (by rewrite Ha1, Ha0, Ha).
    run_did (blehr_tx_hrate_beat_did hrm w2 Hr2 Hn2 Hhr2).
    apply run_nil_did. rewrite Hl2, Hl1, Hl0, Hl, Ha1, Ha0, Ha.
    unfold notified, advertised. autorewrite with host. cbn.
    by autorewrite with host.
  - intros s. unfold tr. cbn. unfold spec_subscribe.
    rewrite decide_True by done. by destruct (sub s).
Qed.

(** The heart rate is reset by the tick that follows an unsubscribe,
    not by the unsubscribe: a central that subscribes again before that tick
    is sent the old heart rate, where the specification's machine restarts
    at 90. *)
Lemma resubscribe_keeps_heart_rate hrm c w :
  reliable (host w) -> hr_ok (app w) ->
  let tr := [IGap (BLE_GAP_EVENT_SUBSCRIBE hrm false c);
             IGap (BLE_GAP_EVENT_SUBSCRIBE hrm true c); ITick] in
  (exists w',
     run hrm tr w = Ok (tt, w') /\
     notifications (host_log (host w')) =
     notifications (host_log (host w)) ++
     [(c, hrm, Some [6; heartrate (app w)])]) /\
  forall s, (spec_run hrm s tr).2 = [ONotify c hrm [6; 90]].
Proof.
  intros Hr Hhr tr. split.
  2: { intros s. cbn. unfold spec_subscribe. by rewrite !decide_True. }
  run_did (blehr_subscribe_did hrm false c w Hr).
  run_did (blehr_subscribe_did hrm true c w0 Hr0).
  assert (notify_state (app w1) = true /\ hr_ok (app w1)) as [Hn1 Hhr1]
    by (by rewrite Ha0, Ha).
  run_did (blehr_tx_hrate_beat_did hrm w1 Hr1 Hn1 Hhr1).
  apply run_nil_did. rewrite Hl1, Hl0, Hl, Ha0, Ha. unfold notified.
  autorewrite with host. cbn. by autorewrite with host.
Qed.

(** A subscribe event on another characteristic that announces a
    subscription leaves the flag set with connection handle 0: a tick that
    was already queued then notifies connection handle 0. *)
Lemma queued_tick_notifies_handle_0 hrm a c w :
  a <> hrm -> reliable (host w) -> hr_ok (app w) ->
  exists w',
    run hrm [IGap (BLE_GAP_EVENT_SUBSCRIBE a true c); ITick] w = Ok (tt, w') /\
    notifications (host_log (host w')) =
    notifications (host_log (host w)) ++
    [(0, hrm, Some [6; heartrate (app w)])].
Proof.
  intros Hne Hr Hhr.
  run_did (blehr_subscribe_other_did hrm a true c w Hr Hne).
  assert (notify_state (app w0) = true /\ hr_ok (app w0)) as [Hn0 Hhr0]
    by (by rewrite Ha).
  run_did (blehr_tx_hrate_beat_did hrm w0 Hr0 Hn0 Hhr0).
  apply run_nil_did. rewrite Hl0, Hl, Ha. unfold notified.
  autorewrite with host. cbn. by autorewrite with host.
Qed.

End Scenarios.

(** ** The theorems at concrete worlds

    Runs on the scripted host [ref_host] with an empty script (every request
    accepted), measurement handle 3, connection handle 1. *)

Definition w_on : world ref_host :=
  Eval vm_compute in
    final (step 3 (IGap (BLE_GAP_EVENT_SUBSCRIBE 3 true 1))) (w_start []).

Definition w_on_tick : world ref_host :=
  Eval vm_compute in final (step 3 ITick) w_on.

Lemma run_hr_ok_witness : hr_ok (app w_on_tick).
Proof.
  apply (run_hr_ok 3 [IGap (BLE_GAP_EVENT_SUBSCRIBE 3 true 1); ITick]
           (w_start []) w_on_tick); [unfold hr_ok; cbn; lia | reflexivity].
Defined.

Lemma run_wf_witness : blehr_wf (app w_on_tick).
Proof.
  apply (run_wf 3 [IGap (BLE_GAP_EVENT_SUBSCRIBE 3 true 1); ITick]
           (w_start []) w_on_tick); [solve_wf | | reflexivity].
  repeat constructor; solve_wf.
Defined.

Lemma notifications_go_to_subscriber_witness :
  notifications (host_log (host w_on_tick)) =
  notifications (host_log (host w_on)) \/
  exists c om,
    last_sub 3 ([] ++ [IGap (BLE_GAP_EVENT_SUBSCRIBE 3 true 1)]) =
    Some (true, c) /\
    notifications (host_log (host w_on_tick)) =
    notifications (host_log (host w_on)) ++ [(c, 3, om)].
Proof.
  apply (notifications_go_to_subscriber 3 (w_start []) _ w_on w_on_tick);
    [unfold hr_ok; cbn; lia | reflexivity | | reflexivity | reflexivity].
  apply (reaches_snoc 3 _ [] (w_start [])); [constructor | done..].
Defined.

Lemma ticks_notify_in_sequence_witness :
  exists w',
    run 3 (replicate 3 ITick) (w_subscribed 158 1 []) = Ok (tt, w') /\
    notifications (host_log (host w')) =
    [] ++ map (fun k => (1, 3, Some [6; 90 + (158 - 90 + Z.of_nat k) mod 70]))
            (seq 0 3).
Proof.
  assert (hr_ok (app (w_subscribed 158 1 []))) as Hhr
    by (unfold hr_ok; cbn; lia).
  exact (ticks_notify_in_sequence 3 3 (w_subscribed 158 1 [])
           eq_refl eq_refl Hhr).
Defined.

Lemma heart_rate_wraps_after_70_ticks_witness :
  exists w',
    run 3 (replicate 71 ITick) (w_subscribed 90 1 []) = Ok (tt, w') /\
    notifications (host_log (host w')) =
    [] ++ map (fun v => (1, 3, Some [6; v])) (seqZ 90 70 ++ [90]).
Proof.
  exact (heart_rate_wraps_after_70_ticks 3 (w_subscribed 90 1 [])
           eq_refl eq_refl eq_refl).
Defined.

Lemma blehr_refines_spec_witness :
  exists w',
    bind ble_hr (fun _ => run 3 (session 3 1)) (w_start []) = Ok (tt, w') /\
    R w' (spec_run 3 spec_init (session 3 1)).1 /\
    observe (host_log (host w')) =
    observe [] ++ (spec_run 3 spec_init (session 3 1)).2.
Proof.
  exact (blehr_refines_spec 3 (session 3 1) (rh_init []) eq_refl eq_refl).
Defined.

Lemma end_to_end_session_witness :
  exists w',
    run 3 (session 3 1) w_init1 = Ok (tt, w') /\
    observe (host_log (host w')) =
    observe (host_log (host w_init1)) ++
    [OSetAddr blehr_rnd_addr; OAdvertise BLE_OWN_ADDR_RANDOM;
     ONotify 1 3 [6; 90]; ONotify 1 3 [6; 91];
     OAdvertise BLE_OWN_ADDR_RANDOM] /\
    heartrate (app w') = 90 /\ callout_armed (host w') = false.
Proof.
  assert (R w_init1 spec_init) as HR
    by (unfold R, Rel; cbn; intuition congruence).
  exact (end_to_end_session 3 1 w_init1 HR eq_refl).
Defined.

Lemma disconnect_keeps_notifying_witness :
  let tr := [IGap (BLE_GAP_EVENT_DISCONNECT 19); ITick] in
  (exists w',
     run 3 tr (w_subscribed 105 1 []) = Ok (tt, w') /\
     notifications (host_log (host w')) = [] ++ [(1, 3, Some [6; 105])]) /\
  forall s, (spec_run 3 s tr).2 = [OAdvertise BLE_OWN_ADDR_RANDOM].
Proof.
  assert (hr_ok (app (w_subscribed 105 1 []))) as Hhr
    by (unfold hr_ok; cbn; lia).
  exact (disconnect_keeps_notifying 3 19 (w_subscribed 105 1 [])
           eq_refl eq_refl Hhr).
Defined.

Lemma resubscribe_keeps_heart_rate_witness :
  let tr := [IGap (BLE_GAP_EVENT_SUBSCRIBE 3 false 1);
             IGap (BLE_GAP_EVENT_SUBSCRIBE 3 true 1); ITick] in
  (exists w',
     run 3 tr (w_subscribed 105 1 []) = Ok (tt, w') /\
     notifications (host_log (host w')) = [] ++ [(1, 3, Some [6; 105])]) /\
  forall s, (spec_run 3 s tr).2 = [ONotify 1 3 [6; 90]].
Proof.
  assert (hr_ok (app (w_subscribed 105 1 []))) as Hhr
    by (unfold hr_ok; cbn; lia).
  exact (resubscribe_keeps_heart_rate 3 1 (w_subscribed 105 1 [])
           eq_refl Hhr).
Defined.

Lemma queued_tick_notifies_handle_0_witness :
  exists w',
    run 3 [IGap (BLE_GAP_EVENT_SUBSCRIBE 8 true 1); ITick]
      (w_subscribed 105 1 []) = Ok (tt, w') /\
    notifications (host_log (host w')) = [] ++ [(0, 3, Some [6; 105])].
Proof.
  assert (hr_ok (app (w_subscribed 105 1 []))) as Hhr
    by (unfold hr_ok; cbn; lia).
  assert (8 <> 3) as Hne by lia.
  exact (queued_tick_notifies_handle_0 3 8 1 (w_subscribed 105 1 [])
           Hne eq_refl Hhr).
Defined.

Lemma reconnect_keeps_heart_rate_witness :
  let tr := [IGap (BLE_GAP_EVENT_DISCONNECT 19);
             IGap (BLE_GAP_EVENT_CONNECT 0);
             IGap (BLE_GAP_EVENT_SUBSCRIBE 3 true 2); ITick] in
  (exists w',
     run 3 tr (w_subscribed 105 1 []) = Ok (tt, w') /\
     notifications (host_log (host w')) = [] ++ [(2, 3, Some [6; 105])]) /\
  forall s, (spec_run 3 s tr).2 =
            [OAdvertise BLE_OWN_ADDR_RANDOM; ONotify 2 3 [6; 90]].
Proof.
  assert (hr_ok (app (w_subscribed 105 1 []))) as Hhr
    by (unfold hr_ok; cbn; lia).
  exact (reconnect_keeps_heart_rate 3 19 2 (w_subscribed 105 1 [])
           eq_refl eq_refl Hhr).
Defined.
