(* ===== verification/HciH4.v ===== *)
(** * HciH4: the H4 framing of HCI packets on a UART

    The transport includes <nimble/transport/hci_h4.h> and calls
    [hci_h4_sm_init] and [hci_h4_sm_rx]; the decoder itself is not among the
    modelled sources.  This file models it from the specification and from
    the packet formats of the HCI UART transport layer:

    - a packet on the wire is one type octet followed by the packet;
    - a command has a header of 3 octets (opcode, parameter length), an
      event a header of 2 (event code, parameter length), an ACL data packet
      a header of 4 (handle and flags, data length in 2 octets, little
      endian); the header fixes how many octets follow;
    - the decoder is fed octets in chunks of any size and hands every
      completed packet to a callback; an unknown type octet is fatal.

    [h4_byte] is the decoder's step on one octet, [h4_feed] its run on a
    chunk, as pure functions; [hci_h4_sm_rx] runs the same step inside the
    state monad of a client and calls the client's callback on each
    completed packet.  The return code of the callback is not inspected. *)

From Stdlib Require Import ZArith Lia String.
From stdpp Require Import base tactics option list numbers strings.
From S2P Require Import Prelude.

#[local] Open Scope Z_scope.
#[local] Open Scope nimble_scope.

(** ** Packets *)

Definition HCI_H4_CMD : Z := 0x01.
Definition HCI_H4_ACL : Z := 0x02.
Definition HCI_H4_EVT : Z := 0x04.

(** A packet: its type octet and its octets, header included. *)
Definition frame : Type := Z * list Z.

(** Length of the header of a packet of type [t]. *)
Definition h4_hdr_len (t : Z) : option nat :=
  if decide (t = HCI_H4_CMD) then Some 3%nat
  else if decide (t = HCI_H4_ACL) then Some 4%nat
  else if decide (t = HCI_H4_EVT) then Some 2%nat
  else None.

(** The length field of a header: how many octets follow the header. *)
Definition h4_body_len (t : Z) (hdr : list Z) : Z :=
  if decide (t = HCI_H4_CMD) then hdr !!! 2%nat
  else if decide (t = HCI_H4_ACL) then hdr !!! 2%nat + 256 * hdr !!! 3%nat
  else hdr !!! 1%nat.

Definition h4_total_len (t : Z) (hdr : list Z) : nat :=
  (length hdr + Z.to_nat (h4_body_len t hdr))%nat.

(** A packet whose length agrees with the length field of its header. *)
Definition valid_frame (f : frame) : Prop :=
  match h4_hdr_len f.1 with
  | Some h => (h <= length f.2)%nat /\
              h4_total_len f.1 (take h f.2) = length f.2
  | None => False
  end.

#[export] Instance valid_frame_dec f : Decision (valid_frame f).
Proof. unfold valid_frame. destruct (h4_hdr_len f.1); apply _. Defined.

Definition h4_encode (f : frame) : list Z := f.1 :: f.2.

(** The octets of a sequence of packets sent back to back. *)
Definition h4_stream (fs : list frame) : list Z := concat (h4_encode <$> fs).

(** ** The decoder *)

Inductive hci_h4_sm : Type :=
| W4_PKT_TYPE
| W4_HEADER (t : Z) (got : list Z)
| W4_PAYLOAD (t : Z) (got : list Z) (total : nat).

#[export] Instance hci_h4_sm_eq_dec : EqDecision hci_h4_sm.
Proof. solve_decision. Defined.

Definition hci_h4_sm_init : hci_h4_sm := W4_PKT_TYPE.

(** With [got] collected of a packet of [total] octets: deliver it, or wait
    for more. *)
Definition h4_collected (t : Z) (got : list Z) (total : nat) :
    hci_h4_sm * option frame :=
  if decide (length got = total) then (W4_PKT_TYPE, Some (t, got))
  else (W4_PAYLOAD t got total, None).

(** One octet.  [None]: the octet is not a packet type. *)
Definition h4_byte (sm : hci_h4_sm) (b : Z) :
    option (hci_h4_sm * option frame) :=
  match sm with
  | W4_PKT_TYPE => _ ← h4_hdr_len b; Some (W4_HEADER b [], None)
  | W4_HEADER t got =>
      h ← h4_hdr_len t;
      let got' := got ++ [b] in
      if decide (length got' = h)
      then Some (h4_collected t got' (h4_total_len t got'))
      else Some (W4_HEADER t got', None)
  | W4_PAYLOAD t got total => Some (h4_collected t (got ++ [b]) total)
  end.

(** A chunk: the state after it and the packets it completed, in order. *)
Fixpoint h4_feed (sm : hci_h4_sm) (buf : list Z) :
    option (hci_h4_sm * list frame) :=
  match buf with
  | [] => Some (sm, [])
  | b :: buf =>
      r ← h4_byte sm b;
      r' ← h4_feed r.1 buf;
      Some (r'.1, option_list r.2 ++ r'.2)
  end.

(** Chunk after chunk. *)
Fixpoint h4_feed_chunks (sm : hci_h4_sm) (chunks : list (list Z)) :
    option (hci_h4_sm * list frame) :=
  match chunks with
  | [] => Some (sm, [])
  | c :: chunks =>
      r ← h4_feed sm c;
      r' ← h4_feed_chunks r.1 chunks;
      Some (r'.1, r.2 ++ r'.2)
  end.

(** The states a decoder started at [hci_h4_sm_init] can be in: the packet
    in progress has a known type, fewer octets than it needs, and, once its
    header is complete, the length its header gives. *)
Definition sm_wf (sm : hci_h4_sm) : Prop :=
  match sm with
  | W4_PKT_TYPE => True
  | W4_HEADER t got => exists h, h4_hdr_len t = Some h /\ (length got < h)%nat
  | W4_PAYLOAD t got total =>
      exists h, h4_hdr_len t = Some h /\ (h <= length got < total)%nat /\
                total = h4_total_len t (take h got)
  end.

(** The octets of the packet in progress, type octet included. *)
Definition sm_pending (sm : hci_h4_sm) : list Z :=
  match sm with
  | W4_PKT_TYPE => []
  | W4_HEADER t got | W4_PAYLOAD t got _ => t :: got
  end.

Definition assert_pkt_type : fault := AssertFail "hci_h4: unknown packet type".

Section Rx.
Context {S : Type}.
Variable get_sm : S -> hci_h4_sm.
Variable set_sm : hci_h4_sm -> S -> S.
Variable frame_cb : Z -> list Z -> M S Z.

(** [hci_h4_sm_rx(&sm, buf, len)], with [buf] the [len] octets. *)
Fixpoint hci_h4_sm_rx (buf : list Z) : M S unit :=
  match buf with
  | [] => ret tt
  | b :: buf =>
      sm <- gets get_sm ;;
      match h4_byte sm b with
      | None => abort assert_pkt_type
      | Some (sm', o) =>
          modify (set_sm sm') ;;
          match o with
          | Some f => _ <- frame_cb f.1 f.2 ;; hci_h4_sm_rx buf
          | None => hci_h4_sm_rx buf
          end
      end
  end.

End Rx.

(** ** Facts *)

Lemma h4_hdr_len_pos t h : h4_hdr_len t = Some h -> (0 < h)%nat.
Proof. unfold h4_hdr_len. repeat case_decide; naive_solver lia. Qed.

Lemma h4_body_len_cmd hdr : h4_body_len HCI_H4_CMD hdr = hdr !!! 2%nat.
Proof. reflexivity. Qed.

Lemma h4_feed_app sm a b :
  h4_feed sm (a ++ b) =
  r ← h4_feed sm a; r' ← h4_feed r.1 b; Some (r'.1, r.2 ++ r'.2).
Proof.
  revert sm. induction a as [|x a IH]; intros sm; cbn.
  - by destruct (h4_feed sm b) as [[]|].
  - destruct (h4_byte sm x) as [[sm1 o]|]; cbn; [|done]. rewrite IH.
    destruct (h4_feed sm1 a) as [[sm2 fs]|]; cbn; [|done].
    destruct (h4_feed sm2 b) as [[sm3 fs']|]; cbn; [|done].
    by rewrite app_assoc.
Qed.

Lemma h4_feed_app_inv sm a b sm' fs :
  h4_feed sm (a ++ b) = Some (sm', fs) ->
  exists sm1 f1 f2,
    h4_feed sm a = Some (sm1, f1) /\ h4_feed sm1 b = Some (sm', f2) /\
    fs = f1 ++ f2.
Proof.
  rewrite h4_feed_app. destruct (h4_feed sm a) as [[sm1 f1]|]; [|done]. cbn.
  destruct (h4_feed sm1 b) as [[sm2 f2]|] eqn:Hb; [|done]. cbn.
  intros [= <- <-]. by exists sm1, f1, f2.
Qed.

(** Chunk boundaries do not matter. *)
Lemma h4_feed_chunks_concat sm chunks :
  h4_feed_chunks sm chunks = h4_feed sm (concat chunks).
Proof.
  revert sm. induction chunks as [|c chunks IH]; intros sm; cbn; [done|].
  rewrite h4_feed_app. destruct (h4_feed sm c) as [[sm1 fs]|]; cbn; [|done].
  by rewrite IH.
Qed.

(** Nor do they to the decoder run inside a client: a chunk in two parts
    is the two parts one after the other. *)
Lemma hci_h4_sm_rx_app {S} (get_sm : S -> hci_h4_sm) set_sm frame_cb a b s :
  hci_h4_sm_rx get_sm set_sm frame_cb (a ++ b) s =
  (hci_h4_sm_rx get_sm set_sm frame_cb a ;;
   hci_h4_sm_rx get_sm set_sm frame_cb b) s.
Proof.
  revert s. induction a as [|x a IH]; intros s; [done|].
  cbn [hci_h4_sm_rx app]. unfold_m.
  destruct (h4_byte (get_sm s) x) as [[sm' [f|]]|]; [|apply IH|done].
  destruct (frame_cb f.1 f.2 _) as [[rc s']|e]; [apply IH|done].
Qed.

Lemma h4_feed_payload t total rest got :
  rest <> [] -> (length got + length rest)%nat = total ->
  h4_feed (W4_PAYLOAD t got total) rest = Some (W4_PKT_TYPE, [(t, got ++ rest)]).
Proof.
  revert got. induction rest as [|b rest IH]; intros got Hne Hlen; [done|].
  cbn in *. unfold h4_collected. rewrite length_app. cbn.
  destruct rest as [|b' rest].
  - rewrite decide_True by (cbn in *; lia). done.
  - rewrite decide_False by (cbn in *; lia).
    cbn [fst snd mbind option_bind].
    rewrite IH; [by rewrite <- app_assoc | done | rewrite length_app; cbn in *; lia].
Qed.

Lemma h4_feed_header t h rest got :
  h4_hdr_len t = Some h -> (length got < h)%nat ->
  (h <= length (got ++ rest))%nat ->
  h4_total_len t (take h (got ++ rest)) = length (got ++ rest) ->
  h4_feed (W4_HEADER t got) rest = Some (W4_PKT_TYPE, [(t, got ++ rest)]).
Proof.
  intros Hh. revert got. induction rest as [|b rest IH]; intros got Hlt Hle Htot.
  { rewrite app_nil_r in Hle. lia. }
  cbn. rewrite Hh. cbn.
  replace (got ++ b :: rest) with ((got ++ [b]) ++ rest) in *
    by (by rewrite <- app_assoc).
  assert (length (got ++ [b]) = S (length got)) as Hl
    by (rewrite length_app; cbn; lia).
  case_decide as Hd.
  - rewrite take_app_length' in Htot by done. rewrite Htot.
    unfold h4_collected. destruct rest as [|b' rest].
    + rewrite app_nil_r, decide_True by done. done.
    + rewrite decide_False by (rewrite !length_app; cbn; lia).
      cbn [fst snd mbind option_bind].
      by rewrite h4_feed_payload by (done || by rewrite !length_app).
  - cbn [fst snd mbind option_bind]. rewrite IH; [done | lia | done..].
Qed.

(** Round trip of one packet. *)
Lemma h4_feed_encode f :
  valid_frame f -> h4_feed W4_PKT_TYPE (h4_encode f) = Some (W4_PKT_TYPE, [f]).
Proof.
  destruct f as [t p]. unfold valid_frame. cbn.
  destruct (h4_hdr_len t) as [h|] eqn:Hh; [|done]. intros [Hle Htot]. cbn.
  rewrite (h4_feed_header t h p []); eauto using h4_hdr_len_pos.
Qed.

(** Streams of packets. *)
Lemma h4_stream_cons f fs : h4_stream (f :: fs) = h4_encode f ++ h4_stream fs.
Proof. reflexivity. Qed.

Lemma h4_stream_app fs gs : h4_stream (fs ++ gs) = h4_stream fs ++ h4_stream gs.
Proof. unfold h4_stream. by rewrite fmap_app, concat_app. Qed.

(** Round trip of a sequence of packets sent back to back. *)
Lemma h4_feed_frames fs :
  Forall valid_frame fs ->
  h4_feed W4_PKT_TYPE (h4_stream fs) = Some (W4_PKT_TYPE, fs).
Proof.
  induction 1 as [|f fs Hf _ IH]; [done|].
  rewrite h4_stream_cons, h4_feed_app, h4_feed_encode by done. cbn.
  by rewrite IH.
Qed.

(** The decoder on a part of a stream of valid packets: it accepts the
    next part too, and has completed a prefix of the packets. *)
Lemma h4_feed_next fs a b sm f1 :
  Forall valid_frame fs ->
  a ++ b `prefix_of` h4_stream fs ->
  h4_feed W4_PKT_TYPE a = Some (sm, f1) ->
  exists sm' f2,
    h4_feed sm b = Some (sm', f2) /\
    h4_feed W4_PKT_TYPE (a ++ b) = Some (sm', f1 ++ f2) /\
    f1 ++ f2 `prefix_of` fs /\
    (a ++ b = h4_stream fs -> sm' = W4_PKT_TYPE /\ f1 ++ f2 = fs).
Proof.
  intros Hfs [rest Hrest] Ha. pose proof (h4_feed_frames fs Hfs) as Hall.
  rewrite Hrest in Hall.
  apply h4_feed_app_inv in Hall as (sm1 & g1 & g2 & Hab & Hr & E1).
  pose proof Hab as Hab'.
  apply h4_feed_app_inv in Hab as (sm0 & f1' & f2 & Ha' & Hb & E2).
  rewrite Ha in Ha'. injection Ha' as <- <-. subst g1. exists sm1, f2.
  split_and!; [done..|by exists g2|].
  intros Heq. rewrite Heq in Hrest.
  assert (rest = []) as ->.
  { apply (app_inv_head (h4_stream fs)). by rewrite app_nil_r. }
  cbn in Hr. injection Hr as -> <-. by rewrite app_nil_r in E1.
Qed.

(** An octet that is no packet type stops the decoder. *)
Lemma h4_byte_malformed b :
  h4_byte W4_PKT_TYPE b = None <->
  b <> HCI_H4_CMD /\ b <> HCI_H4_ACL /\ b <> HCI_H4_EVT.
Proof. cbn. unfold h4_hdr_len. repeat case_decide; naive_solver. Qed.

(** With [got] collected: the decoder is well-formed again, the packet it
    delivers is valid, and no octet is lost. *)
Lemma h4_collected_sound t h got total :
  h4_hdr_len t = Some h -> (h <= length got <= total)%nat ->
  total = h4_total_len t (take h got) ->
  let r := h4_collected t got total in
  sm_wf r.1 /\ Forall valid_frame (option_list r.2) /\
  t :: got = h4_stream (option_list r.2) ++ sm_pending r.1.
Proof.
  intros Hh Hlen Htot. unfold h4_collected. case_decide as Hd; cbn.
  - split_and!; [done| |by rewrite !app_nil_r]. constructor; [|done].
    unfold valid_frame. cbn. rewrite Hh. split; [lia|congruence].
  - split_and!; [|done..]. exists h. split_and!; [done|lia..|done].
Qed.

(** One octet. *)
Lemma h4_byte_sound sm b r :
  sm_wf sm -> h4_byte sm b = Some r ->
  sm_wf r.1 /\ Forall valid_frame (option_list r.2) /\
  sm_pending sm ++ [b] = h4_stream (option_list r.2) ++ sm_pending r.1.
Proof.
  destruct sm as [|t got|t got total]; cbn -[h4_collected]; intros Hwf Hb.
  - destruct (h4_hdr_len b) as [h|] eqn:Hh; simplify_eq/=.
    split_and!; [|done..]. eauto using h4_hdr_len_pos.
  - destruct Hwf as (h & Hh & Hlt). rewrite Hh in Hb. cbn in Hb.
    assert (length (got ++ [b]) = S (length got)) as Hl
      by (rewrite length_app; cbn; lia).
    case_decide as Hd; simplify_eq/=.
    + apply (h4_collected_sound t (length (got ++ [b])));
        [done|unfold h4_total_len; lia|by rewrite firstn_all].
    + split_and!; [|done..]. exists h. split; [done|lia].
  - destruct Hwf as (h & Hh & Hlen & Htot). simplify_eq/=.
    apply (h4_collected_sound t h); [done|rewrite length_app; cbn; lia|].
    by rewrite take_app_le by lia.
Qed.

(** A chunk: the decoder stays well-formed, delivers valid packets only,
    and the packets delivered followed by the packet in progress are the
    packet that was in progress followed by the chunk. *)
Lemma h4_feed_sound sm buf sm' fs :
  sm_wf sm -> h4_feed sm buf = Some (sm', fs) ->
  sm_wf sm' /\ Forall valid_frame fs /\
  sm_pending sm ++ buf = h4_stream fs ++ sm_pending sm'.
Proof.
  revert sm fs. induction buf as [|b buf IH]; intros sm fs Hwf; cbn.
  { intros [= <- <-]. by rewrite app_nil_r. }
  destruct (h4_byte sm b) as [[sm1 o]|] eqn:Hb; [|done]. cbn.
  destruct (h4_feed sm1 buf) as [[sm2 gs]|] eqn:Hf; [|done]. cbn.
  intros [= <- <-].
  destruct (h4_byte_sound sm b _ Hwf Hb) as (Hwf1 & Hv1 & E1).
  destruct (IH sm1 gs Hwf1 Hf) as (Hwf2 & Hv2 & E2). cbn in *.
  split_and!; [done|by apply Forall_app|].
  rewrite h4_stream_app, <- app_assoc, <- E2.
  by rewrite app_assoc, <- E1, <- app_assoc.
Qed.
