(* ===== verification/Rtos.v ===== *)
(** * Rtos: what the transport calls in RT-Thread and in NimBLE

    ble_hci_rtthread.c calls the device layer of RT-Thread (find, open,
    control, read, write), its threads (create, startup, mdelay), the buffer
    pools of NimBLE (ble_transport_free, os_mbuf_free_chain) and the ingress
    sinks of the host (ble_transport_to_hs_acl, ble_transport_to_hs_evt).
    None of that code is part of the modelled sources.

    The environment is modelled by its behaviour: a record [rtos] of
    functions that give, for the calls made so far, what the next call
    returns.  The state of the environment is the list of calls made so far
    ([rt_call], each with its arguments and its result); the operations
    below append to it.  Every deterministic device is such a record, so a
    theorem that quantifies over [rtos] holds of every device; assumptions
    on devices are the classes [SaneDevice] (a transfer never exceeds the
    request) and [ProgressingDevice] (a write of at least one octet
    transfers at least one).

    What the environment shows of a run is read off the calls: [wire] (the
    octets the device accepted, in order), [delivered] (the packets handed to
    the host), [read_octets] (the octets the device delivered). *)

From Stdlib Require Import ZArith Lia String.
From stdpp Require Import base tactics option list numbers strings.
From S2P Require Import Prelude HciH4.

#[local] Open Scope Z_scope.

(** ** Constants and types of the RT-Thread and NimBLE headers *)

Definition RT_NULL : Z := 0.
Definition RT_EBUSY : Z := 7.
Definition RT_DEVICE_FLAG_INT_RX : Z := 0x100.
Definition RT_DEVICE_CTRL_CONFIG : Z := 0x03.

(** [struct serial_configure], the fields the specification names. *)
Record serial_configure : Type := {
  baud_rate : Z;
  data_bits : Z;
  stop_bits : Z;
  parity : Z;
  flowcontrol : Z;
}.

(** 115200 baud, 8 data bits, 1 stop bit, no parity, no flow control. *)
Definition RT_SERIAL_CONFIG_DEFAULT : serial_configure :=
  {| baud_rate := 115200; data_bits := 8; stop_bits := 1; parity := 0;
     flowcontrol := 0 |}.

(** One segment of an mbuf chain: [om_len] octets at [om_data]. *)
Record os_mbuf : Type := { om_data : list Z; om_len : Z }.

#[export] Instance serial_configure_eq_dec : EqDecision serial_configure.
Proof. solve_decision. Defined.

#[export] Instance os_mbuf_eq_dec : EqDecision os_mbuf.
Proof. solve_decision. Defined.

(** ** Calls, with what they returned *)

Inductive rt_call : Type :=
| device_find_call (name : string) (dev : Z)
| device_open_call (dev oflag rc : Z)
| device_control_call (dev cmd : Z) (cfg : serial_configure) (rc : Z)
| device_read_call (dev pos size : Z) (data : list Z)
| device_write_call (dev pos : Z) (data : list Z) (n : Z)
| thread_create_call (name : string) (stack_size priority tick tid : Z)
| thread_startup_call (tid : Z)
| thread_mdelay_call (ms : Z)
| transport_free_call (buf : list Z)
| mbuf_free_chain_call (om : list os_mbuf)
| to_hs_acl_call (data : list Z) (rc : Z)
| to_hs_evt_call (data : list Z) (rc : Z)
| printf_call (text : string).

#[export] Instance rt_call_eq_dec : EqDecision rt_call.
Proof. solve_decision. Defined.

(** ** The environment's behaviour *)

Record rtos : Type := {
  find_device : list rt_call -> string -> Z;
  open_device : list rt_call -> Z -> Z -> Z;
  control_device : list rt_call -> Z -> Z -> serial_configure -> Z;
  (** the octets a read stores in the caller's buffer *)
  read_device : list rt_call -> Z -> Z -> Z -> list Z;
  (** how many of the octets offered a write accepts *)
  write_device : list rt_call -> Z -> Z -> list Z -> Z;
  create_thread : list rt_call -> string -> Z;
  hs_acl : list rt_call -> list Z -> Z;
  hs_evt : list rt_call -> list Z -> Z;
}.

Section Operations.
Variable os : rtos.

(** An operation: from the calls so far to its result and the calls after. *)
Definition rt_device_find (name : string) (l : list rt_call) :
    Z * list rt_call :=
  let dev := find_device os l name in (dev, l ++ [device_find_call name dev]).

Definition rt_device_open (dev oflag : Z) (l : list rt_call) :
    Z * list rt_call :=
  let rc := open_device os l dev oflag in
  (rc, l ++ [device_open_call dev oflag rc]).

Definition rt_device_control (dev cmd : Z) (cfg : serial_configure)
    (l : list rt_call) : Z * list rt_call :=
  let rc := control_device os l dev cmd cfg in
  (rc, l ++ [device_control_call dev cmd cfg rc]).

Definition rt_device_read (dev pos size : Z) (l : list rt_call) :
    list Z * list rt_call :=
  let data := read_device os l dev pos size in
  (data, l ++ [device_read_call dev pos size data]).

(** The result is an [rt_size_t]. *)
Definition rt_device_write (dev pos : Z) (data : list Z) (l : list rt_call) :
    Z * list rt_call :=
  let n := size_t (write_device os l dev pos data) in
  (n, l ++ [device_write_call dev pos data n]).

Definition rt_thread_create (name : string) (stack_size priority tick : Z)
    (l : list rt_call) : Z * list rt_call :=
  let tid := create_thread os l name in
  (tid, l ++ [thread_create_call name stack_size priority tick tid]).

Definition rt_thread_startup (tid : Z) (l : list rt_call) : list rt_call :=
  l ++ [thread_startup_call tid].

Definition rt_thread_mdelay (ms : Z) (l : list rt_call) : list rt_call :=
  l ++ [thread_mdelay_call ms].

Definition ble_transport_free (buf : list Z) (l : list rt_call) :
    list rt_call :=
  l ++ [transport_free_call buf].

Definition os_mbuf_free_chain (om : list os_mbuf) (l : list rt_call) :
    list rt_call :=
  l ++ [mbuf_free_chain_call om].

Definition ble_transport_to_hs_acl (data : list Z) (l : list rt_call) :
    Z * list rt_call :=
  let rc := hs_acl os l data in (rc, l ++ [to_hs_acl_call data rc]).

Definition ble_transport_to_hs_evt (data : list Z) (l : list rt_call) :
    Z * list rt_call :=
  let rc := hs_evt os l data in (rc, l ++ [to_hs_evt_call data rc]).

Definition printf (text : string) (l : list rt_call) : list rt_call :=
  l ++ [printf_call text].

End Operations.

(** ** Observations *)

(** The octets a call put on the wire. *)
Definition written (c : rt_call) : list Z :=
  match c with
  | device_write_call _ _ data n => take (Z.to_nat n) data
  | _ => []
  end.

Definition wire (l : list rt_call) : list Z := l ≫= written.

(** The packet a call handed to the host. *)
Definition delivery (c : rt_call) : option frame :=
  match c with
  | to_hs_acl_call data _ => Some (HCI_H4_ACL, data)
  | to_hs_evt_call data _ => Some (HCI_H4_EVT, data)
  | _ => None
  end.

Definition delivered (l : list rt_call) : list frame := omap delivery l.

(** The octets a call took from the device. *)
Definition received (c : rt_call) : list Z :=
  match c with device_read_call _ _ _ data => data | _ => [] end.

Definition read_octets (l : list rt_call) : list Z := l ≫= received.

Definition is_write (c : rt_call) : bool :=
  match c with device_write_call _ _ _ _ => true | _ => false end.

(** ** Assumptions on devices *)

(** A transfer never exceeds the request. *)
Class SaneDevice (os : rtos) : Prop := {
  write_le l dev pos data :
    0 <= write_device os l dev pos data <= Z.of_nat (length data);
  read_le l dev pos size :
    0 <= size -> Z.of_nat (length (read_device os l dev pos size)) <= size;
}.

(** A write of at least one octet transfers at least one. *)
Class ProgressingDevice (os : rtos) : Prop := {
  write_progress l dev pos data :
    data <> [] -> 1 <= write_device os l dev pos data;
}.

(** ** Reference devices

    [ref_rtos wchunk rchunk stream]: device 1 is found, opens and configures
    with code 0; thread 2 is created; a write accepts at most [wchunk]
    octets; a read returns the next octets of [stream], at most [rchunk] and
    at most the size asked for; the host accepts every packet. *)

Definition ref_rtos (wchunk rchunk : Z) (stream : list Z) : rtos :=
  {| find_device _ _ := 1;
     open_device _ _ _ := 0;
     control_device _ _ _ _ := 0;
     read_device l _ _ size :=
       take (Z.to_nat (Z.min size rchunk))
         (drop (length (read_octets l)) stream);
     write_device _ _ _ data :=
       Z.min (Z.max 0 wchunk) (Z.of_nat (length data));
     create_thread _ _ := 2;
     hs_acl _ _ := 0;
     hs_evt _ _ := 0 |}.

(** A device whose write always reports [n] octets, whatever it was offered
    (0: a stalled link). *)
Definition const_rtos (n : Z) : rtos :=
  {| find_device _ _ := 1;
     open_device _ _ _ := 0;
     control_device _ _ _ _ := 0;
     read_device _ _ _ _ := [];
     write_device _ _ _ _ := n;
     create_thread _ _ := 2;
     hs_acl _ _ := 0;
     hs_evt _ _ := 0 |}.

(** A device that is missing, busy or out of threads: [find_device] gives
    [dev], opening gives [open_rc], configuring [control_rc], creating the
    thread [tid]. *)
Definition init_rtos (dev open_rc control_rc tid : Z) : rtos :=
  {| find_device _ _ := dev;
     open_device _ _ _ := open_rc;
     control_device _ _ _ _ := control_rc;
     read_device _ _ _ _ := [];
     write_device _ _ _ data := Z.of_nat (length data);
     create_thread _ _ := tid;
     hs_acl _ _ := 0;
     hs_evt _ _ := 0 |}.

#[export] Instance ref_rtos_sane wchunk rchunk stream :
  SaneDevice (ref_rtos wchunk rchunk stream).
Proof.
  split; cbn; intros; [lia|]. rewrite length_take. lia.
Qed.

Lemma ref_rtos_progress wchunk rchunk stream :
  0 < wchunk -> ProgressingDevice (ref_rtos wchunk rchunk stream).
Proof.
  intros Hc. split. intros l dev pos [|x data] Hne; [done|]. cbn. lia.
Qed.

#[export] Instance ref_rtos_progress_pos p rchunk stream :
  ProgressingDevice (ref_rtos (Z.pos p) rchunk stream).
Proof. by apply ref_rtos_progress. Qed.

#[export] Instance init_rtos_sane dev rc1 rc2 tid :
  SaneDevice (init_rtos dev rc1 rc2 tid).
Proof. split; cbn; intros; lia. Qed.

#[export] Instance init_rtos_progress dev rc1 rc2 tid :
  ProgressingDevice (init_rtos dev rc1 rc2 tid).
Proof. split. intros l d pos [|x data] Hne; [done|]. cbn. lia. Qed.

(** What has been read of [stream] and the next read are a prefix of it. *)
Lemma ref_rtos_prefix wchunk rchunk stream l dev pos size :
  read_octets l `prefix_of` stream ->
  read_octets l ++ read_device (ref_rtos wchunk rchunk stream) l dev pos size
    `prefix_of` stream.
Proof.
  intros [rest ->]. cbn. rewrite drop_app_length.
  apply prefix_app, prefix_take.
Qed.

(** ** Facts *)

Lemma wire_app l1 l2 : wire (l1 ++ l2) = wire l1 ++ wire l2.
Proof. apply bind_app. Qed.

Lemma wire_nil : wire [] = [].
Proof. reflexivity. Qed.

Lemma wire_cons c l : wire (c :: l) = written c ++ wire l.
Proof. reflexivity. Qed.

Lemma delivered_app l1 l2 : delivered (l1 ++ l2) = delivered l1 ++ delivered l2.
Proof. apply omap_app. Qed.

Lemma read_octets_cons c l : read_octets (c :: l) = received c ++ read_octets l.
Proof. reflexivity. Qed.

Lemma read_octets_app l1 l2 :
  read_octets (l1 ++ l2) = read_octets l1 ++ read_octets l2.
Proof. apply bind_app. Qed.

Create Rewrite HintDb rt.
#[export] Hint Rewrite wire_app wire_cons wire_nil delivered_app read_octets_app
  @app_nil_r @app_nil_l : rt.
