(* ===== verification/Transport.v ===== *)
(** * Transport: ble_hci_rtthread.c, function by function

    The statics of the file are the record [transport]; a world is the
    statics and the calls made to the environment so far.  Each C function is
    one definition with the C name, in the monad [M tworld], over an
    environment [os : rtos].

    - [rtthread_ble_hci_uart_write_all] is the only loop that waits for the
      device: it takes fuel, one unit per iteration, and ends in
      [Abort (OutOfFuel _)] when the fuel runs out.  On a device that makes
      progress, fuel equal to the number of octets is enough.
    - [rtthread_hci_uart_entry] never returns in C; [rtthread_hci_uart_entry n]
      is its first [n] iterations.
    - A pointer is a [Z], [RT_NULL] being 0; a buffer passed by pointer and
      length is the list of its octets, and an access beyond it is
      [Abort (OutOfBounds _)]. *)

From Stdlib Require Import ZArith Lia String.
From stdpp Require Import base tactics option list numbers strings.
From S2P Require Import Prelude HciH4 Rtos.

#[local] Open Scope Z_scope.
#[local] Open Scope nimble_scope.

(** ** The statics *)

Record transport : Type := {
  g_hci_h4sm : hci_h4_sm;
  g_hci_uart : Z;
  g_hci_tid : Z;
}.

(** Statics are zero-initialised. *)
Definition transport_init : transport :=
  {| g_hci_h4sm := W4_PKT_TYPE; g_hci_uart := RT_NULL; g_hci_tid := RT_NULL |}.

Definition set_g_hci_h4sm (sm : hci_h4_sm) (t : transport) : transport :=
  {| g_hci_h4sm := sm; g_hci_uart := g_hci_uart t; g_hci_tid := g_hci_tid t |}.

Definition set_g_hci_uart (dev : Z) (t : transport) : transport :=
  {| g_hci_h4sm := g_hci_h4sm t; g_hci_uart := dev; g_hci_tid := g_hci_tid t |}.

Definition set_g_hci_tid (tid : Z) (t : transport) : transport :=
  {| g_hci_h4sm := g_hci_h4sm t; g_hci_uart := g_hci_uart t; g_hci_tid := tid |}.

Record tworld : Type := TWorld { drv : transport; calls : list rt_call }.

#[export] Instance transport_eq_dec : EqDecision transport.
Proof. solve_decision. Defined.

#[export] Instance tworld_eq_dec : EqDecision tworld.
Proof. solve_decision. Defined.

Definition assert_frame_cb : fault :=
  AssertFail "rtthread_ble_hci_frame_cb: assert(0)".
Definition assert_uart_cmd : fault :=
  AssertFail "ble_transport_to_ll_cmd_impl: assert(g_hci_uart)".
Definition assert_uart_acl : fault :=
  AssertFail "ble_transport_to_ll_acl_impl: assert(g_hci_uart)".
Definition assert_tid : fault :=
  AssertFail "rtthread_hci_uart_init: assert(g_hci_tid != RT_NULL)".
Definition spin_write_all : fault :=
  OutOfFuel "rtthread_ble_hci_uart_write_all".
Definition oob_write_all : fault :=
  OutOfBounds "rtthread_ble_hci_uart_write_all: buf".
Definition oob_cmd : fault := OutOfBounds "ble_transport_to_ll_cmd_impl: cmd[2]".
Definition oob_rx : fault := OutOfBounds "rtthread_hci_uart_entry: rx".

Section Transport.
Variable os : rtos.

(** A call into the environment. *)
Definition env {A} (f : list rt_call -> A * list rt_call) : M tworld A :=
  fun w => let r := f (calls w) in Ok (r.1, TWorld (drv w) r.2).

Definition env_ (f : list rt_call -> list rt_call) : M tworld unit :=
  fun w => Ok (tt, TWorld (drv w) (f (calls w))).

Definition get_drv {A} (f : transport -> A) : M tworld A :=
  gets (fun w => f (drv w)).

Definition set_drv (f : transport -> transport) : M tworld unit :=
  modify (fun w => TWorld (f (drv w)) (calls w)).

Definition rtthread_ble_hci_frame_cb (pkt_type : Z) (data : list Z) :
    M tworld Z :=
  if pkt_type =? HCI_H4_ACL then env (ble_transport_to_hs_acl os data)
  else if pkt_type =? HCI_H4_EVT then env (ble_transport_to_hs_evt os data)
  else abort assert_frame_cb.

(** [buf] is the memory from the pointer on; [remaining] the [size_t]. *)
Fixpoint rtthread_ble_hci_uart_write_all (fuel : nat) (buf : list Z)
    (remaining : Z) : M tworld unit :=
  if 0 <? remaining then
    match fuel with
    | O => abort spin_write_all
    | S fuel =>
        uart <- get_drv g_hci_uart ;;
        if Z.of_nat (length buf) <? remaining then abort oob_write_all
        else
          write_len <- env (rt_device_write os uart 0
                               (take (Z.to_nat remaining) buf)) ;;
          rtthread_ble_hci_uart_write_all fuel
            (drop (Z.to_nat write_len) buf) (size_t (remaining - write_len))
    end
  else ret tt.

Definition ble_transport_to_ll_cmd_impl (fuel : nat) (buf : list Z) :
    M tworld Z :=
  uart <- get_drv g_hci_uart ;;
  assert_ (negb (uart =? RT_NULL))
    "ble_transport_to_ll_cmd_impl: assert(g_hci_uart)" ;;
  let ind := HCI_H4_CMD in
  cmd2 <- match buf !! 2%nat with
          | Some b => ret b
          | None => abort oob_cmd
          end ;;
  let len := 3 + cmd2 in
  rtthread_ble_hci_uart_write_all fuel [ind] 1 ;;
  rtthread_ble_hci_uart_write_all fuel buf len ;;
  env_ (ble_transport_free buf) ;;
  ret 0.

(** The loop over the chain, [x] being the segments from [x] on. *)
Fixpoint write_mbuf_chain (fuel : nat) (x : list os_mbuf) : M tworld unit :=
  match x with
  | [] => ret tt
  | seg :: x =>
      rtthread_ble_hci_uart_write_all fuel (om_data seg) (om_len seg) ;;
      write_mbuf_chain fuel x
  end.

Definition ble_transport_to_ll_acl_impl (fuel : nat) (om : list os_mbuf) :
    M tworld Z :=
  uart <- get_drv g_hci_uart ;;
  assert_ (negb (uart =? RT_NULL))
    "ble_transport_to_ll_acl_impl: assert(g_hci_uart)" ;;
  let ind := HCI_H4_ACL in
  rtthread_ble_hci_uart_write_all fuel [ind] 1 ;;
  write_mbuf_chain fuel om ;;
  env_ (os_mbuf_free_chain om) ;;
  ret 0.

(** The macro, on [sizeof(array)] and [sizeof(array[0])].  The file
    defines it under [#ifndef ARRAY_SIZE]: this is the definition in effect
    when no header the file includes has one. *)
Definition ARRAY_SIZE (sizeof_array sizeof_elem : Z) : Z :=
  sizeof_array - sizeof_elem.

(** [sizeof(rx)] for [uint8_t rx[64]]. *)
Definition sizeof_rx : Z := 64.

(** [hci_h4_sm_rx(&g_hci_h4sm, buf, len)]: the decoder on the static
    [g_hci_h4sm], with the callback [ble_transport_rtthread_init] gives it. *)
Definition g_hci_h4sm_rx : list Z -> M tworld unit :=
  hci_h4_sm_rx (fun w => g_hci_h4sm (drv w))
    (fun sm w => TWorld (set_g_hci_h4sm sm (drv w)) (calls w))
    rtthread_ble_hci_frame_cb.

(** One iteration of the loop of the reader thread. *)
Definition rtthread_hci_uart_entry_iter : M tworld unit :=
  uart <- get_drv g_hci_uart ;;
  rx <- env (rt_device_read os uart 0 (ARRAY_SIZE sizeof_rx 1)) ;;
  let len := Z.of_nat (length rx) in
  (if sizeof_rx <? len then abort oob_rx else ret tt) ;;
  (if 0 <? len
   then g_hci_h4sm_rx rx
   else ret tt) ;;
  env_ (rt_thread_mdelay 1).

(** The first [n] iterations of [while (1)]. *)
Fixpoint rtthread_hci_uart_entry (n : nat) : M tworld unit :=
  match n with
  | O => ret tt
  | S n => rtthread_hci_uart_entry_iter ;; rtthread_hci_uart_entry n
  end.

Definition rtthread_hci_uart_init : M tworld Z :=
  dev <- env (rt_device_find os "uart1") ;;
  set_drv (set_g_hci_uart dev) ;;
  if dev =? RT_NULL then ret (-1)
  else
    rc <- env (rt_device_open os dev RT_DEVICE_FLAG_INT_RX) ;;
    if rc =? - RT_EBUSY then ret (-1)
    else
      rc <- env (rt_device_control os dev RT_DEVICE_CTRL_CONFIG
                    RT_SERIAL_CONFIG_DEFAULT) ;;
      if rc =? - RT_EBUSY then ret (-1)
      else
        tid <- env (rt_thread_create os "hci" 1024 20 5) ;;
        set_drv (set_g_hci_tid tid) ;;
        assert_ (negb (tid =? RT_NULL))
          "rtthread_hci_uart_init: assert(g_hci_tid != RT_NULL)" ;;
        env_ (rt_thread_startup tid) ;;
        ret 0.

Definition ble_transport_rtthread_init : M tworld Z :=
  set_drv (set_g_hci_h4sm hci_h4_sm_init) ;;
  rc <- rtthread_hci_uart_init ;;
  if rc =? -1 then
    env_ (printf ("NimBLE transport rtthread init failed" +:+ LF)) ;; ret (-1)
  else
    env_ (printf ("NimBLE transport rtthread init success" +:+ LF)) ;; ret 0.

End Transport.

(** ** Specifications *)

(** The octets of a chain, segment after segment. *)
Definition os_mbuf_flat (om : list os_mbuf) : list Z :=
  om ≫= fun seg => take (Z.to_nat (om_len seg)) (om_data seg).

(** A segment whose length, a [uint16_t], is within its data. *)
Definition seg_ok (seg : os_mbuf) : Prop :=
  0 <= om_len seg <= Z.of_nat (length (om_data seg)) /\ is_u16 (om_len seg).

#[export] Instance seg_ok_dec seg : Decision (seg_ok seg).
Proof. unfold seg_ok. apply _. Defined.

Definition init_failed : rt_call :=
  printf_call ("NimBLE transport rtthread init failed" +:+ LF).
Definition init_success : rt_call :=
  printf_call ("NimBLE transport rtthread init success" +:+ LF).

(** The calls of an initialisation that finds device [dev], opens it with
    code [rc1], configures it with code [rc2] and creates thread [tid]. *)
Definition init_calls (dev rc1 rc2 tid : Z) : list rt_call :=
  [device_find_call "uart1" dev;
   device_open_call dev RT_DEVICE_FLAG_INT_RX rc1;
   device_control_call dev RT_DEVICE_CTRL_CONFIG RT_SERIAL_CONFIG_DEFAULT rc2;
   thread_create_call "hci" 1024 20 5 tid;
   thread_startup_call tid;
   init_success].

(** [dev], [rc1], [rc2] and [tid] are what the environment answers to the
    calls of an initialisation that starts after the calls [l]. *)
Definition answers (os : rtos) (l : list rt_call) (dev rc1 rc2 tid : Z) :
    Prop :=
  let cs := init_calls dev rc1 rc2 tid in
  dev = find_device os l "uart1" /\
  rc1 = open_device os (l ++ take 1 cs) dev RT_DEVICE_FLAG_INT_RX /\
  rc2 = control_device os (l ++ take 2 cs) dev RT_DEVICE_CTRL_CONFIG
          RT_SERIAL_CONFIG_DEFAULT /\
  tid = create_thread os (l ++ take 3 cs) "hci".

(** From [w] to [w'] the statics are unchanged and the calls made are
    writes that put [data] on the wire. *)
Definition wrote (w w' : tworld) (data : list Z) : Prop :=
  exists ws, w' = TWorld (drv w) (calls w ++ ws) /\
             wire ws = data /\ forallb is_write ws = true.

(** The packets the reader hands to the host: not commands. *)
Definition to_host (f : frame) : bool :=
  bool_decide (f.1 = HCI_H4_ACL) || bool_decide (f.1 = HCI_H4_EVT).

(** From [w] to [w'] the calls made took the octets [inp] from the device
    and handed the packets [fs] to the host, and wrote nothing; the statics
    are [d]. *)
Definition took (w w' : tworld) (d : transport) (inp : list Z)
    (fs : list frame) : Prop :=
  exists ws, w' = TWorld d (calls w ++ ws) /\ wire ws = [] /\
             read_octets ws = inp /\ delivered ws = fs.

(** The reader's invariant: the decoder state and the packets delivered are
    those of the decoder run on all the octets read so far. *)
Definition reader_inv (w : tworld) : Prop :=
  h4_feed W4_PKT_TYPE (read_octets (calls w)) =
  Some (g_hci_h4sm (drv w), delivered (calls w)).

(** The reader's invariant while the peer sends the packets [fs]. *)
Definition reader_ok (fs : list frame) (w : tworld) : Prop :=
  reader_inv w /\ read_octets (calls w) `prefix_of` h4_stream fs.

(** The peer sends [fs]: whatever has been read, the next read continues
    the stream of their encodings. *)
Class PeerSends (os : rtos) (fs : list frame) : Prop := {
  peer_valid : Forall valid_frame fs;
  peer_to_host : forallb to_host fs = true;
  peer_prefix l dev pos size :
    read_octets l `prefix_of` h4_stream fs ->
    read_octets l ++ read_device os l dev pos size `prefix_of` h4_stream fs;
}.

(** ** Tactics *)

(** [trun]: unfold the monad and the accessors of the transport. *)
Ltac tbind := cbv beta iota delta [env env_ get_drv set_drv]; unfold_m.

Ltac trun :=
  tbind;
  cbn -[Z.eqb Z.ltb Z.of_nat Z.to_nat size_t take drop
        rtthread_ble_hci_uart_write_all].

(** [case_eqbs]: case on all the comparisons of the goal in turn. *)
Ltac case_eqbs := repeat (case_eqb; cbn).

(** ** Facts about the writer *)

Lemma tworld_eta w : TWorld (drv w) (calls w) = w.
Proof. by destruct w. Qed.

Lemma take_take_drop_Z {A} (l : list A) (n size : Z) :
  0 <= n <= size ->
  take (Z.to_nat n) (take (Z.to_nat size) l) ++
  take (Z.to_nat (size - n)) (drop (Z.to_nat n) l) = take (Z.to_nat size) l.
Proof.
  intros. rewrite take_take, Nat.min_l by lia. rewrite take_take_drop.
  f_equal. lia.
Qed.

Lemma wrote_refl w : wrote w w [].
Proof. exists []. by rewrite app_nil_r, tworld_eta. Qed.

Lemma wrote_trans w1 w2 w3 a b :
  wrote w1 w2 a -> wrote w2 w3 b -> wrote w1 w3 (a ++ b).
Proof.
  intros (ws1 & -> & <- & H1) (ws2 & -> & <- & H2). exists (ws1 ++ ws2).
  cbn. by rewrite wire_app, forallb_app, H1, H2, app_assoc.
Qed.

Lemma wrote_call w c :
  is_write c = true ->
  wrote w (TWorld (drv w) (calls w ++ [c])) (written c).
Proof.
  intros Hc. exists [c]. split_and!; [done| |by cbn; rewrite Hc].
  by rewrite wire_cons, wire_nil, app_nil_r.
Qed.

Lemma wrote_drv w w' data : wrote w w' data -> drv w' = drv w.
Proof. by intros (ws & -> & _). Qed.

Lemma wrote_wire w w' data :
  wrote w w' data -> wire (calls w') = wire (calls w) ++ data.
Proof. intros (ws & -> & <- & _). apply wire_app. Qed.

(** Writes take nothing from the device and hand nothing to the host. *)
Lemma wrote_quiet w w' data :
  wrote w w' data ->
  read_octets (calls w') = read_octets (calls w) /\
  delivered (calls w') = delivered (calls w).
Proof.
  intros (ws & -> & _ & Hws). cbn. rewrite read_octets_app, delivered_app.
  enough (read_octets ws = [] /\ delivered ws = []) as [-> ->]
    by by rewrite !app_nil_r.
  induction ws as [|c ws IH]; [done|]. cbn in Hws.
  apply andb_true_iff in Hws as [Hc Hws]. destruct (IH Hws) as [IHr IHd].
  unfold read_octets, delivered in *. cbn. rewrite IHr, IHd. by destruct c.
Qed.

Section Writer.
Variable os : rtos.

(** One iteration of the loop of [rtthread_ble_hci_uart_write_all]. *)
Lemma write_all_step fuel buf remaining w :
  0 < remaining <= Z.of_nat (length buf) ->
  rtthread_ble_hci_uart_write_all os (S fuel) buf remaining w =
  let data := take (Z.to_nat remaining) buf in
  let n := size_t (write_device os (calls w) (g_hci_uart (drv w)) 0 data) in
  rtthread_ble_hci_uart_write_all os fuel (drop (Z.to_nat n) buf)
    (size_t (remaining - n))
    (TWorld (drv w)
       (calls w ++ [device_write_call (g_hci_uart (drv w)) 0 data n])).
Proof.
  intros. cbn [rtthread_ble_hci_uart_write_all].
  case_ltb; [|lia]. trun.
  by case_ltb; [lia|].
Qed.

Lemma write_all_done fuel buf remaining w :
  remaining <= 0 ->
  rtthread_ble_hci_uart_write_all os fuel buf remaining w = Ok (tt, w).
Proof.
  intros. destruct fuel; cbn [rtthread_ble_hci_uart_write_all];
    by case_ltb; [lia|].
Qed.

(** Fuel only bounds the number of iterations: a result of the writing
    loop other than running out of fuel is its result with any larger
    amount of fuel. *)
Lemma write_all_fuel fuel fuel' buf remaining w r :
  rtthread_ble_hci_uart_write_all os fuel buf remaining w = r ->
  r <> Abort spin_write_all -> (fuel <= fuel')%nat ->
  rtthread_ble_hci_uart_write_all os fuel' buf remaining w = r.
Proof.
  revert fuel' buf remaining w.
  induction fuel as [|fuel IH]; intros fuel' buf remaining w Hr Hne Hle;
    destruct (decide (0 < remaining));
    try (rewrite write_all_done in * by lia; done).
  - cbn in Hr. destruct (Z.ltb_spec 0 remaining); [|lia].
    unfold abort in Hr. congruence.
  - destruct fuel' as [|fuel']; [lia|].
    cbn [rtthread_ble_hci_uart_write_all] in *.
    case_ltb; [|lia]. revert Hr. trun.
    case_ltb; [done|].
    intros Hr. apply IH; [done..|lia].
Qed.

(** C32: a stalled link.  When the device accepts no octet, the writing
    loop does not end: whatever the fuel, it runs out. *)
Theorem write_all_stall fuel buf remaining w :
  (forall l dev pos data, size_t (write_device os l dev pos data) = 0) ->
  0 < remaining <= Z.of_nat (length buf) -> remaining < 2 ^ 32 ->
  rtthread_ble_hci_uart_write_all os fuel buf remaining w =
  Abort spin_write_all.
Proof.
  intros Hz Hr Hlt. revert w. induction fuel as [|fuel IH]; intros w.
  - cbn. by case_ltb; [|lia].
  - rewrite write_all_step by done. cbv zeta. rewrite Hz, Z.sub_0_r.
    rewrite size_t_small by lia. apply IH.
Qed.

(** A device that reports more octets than it was offered makes
    [remaining], a [size_t], wrap around below zero: the next iteration
    offers the device memory beyond the buffer. *)
Lemma write_all_overrun fuel buf remaining w :
  0 < remaining <= Z.of_nat (length buf) -> Z.of_nat (length buf) < 2 ^ 32 ->
  remaining < size_t (write_device os (calls w) (g_hci_uart (drv w)) 0
                        (take (Z.to_nat remaining) buf)) ->
  rtthread_ble_hci_uart_write_all os (S (S fuel)) buf remaining w =
  Abort oob_write_all.
Proof.
  intros Hr Hlen Hn. rewrite write_all_step by done. cbv zeta.
  set (n := size_t _) in *. pose proof (size_t_range (write_device os (calls w)
    (g_hci_uart (drv w)) 0 (take (Z.to_nat remaining) buf))).
  rewrite size_t_underflow by (fold n; lia).
  cbn [rtthread_ble_hci_uart_write_all].
  case_ltb; [|lia]. trun.
  rewrite length_drop. by destruct (Z.ltb_spec
    (Z.of_nat (length buf - Z.to_nat n)) (2 ^ 32 - (n - remaining))); [|lia].
Qed.

Context `{!SaneDevice os, !ProgressingDevice os}.

(** What a write of a non-empty request returns on such a device. *)
Lemma write_len_range l dev pos data :
  data <> [] -> Z.of_nat (length data) < 2 ^ 32 ->
  1 <= size_t (write_device os l dev pos data) <= Z.of_nat (length data).
Proof.
  intros Hne Hlt. pose proof (write_le l dev pos data).
  pose proof (write_progress l dev pos data Hne).
  rewrite size_t_small; lia.
Qed.

(** Termination and result of the loop: on a device that makes progress,
    [size] units of fuel are enough; the calls made are writes, and
    together they put the [size] octets on the wire. *)
Lemma write_all_ok fuel buf size w :
  0 <= size <= Z.of_nat (length buf) -> size < 2 ^ 32 ->
  size <= Z.of_nat fuel ->
  exists w',
    rtthread_ble_hci_uart_write_all os fuel buf size w = Ok (tt, w') /\
    wrote w w' (take (Z.to_nat size) buf).
Proof.
  revert buf size w. induction fuel as [|fuel IH]; intros buf size w Hs Hlt Hf.
  { replace size with 0 by lia. eauto using write_all_done, wrote_refl. }
  destruct (decide (size = 0)) as [->|Hne].
  { eauto using write_all_done, wrote_refl. }
  rewrite write_all_step by lia. cbv zeta.
  set (data := take (Z.to_nat size) buf).
  assert (length data = Z.to_nat size) as Hlen
    by (unfold data; rewrite length_take; lia).
  destruct (write_len_range (calls w) (g_hci_uart (drv w)) 0 data) as [Hn1 Hn2];
    [intros Hd; rewrite Hd in Hlen; cbn in Hlen; lia | lia |].
  set (n := size_t _) in *.
  rewrite (size_t_small (size - n)) by lia.
  edestruct (IH (drop (Z.to_nat n) buf) (size - n)) as (w' & -> & Hw);
    [rewrite length_drop; lia | lia | lia |].
  exists w'. split; [done|].
  replace data with (written (device_write_call (g_hci_uart (drv w)) 0 data n)
                     ++ take (Z.to_nat (size - n)) (drop (Z.to_nat n) buf))
    by (apply take_take_drop_Z; lia).
  eapply wrote_trans; [by apply wrote_call|exact Hw].
Qed.

(** C9: the writing loop ends on a device that makes progress: [size]
    iterations are enough, whatever the sizes of the partial writes; the
    calls made are writes to the device, and together they put exactly the
    [size] octets of the buffer on the wire, in order. *)
Theorem write_all_terminates fuel buf size w :
  0 <= size <= Z.of_nat (length buf) -> size < 2 ^ 32 ->
  size <= Z.of_nat fuel ->
  exists ws,
    rtthread_ble_hci_uart_write_all os fuel buf size w =
      Ok (tt, TWorld (drv w) (calls w ++ ws)) /\
    forallb is_write ws = true /\ wire ws = take (Z.to_nat size) buf.
Proof.
  intros Hs Hlt Hf.
  destruct (write_all_ok fuel buf size w Hs Hlt Hf)
    as (w' & -> & ws & -> & Hw & Hall).
  by exists ws.
Qed.

End Writer.

(** ** Facts about the senders *)

(** A command buffer holds, at its start, a valid command packet. *)
Lemma cmd_frame_valid buf n :
  buf !! 2%nat = Some n -> 0 <= n -> 3 + n <= Z.of_nat (length buf) ->
  valid_frame (HCI_H4_CMD, take (Z.to_nat (3 + n)) buf).
Proof.
  intros Hb Hn Hlen. unfold valid_frame.
  change (h4_hdr_len (HCI_H4_CMD, take (Z.to_nat (3 + n)) buf).1)
    with (Some 3%nat). cbn [fst snd].
  rewrite take_take, length_take. split; [lia|].
  replace (3 `min` Z.to_nat (3 + n))%nat with 3%nat by lia.
  unfold h4_total_len. rewrite h4_body_len_cmd, length_take.
  rewrite (list_lookup_total_correct _ _ n); [lia|].
  by rewrite lookup_take_lt by lia.
Qed.

Section Senders.
Variable os : rtos.
Context `{!SaneDevice os, !ProgressingDevice os}.

(** The type octet. *)
Lemma write_ind_ok fuel ind w :
  (1 <= fuel)%nat ->
  exists w',
    rtthread_ble_hci_uart_write_all os fuel [ind] 1 w = Ok (tt, w') /\
    wrote w w' [ind].
Proof. intros. apply (write_all_ok os fuel [ind] 1 w); cbn; lia. Qed.

Lemma write_mbuf_chain_ok fuel om w :
  Forall seg_ok om -> Forall (fun seg => om_len seg <= Z.of_nat fuel) om ->
  exists w',
    write_mbuf_chain os fuel om w = Ok (tt, w') /\
    wrote w w' (os_mbuf_flat om).
Proof.
  intros Hok. revert w. induction Hok as [|seg om [Hseg Hu] _ IH];
    intros w Hfuel; [eauto using wrote_refl|].
  apply Forall_cons in Hfuel as [Hf Hfuel]. cbn [write_mbuf_chain].
  destruct (write_all_ok os fuel (om_data seg) (om_len seg) w)
    as (w1 & Hw1 & Hwr1); [done | unfold is_u16 in Hu; lia | done |].
  destruct (IH w1 Hfuel) as (w2 & Hw2 & Hwr2). exists w2.
  rewrite (bind_ok _ _ _ _ _ Hw1). split; [done|].
  by apply (wrote_trans w w1 w2).
Qed.

(** The command sender on a device that makes progress. *)
Lemma cmd_send_ok fuel buf n w :
  g_hci_uart (drv w) <> RT_NULL -> buf !! 2%nat = Some n -> is_u8 n ->
  3 + n <= Z.of_nat (length buf) -> 3 + n <= Z.of_nat fuel ->
  exists w1,
    wrote w w1 (h4_encode (HCI_H4_CMD, take (Z.to_nat (3 + n)) buf)) /\
    ble_transport_to_ll_cmd_impl os fuel buf w =
    Ok (0, TWorld (drv w) (calls w1 ++ [transport_free_call buf])).
Proof.
  intros Hu Hb [Hn0 Hn] Hlen Hfuel.
  destruct (write_ind_ok fuel HCI_H4_CMD w) as (w0 & Hw0 & Hwr0); [lia|].
  destruct (write_all_ok os fuel buf (3 + n) w0) as (w1 & Hw1 & Hwr1);
    [lia..|].
  exists w1. split; [by apply (wrote_trans w w0 w1 [HCI_H4_CMD])|].
  unfold ble_transport_to_ll_cmd_impl. trun.
  destruct (Z.eqb_spec (g_hci_uart (drv w)) RT_NULL); [done|]. cbn.
  rewrite Hb, Hw0, Hw1. cbn.
  by rewrite (wrote_drv _ _ _ Hwr1), (wrote_drv _ _ _ Hwr0).
Qed.

(** C11: sending a command.  On a device that makes progress, with the
    link initialised and [3 + cmd[2]] octets in the buffer, the sender
    returns 0 after putting on the wire the type octet and then the command,
    that is the H4 encoding of a valid command packet; the writes are its
    only calls before it releases the buffer, once. *)
Theorem cmd_send_writes_frame fuel buf n w :
  g_hci_uart (drv w) <> RT_NULL -> buf !! 2%nat = Some n -> is_u8 n ->
  3 + n <= Z.of_nat (length buf) -> 3 + n <= Z.of_nat fuel ->
  let f := (HCI_H4_CMD, take (Z.to_nat (3 + n)) buf) in
  valid_frame f /\
  exists ws,
    ble_transport_to_ll_cmd_impl os fuel buf w =
    Ok (0, TWorld (drv w) (calls w ++ ws ++ [transport_free_call buf])) /\
    forallb is_write ws = true /\ wire ws = h4_encode f.
Proof.
  intros Hu Hb Hn Hlen Hfuel f. split; [apply cmd_frame_valid; by destruct Hn|].
  destruct (cmd_send_ok fuel buf n w) as (w1 & (ws & -> & ? & ?) & ->);
    [done..|].
  exists ws. cbn. by rewrite <- app_assoc.
Qed.

(** The ACL sender on a device that makes progress. *)
Lemma acl_send_ok fuel om w :
  g_hci_uart (drv w) <> RT_NULL -> Forall seg_ok om ->
  (1 <= fuel)%nat -> Forall (fun seg => om_len seg <= Z.of_nat fuel) om ->
  exists w1,
    wrote w w1 (h4_encode (HCI_H4_ACL, os_mbuf_flat om)) /\
    ble_transport_to_ll_acl_impl os fuel om w =
    Ok (0, TWorld (drv w) (calls w1 ++ [mbuf_free_chain_call om])).
Proof.
  intros Hu Hok Hf1 Hfuel.
  destruct (write_ind_ok fuel HCI_H4_ACL w) as (w0 & Hw0 & Hwr0); [lia|].
  destruct (write_mbuf_chain_ok fuel om w0) as (w1 & Hw1 & Hwr1); [done..|].
  exists w1. split; [by apply (wrote_trans w w0 w1 [HCI_H4_ACL])|].
  unfold ble_transport_to_ll_acl_impl. trun.
  destruct (Z.eqb_spec (g_hci_uart (drv w)) RT_NULL); [done|]. cbn.
  rewrite Hw0, Hw1. cbn.
  by rewrite (wrote_drv _ _ _ Hwr1), (wrote_drv _ _ _ Hwr0).
Qed.

(** C24: sending ACL data.  On a device that makes progress, with the link
    initialised, the sender returns 0 after putting on the wire the type
    octet and then the octets of every segment of the chain in order; the
    writes are its only calls before it releases the chain, once. *)
Theorem acl_send_writes_chain fuel om w :
  g_hci_uart (drv w) <> RT_NULL -> Forall seg_ok om ->
  (1 <= fuel)%nat -> Forall (fun seg => om_len seg <= Z.of_nat fuel) om ->
  exists ws,
    ble_transport_to_ll_acl_impl os fuel om w =
    Ok (0, TWorld (drv w) (calls w ++ ws ++ [mbuf_free_chain_call om])) /\
    forallb is_write ws = true /\
    wire ws = h4_encode (HCI_H4_ACL, os_mbuf_flat om).
Proof.
  intros Hu Hok Hf1 Hfuel.
  destruct (acl_send_ok fuel om w) as (w1 & (ws & -> & ? & ?) & ->);
    [done..|].
  exists ws. cbn. by rewrite <- app_assoc.
Qed.

(** Framing round trip.  What the command sender writes, cut into
    chunks in any way and given to the decoder, is decoded as one packet,
    the command that was sent, and leaves the decoder idle. *)
Lemma sent_command_decodes fuel buf n w chunks :
  g_hci_uart (drv w) <> RT_NULL -> buf !! 2%nat = Some n -> is_u8 n ->
  3 + n <= Z.of_nat (length buf) -> 3 + n <= Z.of_nat fuel ->
  exists w',
    ble_transport_to_ll_cmd_impl os fuel buf w = Ok (0, w') /\
    (wire (calls w') = wire (calls w) ++ concat chunks ->
     h4_feed_chunks W4_PKT_TYPE chunks =
     Some (W4_PKT_TYPE, [(HCI_H4_CMD, take (Z.to_nat (3 + n)) buf)])).
Proof.
  intros Hu Hb Hn Hlen Hfuel.
  destruct (cmd_send_ok fuel buf n w) as (w1 & Hwr & ->); [done..|].
  eexists. split; [done|]. cbn.
  rewrite wire_app, (wrote_wire _ _ _ Hwr), wire_cons, wire_nil. cbn.
  rewrite !app_nil_r, h4_feed_chunks_concat. intros <-%app_inv_head.
  apply h4_feed_encode, cmd_frame_valid; [done|by destruct Hn|done].
Qed.

End Senders.

Section SenderFailures.
Variable os : rtos.

(** A sender called before the link is initialised, or after an
    initialisation that did not find the device, stops at its assertion. *)
Lemma senders_assert_uninitialised fuel buf om w :
  g_hci_uart (drv w) = RT_NULL ->
  ble_transport_to_ll_cmd_impl os fuel buf w = Abort assert_uart_cmd /\
  ble_transport_to_ll_acl_impl os fuel om w = Abort assert_uart_acl.
Proof.
  unfold ble_transport_to_ll_cmd_impl, ble_transport_to_ll_acl_impl. trun.
  by intros ->.
Qed.

(** The command sender trusts the length octet of the buffer it is
    given: with a buffer shorter than [3 + cmd[2]] octets it offers the
    device memory beyond the buffer, after the type octet has been
    written. *)
Lemma cmd_send_truncated fuel buf n w :
  g_hci_uart (drv w) <> RT_NULL -> buf !! 2%nat = Some n ->
  Z.of_nat (length buf) < 3 + n ->
  (forall l dev pos, size_t (write_device os l dev pos [HCI_H4_CMD]) = 1) ->
  ble_transport_to_ll_cmd_impl os (S fuel) buf w = Abort oob_write_all.
Proof.
  intros Hu Hb Hlen Hone. unfold ble_transport_to_ll_cmd_impl. trun.
  destruct (Z.eqb_spec (g_hci_uart (drv w)) RT_NULL); [done|]. trun.
  rewrite Hb. trun. rewrite write_all_step by (cbn; lia). cbv zeta.
  rewrite Hone, write_all_done by done.
  cbn [rtthread_ble_hci_uart_write_all]. pose proof (lookup_lt_Some _ _ _ Hb).
  case_ltb; [|lia]. trun.
  by case_ltb; [|lia].
Qed.

End SenderFailures.

(** ** Facts about the reader *)

Lemma set_g_hci_h4sm_same d : set_g_hci_h4sm (g_hci_h4sm d) d = d.
Proof. by destruct d. Qed.

Lemma set_g_hci_h4sm_twice sm1 sm2 d :
  set_g_hci_h4sm sm2 (set_g_hci_h4sm sm1 d) = set_g_hci_h4sm sm2 d.
Proof. done. Qed.

Lemma took_drv w w' d i fs : took w w' d i fs -> drv w' = d.
Proof. by intros (ws & -> & _). Qed.

Lemma took_calls w w' d i fs :
  took w w' d i fs ->
  wire (calls w') = wire (calls w) /\
  read_octets (calls w') = read_octets (calls w) ++ i /\
  delivered (calls w') = delivered (calls w) ++ fs.
Proof.
  intros (ws & -> & Hw & <- & <-). cbn.
  by rewrite wire_app, read_octets_app, delivered_app, Hw, app_nil_r.
Qed.

(** A change of the statics alone. *)
Lemma took_set w d : took w (TWorld d (calls w)) d [] [].
Proof. exists []. by rewrite app_nil_r. Qed.

Lemma took_refl w : took w w (drv w) [] [].
Proof. exists []. by rewrite app_nil_r, tworld_eta. Qed.

Lemma took_trans w1 w2 w3 d2 d3 i1 i2 f1 f2 :
  took w1 w2 d2 i1 f1 -> took w2 w3 d3 i2 f2 ->
  took w1 w3 d3 (i1 ++ i2) (f1 ++ f2).
Proof.
  intros (ws1 & -> & Hw1 & <- & <-) (ws2 & -> & Hw2 & <- & <-).
  exists (ws1 ++ ws2). cbn.
  by rewrite wire_app, read_octets_app, delivered_app, Hw1, Hw2, app_assoc.
Qed.

Lemma took_call w d c :
  written c = [] ->
  took w (TWorld d (calls w ++ [c])) d (received c) (option_list (delivery c)).
Proof.
  intros Hc. exists [c]. split_and!; [done|..].
  - by rewrite wire_cons, Hc.
  - unfold read_octets. cbn. by rewrite app_nil_r.
  - unfold delivered. cbn. by destruct (delivery c).
Qed.

Section Reader.
Variable os : rtos.

(** The callback hands ACL data and events to the host. *)
Lemma frame_cb_to_host f w :
  to_host f = true ->
  exists rc w',
    rtthread_ble_hci_frame_cb os f.1 f.2 w = Ok (rc, w') /\
    took w w' (drv w) [] [f].
Proof.
  destruct f as [t data]. unfold to_host, rtthread_ble_hci_frame_cb. cbn.
  intros [->%bool_decide_eq_true | ->%bool_decide_eq_true]%orb_true_iff; cbn;
    eexists _, _; (split; [reflexivity|]).
  - apply (took_call w (drv w) (to_hs_acl_call data _)). done.
  - apply (took_call w (drv w) (to_hs_evt_call data _)). done.
Qed.

(** It asserts on every other packet. *)
Lemma frame_cb_other f w :
  to_host f = false ->
  rtthread_ble_hci_frame_cb os f.1 f.2 w = Abort assert_frame_cb.
Proof.
  destruct f as [t data]. unfold to_host, rtthread_ble_hci_frame_cb. cbn.
  intros [Ha%bool_decide_eq_false He%bool_decide_eq_false]%orb_false_iff.
  by destruct (Z.eqb_spec t HCI_H4_ACL), (Z.eqb_spec t HCI_H4_EVT).
Qed.

(** The decoder inside the transport, on a chunk that completes only
    packets for the host. *)
Lemma rx_ok buf w sm' fs :
  h4_feed (g_hci_h4sm (drv w)) buf = Some (sm', fs) ->
  forallb to_host fs = true ->
  exists w', g_hci_h4sm_rx os buf w = Ok (tt, w') /\
             took w w' (set_g_hci_h4sm sm' (drv w)) [] fs.
Proof.
  unfold g_hci_h4sm_rx.
  revert w sm' fs. induction buf as [|b buf IH]; intros w sm' fs Hfeed Hfs.
  { simplify_eq/=. exists w. rewrite set_g_hci_h4sm_same.
    eauto using took_refl. }
  cbn in Hfeed. cbn [hci_h4_sm_rx]. trun.
  destruct (h4_byte (g_hci_h4sm (drv w)) b) as [[sm1 o]|]; [|done].
  cbn in Hfeed. set (w1 := TWorld (set_g_hci_h4sm sm1 (drv w)) (calls w)).
  destruct (h4_feed sm1 buf) as [[sm2 fs2]|] eqn:Hbuf; simplify_eq/=.
  destruct o as [f|]; cbn in Hfs |- *.
  - apply andb_true_iff in Hfs as [Hf Hfs].
    destruct (frame_cb_to_host f w1 Hf) as (rc & w2 & -> & Ht2).
    pose proof (took_drv _ _ _ _ _ Ht2) as Hd2.
    destruct (IH w2 sm' fs2) as (w3 & -> & Ht3); [by rewrite Hd2|done|].
    exists w3. split; [done|]. rewrite Hd2 in Ht3. cbn in Ht3.
    rewrite set_g_hci_h4sm_twice in Ht3.
    apply (took_trans w w1 w3 _ _ [] [] [] (f :: fs2) (took_set w _)).
    apply (took_trans w1 w2 w3 _ _ [] [] [f] fs2 Ht2 Ht3).
  - destruct (IH w1 sm' fs2) as (w3 & -> & Ht3); [done..|].
    exists w3. split; [done|]. cbn in Ht3.
    rewrite set_g_hci_h4sm_twice in Ht3.
    apply (took_trans w w1 w3 _ _ [] [] [] fs2 (took_set w _) Ht3).
Qed.

(** A packet that is not for the host, a command, stops the reader at the
    callback's assertion. *)
Lemma rx_other buf w sm' fs :
  h4_feed (g_hci_h4sm (drv w)) buf = Some (sm', fs) ->
  forallb to_host fs = false ->
  g_hci_h4sm_rx os buf w = Abort assert_frame_cb.
Proof.
  unfold g_hci_h4sm_rx.
  revert w sm' fs. induction buf as [|b buf IH]; intros w sm' fs Hfeed Hfs.
  { by simplify_eq/=. }
  cbn in Hfeed. cbn [hci_h4_sm_rx]. trun.
  destruct (h4_byte (g_hci_h4sm (drv w)) b) as [[sm1 o]|]; [|done].
  cbn in Hfeed. set (w1 := TWorld (set_g_hci_h4sm sm1 (drv w)) (calls w)).
  destruct (h4_feed sm1 buf) as [[sm2 fs2]|] eqn:Hbuf; simplify_eq/=.
  destruct o as [f|]; cbn in Hfs |- *; [|by apply (IH w1 sm' fs2)].
  destruct (to_host f) eqn:Hf; [|by rewrite frame_cb_other].
  destruct (frame_cb_to_host f w1 Hf) as (rc & w2 & -> & Ht2).
  apply (IH w2 sm' fs2); [|done]. by rewrite (took_drv _ _ _ _ _ Ht2).
Qed.

(** The callback and the decoder call nothing but the sinks of the host. *)
Lemma frame_cb_calls t data w rc w' :
  rtthread_ble_hci_frame_cb os t data w = Ok (rc, w') ->
  exists c, calls w' = calls w ++ [c] /\ is_Some (delivery c).
Proof.
  unfold rtthread_ble_hci_frame_cb.
  destruct (t =? HCI_H4_ACL); [|destruct (t =? HCI_H4_EVT); [|done]];
    intros [= <- <-]; (eexists; split; [reflexivity|by eexists]).
Qed.

Lemma rx_calls buf w w' :
  g_hci_h4sm_rx os buf w = Ok (tt, w') ->
  exists hs, calls w' = calls w ++ hs /\
             Forall (fun c => is_Some (delivery c)) hs.
Proof.
  unfold g_hci_h4sm_rx. revert w. induction buf as [|b buf IH]; intros w.
  { intros [= <-]. exists []. by rewrite app_nil_r. }
  cbn [hci_h4_sm_rx]. trun.
  destruct (h4_byte (g_hci_h4sm (drv w)) b) as [[sm1 o]|]; [|done].
  set (w1 := TWorld (set_g_hci_h4sm sm1 (drv w)) (calls w)).
  destruct o as [f|]; cbn; [|apply (IH w1)].
  destruct (rtthread_ble_hci_frame_cb os f.1 f.2 w1) as [[rc w2]|] eqn:Hcb;
    [|done].
  intros Hrx. destruct (frame_cb_calls _ _ _ _ _ Hcb) as (c & Hc & ?).
  destruct (IH w2 Hrx) as (hs & -> & ?). exists (c :: hs).
  rewrite Hc. cbn. rewrite <- app_assoc. split; [done|by constructor].
Qed.

(** An octet that is no packet type, where a packet starts, stops the
    reader at the decoder's assertion. *)
Lemma rx_malformed b buf w :
  g_hci_h4sm (drv w) = W4_PKT_TYPE ->
  b <> HCI_H4_CMD -> b <> HCI_H4_ACL -> b <> HCI_H4_EVT ->
  g_hci_h4sm_rx os (b :: buf) w = Abort assert_pkt_type.
Proof.
  intros Hsm ???. unfold g_hci_h4sm_rx. cbn [hci_h4_sm_rx]. trun.
  rewrite Hsm. by rewrite (proj2 (h4_byte_malformed b)).
Qed.

(** A chunk the decoder rejects stops the reader at an assertion. *)
Lemma rx_none buf w :
  h4_feed (g_hci_h4sm (drv w)) buf = None ->
  g_hci_h4sm_rx os buf w = Abort assert_pkt_type \/
  g_hci_h4sm_rx os buf w = Abort assert_frame_cb.
Proof.
  unfold g_hci_h4sm_rx.
  revert w. induction buf as [|b buf IH]; intros w Hfeed; [done|].
  cbn in Hfeed. cbn [hci_h4_sm_rx]. trun.
  destruct (h4_byte (g_hci_h4sm (drv w)) b) as [[sm1 o]|]; [|by left].
  cbn in Hfeed. set (w1 := TWorld (set_g_hci_h4sm sm1 (drv w)) (calls w)).
  destruct (h4_feed sm1 buf) as [[sm2 fs2]|] eqn:Hbuf; [done|].
  destruct o as [f|]; cbn; [|by apply (IH w1)].
  destruct (to_host f) eqn:Hf; [|right; by rewrite frame_cb_other].
  destruct (frame_cb_to_host f w1 Hf) as (rc & w2 & -> & Ht2).
  apply (IH w2). by rewrite (took_drv _ _ _ _ _ Ht2).
Qed.

(** The three parts of an iteration: the read, the decoder, the delay. *)
Lemma entry_iter_eq w :
  let rx := read_device os (calls w) (g_hci_uart (drv w)) 0 63 in
  let w1 := TWorld (drv w) (calls w ++
              [device_read_call (g_hci_uart (drv w)) 0 63 rx]) in
  rtthread_hci_uart_entry_iter os w =
  if 64 <? Z.of_nat (length rx) then Abort oob_rx
  else match g_hci_h4sm_rx os rx w1 with
       | Ok (_, w2) =>
           Ok (tt, TWorld (drv w2) (calls w2 ++ [thread_mdelay_call 1]))
       | Abort e => Abort e
       end.
Proof.
  intros rx w1. unfold rtthread_hci_uart_entry_iter. trun.
  change (ARRAY_SIZE sizeof_rx 1) with 63. fold rx. unfold sizeof_rx.
  case_ltb; [done|]. cbn. fold w1.
  case_ltb; [done|].
  by assert (rx = []) as -> by (apply nil_length_inv; lia).
Qed.

(** The calls of an iteration that returns: the read of 63 octets, the
    packets its octets complete, the sleep of a millisecond. *)
Lemma entry_iter_calls w w' :
  rtthread_hci_uart_entry_iter os w = Ok (tt, w') ->
  let rx := read_device os (calls w) (g_hci_uart (drv w)) 0 63 in
  exists hs,
    calls w' = calls w ++ device_read_call (g_hci_uart (drv w)) 0 63 rx ::
                 hs ++ [thread_mdelay_call 1] /\
    Forall (fun c => is_Some (delivery c)) hs.
Proof.
  rewrite entry_iter_eq. cbv zeta. case_ltb; [done|].
  destruct (g_hci_h4sm_rx os _ _) as [[[] w2]|] eqn:Hrx; [|done].
  intros [= <-]. destruct (rx_calls _ _ _ Hrx) as (hs & -> & ?).
  exists hs. cbn. by rewrite <- !app_assoc.
Qed.

(** One iteration on a chunk that completes only packets for the host. *)
Lemma entry_iter_ok w sm' fs :
  let rx := read_device os (calls w) (g_hci_uart (drv w)) 0 63 in
  Z.of_nat (length rx) <= 64 ->
  h4_feed (g_hci_h4sm (drv w)) rx = Some (sm', fs) ->
  forallb to_host fs = true ->
  exists w', rtthread_hci_uart_entry_iter os w = Ok (tt, w') /\
             took w w' (set_g_hci_h4sm sm' (drv w)) rx fs.
Proof.
  intros rx Hle Hfeed Hfs. rewrite entry_iter_eq. cbv zeta. fold rx.
  case_ltb; [lia|].
  set (c := device_read_call (g_hci_uart (drv w)) 0 63 rx).
  pose proof (took_call w (drv w) c eq_refl) as Ht1. cbn in Ht1.
  set (w1 := TWorld (drv w) (calls w ++ [c])) in *.
  destruct (rx_ok rx w1 sm' fs Hfeed Hfs) as (w2 & -> & Ht2).
  eexists. split; [done|].
  pose proof (took_call w2 (drv w2) (thread_mdelay_call 1) eq_refl) as Ht3.
  cbn in Ht3. rewrite (took_drv _ _ _ _ _ Ht2) in Ht3 |- *.
  pose proof (took_trans _ _ _ _ _ _ _ _ _
                (took_trans _ _ _ _ _ _ _ _ _ Ht1 Ht2) Ht3) as Ht.
  by rewrite !app_nil_r in Ht.
Qed.

(** An iteration that returns has run the decoder on what it read. *)
Lemma entry_iter_sound w w' :
  rtthread_hci_uart_entry_iter os w = Ok (tt, w') ->
  let rx := read_device os (calls w) (g_hci_uart (drv w)) 0 63 in
  exists sm' fs,
    h4_feed (g_hci_h4sm (drv w)) rx = Some (sm', fs) /\
    took w w' (set_g_hci_h4sm sm' (drv w)) rx fs.
Proof.
  intros Hw rx. pose proof Hw as Hw'. rewrite entry_iter_eq in Hw'.
  cbv zeta in Hw'. fold rx in Hw'.
  destruct (Z.ltb_spec 64 (Z.of_nat (length rx))); [done|].
  set (w1 := TWorld _ _) in Hw'.
  destruct (h4_feed (g_hci_h4sm (drv w)) rx) as [[sm' fs]|] eqn:Hfeed.
  - destruct (forallb to_host fs) eqn:Hfs.
    + destruct (entry_iter_ok w sm' fs) as (w'' & Hw'' & Ht); [done..|].
      rewrite Hw in Hw''. simplify_eq. eauto.
    + by rewrite (rx_other rx w1 sm' fs) in Hw'.
  - by destruct (rx_none rx w1 Hfeed) as [Hr|Hr]; rewrite Hr in Hw'.
Qed.

(** The decoder and the callback fail in two ways only. *)
Lemma rx_abort buf w e :
  g_hci_h4sm_rx os buf w = Abort e ->
  e = assert_pkt_type \/ e = assert_frame_cb.
Proof.
  intros He.
  destruct (h4_feed (g_hci_h4sm (drv w)) buf) as [[sm' fs]|] eqn:Hfeed.
  - destruct (forallb to_host fs) eqn:Hfs.
    + destruct (rx_ok buf w sm' fs) as (w' & Hw' & _); congruence.
    + rewrite (rx_other buf w sm' fs) in He by done. naive_solver.
  - destruct (rx_none buf w Hfeed) as [Hr|Hr]; rewrite Hr in He; naive_solver.
Qed.

(** The reader's buffer overflows exactly when the device stores more than
    the 64 octets of [rx]. *)
Lemma entry_iter_overflow_iff w :
  rtthread_hci_uart_entry_iter os w = Abort oob_rx <->
  64 < Z.of_nat (length (read_device os (calls w) (g_hci_uart (drv w)) 0 63)).
Proof.
  rewrite entry_iter_eq. cbv zeta.
  destruct (Z.ltb_spec 64 (Z.of_nat (length
    (read_device os (calls w) (g_hci_uart (drv w)) 0 63)))) as [Hlt|Hle];
    [done|]. split; [|lia].
  destruct (g_hci_h4sm_rx os _ _) as [[[] w2]|e] eqn:Hrx; [done|].
  by destruct (rx_abort _ _ _ Hrx) as [-> | ->].
Qed.

(** Iterations that return keep the reader's invariant. *)
Lemma entry_sound n w w' :
  reader_inv w -> rtthread_hci_uart_entry os n w = Ok (tt, w') ->
  reader_inv w' /\ wire (calls w') = wire (calls w) /\
  g_hci_uart (drv w') = g_hci_uart (drv w).
Proof.
  revert w. induction n as [|n IH]; intros w Hinv Hrun.
  { cbv in Hrun. by simplify_eq. }
  cbn in Hrun. apply bind_ok_inv in Hrun as ([] & w1 & Hiter & Hrun).
  destruct (entry_iter_sound w w1 Hiter) as (sm' & fs & Hfeed & Ht).
  destruct (took_calls _ _ _ _ _ Ht) as (Hw & Hr & Hd).
  destruct (IH w1) as (Hinv' & Hw' & Hu'); [|done|].
  - unfold reader_inv in *. rewrite Hr, Hd, h4_feed_app, Hinv. cbn.
    rewrite Hfeed. cbn. by rewrite (took_drv _ _ _ _ _ Ht).
  - split_and!; [done|congruence|].
    by rewrite Hu', (took_drv _ _ _ _ _ Ht).
Qed.

(** C13: the reader's soundness.  Whatever the device delivers and however
    it cuts it into reads, if [n] iterations of the reader return, the
    decoder state and the packets handed to the host are those of the
    decoder run on all the octets read so far; the reader writes nothing
    and keeps the device handle.  So the decoder state is well-formed,
    every packet handed to the host is valid, and no octet is lost,
    repeated or moved: the octets read are the encodings of the packets
    handed over, in order, followed by the packet in progress. *)
Theorem reader_sound n w w' :
  reader_inv w -> rtthread_hci_uart_entry os n w = Ok (tt, w') ->
  (reader_inv w' /\ wire (calls w') = wire (calls w) /\
   g_hci_uart (drv w') = g_hci_uart (drv w)) /\
  sm_wf (g_hci_h4sm (drv w')) /\
  Forall valid_frame (delivered (calls w')) /\
  read_octets (calls w') =
    h4_stream (delivered (calls w')) ++ sm_pending (g_hci_h4sm (drv w')).
Proof.
  intros Hinv Hrun. pose proof (entry_sound n w w' Hinv Hrun) as Hs.
  split; [done|]. destruct Hs as (Hinv' & _).
  by apply (h4_feed_sound W4_PKT_TYPE) in Hinv'.
Qed.

(** C31: the reader asserts on a command.  A read that completes a packet
    which is neither ACL data nor an event, that is a command, ends the
    reader thread at [assert(0)] in the callback. *)
Theorem reader_asserts_on_command w sm' fs :
  let rx := read_device os (calls w) (g_hci_uart (drv w)) 0 63 in
  Z.of_nat (length rx) <= 64 ->
  h4_feed (g_hci_h4sm (drv w)) rx = Some (sm', fs) ->
  forallb to_host fs = false ->
  rtthread_hci_uart_entry_iter os w = Abort assert_frame_cb.
Proof.
  intros rx Hle Hfeed Hfs. rewrite entry_iter_eq. cbv zeta. fold rx.
  case_ltb; [lia|].
  by rewrite (rx_other rx _ sm' fs).
Qed.

(** C36: an octet that is no packet type, read where a packet starts, ends
    the reader thread at the decoder's assertion: the reader does not
    resynchronise. *)
Theorem reader_asserts_on_malformed w b rest :
  let rx := read_device os (calls w) (g_hci_uart (drv w)) 0 63 in
  g_hci_h4sm (drv w) = W4_PKT_TYPE -> rx = b :: rest ->
  Z.of_nat (length rx) <= 64 ->
  b <> HCI_H4_CMD -> b <> HCI_H4_ACL -> b <> HCI_H4_EVT ->
  rtthread_hci_uart_entry_iter os w = Abort assert_pkt_type.
Proof.
  intros rx Hsm Hrx Hle ???. rewrite entry_iter_eq. cbv zeta. fold rx.
  case_ltb; [lia|].
  by rewrite Hrx, rx_malformed.
Qed.

(** Two packets in one read.  A read that returns two packets for the
    host back to back, with the decoder idle, hands both to the host, in
    order, and leaves the decoder idle. *)
Lemma reader_two_frames_one_read w f1 f2 :
  let rx := read_device os (calls w) (g_hci_uart (drv w)) 0 63 in
  g_hci_h4sm (drv w) = W4_PKT_TYPE ->
  rx = h4_encode f1 ++ h4_encode f2 -> Z.of_nat (length rx) <= 64 ->
  valid_frame f1 -> valid_frame f2 ->
  to_host f1 = true -> to_host f2 = true ->
  exists w',
    rtthread_hci_uart_entry_iter os w = Ok (tt, w') /\
    delivered (calls w') = delivered (calls w) ++ [f1; f2] /\
    g_hci_h4sm (drv w') = W4_PKT_TYPE.
Proof.
  intros rx Hsm Hrx Hle Hv1 Hv2 Ht1 Ht2.
  destruct (entry_iter_ok w W4_PKT_TYPE [f1; f2]) as (w' & Hw' & Ht);
    [done| |by cbn; rewrite Ht1, Ht2|].
  { fold rx. rewrite Hsm, Hrx.
    rewrite <- (app_nil_r (h4_encode f2)).
    by apply (h4_feed_frames [f1; f2]); repeat constructor. }
  exists w'. split; [done|].
  destruct (took_calls _ _ _ _ _ Ht) as (_ & _ & ->).
  by rewrite (took_drv _ _ _ _ _ Ht).
Qed.

Context `{!SaneDevice os}.

(** The reader asks for [ARRAY_SIZE(rx)], which is 63 for the 64
    octets of [rx], so on a device that never transfers more than it is
    asked for an iteration cannot overflow [rx]. *)
Lemma reader_no_overflow w :
  ARRAY_SIZE sizeof_rx 1 = 63 /\
  rtthread_hci_uart_entry_iter os w <> Abort oob_rx.
Proof.
  split; [done|]. rewrite entry_iter_overflow_iff.
  pose proof (read_le (calls w) (g_hci_uart (drv w)) 0 63). lia.
Qed.

(** On such a device the reader stops at the assertions of the decoder and
    of the callback, and nowhere else. *)
Lemma entry_abort n w e :
  rtthread_hci_uart_entry os n w = Abort e ->
  e = assert_pkt_type \/ e = assert_frame_cb.
Proof.
  revert w. induction n as [|n IH]; intros w; [done|]. cbn. unfold bind.
  destruct (rtthread_hci_uart_entry_iter os w) as [[[] w1]|e1] eqn:Hiter;
    [apply IH|]. intros [= ->]. revert Hiter. rewrite entry_iter_eq. cbv zeta.
  pose proof (read_le (calls w) (g_hci_uart (drv w)) 0 63).
  case_ltb; [lia|].
  destruct (g_hci_h4sm_rx os _ _) as [[[] w2]|e2] eqn:Hrx; [done|].
  intros [= ->]. by apply (rx_abort _ _ _ Hrx).
Qed.

(** What the reader's invariant says of the packets handed to the host. *)
Lemma reader_ok_delivered fs w :
  Forall valid_frame fs -> reader_ok fs w ->
  delivered (calls w) `prefix_of` fs /\
  (read_octets (calls w) = h4_stream fs ->
   delivered (calls w) = fs /\ g_hci_h4sm (drv w) = W4_PKT_TYPE).
Proof.
  intros Hvalid [Hinv Hpre]. split.
  - destruct (h4_feed_next fs (read_octets (calls w)) []
                (g_hci_h4sm (drv w)) (delivered (calls w)) Hvalid)
      as (sm' & f2 & Hf & _ & Hp & _); [by rewrite app_nil_r|done|].
    simplify_eq/=. by rewrite app_nil_r in Hp.
  - intros Heq. unfold reader_inv in Hinv. rewrite Heq in Hinv.
    rewrite h4_feed_frames in Hinv by done. by simplify_eq.
Qed.

(** One iteration when the octets read so far and those of the next read
    begin the encodings of the valid packets [fs], none a command. *)
Lemma entry_iter_next fs w :
  Forall valid_frame fs -> forallb to_host fs = true ->
  reader_inv w ->
  read_octets (calls w) ++ read_device os (calls w) (g_hci_uart (drv w)) 0 63
    `prefix_of` h4_stream fs ->
  exists w', rtthread_hci_uart_entry_iter os w = Ok (tt, w') /\
             reader_ok fs w' /\ delivered (calls w') `prefix_of` fs /\
             (read_octets (calls w') = h4_stream fs ->
              delivered (calls w') = fs /\
              g_hci_h4sm (drv w') = W4_PKT_TYPE) /\
             read_octets (calls w') =
               read_octets (calls w) ++
               read_device os (calls w) (g_hci_uart (drv w)) 0 63.
Proof.
  intros Hvalid Hhost Hinv Hnext.
  pose proof (read_le (calls w) (g_hci_uart (drv w)) 0 63) as Hle.
  set (rx := read_device _ _ _ _ _) in *.
  destruct (h4_feed_next fs (read_octets (calls w)) rx _ _ Hvalid Hnext Hinv)
    as (sm' & f2 & Hfeed & Hall & Hp & Hend).
  assert (forallb to_host f2 = true) as Hf2.
  { destruct Hp as [g Hg].
    rewrite Hg, !forallb_app in Hhost.
    by repeat apply andb_true_iff in Hhost as [Hhost ?]. }
  destruct (entry_iter_ok w sm' f2) as (w' & Hw' & Ht); [fold rx; lia|done..|].
  destruct (took_calls _ _ _ _ _ Ht) as (_ & Hr & Hd).
  pose proof (took_drv _ _ _ _ _ Ht) as Hdrv.
  exists w'. unfold reader_ok, reader_inv. rewrite Hr, Hd, Hdrv. cbn.
  split_and!; [done..| |done]. intros Heq. by destruct (Hend Heq) as [-> ->].
Qed.

Section Stream.
Variable fs : list frame.
Context `{!PeerSends os fs}.

(** One iteration while the peer sends [fs]. *)
Lemma entry_iter_peer w :
  reader_ok fs w ->
  exists w', rtthread_hci_uart_entry_iter os w = Ok (tt, w') /\
             reader_ok fs w' /\ delivered (calls w') `prefix_of` fs /\
             (read_octets (calls w') = h4_stream fs ->
              delivered (calls w') = fs /\
              g_hci_h4sm (drv w') = W4_PKT_TYPE) /\
             read_octets (calls w') =
               read_octets (calls w) ++
               read_device os (calls w) (g_hci_uart (drv w)) 0 63.
Proof.
  intros [Hinv Hpre].
  apply entry_iter_next;
    [apply peer_valid|apply peer_to_host|done|by apply peer_prefix].
Qed.

(** Any number of iterations while the peer sends [fs]. *)
Lemma entry_peer n w :
  reader_ok fs w ->
  exists w',
    rtthread_hci_uart_entry os n w = Ok (tt, w') /\ reader_ok fs w' /\
    delivered (calls w') `prefix_of` fs /\
    (read_octets (calls w') = h4_stream fs ->
     delivered (calls w') = fs /\ g_hci_h4sm (drv w') = W4_PKT_TYPE).
Proof.
  revert w. induction n as [|n IH]; intros w Hok.
  - exists w. by destruct (reader_ok_delivered fs w peer_valid Hok).
  - destruct (entry_iter_peer w Hok) as (w1 & Hw1 & Hok1 & _).
    destruct (IH w1 Hok1) as (w' & Hw' & ?). exists w'.
    split; [|done]. cbn. by rewrite (bind_ok _ _ _ _ _ Hw1).
Qed.

End Stream.

End Reader.

(** ** Facts about the initialisation *)

Section Init.
Variable os : rtos.

Lemma answers_exist l : exists dev rc1 rc2 tid, answers os l dev rc1 rc2 tid.
Proof.
  eexists _, _, _, _. unfold answers, init_calls. cbn [take]. by repeat split.
Qed.

(** The result of [rtthread_hci_uart_init], by what the environment
    answers to its calls. *)
Lemma rtthread_hci_uart_init_cases w dev rc1 rc2 tid :
  answers os (calls w) dev rc1 rc2 tid ->
  let d := set_g_hci_uart dev (drv w) in
  let after n := TWorld d (calls w ++ take n (init_calls dev rc1 rc2 tid)) in
  rtthread_hci_uart_init os w =
  if decide (dev = RT_NULL) then Ok (-1, after 1%nat)
  else if decide (rc1 = - RT_EBUSY) then Ok (-1, after 2%nat)
  else if decide (rc2 = - RT_EBUSY) then Ok (-1, after 3%nat)
  else if decide (tid = RT_NULL) then Abort assert_tid
  else Ok (0, TWorld (set_g_hci_tid tid d)
                (calls w ++ take 5 (init_calls dev rc1 rc2 tid))).
Proof.
  unfold answers, init_calls. cbn [take]. intros (-> & -> & -> & ->). cbn.
  repeat case_decide; unfold rtthread_hci_uart_init; trun; case_eqbs;
    rewrite <- ?app_assoc in *; cbn [app] in *; done || congruence.
Qed.

(** The same for [ble_transport_rtthread_init]. *)
Lemma ble_transport_rtthread_init_cases w dev rc1 rc2 tid :
  answers os (calls w) dev rc1 rc2 tid ->
  let d := set_g_hci_uart dev (set_g_hci_h4sm hci_h4_sm_init (drv w)) in
  let failed n :=
    Ok (-1, TWorld d (calls w ++ take n (init_calls dev rc1 rc2 tid) ++
                      [init_failed])) in
  ble_transport_rtthread_init os w =
  if decide (dev = RT_NULL) then failed 1%nat
  else if decide (rc1 = - RT_EBUSY) then failed 2%nat
  else if decide (rc2 = - RT_EBUSY) then failed 3%nat
  else if decide (tid = RT_NULL) then Abort assert_tid
  else Ok (0, TWorld (set_g_hci_tid tid d)
                (calls w ++ init_calls dev rc1 rc2 tid)).
Proof.
  intros Ha. unfold ble_transport_rtthread_init. tbind.
  rewrite (rtthread_hci_uart_init_cases _ dev rc1 rc2 tid) by done.
  cbn. unfold printf. repeat case_decide; cbn; by rewrite <- ?app_assoc.
Qed.

(** The calls of an initialisation that succeeds. *)
Lemma init_ok_calls w w1 :
  ble_transport_rtthread_init os w = Ok (0, w1) ->
  exists dev rc1 rc2 tid, calls w1 = calls w ++ init_calls dev rc1 rc2 tid.
Proof.
  intros Hinit. destruct (answers_exist (calls w)) as (dev & rc1 & rc2 & tid & Ha).
  rewrite (ble_transport_rtthread_init_cases w dev rc1 rc2 tid Ha) in Hinit.
  exists dev, rc1, rc2, tid. revert Hinit. cbn.
  by repeat case_decide; intros; simplify_eq/=.
Qed.

(** C25: a successful initialisation.  If [ble_transport_rtthread_init]
    returns 0, it has reset the decoder, found the device "uart1", opened
    it for interrupt-driven reception, configured it with the default line
    configuration, created and started exactly one reader thread, in this
    order, and made no other call; neither opening nor configuring reported
    a busy device. *)
Theorem init_success_spawns_one_reader w w' :
  ble_transport_rtthread_init os w = Ok (0, w') ->
  exists dev rc1 rc2 tid,
    dev <> RT_NULL /\ rc1 <> - RT_EBUSY /\ rc2 <> - RT_EBUSY /\
    tid <> RT_NULL /\
    drv w' = {| g_hci_h4sm := W4_PKT_TYPE; g_hci_uart := dev;
                g_hci_tid := tid |} /\
    calls w' = calls w ++ init_calls dev rc1 rc2 tid.
Proof.
  destruct (answers_exist (calls w)) as (dev & rc1 & rc2 & tid & Ha).
  rewrite (ble_transport_rtthread_init_cases w dev rc1 rc2 tid Ha). cbn.
  exists dev, rc1, rc2, tid. by repeat case_decide; simplify_eq/=.
Qed.

(** C39: a failed initialisation.  If [ble_transport_rtthread_init]
    returns another value than 0, the value is -1, the device was not found
    or was busy when opened or configured, no thread was created or
    started, and the failure was reported. *)
Theorem init_failure_starts_no_thread w rc w' :
  ble_transport_rtthread_init os w = Ok (rc, w') -> rc <> 0 ->
  rc = -1 /\
  exists dev rc1 rc2 tid n,
    answers os (calls w) dev rc1 rc2 tid /\
    (dev = RT_NULL /\ n = 1 \/ rc1 = - RT_EBUSY /\ n = 2 \/
     rc2 = - RT_EBUSY /\ n = 3)%nat /\
    g_hci_uart (drv w') = dev /\ g_hci_tid (drv w') = g_hci_tid (drv w) /\
    calls w' = calls w ++ take n (init_calls dev rc1 rc2 tid) ++ [init_failed].
Proof.
  destruct (answers_exist (calls w)) as (dev & rc1 & rc2 & tid & Ha).
  rewrite (ble_transport_rtthread_init_cases w dev rc1 rc2 tid Ha). cbn.
  repeat case_decide; intros; simplify_eq/=; (split; [done|]);
    [exists RT_NULL, rc1, rc2, tid, 1%nat
    |exists dev, (- RT_EBUSY), rc2, tid, 2%nat
    |exists dev, rc1, (- RT_EBUSY), tid, 3%nat]; naive_solver.
Qed.

(** C26: initialisation fails in one way only.  It returns 0 or -1, or
    stops at the assertion that the reader thread was created; an error of
    the device other than "busy" is not among the failures: the
    initialisation returns 0 exactly when the device is found, neither
    opening nor configuring it answers [-RT_EBUSY], and the thread is
    created. *)
Theorem init_succeeds_unless_busy w dev rc1 rc2 tid :
  answers os (calls w) dev rc1 rc2 tid ->
  ((exists w', ble_transport_rtthread_init os w = Ok (0, w')) <->
   dev <> RT_NULL /\ rc1 <> - RT_EBUSY /\ rc2 <> - RT_EBUSY /\
   tid <> RT_NULL) /\
  (ble_transport_rtthread_init os w = Abort assert_tid <->
   dev <> RT_NULL /\ rc1 <> - RT_EBUSY /\ rc2 <> - RT_EBUSY /\
   tid = RT_NULL) /\
  (forall e, ble_transport_rtthread_init os w = Abort e -> e = assert_tid).
Proof.
  intros Ha. rewrite (ble_transport_rtthread_init_cases w dev rc1 rc2 tid Ha).
  cbn. repeat case_decide; naive_solver.
Qed.

Context `{!SaneDevice os, !ProgressingDevice os}.

(** C34: a handle that was never opened.  When the device is found but
    busy, the initialisation returns -1 and leaves the handle in
    [g_hci_uart]: a sender called afterwards passes its assertion and
    writes the command to the device that was not opened. *)
Theorem send_after_busy_open w dev rc1 rc2 tid fuel buf n :
  answers os (calls w) dev rc1 rc2 tid ->
  dev <> RT_NULL -> rc1 = - RT_EBUSY ->
  buf !! 2%nat = Some n -> is_u8 n ->
  3 + n <= Z.of_nat (length buf) -> 3 + n <= Z.of_nat fuel ->
  exists w1 w2,
    ble_transport_rtthread_init os w = Ok (-1, w1) /\
    g_hci_uart (drv w1) = dev /\
    ble_transport_to_ll_cmd_impl os fuel buf w1 = Ok (0, w2) /\
    wire (calls w2) =
    wire (calls w) ++ h4_encode (HCI_H4_CMD, take (Z.to_nat (3 + n)) buf).
Proof.
  intros Ha Hdev Hrc Hb Hn Hlen Hfuel.
  rewrite (ble_transport_rtthread_init_cases w dev rc1 rc2 tid Ha). cbn.
  rewrite decide_False, decide_True by done. set (w1 := TWorld _ _).
  destruct (cmd_send_ok os fuel buf n w1) as (w2 & Hwr & Hsend);
    [exact Hdev|done..|].
  exists w1. eexists. split_and!; [done|done|exact Hsend|].
  cbn. rewrite wire_app, (wrote_wire _ _ _ Hwr). subst w1. cbn.
  autorewrite with rt. cbn. by autorewrite with rt.
Qed.

End Init.

(** ** The transport from power-on *)

(** The world after a successful initialisation that began with nothing
    read has nothing read. *)
Lemma init_reader_ok os fs w w1 :
  read_octets (calls w) = [] -> delivered (calls w) = [] ->
  ble_transport_rtthread_init os w = Ok (0, w1) ->
  reader_ok fs w1 /\ read_octets (calls w1) = [].
Proof.
  intros Hr Hd Hinit.
  destruct (answers_exist os (calls w)) as (dev & rc1 & rc2 & tid & Ha).
  rewrite (ble_transport_rtthread_init_cases os w dev rc1 rc2 tid Ha) in Hinit.
  revert Hinit. cbn. repeat case_decide; intros; simplify_eq/=.
  unfold reader_ok, reader_inv. cbn.
  rewrite read_octets_app, delivered_app, Hr, Hd. cbn.
  split_and!; [done|apply prefix_nil|by rewrite read_octets_app, Hr].
Qed.

Section Receive.
Variable os : rtos.
Variable fs : list frame.
Context `{!SaneDevice os, !PeerSends os fs}.

(** C2: the reader's totality.  After a successful initialisation, while
    the peer sends valid ACL and event packets, however the device cuts the
    stream into reads, the reader never asserts: every number of iterations
    returns, the packets handed to the host are a prefix of the packets
    sent, in order, and once the whole stream is read they are all of them,
    the decoder being idle again. *)
Theorem reader_delivers_stream n w w1 :
  read_octets (calls w) = [] -> delivered (calls w) = [] ->
  ble_transport_rtthread_init os w = Ok (0, w1) ->
  exists w',
    rtthread_hci_uart_entry os n w1 = Ok (tt, w') /\
    delivered (calls w') `prefix_of` fs /\
    (read_octets (calls w') = h4_stream fs ->
     delivered (calls w') = fs /\ g_hci_h4sm (drv w') = W4_PKT_TYPE).
Proof.
  intros Hr Hd Hinit.
  destruct (init_reader_ok os fs w w1 Hr Hd Hinit) as [Hok _].
  destruct (entry_peer os fs n w1 Hok) as (w' & ? & ? & ? & ?). eauto.
Qed.

End Receive.

(** ** The theorems at concrete worlds

    Runs on the reference devices of [Rtos]: device handle 1, thread 2. *)

(** The reference device plays the encodings of [fs]. *)
Lemma ref_rtos_peer wchunk rchunk fs :
  Forall valid_frame fs -> forallb to_host fs = true ->
  PeerSends (ref_rtos wchunk rchunk (h4_stream fs)) fs.
Proof. split; [done..|]. intros. by apply ref_rtos_prefix. Qed.

(** The world a run ends in ([w] itself when it aborts). *)
Definition tfinal {A} (m : M tworld A) (w : tworld) : tworld :=
  match m w with Ok (_, w') => w' | Abort _ => w end.

(** The world at power-on, and with the link up. *)
Definition w_off : tworld := TWorld transport_init [].
Definition w_up : tworld := TWorld (set_g_hci_uart 1 transport_init) [].

(** An event (command complete) and an ACL data packet. *)
Definition evt1 : frame := (HCI_H4_EVT, [14; 1; 5]).
Definition acl1 : frame := (HCI_H4_ACL, [1; 0; 2; 0; 7; 8]).
Definition cmd1 : list Z := [3; 12; 0].

Definition ref_peer : rtos := ref_rtos 2 4 (h4_stream [evt1; acl1]).

#[export] Instance ref_peer_sends : PeerSends ref_peer [evt1; acl1].
Proof. apply ref_rtos_peer; [|done]. by repeat constructor. Qed.

Definition w_peer_init : tworld :=
  Eval vm_compute in tfinal (ble_transport_rtthread_init ref_peer) w_off.

Definition w_peer_2 : tworld :=
  Eval vm_compute in tfinal (rtthread_hci_uart_entry ref_peer 2) w_up.

Definition w_busy : tworld :=
  Eval vm_compute in
    tfinal (ble_transport_rtthread_init (init_rtos 1 (-7) 0 2)) w_off.

Lemma write_all_stall_witness :
  rtthread_ble_hci_uart_write_all (const_rtos 0) 1000 [1; 2; 3] 3 w_up =
  Abort spin_write_all.
Proof.
  apply (write_all_stall (const_rtos 0) 1000 [1; 2; 3] 3 w_up);
    [reflexivity | cbn; lia | lia].
Defined.

Lemma write_all_overrun_witness :
  rtthread_ble_hci_uart_write_all (const_rtos 5) 2 [1; 2; 3] 2 w_up =
  Abort oob_write_all.
Proof.
  apply (write_all_overrun (const_rtos 5) 0 [1; 2; 3] 2 w_up);
    [cbn; lia | cbn; lia | by vm_compute].
Defined.

Lemma write_all_terminates_witness :
  exists ws,
    rtthread_ble_hci_uart_write_all ref_peer 3 [1; 2; 3] 3 w_up =
      Ok (tt, TWorld (drv w_up) (calls w_up ++ ws)) /\
    forallb is_write ws = true /\ wire ws = take (Z.to_nat 3) [1; 2; 3].
Proof.
  apply (write_all_terminates ref_peer 3 [1; 2; 3] 3 w_up); cbn; lia.
Defined.

Lemma cmd_send_writes_frame_witness :
  let f := (HCI_H4_CMD, take (Z.to_nat (3 + 0)) cmd1) in
  valid_frame f /\
  exists ws,
    ble_transport_to_ll_cmd_impl ref_peer 3 cmd1 w_up =
    Ok (0, TWorld (drv w_up) (calls w_up ++ ws ++ [transport_free_call cmd1])) /\
    forallb is_write ws = true /\ wire ws = h4_encode f.
Proof.
  apply (cmd_send_writes_frame ref_peer 3 cmd1 0 w_up);
    [done | done | unfold is_u8; lia | cbn; lia | lia].
Defined.

Lemma acl_send_writes_chain_witness :
  let om := [{| om_data := [1; 0; 2; 0]; om_len := 4 |};
             {| om_data := [7; 8; 0; 0]; om_len := 2 |}] in
  exists ws,
    ble_transport_to_ll_acl_impl ref_peer 4 om w_up =
    Ok (0, TWorld (drv w_up) (calls w_up ++ ws ++ [mbuf_free_chain_call om])) /\
    forallb is_write ws = true /\
    wire ws = h4_encode (HCI_H4_ACL, os_mbuf_flat om).
Proof.
  apply (acl_send_writes_chain ref_peer 4 _ w_up);
    [done | | lia | ]; repeat constructor; cbn; lia.
Defined.

Lemma senders_assert_uninitialised_witness :
  ble_transport_to_ll_cmd_impl ref_peer 3 cmd1 w_off = Abort assert_uart_cmd /\
  ble_transport_to_ll_acl_impl ref_peer 3 [] w_off = Abort assert_uart_acl.
Proof.
  apply (senders_assert_uninitialised ref_peer 3 cmd1 [] w_off). reflexivity.
Defined.

Lemma cmd_send_truncated_witness :
  ble_transport_to_ll_cmd_impl ref_peer 4 [3; 12; 9; 0] w_up =
  Abort oob_write_all.
Proof.
  apply (cmd_send_truncated ref_peer 3 [3; 12; 9; 0] 9 w_up);
    [done | done | cbn; lia | reflexivity].
Defined.

Lemma sent_command_decodes_witness :
  exists w',
    ble_transport_to_ll_cmd_impl ref_peer 3 cmd1 w_up = Ok (0, w') /\
    (wire (calls w') = wire (calls w_up) ++ concat [[1; 3]; [12]; [0]] ->
     h4_feed_chunks W4_PKT_TYPE [[1; 3]; [12]; [0]] =
     Some (W4_PKT_TYPE, [(HCI_H4_CMD, take (Z.to_nat (3 + 0)) cmd1)])).
Proof.
  apply (sent_command_decodes ref_peer 3 cmd1 0 w_up);
    [done | done | unfold is_u8; lia | cbn; lia | lia].
Defined.

Lemma reader_sound_witness :
  (reader_inv w_peer_2 /\ wire (calls w_peer_2) = wire (calls w_up) /\
   g_hci_uart (drv w_peer_2) = g_hci_uart (drv w_up)) /\
  sm_wf (g_hci_h4sm (drv w_peer_2)) /\
  Forall valid_frame (delivered (calls w_peer_2)) /\
  read_octets (calls w_peer_2) =
    h4_stream (delivered (calls w_peer_2)) ++
    sm_pending (g_hci_h4sm (drv w_peer_2)).
Proof.
  apply (reader_sound ref_peer 2 w_up w_peer_2); reflexivity.
Defined.

Lemma reader_asserts_on_command_witness :
  rtthread_hci_uart_entry_iter (ref_rtos 1 63 (h4_encode (HCI_H4_CMD, cmd1)))
    w_up = Abort assert_frame_cb.
Proof.
  apply (reader_asserts_on_command (ref_rtos 1 63 (1 :: cmd1)) w_up
           W4_PKT_TYPE [(HCI_H4_CMD, cmd1)]); [by vm_compute | done | done].
Defined.

Lemma reader_asserts_on_malformed_witness :
  rtthread_hci_uart_entry_iter (ref_rtos 1 63 [9; 14; 1; 5]) w_up =
  Abort assert_pkt_type.
Proof.
  apply (reader_asserts_on_malformed (ref_rtos 1 63 [9; 14; 1; 5]) w_up
           9 [14; 1; 5]); [done | done | by vm_compute | done..].
Defined.

Lemma reader_two_frames_one_read_witness :
  exists w',
    rtthread_hci_uart_entry_iter (ref_rtos 1 63 (h4_stream [evt1; acl1])) w_up
      = Ok (tt, w') /\
    delivered (calls w') = delivered (calls w_up) ++ [evt1; acl1] /\
    g_hci_h4sm (drv w') = W4_PKT_TYPE.
Proof.
  apply (reader_two_frames_one_read (ref_rtos 1 63 (h4_stream [evt1; acl1]))
           w_up evt1 acl1);
    [done | done | by vm_compute | by repeat constructor
    | by repeat constructor | done | done].
Defined.

Lemma reader_no_overflow_witness :
  ARRAY_SIZE sizeof_rx 1 = 63 /\
  rtthread_hci_uart_entry_iter ref_peer w_up <> Abort oob_rx.
Proof. apply (reader_no_overflow ref_peer w_up). Defined.

Lemma reader_delivers_stream_witness :
  exists w',
    rtthread_hci_uart_entry ref_peer 3 w_peer_init = Ok (tt, w') /\
    delivered (calls w') `prefix_of` [evt1; acl1] /\
    (read_octets (calls w') = h4_stream [evt1; acl1] ->
     delivered (calls w') = [evt1; acl1] /\
     g_hci_h4sm (drv w') = W4_PKT_TYPE).
Proof.
  apply (reader_delivers_stream ref_peer [evt1; acl1] 3 w_off w_peer_init);
    reflexivity.
Defined.

Lemma init_success_spawns_one_reader_witness :
  exists dev rc1 rc2 tid,
    dev <> RT_NULL /\ rc1 <> - RT_EBUSY /\ rc2 <> - RT_EBUSY /\
    tid <> RT_NULL /\
    drv w_peer_init = {| g_hci_h4sm := W4_PKT_TYPE; g_hci_uart := dev;
                         g_hci_tid := tid |} /\
    calls w_peer_init = calls w_off ++ init_calls dev rc1 rc2 tid.
Proof.
  apply (init_success_spawns_one_reader ref_peer w_off w_peer_init).
  reflexivity.
Defined.

Lemma init_failure_starts_no_thread_witness :
  -1 = -1 /\
  exists dev rc1 rc2 tid n,
    answers (init_rtos 1 (-7) 0 2) (calls w_off) dev rc1 rc2 tid /\
    (dev = RT_NULL /\ n = 1 \/ rc1 = - RT_EBUSY /\ n = 2 \/
     rc2 = - RT_EBUSY /\ n = 3)%nat /\
    g_hci_uart (drv w_busy) = dev /\
    g_hci_tid (drv w_busy) = g_hci_tid (drv w_off) /\
    calls w_busy =
    calls w_off ++ take n (init_calls dev rc1 rc2 tid) ++ [init_failed].
Proof.
  apply (init_failure_starts_no_thread (init_rtos 1 (-7) 0 2) w_off (-1)
           w_busy); [reflexivity | lia].
Defined.

Lemma init_succeeds_unless_busy_witness :
  let os := init_rtos 1 (-1) 0 2 in
  ((exists w', ble_transport_rtthread_init os w_off = Ok (0, w')) <->
   1 <> RT_NULL /\ -1 <> - RT_EBUSY /\ 0 <> - RT_EBUSY /\ 2 <> RT_NULL) /\
  (ble_transport_rtthread_init os w_off = Abort assert_tid <->
   1 <> RT_NULL /\ -1 <> - RT_EBUSY /\ 0 <> - RT_EBUSY /\ 2 = RT_NULL) /\
  (forall e, ble_transport_rtthread_init os w_off = Abort e -> e = assert_tid).
Proof.
  apply (init_succeeds_unless_busy (init_rtos 1 (-1) 0 2) w_off 1 (-1) 0 2).
  by repeat split.
Defined.

Lemma send_after_busy_open_witness :
  let os := init_rtos 1 (-7) 0 2 in
  exists w1 w2,
    ble_transport_rtthread_init os w_off = Ok (-1, w1) /\
    g_hci_uart (drv w1) = 1 /\
    ble_transport_to_ll_cmd_impl os 3 cmd1 w1 = Ok (0, w2) /\
    wire (calls w2) =
    wire (calls w_off) ++ h4_encode (HCI_H4_CMD, take (Z.to_nat (3 + 0)) cmd1).
Proof.
  apply (send_after_busy_open (init_rtos 1 (-7) 0 2) w_off 1 (-7) 0 2 3
           cmd1 0);
    [by repeat split | done | done | done | unfold is_u8; lia | cbn; lia | lia].
Defined.
