(* ===== verification/Interleave.v ===== *)
(** * Interleave: two senders on one serial link

    [ble_transport_to_ll_cmd_impl] and [ble_transport_to_ll_acl_impl] take
    no lock, and the specification lets any task call them.  Under a
    preemptive scheduler the unit that cannot be interrupted is one call of
    [rt_device_write]; between two such calls another task may run.

    This file gives the senders a small-step semantics, one device write per
    step: a [thread] is what a sender still has to do (the calls of
    [rtthread_ble_hci_uart_write_all] not yet finished, then the release of
    its buffer).  [thread_step] is one iteration of the writing loop,
    [run_alone] a sender running by itself, [run_sched] two senders under a
    schedule.

    That the two renderings of a sender agree is a lemma about the model
    ([thread_refines_sender]: a sender running alone makes exactly the
    calls of the function of [Transport]); the properties of the driver
    are about two senders:

    - [Interleave.serial_schedule_keeps_frames]: when one sender finishes
      before the other starts, the wire holds the two packets one after the
      other.
    - [Interleave.alternating_schedule_interleaves]: when the scheduler
      alternates, the type octet of the second packet lands inside the
      first: nothing in the code serialises the writers.
    - [Interleave.every_schedule_shuffles]: under every schedule the wire
      gains an interleaving ([shuffle]) of the two encodings: octets are
      never lost or reordered within a packet. *)

From Stdlib Require Import ZArith Lia String.
From stdpp Require Import base tactics option list numbers strings.
From S2P Require Import Prelude HciH4 Rtos Transport.

#[local] Open Scope Z_scope.
#[local] Open Scope nimble_scope.

(** ** Threads *)

(** A call of [rtthread_ble_hci_uart_write_all] in progress: the memory
    from [buf] on and [remaining]. *)
Definition job : Type := list Z * Z.

(** A sender: the writes it still has to make, then its last calls. *)
Record thread : Type := Thread { jobs : list job; last_calls : list rt_call }.

(** The command sender after its assertion, [n] being [cmd[2]]. *)
Definition cmd_thread (buf : list Z) (n : Z) : thread :=
  Thread [([HCI_H4_CMD], 1); (buf, 3 + n)] [transport_free_call buf].

(** The ACL sender after its assertion. *)
Definition acl_thread (om : list os_mbuf) : thread :=
  Thread (([HCI_H4_ACL], 1) :: map (fun seg => (om_data seg, om_len seg)) om)
         [mbuf_free_chain_call om].

(** The jobs from the first one that has octets left: a loop whose
    [remaining] is 0 exits without a call. *)
Fixpoint next_job (js : list job) : list job :=
  match js with
  | [] => []
  | (buf, remaining) :: js' => if 0 <? remaining then js else next_job js'
  end.

Section Steps.
Variable os : rtos.
Variable uart : Z.

(** One call: an iteration of the writing loop, or a last call.  [None]:
    the sender has returned. *)
Definition thread_step (t : thread) (l : list rt_call) :
    res (option (thread * list rt_call)) :=
  match next_job (jobs t) with
  | (buf, remaining) :: js =>
      if Z.of_nat (length buf) <? remaining then Abort oob_write_all
      else
        let r := rt_device_write os uart 0 (take (Z.to_nat remaining) buf) l in
        Ok (Some (Thread ((drop (Z.to_nat r.1) buf, size_t (remaining - r.1))
                            :: js) (last_calls t), r.2))
  | [] =>
      match last_calls t with
      | c :: cs => Ok (Some (Thread [] cs, l ++ [c]))
      | [] => Ok None
      end
  end.

(** A sender by itself, for at most [k] calls: the calls when it has
    returned, [None] when it is still running. *)
Fixpoint run_alone (k : nat) (t : thread) (l : list rt_call) :
    res (option (list rt_call)) :=
  match thread_step t l with
  | Ok None => Ok (Some l)
  | Ok (Some (t', l')) =>
      match k with
      | O => Ok None
      | S k => run_alone k t' l'
      end
  | Abort e => Abort e
  end.

(** Two senders under a schedule: [true] lets the first one make a call,
    [false] the second one; a sender that has returned is skipped. *)
Fixpoint run_sched (sched : list bool) (t1 t2 : thread) (l : list rt_call) :
    res (thread * thread * list rt_call) :=
  match sched with
  | [] => Ok (t1, t2, l)
  | true :: sched =>
      match thread_step t1 l with
      | Ok (Some (t1', l')) => run_sched sched t1' t2 l'
      | Ok None => run_sched sched t1 t2 l
      | Abort e => Abort e
      end
  | false :: sched =>
      match thread_step t2 l with
      | Ok (Some (t2', l')) => run_sched sched t1 t2' l'
      | Ok None => run_sched sched t1 t2 l
      | Abort e => Abort e
      end
  end.

End Steps.

(** ** Specifications *)

(** The C function a thread is the rest of: the pending writes, then the
    last calls. *)
Fixpoint write_jobs (os : rtos) (fuel : nat) (js : list job) : M tworld unit :=
  match js with
  | [] => ret tt
  | (buf, remaining) :: js =>
      rtthread_ble_hci_uart_write_all os fuel buf remaining ;;
      write_jobs os fuel js
  end.

Definition run_thread (os : rtos) (fuel : nat) (t : thread) : M tworld unit :=
  write_jobs os fuel (jobs t) ;;
  env_ (fun l => l ++ last_calls t).

(** A job within its buffer. *)
Definition job_ok (j : job) : Prop :=
  0 <= j.2 <= Z.of_nat (length j.1) /\ j.2 < 2 ^ 32.

(** The calls a thread still has to make, at most. *)
Definition work (t : thread) : Z :=
  foldr (fun j s => j.2 + s) 0 (jobs t) + Z.of_nat (length (last_calls t)).

(** The octets a thread still has to write. *)
Definition pending (t : thread) : list Z :=
  jobs t ≫= fun j => take (Z.to_nat j.2) j.1.

(** The octets a thread still has to put on the wire. *)
Definition thread_wire (t : thread) : list Z :=
  pending t ++ wire (last_calls t).

(** [shuffle a b w]: [w] interleaves [a] and [b] and keeps the order of
    each. *)
Inductive shuffle {A : Type} : list A -> list A -> list A -> Prop :=
| shuffle_nil : shuffle [] [] []
| shuffle_l x a b w : shuffle a b w -> shuffle (x :: a) b (x :: w)
| shuffle_r x a b w : shuffle a b w -> shuffle a (x :: b) (x :: w).

(** The steps a schedule gives to the first ([true]) or to the second
    ([false]) sender. *)
Definition slots (b : bool) (sched : list bool) : nat :=
  length (filter (fun x => x = b) sched).

(** Within [k] calls the thread [t], started after the calls [l], returns
    after the calls [l']; so does the C function it is the rest of, with
    [fuel] for each writing loop; the wire has gained the thread's octets. *)
Definition returns `{!SaneDevice os} (d : transport) (fuel k : nat)
    (t : thread) (l l' : list rt_call) : Prop :=
  run_alone os (g_hci_uart d) k t l = Ok (Some l') /\
  run_thread os fuel t (TWorld d l) = Ok (tt, TWorld d l') /\
  wire l' = wire l ++ pending t ++ wire (last_calls t).

(** ** Facts *)

Lemma next_job_suffix js : next_job js `suffix_of` js.
Proof.
  induction js as [|[buf r] js IH]; cbn; [done|].
  case_ltb; [done|]. by apply suffix_cons_r.
Qed.

Lemma next_job_head js buf r js' :
  next_job js = (buf, r) :: js' -> 0 < r.
Proof.
  induction js as [|[b x] js IH]; cbn; [done|].
  case_ltb; [|done]. by intros [= -> -> ->].
Qed.

Lemma pending_next js :
  (next_job js ≫= fun j => take (Z.to_nat j.2) j.1) =
  (js ≫= fun j => take (Z.to_nat j.2) j.1).
Proof.
  induction js as [|[b x] js IH]; cbn; [done|].
  case_ltb; [done|]. rewrite IH. by replace (Z.to_nat x) with 0%nat by lia.
Qed.

Lemma work_next js :
  Forall job_ok js ->
  foldr (fun j s => j.2 + s) 0 (next_job js) = foldr (fun j s => j.2 + s) 0 js.
Proof.
  induction 1 as [|[b x] js [Hx _] _ IH]; cbn in *; [done|].
  case_ltb; [done|]. lia.
Qed.

Lemma work_nonneg js :
  Forall job_ok js -> 0 <= foldr (fun j s => j.2 + s) 0 js.
Proof. induction 1 as [|[b x] js [Hx _] _ IH]; cbn in *; lia. Qed.

Lemma next_job_Forall (P : job -> Prop) js :
  Forall P js -> Forall P (next_job js).
Proof.
  intros H. destruct (next_job_suffix js) as [pre Hpre].
  rewrite Hpre in H. by apply Forall_app in H as [_ H].
Qed.

(** The work of a thread, by its next call. *)
Lemma work_split t :
  Forall job_ok (jobs t) ->
  match next_job (jobs t) with
  | [] => work t = Z.of_nat (length (last_calls t))
  | (buf, r) :: js =>
      0 < r /\ job_ok (buf, r) /\ Forall job_ok js /\
      work t = r + foldr (fun j s => j.2 + s) 0 js
               + Z.of_nat (length (last_calls t)) /\
      0 <= foldr (fun j s => j.2 + s) 0 js
  end.
Proof.
  intros Hok. unfold work. rewrite <- work_next by done.
  pose proof (next_job_Forall _ _ Hok) as Hok'.
  destruct (next_job (jobs t)) as [|[buf r] js] eqn:Hj; [done|].
  apply Forall_cons in Hok' as [Hj1 Hok'].
  eauto 10 using next_job_head, work_nonneg.
Qed.

Section Alone.
Variable os : rtos.

(** Jobs without octets left make no call. *)
Lemma write_jobs_next fuel js w :
  write_jobs os fuel (next_job js) w = write_jobs os fuel js w.
Proof.
  induction js as [|[b x] js IH]; cbn [next_job]; [done|].
  case_ltb; [done|]. cbn [write_jobs]. unfold bind.
  by rewrite write_all_done by lia.
Qed.

Context `{!SaneDevice os, !ProgressingDevice os}.

(** One more unit of fuel than enough changes nothing. *)
Lemma write_all_succ fuel buf remaining w :
  0 <= remaining <= Z.of_nat (length buf) -> remaining < 2 ^ 32 ->
  remaining <= Z.of_nat fuel ->
  rtthread_ble_hci_uart_write_all os (S fuel) buf remaining w =
  rtthread_ble_hci_uart_write_all os fuel buf remaining w.
Proof.
  intros Hr Hlt Hf.
  destruct (write_all_ok os fuel buf remaining w Hr Hlt Hf) as (w' & Hw & _).
  apply (write_all_fuel os fuel); [done| |lia]. by rewrite Hw.
Qed.

(** The first iteration of the writing loop, as a step of the thread and as
    the C function. *)
Lemma first_write fuel buf r js lc d l :
  job_ok (buf, r) -> 0 < r -> r <= Z.of_nat fuel ->
  let uart := g_hci_uart d in
  let data := take (Z.to_nat r) buf in
  let n := size_t (write_device os l uart 0 data) in
  let l1 := l ++ [device_write_call uart 0 data n] in
  let j := (drop (Z.to_nat n) buf, r - n) in
  1 <= n <= r /\ job_ok j /\
  thread_step os uart (Thread ((buf, r) :: js) lc) l =
    Ok (Some (Thread (j :: js) lc, l1)) /\
  write_jobs os fuel ((buf, r) :: js) (TWorld d l) =
    write_jobs os fuel (j :: js) (TWorld d l1).
Proof.
  intros [Hr Hlt] Hpos Hf uart data n l1 j. cbn in Hr, Hlt.
  assert (length data = Z.to_nat r) as Hlen
    by (unfold data; rewrite length_take; lia).
  destruct (write_len_range os l uart 0 data) as [Hn1 Hn2];
    [intros Hd; rewrite Hd in Hlen; cbn in Hlen; lia | lia |].
  fold n in Hn1, Hn2.
  assert (job_ok j) as Hj.
  { unfold job_ok, j. cbn. rewrite length_drop. lia. }
  split; [lia|]. split; [done|]. split.
  - unfold thread_step. cbn. case_ltb; [|lia]. case_ltb; [lia|]. cbn.
    fold uart data n. by rewrite size_t_small by lia.
  - destruct fuel as [|fuel]; [lia|]. unfold j in *. cbn [write_jobs].
    unfold bind.
    rewrite write_all_step by (cbn; lia). cbv zeta. cbn [drv calls].
    fold uart data n l1. rewrite (size_t_small (r - n)) by lia.
    destruct Hj as [Hj1 Hj2]. by rewrite write_all_succ by (cbn in *; lia).
Qed.

End Alone.

Section Returns.
Variable os : rtos.
Context `{!SaneDevice os, !ProgressingDevice os}.
Implicit Types (t : thread) (d : transport) (l : list rt_call).

(** A thread with nothing left has returned. *)
Lemma returns_done d fuel k t l :
  next_job (jobs t) = [] -> last_calls t = [] -> returns d fuel k t l l.
Proof.
  intros Hj Hl. unfold returns, run_thread, pending.
  rewrite <- pending_next, Hj, Hl. cbn. unfold bind.
  rewrite <- write_jobs_next, Hj. cbn. unfold env_. cbn.
  rewrite !app_nil_r. split; [|done].
  destruct k; cbn; unfold thread_step; by rewrite Hj, Hl.
Qed.

(** A last call. *)
Lemma returns_last d fuel k t l c cs l' :
  next_job (jobs t) = [] -> last_calls t = c :: cs ->
  returns d fuel k (Thread [] cs) (l ++ [c]) l' ->
  returns d fuel (S k) t l l'.
Proof.
  intros Hj Hl (Hrun & Hbig & Hw). unfold returns, run_thread, pending in *.
  rewrite <- pending_next, Hj, Hl. cbn -[wire] in *. unfold bind in *.
  rewrite <- write_jobs_next, Hj. cbn -[wire] in *. unfold thread_step at 1.
  rewrite Hj, Hl. split; [done|]. injection Hbig as <-. unfold env_. cbn.
  split; [by rewrite <- app_assoc|]. rewrite Hw, wire_app, !wire_cons.
  by rewrite wire_nil, !app_nil_r, <- app_assoc.
Qed.

(** An iteration of the writing loop. *)
Lemma returns_write d fuel k t l buf r js :
  next_job (jobs t) = (buf, r) :: js -> job_ok (buf, r) ->
  r <= Z.of_nat fuel ->
  let data := take (Z.to_nat r) buf in
  let n := size_t (write_device os l (g_hci_uart d) 0 data) in
  let c := device_write_call (g_hci_uart d) 0 data n in
  forall l',
    returns d fuel k (Thread ((drop (Z.to_nat n) buf, r - n) :: js)
                        (last_calls t)) (l ++ [c]) l' ->
    returns d fuel (S k) t l l'.
Proof.
  intros Hj Hok Hf data n c l' (Hrun & Hbig & Hw).
  pose proof (next_job_head _ _ _ _ Hj) as Hpos.
  destruct (first_write os fuel buf r js (last_calls t) d l Hok Hpos Hf)
    as (Hn & Hj' & Hstep & Hjobs).
  fold data n c in Hn, Hstep, Hjobs.
  unfold returns, run_thread, pending in *. cbn [jobs last_calls] in *.
  unfold bind in *. rewrite <- write_jobs_next, Hj, Hjobs.
  rewrite <- pending_next, Hj. split; [|split; [done|]].
  - cbn [run_alone]. unfold thread_step in Hstep |- *.
    cbn [jobs last_calls] in Hstep. rewrite Hj.
    destruct (Z.ltb_spec 0 r); [|lia]. cbn [next_job] in Hstep.
    destruct (Z.ltb_spec 0 r); [|lia]. by rewrite Hstep.
  - rewrite Hw, wire_app, wire_cons, wire_nil, app_nil_r. cbn.
    rewrite <- (take_take_drop_Z buf n r) by lia. by rewrite <- !app_assoc.
Qed.

(** A thread returns within [work t] calls, as the C function does. *)
Lemma thread_returns d fuel k t l :
  Forall job_ok (jobs t) -> work t <= Z.of_nat k ->
  Forall (fun j => j.2 <= Z.of_nat fuel) (jobs t) ->
  exists l', returns d fuel k t l l'.
Proof.
  revert t l. induction k as [|k IH]; intros t l Hok Hwork Hfuel;
    pose proof (work_split t Hok) as Hsplit;
    pose proof (next_job_Forall _ _ Hfuel) as Hfuel';
    destruct (next_job (jobs t)) as [|[buf r] js] eqn:Hj;
    [destruct (last_calls t) as [|c cs] eqn:Hl| |
     destruct (last_calls t) as [|c cs] eqn:Hl|];
    eauto using returns_done; cbn in *; try lia.
  - destruct (IH (Thread [] cs) (l ++ [c])) as [l' Hl'];
      [done | unfold work; cbn; lia | done |].
    eauto using returns_last.
  - destruct Hsplit as (Hpos & Hj1 & Hjs & Hwk & Hnn).
    apply Forall_cons in Hfuel' as [Hf1 Hfuel']. cbn in Hf1.
    destruct (first_write os fuel buf r js (last_calls t) d l)
      as (Hn & Hj' & _); [done..|].
    set (n := size_t _) in Hn, Hj'.
    destruct (IH (Thread ((drop (Z.to_nat n) buf, r - n) :: js)
                    (last_calls t)) (l ++ [device_write_call (g_hci_uart d) 0
                      (take (Z.to_nat r) buf) n])) as [l' Hl'];
      [by constructor | unfold work; cbn; lia
      |constructor; [cbn; lia|done] |].
    eauto using returns_write.
Qed.

End Returns.

(** ** The senders as threads *)

Section Senders.
Variable os : rtos.
Implicit Types (t : thread) (l : list rt_call) (om : list os_mbuf).

Lemma write_jobs_chain fuel om w :
  write_jobs os fuel (map (fun seg => (om_data seg, om_len seg)) om) w =
  write_mbuf_chain os fuel om w.
Proof.
  revert w. induction om as [|seg om IH]; intros w; cbn; [done|].
  unfold bind. by destruct (rtthread_ble_hci_uart_write_all _ _ _ _ _)
    as [[[] w1]|].
Qed.

(** The command sender past its assertion is its thread. *)
Lemma cmd_impl_thread fuel buf n w :
  g_hci_uart (drv w) <> RT_NULL -> buf !! 2%nat = Some n ->
  ble_transport_to_ll_cmd_impl os fuel buf w =
  (run_thread os fuel (cmd_thread buf n) ;; ret 0) w.
Proof.
  intros Hu Hb. unfold ble_transport_to_ll_cmd_impl, run_thread. trun.
  destruct (Z.eqb_spec (g_hci_uart (drv w)) RT_NULL); [done|]. cbn.
  rewrite Hb. unfold bind.
  by repeat destruct (rtthread_ble_hci_uart_write_all _ _ _ _ _)
    as [[[] ?]|].
Qed.

(** So is the ACL sender. *)
Lemma acl_impl_thread fuel om w :
  g_hci_uart (drv w) <> RT_NULL ->
  ble_transport_to_ll_acl_impl os fuel om w =
  (run_thread os fuel (acl_thread om) ;; ret 0) w.
Proof.
  intros Hu. unfold ble_transport_to_ll_acl_impl, run_thread. trun.
  destruct (Z.eqb_spec (g_hci_uart (drv w)) RT_NULL); [done|]. cbn.
  unfold bind.
  destruct (rtthread_ble_hci_uart_write_all _ _ _ _ _) as [[[] ?]|]; [|done].
  rewrite write_jobs_chain. by destruct (write_mbuf_chain _ _ _ _) as [[[] ?]|].
Qed.

Lemma cmd_thread_ok buf n :
  is_u8 n -> 3 + n <= Z.of_nat (length buf) ->
  Forall job_ok (jobs (cmd_thread buf n)).
Proof.
  intros [] ?. repeat constructor; cbn; lia.
Qed.

Lemma acl_thread_ok om :
  Forall seg_ok om -> Forall job_ok (jobs (acl_thread om)).
Proof.
  intros Hom. constructor; [repeat split; cbn; lia|].
  apply Forall_map. eapply Forall_impl; [done|].
  intros seg [Hlen Hu]. unfold job_ok, is_u16 in *. cbn. lia.
Qed.

Lemma pending_chain om :
  (map (fun seg => (om_data seg, om_len seg)) om
     ≫= fun j => take (Z.to_nat j.2) j.1) = os_mbuf_flat om.
Proof.
  unfold os_mbuf_flat. induction om as [|seg om IH]; cbn; [done|].
  by rewrite IH.
Qed.

Lemma pending_acl om : pending (acl_thread om) = HCI_H4_ACL :: os_mbuf_flat om.
Proof. unfold pending. cbn. by rewrite pending_chain. Qed.

Context `{!SaneDevice os, !ProgressingDevice os}.

(** The small-step semantics is the program.  On a device that makes
    progress, each sender run as a thread by itself returns within [work]
    calls, and the calls it has made are the calls of the C function, which
    returns 0. *)
Lemma thread_refines_sender fuel k buf n om w :
  g_hci_uart (drv w) <> RT_NULL ->
  buf !! 2%nat = Some n -> is_u8 n -> 3 + n <= Z.of_nat (length buf) ->
  Forall seg_ok om ->
  Forall (fun j => j.2 <= Z.of_nat fuel)
    (jobs (cmd_thread buf n) ++ jobs (acl_thread om)) ->
  work (cmd_thread buf n) <= Z.of_nat k -> work (acl_thread om) <= Z.of_nat k ->
  (exists l',
     run_alone os (g_hci_uart (drv w)) k (cmd_thread buf n) (calls w) =
       Ok (Some l') /\
     ble_transport_to_ll_cmd_impl os fuel buf w = Ok (0, TWorld (drv w) l')) /\
  (exists l',
     run_alone os (g_hci_uart (drv w)) k (acl_thread om) (calls w) =
       Ok (Some l') /\
     ble_transport_to_ll_acl_impl os fuel om w = Ok (0, TWorld (drv w) l')).
Proof.
  intros Hu Hb Hn Hlen Hom [Hf1 Hf2]%Forall_app Hk1 Hk2. destruct w as [d l].
  split.
  - destruct (thread_returns os d fuel k (cmd_thread buf n) l)
      as (l' & Hrun & Hbig & _); [by apply cmd_thread_ok|done..|].
    exists l'. rewrite (cmd_impl_thread fuel buf n) by done.
    by rewrite (bind_ok _ _ _ _ _ Hbig).
  - destruct (thread_returns os d fuel k (acl_thread om) l)
      as (l' & Hrun & Hbig & _); [by apply acl_thread_ok|done..|].
    exists l'. rewrite acl_impl_thread by done.
    by rewrite (bind_ok _ _ _ _ _ Hbig).
Qed.

End Senders.

(** ** Schedules *)

Section Schedules.
Variable os : rtos.
Variable uart : Z.
Context `{!SaneDevice os, !ProgressingDevice os}.
Implicit Types (t : thread) (l : list rt_call) (om : list os_mbuf).

(** Whether a sender has returned does not depend on the calls so far. *)
Lemma step_none t l l0 :
  thread_step os uart t l = Ok None -> thread_step os uart t l0 = Ok None.
Proof.
  unfold thread_step. destruct (next_job (jobs t)) as [|[buf r] js];
    [by destruct (last_calls t)|by case_ltb].
Qed.

Lemma run_alone_done k t l :
  thread_step os uart t l = Ok None -> run_alone os uart k t l = Ok (Some l).
Proof. intros H. destruct k; cbn; by rewrite H. Qed.

(** No job asks for more than the work of the thread. *)
Lemma job_le_work js :
  Forall job_ok js ->
  Forall (fun j => j.2 <= foldr (fun j s => j.2 + s) 0 js) js.
Proof.
  induction 1 as [|j js [Hj _] Hjs IH]; constructor; cbn.
  - pose proof (work_nonneg js Hjs). lia.
  - eapply Forall_impl; [done|]. cbn. lia.
Qed.

(** A sender by itself returns, its octets on the wire. *)
Lemma thread_runs_alone k t l :
  Forall job_ok (jobs t) -> work t <= Z.of_nat k ->
  exists l',
    run_alone os uart k t l = Ok (Some l') /\
    wire l' = wire l ++ pending t ++ wire (last_calls t).
Proof.
  intros Hok Hk.
  destruct (thread_returns os (set_g_hci_uart uart transport_init)
              (Z.to_nat (work t)) k t l) as (l' & Hrun & _ & Hw); [done..| |].
  - eapply Forall_impl; [by apply job_le_work|]. unfold work. cbn. lia.
  - by exists l'.
Qed.

(** A schedule that lets one sender run until it has returned. *)
Lemma run_sched_alone (b : bool) k sched t1 t2 l l' :
  run_alone os uart k (if b then t1 else t2) l = Ok (Some l') ->
  exists t',
    (forall l0, thread_step os uart t' l0 = Ok None) /\
    run_sched os uart (replicate k b ++ sched) t1 t2 l =
    if b then run_sched os uart sched t' t2 l'
    else run_sched os uart sched t1 t' l'.
Proof.
  revert t1 t2 l. induction k as [|k IH]; intros t1 t2 l Hrun;
    cbn [replicate app run_sched run_alone] in *;
    destruct (thread_step _ _ (if b then t1 else t2) l)
      as [[[t' l1]|]|] eqn:E; try done.
  - injection Hrun as <-. exists (if b then t1 else t2).
    split; [eauto using step_none|]. by destruct b.
  - destruct b; rewrite E; [apply (IH t' t2 l1 Hrun)|apply (IH t1 t' l1 Hrun)].
  - injection Hrun as <-.
    destruct b; rewrite E; apply IH; by apply run_alone_done.
Qed.

(** One sender after the other. *)
Lemma serial_schedule k1 k2 t1 t2 l :
  Forall job_ok (jobs t1) -> Forall job_ok (jobs t2) ->
  work t1 <= Z.of_nat k1 -> work t2 <= Z.of_nat k2 ->
  exists t1' t2' l',
    run_sched os uart (replicate k1 true ++ replicate k2 false) t1 t2 l =
      Ok (t1', t2', l') /\
    wire l' = wire l ++ (pending t1 ++ wire (last_calls t1))
                     ++ pending t2 ++ wire (last_calls t2).
Proof.
  intros Hok1 Hok2 Hk1 Hk2.
  destruct (thread_runs_alone k1 t1 l Hok1 Hk1) as (l1 & Hrun1 & Hw1).
  destruct (thread_runs_alone k2 t2 l1 Hok2 Hk2) as (l2 & Hrun2 & Hw2).
  destruct (run_sched_alone true k1 (replicate k2 false) t1 t2 l l1 Hrun1)
    as (t1' & _ & ->).
  destruct (run_sched_alone false k2 [] t1' t2 l1 l2 Hrun2) as (t2' & _ & E).
  rewrite app_nil_r in E. exists t1', t2', l2.
  by rewrite E, Hw2, Hw1, <- !app_assoc.
Qed.

(** The write of a type octet is one call. *)
Lemma ind_step ind js lc l :
  thread_step os uart (Thread (([ind], 1) :: js) lc) l =
  Ok (Some (Thread (([], 0) :: js) lc,
            l ++ [device_write_call uart 0 [ind] 1])).
Proof.
  destruct (first_write os 1 [ind] 1 js lc
              (set_g_hci_uart uart transport_init) l)
    as (Hn & _ & Hstep & _); [repeat split; cbn; lia | lia..|].
  cbn in *. rewrite Hstep. by replace (size_t _) with 1 by lia.
Qed.

(** Senders that do not overlap.  When the scheduler lets the command
    sender return before the ACL sender starts, the wire gains the encoding
    of the command and then the encoding of the ACL packet. *)
Lemma serial_schedule_keeps_frames k1 k2 buf n om l :
  is_u8 n -> 3 + n <= Z.of_nat (length buf) -> Forall seg_ok om ->
  work (cmd_thread buf n) <= Z.of_nat k1 ->
  work (acl_thread om) <= Z.of_nat k2 ->
  exists t1' t2' l',
    run_sched os uart (replicate k1 true ++ replicate k2 false)
      (cmd_thread buf n) (acl_thread om) l = Ok (t1', t2', l') /\
    wire l' = wire l ++ h4_encode (HCI_H4_CMD, take (Z.to_nat (3 + n)) buf)
                     ++ h4_encode (HCI_H4_ACL, os_mbuf_flat om).
Proof.
  intros Hn Hlen Hom Hk1 Hk2.
  destruct (serial_schedule k1 k2 (cmd_thread buf n) (acl_thread om) l)
    as (t1' & t2' & l' & Hrun & Hw);
    [by apply cmd_thread_ok | by apply acl_thread_ok | done..|].
  exists t1', t2', l'. split; [done|]. rewrite Hw, pending_acl.
  unfold pending, h4_encode. cbn. by rewrite !app_nil_r.
Qed.

(** A decoder that finds the octet [HCI_H4_ACL] between the type octet of
    a command and the command does not deliver that command first. *)
Lemma h4_feed_shifted c rest sm fs :
  head c <> Some HCI_H4_ACL -> c <> [] ->
  h4_feed W4_PKT_TYPE (HCI_H4_CMD :: HCI_H4_ACL :: c ++ rest) = Some (sm, fs) ->
  head fs <> Some (HCI_H4_CMD, c).
Proof.
  intros Hc Hne Hf Hhd.
  apply (h4_feed_sound W4_PKT_TYPE) in Hf as (_ & _ & E); [|done].
  destruct fs as [|f fs]; [done|]. injection Hhd as ->.
  destruct c as [|b c]; [done|]. unfold h4_stream in E. cbn in *.
  injection E as <-. by apply Hc.
Qed.

(** C19: senders that overlap.  When the scheduler runs the ACL sender
    between the first and the second write of the command sender, both
    senders return as if nothing had happened, and the wire holds the two
    type octets and then the two packets: unless the command starts with
    the octet [HCI_H4_ACL], this is not the encoding of the command followed
    by the encoding of the ACL packet, and a decoder at the far end, run on
    these octets, does not deliver the command that was sent as its first
    packet.  The code takes no lock. *)
Theorem alternating_schedule_interleaves k1 k2 buf n om l :
  is_u8 n -> 3 + n <= Z.of_nat (length buf) -> Forall seg_ok om ->
  work (cmd_thread buf n) <= Z.of_nat k1 ->
  work (acl_thread om) <= Z.of_nat k2 ->
  exists t1' t2' l',
    run_sched os uart (true :: false :: replicate k1 true ++ replicate k2 false)
      (cmd_thread buf n) (acl_thread om) l = Ok (t1', t2', l') /\
    wire l' = wire l ++ [HCI_H4_CMD; HCI_H4_ACL]
                     ++ take (Z.to_nat (3 + n)) buf ++ os_mbuf_flat om /\
    (buf !! 0%nat <> Some HCI_H4_ACL ->
     wire l' <> wire l ++ h4_encode (HCI_H4_CMD, take (Z.to_nat (3 + n)) buf)
                       ++ h4_encode (HCI_H4_ACL, os_mbuf_flat om) /\
     forall sm fs,
       h4_feed W4_PKT_TYPE (drop (length (wire l)) (wire l')) = Some (sm, fs) ->
       head fs <> Some (HCI_H4_CMD, take (Z.to_nat (3 + n)) buf)).
Proof.
  intros Hn Hlen Hom Hk1 Hk2.
  pose proof (cmd_thread_ok buf n Hn Hlen) as Hok1.
  pose proof (acl_thread_ok om Hom) as Hok2.
  unfold cmd_thread, acl_thread in *. cbn [run_sched]. rewrite !ind_step.
  apply Forall_cons in Hok1 as [_ Hok1]. apply Forall_cons in Hok2 as [_ Hok2].
  assert (job_ok ([], 0)) as Hnil by (repeat split; cbn; lia).
  edestruct (serial_schedule k1 k2) as (t1' & t2' & l' & -> & Hw);
    [by apply Forall_cons | by apply Forall_cons
    |unfold work in *; cbn in *; lia..|].
  exists t1', t2', l'. split; [done|].
  assert (wire l' = wire l ++ [HCI_H4_CMD; HCI_H4_ACL]
            ++ take (Z.to_nat (3 + n)) buf ++ os_mbuf_flat om) as ->.
  { rewrite Hw, !wire_app. unfold pending. cbn.
    by rewrite pending_chain, !app_nil_r, <- !app_assoc. }
  split; [done|]. intros Hb. rewrite drop_app_length.
  destruct Hn. destruct buf as [|b buf]; [cbn in Hlen; lia|].
  replace (Z.to_nat (3 + n)) with (S (Z.to_nat (2 + n))) by lia.
  cbn in *. split; [intros [= E]%app_inv_head; naive_solver|].
  intros sm fs. apply (h4_feed_shifted (b :: _)); [naive_solver|done].
Qed.

End Schedules.

(** ** Every schedule *)

Lemma shuffle_app_l {A} (c a b w : list A) :
  shuffle a b w -> shuffle (c ++ a) b (c ++ w).
Proof. intros H. induction c; [done|by apply shuffle_l]. Qed.

Lemma shuffle_app_r {A} (c a b w : list A) :
  shuffle a b w -> shuffle a (c ++ b) (c ++ w).
Proof. intros H. induction c; [done|by apply shuffle_r]. Qed.

Lemma work_ge0 t : Forall job_ok (jobs t) -> 0 <= work t.
Proof. intros Hok. pose proof (work_nonneg _ Hok). unfold work. lia. Qed.

(** A thread with no work left has nothing to write. *)
Lemma thread_wire_done t :
  Forall job_ok (jobs t) -> work t = 0 -> thread_wire t = [].
Proof.
  intros Hok Hw. pose proof (work_split t Hok) as Hs.
  unfold thread_wire, pending. rewrite <- pending_next.
  destruct (next_job (jobs t)) as [|[buf r] js]; [|lia].
  destruct (last_calls t); [done|]. cbn in Hs. lia.
Qed.

(** All that each sender puts on the wire is the encoding of its packet. *)
Lemma cmd_thread_wire buf n :
  thread_wire (cmd_thread buf n) =
  h4_encode (HCI_H4_CMD, take (Z.to_nat (3 + n)) buf).
Proof. unfold thread_wire, pending. cbn. by rewrite !app_nil_r. Qed.

Lemma acl_thread_wire om :
  thread_wire (acl_thread om) = h4_encode (HCI_H4_ACL, os_mbuf_flat om).
Proof. unfold thread_wire. rewrite pending_acl. cbn. by rewrite app_nil_r. Qed.

Section AnySchedule.
Variable os : rtos.
Variable uart : Z.
Context `{!SaneDevice os, !ProgressingDevice os}.
Implicit Types (t : thread) (l : list rt_call).

Lemma thread_step_next t l buf r js :
  next_job (jobs t) = (buf, r) :: js ->
  thread_step os uart t l =
  thread_step os uart (Thread ((buf, r) :: js) (last_calls t)) l.
Proof.
  intros Hj. pose proof (next_job_head _ _ _ _ Hj). unfold thread_step.
  cbn [jobs last_calls next_job]. rewrite Hj.
  by destruct (Z.ltb_spec 0 r); [|lia].
Qed.

(** One step of a thread: it has returned and had nothing left to write;
    or it makes a call, the octets the call writes are the next octets the
    thread had to write, and its work decreases.  It never aborts. *)
Lemma thread_step_spec t l :
  Forall job_ok (jobs t) ->
  match thread_step os uart t l with
  | Ok None => work t = 0
  | Ok (Some (t', l')) =>
      exists a, wire l' = wire l ++ a /\ thread_wire t = a ++ thread_wire t' /\
                Forall job_ok (jobs t') /\ work t' < work t
  | Abort _ => False
  end.
Proof.
  intros Hok. pose proof (work_split t Hok) as Hs.
  destruct (next_job (jobs t)) as [|[buf r] js] eqn:Hj.
  - unfold thread_step, thread_wire, pending, work in *.
    rewrite <- pending_next, Hj. destruct (last_calls t) as [|c cs]; [done|].
    exists (written c). cbn -[wire] in *.
    rewrite wire_app, !wire_cons, wire_nil, app_nil_r. split_and!; [done..|lia].
  - destruct Hs as (Hpos & Hj1 & Hjs & Hwk & Hnn).
    rewrite (thread_step_next _ _ _ _ _ Hj).
    destruct (first_write os (Z.to_nat r) buf r js (last_calls t)
                (set_g_hci_uart uart transport_init) l)
      as (Hn & Hj' & Hstep & _); [done|done|lia|].
    cbn [g_hci_uart set_g_hci_uart] in *. rewrite Hstep.
    set (n := size_t _) in *. exists (take (Z.to_nat n) (take (Z.to_nat r) buf)).
    rewrite wire_app, wire_cons, wire_nil, app_nil_r.
    unfold thread_wire, pending, work in *. rewrite <- pending_next, Hj. cbn.
    split_and!; [done| |by apply Forall_cons|lia].
    rewrite <- (take_take_drop_Z buf n r) at 1 by lia.
    by rewrite <- !app_assoc.
Qed.

(** Whatever the schedule, no sender aborts, the wire gains an interleaving
    of octets of the two senders, each in its order, and a sender has
    returned when it was given as many steps as it has work. *)
Lemma run_sched_shuffles sched t1 t2 l :
  Forall job_ok (jobs t1) -> Forall job_ok (jobs t2) ->
  exists t1' t2' l' a b w,
    run_sched os uart sched t1 t2 l = Ok (t1', t2', l') /\
    wire l' = wire l ++ w /\ shuffle a b w /\
    thread_wire t1 = a ++ thread_wire t1' /\
    thread_wire t2 = b ++ thread_wire t2' /\
    (Forall job_ok (jobs t1') /\ Forall job_ok (jobs t2')) /\
    work t1' <= Z.max 0 (work t1 - Z.of_nat (slots true sched)) /\
    work t2' <= Z.max 0 (work t2 - Z.of_nat (slots false sched)).
Proof.
  revert t1 t2 l. induction sched as [|s sched IH]; intros t1 t2 l Hok1 Hok2.
  { exists t1, t2, l, [], [], []. rewrite !app_nil_r. cbn.
    split_and!; try done; try lia. constructor. }
  assert (slots s (s :: sched) = S (slots s sched) /\
          slots (negb s) (s :: sched) = slots (negb s) sched) as [Hs1 Hs2]
    by (unfold slots; cbn; by destruct s).
  destruct s; cbn [run_sched negb] in *; rewrite Hs1, Hs2;
    [pose proof (thread_step_spec t1 l Hok1) as Hs
    |pose proof (thread_step_spec t2 l Hok2) as Hs];
    destruct (thread_step _ _ _ l) as [[[t' l1]|]|]; try done;
    try destruct Hs as (c & Hw1 & Ht & Hok' & Hlt).
  - destruct (IH t' t2 l1) as (t1' & t2' & l' & a & b & w & -> & Hw & Hsh
                                 & Ha & Hb & [? ?] & Hk1 & Hk2); [done..|].
    exists t1', t2', l', (c ++ a), b, (c ++ w).
    rewrite Hw, Hw1, Ht, Ha, <- !app_assoc.
    split_and!; try done; try lia. by apply shuffle_app_l.
  - destruct (IH t1 t2 l) as (t1' & t2' & l' & a & b & w & -> & Hw & Hsh
                                & Ha & Hb & [? ?] & Hk1 & Hk2); [done..|].
    exists t1', t2', l', a, b, w. split_and!; try done; lia.
  - destruct (IH t1 t' l1) as (t1' & t2' & l' & a & b & w & -> & Hw & Hsh
                                 & Ha & Hb & [? ?] & Hk1 & Hk2); [done..|].
    exists t1', t2', l', a, (c ++ b), (c ++ w).
    rewrite Hw, Hw1, Ht, Hb, <- !app_assoc.
    split_and!; try done; try lia. by apply shuffle_app_r.
  - destruct (IH t1 t2 l) as (t1' & t2' & l' & a & b & w & -> & Hw & Hsh
                                & Ha & Hb & [? ?] & Hk1 & Hk2); [done..|].
    exists t1', t2', l', a, b, w. split_and!; try done; lia.
Qed.

(** With steps enough for both, the wire has gained an interleaving of
    all that the two threads had to write. *)
Lemma run_sched_complete sched t1 t2 l :
  Forall job_ok (jobs t1) -> Forall job_ok (jobs t2) ->
  work t1 <= Z.of_nat (slots true sched) ->
  work t2 <= Z.of_nat (slots false sched) ->
  exists t1' t2' l' w,
    run_sched os uart sched t1 t2 l = Ok (t1', t2', l') /\
    wire l' = wire l ++ w /\ shuffle (thread_wire t1) (thread_wire t2) w.
Proof.
  intros H1 H2 Hk1 Hk2.
  destruct (run_sched_shuffles sched t1 t2 l H1 H2)
    as (t1' & t2' & l' & a & b & w & Hrun & Hw & Hsh & Ha & Hb & [Hok1 Hok2]
        & Hw1 & Hw2).
  exists t1', t2', l', w. split_and!; [done..|].
  pose proof (work_ge0 t1' Hok1). pose proof (work_ge0 t2' Hok2).
  rewrite (thread_wire_done t1'), app_nil_r in Ha by (done || lia).
  rewrite (thread_wire_done t2'), app_nil_r in Hb by (done || lia).
  by rewrite Ha, Hb.
Qed.

(** C20: senders under any schedule.  However the scheduler alternates
    between a command sender and an ACL sender, neither aborts; once each
    has been given as many steps as it has octets to write, plus two, the
    wire has gained every octet of both packets, the octets of each packet
    in their order: an interleaving of the two encodings, and nothing
    else.  Octets are never lost or reordered within a packet; only the
    packets may be cut into each other. *)
Theorem every_schedule_shuffles sched buf n om l :
  is_u8 n -> 3 + n <= Z.of_nat (length buf) -> Forall seg_ok om ->
  work (cmd_thread buf n) <= Z.of_nat (slots true sched) ->
  work (acl_thread om) <= Z.of_nat (slots false sched) ->
  exists t1' t2' l' w,
    run_sched os uart sched (cmd_thread buf n) (acl_thread om) l =
      Ok (t1', t2', l') /\
    wire l' = wire l ++ w /\
    shuffle (h4_encode (HCI_H4_CMD, take (Z.to_nat (3 + n)) buf))
            (h4_encode (HCI_H4_ACL, os_mbuf_flat om)) w.
Proof.
  intros Hn Hlen Hom Hk1 Hk2.
  rewrite <- cmd_thread_wire, <- acl_thread_wire.
  by apply run_sched_complete; [apply cmd_thread_ok|apply acl_thread_ok|..].
Qed.

End AnySchedule.

(** ** Witnesses

    The command [cmd1] and a chain of two segments on the reference device,
    which takes two octets per write. *)

Definition om1 : list os_mbuf :=
  [{| om_data := [1; 0; 2; 0]; om_len := 4 |};
   {| om_data := [7; 8; 0; 0]; om_len := 2 |}].

Lemma thread_refines_sender_witness :
  (exists l',
     run_alone ref_peer 1 8 (cmd_thread cmd1 0) [] = Ok (Some l') /\
     ble_transport_to_ll_cmd_impl ref_peer 4 cmd1 w_up =
       Ok (0, TWorld (drv w_up) l')) /\
  (exists l',
     run_alone ref_peer 1 8 (acl_thread om1) [] = Ok (Some l') /\
     ble_transport_to_ll_acl_impl ref_peer 4 om1 w_up =
       Ok (0, TWorld (drv w_up) l')).
Proof.
  apply (thread_refines_sender ref_peer 4 8 cmd1 0 om1 w_up);
    [done | done | unfold is_u8; lia | cbn; lia
    |repeat constructor; cbn; lia | repeat constructor; cbn; lia
    |unfold work; cbn; lia..].
Defined.

Lemma serial_schedule_keeps_frames_witness :
  exists t1' t2' l',
    run_sched ref_peer 1 (replicate 5 true ++ replicate 8 false)
      (cmd_thread cmd1 0) (acl_thread om1) [] = Ok (t1', t2', l') /\
    wire l' = [] ++ h4_encode (HCI_H4_CMD, take (Z.to_nat (3 + 0)) cmd1)
                 ++ h4_encode (HCI_H4_ACL, os_mbuf_flat om1).
Proof.
  apply (serial_schedule_keeps_frames ref_peer 1 5 8 cmd1 0 om1 []);
    [unfold is_u8; lia | cbn; lia | repeat constructor; cbn; lia
    |unfold work; cbn; lia..].
Defined.

Lemma alternating_schedule_interleaves_witness :
  exists t1' t2' l',
    run_sched ref_peer 1
      (true :: false :: replicate 5 true ++ replicate 8 false)
      (cmd_thread cmd1 0) (acl_thread om1) [] = Ok (t1', t2', l') /\
    wire l' = [] ++ [HCI_H4_CMD; HCI_H4_ACL]
                 ++ take (Z.to_nat (3 + 0)) cmd1 ++ os_mbuf_flat om1 /\
    (cmd1 !! 0%nat <> Some HCI_H4_ACL ->
     wire l' <> [] ++ h4_encode (HCI_H4_CMD, take (Z.to_nat (3 + 0)) cmd1)
                   ++ h4_encode (HCI_H4_ACL, os_mbuf_flat om1) /\
     forall sm fs,
       h4_feed W4_PKT_TYPE (drop (length (wire [])) (wire l')) =
         Some (sm, fs) ->
       head fs <> Some (HCI_H4_CMD, take (Z.to_nat (3 + 0)) cmd1)).
Proof.
  apply (alternating_schedule_interleaves ref_peer 1 5 8 cmd1 0 om1 []);
    [unfold is_u8; lia | cbn; lia | repeat constructor; cbn; lia
    |unfold work; cbn; lia..].
Defined.

Lemma every_schedule_shuffles_witness :
  let sched := [false; true; true; false; false; true; false; true; true;
                false; false; false; false; false] in
  exists t1' t2' l' w,
    run_sched ref_peer 1 sched (cmd_thread cmd1 0) (acl_thread om1) [] =
      Ok (t1', t2', l') /\
    wire l' = [] ++ w /\
    shuffle (h4_encode (HCI_H4_CMD, take (Z.to_nat (3 + 0)) cmd1))
            (h4_encode (HCI_H4_ACL, os_mbuf_flat om1)) w.
Proof.
  intros sched.
  apply (every_schedule_shuffles ref_peer 1 sched cmd1 0 om1 []);
    [unfold is_u8; lia | cbn; lia | repeat constructor; cbn; lia
    |by vm_compute..].
Defined.
