(* ===== verification/Loopback.v ===== *)
(** * Loopback: a sender, the serial link and a reader

    The senders and the reader of ble_hci_rtthread.c never meet inside one
    program: what a sender writes travels over the serial link to a peer,
    and what the reader reads was written by a peer.  This file connects
    the two ends.

    - [PeerDelivers]: a peer whose octets arrive: while the stream has
      octets left, a read returns at least one.  With it the reader does
      not only deliver a prefix of the packets sent, it delivers them all
      within as many iterations as the stream has octets
      ([Loopback.reader_delivers_all]).
    - [tx], [send], [send_all]: the requests of the host, a command or a
      chain of ACL data, served one after the other; the wire gains the
      encodings of the packets in order, and a decoder recovers them
      ([Loopback.sends_arrive_in_order]).
    - [link near rchunk]: the device at the far end of a link whose near end
      made the calls [near]: its reads return what those calls wrote.
    - [Loopback.acl_loopback]: ACL data sent by one transport and read by
      another is handed to the host of the other as the packets that were
      sent, in order. *)

From Stdlib Require Import ZArith Lia String.
From stdpp Require Import base tactics option list numbers strings.
From S2P Require Import Prelude HciH4 Rtos Transport.

#[local] Open Scope Z_scope.
#[local] Open Scope nimble_scope.

(** ** Devices that deliver *)

(** While the peer has octets of [fs] left to send, a read that asks for at
    least one octet returns at least one. *)
Class PeerDelivers (os : rtos) (fs : list frame) : Prop := {
  peer_delivers l dev pos size :
    0 < size -> read_octets l `prefix_of` h4_stream fs ->
    read_octets l <> h4_stream fs ->
    read_device os l dev pos size <> [];
}.

(** The device at the far end of a link: its reads return, at most [rchunk]
    octets at a time, what the calls [near] of the near end have written. *)
Definition link (near : list rt_call) (rchunk : Z) : rtos :=
  ref_rtos 1 rchunk (wire near).

(** ** Facts *)

Lemma ref_rtos_delivers wchunk rchunk fs :
  0 < rchunk -> PeerDelivers (ref_rtos wchunk rchunk (h4_stream fs)) fs.
Proof.
  intros Hc. split. intros l dev pos size Hs [rest Hrest] Hne. cbn.
  rewrite Hrest, drop_app_length. destruct rest as [|x rest].
  - by rewrite app_nil_r in Hrest.
  - by replace (Z.to_nat (Z.min size rchunk)) with
      (S (Z.to_nat (Z.min size rchunk - 1))) by lia.
Qed.

(** The reference device is found, opens and starts a thread. *)
Lemma ref_rtos_init wchunk rchunk stream w :
  let os := ref_rtos wchunk rchunk stream in
  exists w1, ble_transport_rtthread_init os w = Ok (0, w1).
Proof.
  intros os. rewrite (ble_transport_rtthread_init_cases os w 1 0 0 2) by done.
  cbn. eauto.
Qed.

Section Delivery.
Variable os : rtos.
Variable fs : list frame.
Context `{!SaneDevice os, !PeerSends os fs, !PeerDelivers os fs}.

(** As many iterations as the stream has octets left read all of it. *)
Lemma entry_peer_all n w :
  reader_ok fs w ->
  (length (h4_stream fs) <= length (read_octets (calls w)) + n)%nat ->
  exists w',
    rtthread_hci_uart_entry os n w = Ok (tt, w') /\
    read_octets (calls w') = h4_stream fs /\
    delivered (calls w') = fs /\ g_hci_h4sm (drv w') = W4_PKT_TYPE.
Proof.
  revert w. induction n as [|n IH]; intros w Hok Hlen.
  - destruct (entry_peer os fs 0 w Hok) as (w' & Hw' & [_ Hpre] & _ & Hend).
    assert (w' = w) as -> by (cbv in Hw'; congruence). exists w.
    assert (read_octets (calls w) = h4_stream fs) as Heq
      by (apply prefix_length_eq; [done|lia]).
    by destruct (Hend Heq).
  - destruct (entry_iter_peer os fs w Hok) as (w1 & Hw1 & Hok1 & _ & _ & Hr).
    destruct (IH w1 Hok1) as (w' & Hw' & ?).
    + rewrite Hr, length_app. destruct Hok as [_ Hpre].
      destruct (decide (read_octets (calls w) = h4_stream fs)) as [<-|Hne];
        [lia|].
      pose proof (peer_delivers (calls w) (g_hci_uart (drv w)) 0 63) as Hd.
      destruct (read_device os _ _ _ _); [by destruct Hd|cbn; lia].
    + exists w'. split; [|done]. cbn. by rewrite (bind_ok _ _ _ _ _ Hw1).
Qed.

End Delivery.

(** C17: the reader's liveness.  After a successful initialisation, when
    the peer sends valid ACL and event packets and its octets arrive, at
    least one per read, the reader has handed all the packets to the host,
    in order, after as many iterations as the stream has octets, and the
    decoder is idle again. *)
Theorem reader_delivers_all os fs
    `{!SaneDevice os, !PeerSends os fs, !PeerDelivers os fs} n w w1 :
  read_octets (calls w) = [] -> delivered (calls w) = [] ->
  ble_transport_rtthread_init os w = Ok (0, w1) ->
  (length (h4_stream fs) <= n)%nat ->
  exists w',
    rtthread_hci_uart_entry os n w1 = Ok (tt, w') /\
    delivered (calls w') = fs /\ g_hci_h4sm (drv w') = W4_PKT_TYPE.
Proof.
  intros Hr Hd Hinit Hn.
  destruct (init_reader_ok os fs w w1 Hr Hd Hinit) as [Hok Hr1].
  destruct (entry_peer_all os fs n w1 Hok) as (w' & ? & _ & ? & ?);
    [|by exists w'].
  rewrite Hr1. cbn. lia.
Qed.

(** ** Requests to send *)

(** What the host hands to the transport: a command buffer
    ([ble_transport_to_ll_cmd]) or a chain of ACL data
    ([ble_transport_to_ll_acl]). *)
Inductive tx : Type :=
| TxCmd (buf : list Z)
| TxAcl (om : list os_mbuf).

(** The packet a request asks to send. *)
Definition tx_frame (t : tx) : frame :=
  match t with
  | TxCmd buf => (HCI_H4_CMD, take (Z.to_nat (3 + buf !!! 2%nat)) buf)
  | TxAcl om => (HCI_H4_ACL, os_mbuf_flat om)
  end.

(** A request the senders can serve with [fuel] iterations per write: the
    buffer holds the command its length octet announces; the chain has
    segments within their data and holds a valid ACL data packet. *)
Definition tx_ok (fuel : nat) (t : tx) : Prop :=
  (1 <= fuel)%nat /\
  match t with
  | TxCmd buf =>
      let n := buf !!! 2%nat in
      is_u8 n /\ 3 + n <= Z.of_nat (length buf) /\ 3 + n <= Z.of_nat fuel
  | TxAcl om =>
      Forall seg_ok om /\
      Forall (fun seg => om_len seg <= Z.of_nat fuel) om /\
      valid_frame (HCI_H4_ACL, os_mbuf_flat om)
  end.

#[export] Instance tx_ok_dec fuel t : Decision (tx_ok fuel t).
Proof. unfold tx_ok. destruct t; apply _. Defined.

Section Send.
Variable os : rtos.

Definition send (fuel : nat) (t : tx) : M tworld Z :=
  match t with
  | TxCmd buf => ble_transport_to_ll_cmd_impl os fuel buf
  | TxAcl om => ble_transport_to_ll_acl_impl os fuel om
  end.

(** Requests served one after the other, a failed one ending the run. *)
Fixpoint send_all (fuel : nat) (ts : list tx) : M tworld unit :=
  match ts with
  | [] => ret tt
  | t :: ts => _ <- send fuel t ;; send_all fuel ts
  end.

Context `{!SaneDevice os, !ProgressingDevice os}.

(** The world after writes that put [data] on the wire and a call that
    releases a buffer. *)
Lemma wrote_then_free w w1 data c :
  wrote w w1 data -> written c = [] -> received c = [] -> delivery c = None ->
  let w' := TWorld (drv w) (calls w1 ++ [c]) in
  wire (calls w') = wire (calls w) ++ data /\
  read_octets (calls w') = read_octets (calls w) /\
  delivered (calls w') = delivered (calls w).
Proof.
  intros Hwr Hc1 Hc2 Hc3. destruct (wrote_quiet _ _ _ Hwr) as [Hr Hd]. cbn.
  rewrite wire_app, read_octets_app, delivered_app, (wrote_wire _ _ _ Hwr).
  rewrite Hr, Hd. unfold wire, read_octets, delivered. cbn.
  by rewrite Hc1, Hc2, Hc3, !app_nil_r.
Qed.

(** One request: the packet is valid, its encoding is what the wire gains,
    and the receiving side sees nothing of it. *)
Lemma send_ok fuel t w :
  g_hci_uart (drv w) <> RT_NULL -> tx_ok fuel t ->
  valid_frame (tx_frame t) /\
  exists w',
    send fuel t w = Ok (0, w') /\ drv w' = drv w /\
    wire (calls w') = wire (calls w) ++ h4_encode (tx_frame t) /\
    read_octets (calls w') = read_octets (calls w) /\
    delivered (calls w') = delivered (calls w).
Proof.
  intros Hu [Hf1 Hok]. destruct t as [buf|om]; cbn [send tx_frame].
  - destruct Hok as (Hn & Hlen & Hfuel). set (n := buf !!! 2%nat) in *.
    assert (buf !! 2%nat = Some n) as Hb
      by (apply list_lookup_lookup_total_lt; destruct Hn; lia).
    split; [apply cmd_frame_valid; by destruct Hn|].
    destruct (cmd_send_ok os fuel buf n w) as (w1 & Hwr & ->); [done..|].
    eexists. do 2 (split; [done|]). by apply wrote_then_free.
  - destruct Hok as (Hom & Hfuel & Hv). split; [done|].
    destruct (acl_send_ok os fuel om w) as (w1 & Hwr & ->); [done..|].
    eexists. do 2 (split; [done|]). by apply wrote_then_free.
Qed.

(** A sequence of requests. *)
Lemma send_all_ok fuel ts w :
  g_hci_uart (drv w) <> RT_NULL -> Forall (tx_ok fuel) ts ->
  Forall valid_frame (tx_frame <$> ts) /\
  exists w',
    send_all fuel ts w = Ok (tt, w') /\ drv w' = drv w /\
    wire (calls w') = wire (calls w) ++ h4_stream (tx_frame <$> ts) /\
    read_octets (calls w') = read_octets (calls w) /\
    delivered (calls w') = delivered (calls w).
Proof.
  intros Hu Hts. revert w Hu.
  induction Hts as [|t ts Ht _ IH]; intros w Hu; cbn [send_all fmap list_fmap].
  { split; [done|]. exists w. by rewrite app_nil_r. }
  destruct (send_ok fuel t w Hu Ht) as (Hv & w1 & Hs & Hd & Hw & Hr & Hdl).
  destruct (IH w1) as (Hvs & w' & Hall & Hd' & Hw' & Hr' & Hdl');
    [congruence|].
  split; [by constructor|]. exists w'. rewrite (bind_ok _ _ _ _ _ Hs).
  split_and!; [done|congruence| |congruence..].
  by rewrite Hw', Hw, h4_stream_cons, <- !app_assoc.
Qed.

(** C12: the senders keep the order and the framing of what they are
    given.  On a device that makes progress, any sequence of commands and
    ACL data chains served one after the other returns, leaves the statics
    alone and puts on the wire the encodings of the packets, in order;
    a decoder fed these octets, cut into chunks in any way, delivers
    exactly the packets that were sent, in the order they were sent, and
    is idle again. *)
Theorem sends_arrive_in_order fuel ts w chunks :
  g_hci_uart (drv w) <> RT_NULL -> Forall (tx_ok fuel) ts ->
  exists w',
    send_all fuel ts w = Ok (tt, w') /\ drv w' = drv w /\
    wire (calls w') = wire (calls w) ++ h4_stream (tx_frame <$> ts) /\
    (concat chunks = h4_stream (tx_frame <$> ts) ->
     h4_feed_chunks W4_PKT_TYPE chunks = Some (W4_PKT_TYPE, tx_frame <$> ts)).
Proof.
  intros Hu Hts.
  destruct (send_all_ok fuel ts w Hu Hts) as (Hv & w' & ? & ? & ? & _).
  exists w'. split_and!; [done..|]. intros Hc.
  by rewrite h4_feed_chunks_concat, Hc, h4_feed_frames.
Qed.

End Send.

(** ** Two transports on one link *)

Section Link.
Variable osA : rtos.
Context `{!SaneDevice osA, !ProgressingDevice osA}.

(** C6: ACL data from one transport to another.  A transport whose device
    makes progress sends a sequence of chains, each a valid ACL data
    packet; a second transport, started from power-on on the far end of
    the link, whose reads return at least one octet at a time, initialises
    and, after one iteration of its reader per octet, has handed to its
    host exactly the packets that were sent, in the order they were sent,
    however the writes and the reads cut them. *)
Theorem acl_loopback fuel oms wA rchunk n :
  let ts := TxAcl <$> oms in
  g_hci_uart (drv wA) <> RT_NULL -> wire (calls wA) = [] ->
  Forall (tx_ok fuel) ts ->
  0 < rchunk -> (length (h4_stream (tx_frame <$> ts)) <= n)%nat ->
  exists wA' wB wB',
    send_all osA fuel ts wA = Ok (tt, wA') /\
    let osB := link (calls wA') rchunk in
    ble_transport_rtthread_init osB (TWorld transport_init []) = Ok (0, wB) /\
    rtthread_hci_uart_entry osB n wB = Ok (tt, wB') /\
    delivered (calls wB') = tx_frame <$> ts /\
    g_hci_h4sm (drv wB') = W4_PKT_TYPE.
Proof.
  intros ts Hu Hw Hts Hc Hn.
  destruct (send_all_ok osA fuel ts wA Hu Hts)
    as (Hv & wA' & HA & _ & HwA & _).
  exists wA'. unfold link. rewrite HwA, Hw. cbn [app].
  set (fs := tx_frame <$> ts) in *.
  set (osB := ref_rtos 1 rchunk (h4_stream fs)).
  assert (PeerSends osB fs).
  { apply ref_rtos_peer; [done|]. unfold fs, ts.
    clear. induction oms as [|om oms' IH]; [done|exact IH]. }
  assert (PeerDelivers osB fs) by by apply ref_rtos_delivers.
  destruct (ref_rtos_init 1 rchunk (h4_stream fs) (TWorld transport_init []))
    as [wB Hinit]. fold osB in Hinit.
  destruct (init_reader_ok osB fs (TWorld transport_init []) wB)
    as [Hok Hr]; [done..|].
  destruct (entry_peer_all osB fs n wB Hok) as (wB' & ? & _ & ? & ?);
    [by rewrite Hr|].
  by exists wB, wB'.
Qed.

End Link.

(** ** The theorems at concrete worlds

    The reference peer of [Transport] sends an event and an ACL data
    packet, 11 octets, 4 per read; the chain [om_acl1] holds the ACL data
    packet [acl1] in two segments. *)

#[export] Instance ref_peer_delivers : PeerDelivers ref_peer [evt1; acl1].
Proof. by apply ref_rtos_delivers. Qed.

Definition om_acl1 : list os_mbuf :=
  [{| om_data := [1; 0; 2; 0]; om_len := 4 |};
   {| om_data := [7; 8; 0; 0]; om_len := 2 |}].

Lemma reader_delivers_all_witness :
  exists w',
    rtthread_hci_uart_entry ref_peer 11 w_peer_init = Ok (tt, w') /\
    delivered (calls w') = [evt1; acl1] /\ g_hci_h4sm (drv w') = W4_PKT_TYPE.
Proof.
  apply (reader_delivers_all ref_peer [evt1; acl1] 11 w_off w_peer_init);
    [done | done | reflexivity | cbn; lia].
Defined.

Lemma sends_arrive_in_order_witness :
  let ts := [TxCmd cmd1; TxAcl om_acl1] in
  exists w',
    send_all ref_peer 4 ts w_up = Ok (tt, w') /\ drv w' = drv w_up /\
    wire (calls w') = wire (calls w_up) ++ h4_stream (tx_frame <$> ts) /\
    (concat [[1; 3]; [12; 0; 2; 1; 0]; [2; 0; 7; 8]] =
       h4_stream (tx_frame <$> ts) ->
     h4_feed_chunks W4_PKT_TYPE [[1; 3]; [12; 0; 2; 1; 0]; [2; 0; 7; 8]] =
     Some (W4_PKT_TYPE, tx_frame <$> ts)).
Proof.
  apply (sends_arrive_in_order ref_peer 4 [TxCmd cmd1; TxAcl om_acl1] w_up);
    [done|]. by apply (bool_decide_unpack _).
Defined.

Lemma acl_loopback_witness :
  let ts := TxAcl <$> [om_acl1; om_acl1] in
  exists wA' wB wB',
    send_all ref_peer 4 ts w_up = Ok (tt, wA') /\
    let osB := link (calls wA') 3 in
    ble_transport_rtthread_init osB (TWorld transport_init []) = Ok (0, wB) /\
    rtthread_hci_uart_entry osB 14 wB = Ok (tt, wB') /\
    delivered (calls wB') = tx_frame <$> ts /\
    g_hci_h4sm (drv wB') = W4_PKT_TYPE.
Proof.
  apply (acl_loopback ref_peer 4 [om_acl1; om_acl1] w_up 3 14);
    [done | done | | lia | vm_compute; lia]. by apply (bool_decide_unpack _).
Defined.
