(* ===== verification/Backpressure.v ===== *)
(** * Backpressure: a serial port with a bounded receive buffer

    [rtthread_hci_uart_init] opens the port for interrupt-driven reception
    with the default line configuration, which has no flow control: the
    driver stores what the peer sends in a buffer of fixed size and
    overwrites its oldest octet when an octet arrives into a full buffer.
    The reader thread empties the buffer by polling: one read of at most
    63 octets, then a sleep.  Whether octets are lost is a matter of how
    many arrive between two reads.

    - [fifo] is the state of such a port: the octets buffered, the octets
      the peer has still to send, the number of octets overwritten, the
      number of sleeps of the reader so far.  [fifo_after] computes it from
      the calls made: a read takes from the head of the buffer ([fetch]),
      during the [k]-th sleep [arr k] octets arrive ([arrive]).
    - [fifo_rtos] is the environment with that port.
    - [arrived] counts the octets sent after [n] sleeps;
      [octets_per_period] bounds the octets a line sends in a period.

    The theorems: when no more than 63 octets and no more than the buffer
    holds arrive per period, no octet is lost and the host is handed every
    packet; whatever arrives, the reader takes no more than 63 octets per
    period, so the port loses what exceeds that and the buffer; at the
    default line configuration the first holds for periods of up to 5
    milliseconds. *)

From Stdlib Require Import ZArith Lia String.
From stdpp Require Import base tactics option list numbers strings.
From S2P Require Import Prelude HciH4 Rtos Transport.

#[local] Open Scope nimble_scope.

(** ** The port *)

Record fifo : Type := Fifo {
  (** the octets in the receive buffer, oldest first *)
  pending : list Z;
  (** the octets the peer has still to send *)
  incoming : list Z;
  (** how many octets were overwritten before the reader took them *)
  lost : nat;
  (** how many times the reader has slept *)
  periods : nat;
}.

#[export] Instance fifo_eq_dec : EqDecision fifo.
Proof. solve_decision. Defined.

Section Device.
(** The size of the receive buffer. *)
Variable cap : nat.
(** The octets that arrive during the [k]-th sleep of the reader. *)
Variable arr : nat -> nat.

(** A sleep of the reader: the next octets arrive; the buffer keeps the
    newest [cap]. *)
Definition arrive (q : fifo) : fifo :=
  let all := pending q ++ take (arr (periods q)) (incoming q) in
  let over := (length all - cap)%nat in
  {| pending := drop over all;
     incoming := drop (arr (periods q)) (incoming q);
     lost := lost q + over;
     periods := S (periods q) |}.

(** A read of at most [size] octets. *)
Definition fetch (size : Z) (q : fifo) : fifo :=
  {| pending := drop (Z.to_nat size) (pending q);
     incoming := incoming q;
     lost := lost q;
     periods := periods q |}.

Definition fifo_call (q : fifo) (c : rt_call) : fifo :=
  match c with
  | thread_mdelay_call _ => arrive q
  | device_read_call _ _ size _ => fetch size q
  | _ => q
  end.

(** The port after the calls [l], when the peer sends [stream]. *)
Definition fifo_after (stream : list Z) (l : list rt_call) : fifo :=
  foldl fifo_call (Fifo [] stream 0 0) l.

(** The environment with that port: device 1 is found, opens and
    configures with code 0; thread 2 is created; a write accepts all it is
    offered; the host accepts every packet. *)
Definition fifo_rtos (stream : list Z) : rtos :=
  {| find_device _ _ := 1%Z;
     open_device _ _ _ := 0%Z;
     control_device _ _ _ _ := 0%Z;
     read_device l _ _ size :=
       take (Z.to_nat size) (pending (fifo_after stream l));
     write_device _ _ _ data := Z.of_nat (length data);
     create_thread _ _ := 2%Z;
     hs_acl _ _ := 0%Z;
     hs_evt _ _ := 0%Z |}.

End Device.

(** ** Specifications *)

(** The octets the peer has sent after [n] sleeps of the reader. *)
Definition arrived (arr : nat -> nat) (n : nat) : nat :=
  sum_list_with arr (seq 0 n).

(** The octets a line configured with [cfg] sends in [ms] milliseconds, at
    most: an octet takes a start bit, the data bits, the parity bit if
    there is one, and the stop bits. *)
Definition octets_per_period (cfg : serial_configure) (ms : Z) : Z :=
  let bits :=
    (1 + data_bits cfg + (if parity cfg =? 0 then 0 else 1) + stop_bits cfg)%Z
  in ((baud_rate cfg * ms + bits * 1000 - 1) / (bits * 1000))%Z.

(** The reader keeps up with the arrivals [arr] on a buffer of [cap]
    octets: what arrives in a period fits one read and the buffer. *)
Definition keeps_up (cap : nat) (arr : nat -> nat) : Prop :=
  forall k, arr k <= 63 /\ arr k <= cap.

(** The port and the reader after [n] iterations of a reader that keeps
    up: the buffer holds what arrived during the last sleep, the reader
    has read all that arrived before. *)
Definition in_step (cap : nat) (arr : nat -> nat) (stream : list Z)
    (n : nat) (w : tworld) : Prop :=
  fifo_after cap arr stream (calls w) =
    Fifo (drop (arrived arr (pred n)) (take (arrived arr n) stream))
         (drop (arrived arr n) stream) 0 n /\
  read_octets (calls w) = take (arrived arr (pred n)) stream /\
  reader_inv w.

(** The octets of [stream] after [n] iterations of any reader: each has
    been read, is in the buffer, was overwritten or is still to arrive;
    no more than 63 were read per iteration. *)
Definition accounted (cap : nat) (arr : nat -> nat) (stream : list Z)
    (n : nat) (w : tworld) : Prop :=
  let q := fifo_after cap arr stream (calls w) in
  length (read_octets (calls w)) + length (pending q) + lost q +
    length (incoming q) = length stream /\
  length (read_octets (calls w)) <= 63 * n /\
  length (pending q) <= cap /\
  incoming q = drop (arrived arr n) stream /\ periods q = n.

(** ** Facts about the port *)

Lemma arrived_S arr n : arrived arr (S n) = arrived arr n + arr n.
Proof.
  unfold arrived. rewrite seq_S, sum_list_with_app. cbn. lia.
Qed.

Lemma arrived_pred arr n : arrived arr (pred n) <= arrived arr n.
Proof. destruct n as [|n]; [done|]. rewrite arrived_S. cbn [pred]. lia. Qed.

Lemma take_drop_take {A} (l : list A) a b :
  a <= b -> take a l ++ drop a (take b l) = take b l.
Proof.
  intros. assert (take a l = take a (take b l)) as ->
    by (by rewrite take_take, Nat.min_l). apply take_drop.
Qed.

Section Port.
Variable cap : nat.
Variable arr : nat -> nat.
Variable stream : list Z.

#[local, warnings="-notation-for-abbreviation"]
Notation port := (fifo_after cap arr stream).
#[local, warnings="-notation-for-abbreviation"]
Notation os := (fifo_rtos cap arr stream).

#[export] Instance fifo_rtos_sane : SaneDevice os.
Proof. split; cbn; intros; [lia|]. rewrite length_take. lia. Qed.

#[export] Instance fifo_rtos_progress : ProgressingDevice os.
Proof. split. intros l dev pos [|x data] Hne; [done|]. cbn. lia. Qed.

Lemma fifo_after_app l1 l2 :
  port (l1 ++ l2) = foldl (fifo_call cap arr) (port l1) l2.
Proof. apply foldl_app. Qed.

(** The calls of the host's sinks and of an initialisation leave the port
    as it is. *)
Lemma fifo_sinks q hs :
  Forall (fun c => is_Some (delivery c)) hs ->
  foldl (fifo_call cap arr) q hs = q /\ read_octets hs = [].
Proof.
  induction 1 as [|c hs [x Hc] _ [IH1 IH2]]; [done|].
  by destruct c; simplify_eq/=.
Qed.

Lemma fifo_init w w1 :
  calls w = [] -> ble_transport_rtthread_init os w = Ok (0%Z, w1) ->
  port (calls w1) = Fifo [] stream 0 0 /\ reader_inv w1 /\
  read_octets (calls w1) = [].
Proof.
  intros Hw Hinit.
  destruct (init_ok_calls os w w1 Hinit) as (dev & rc1 & rc2 & tid & ->).
  destruct (init_reader_ok os [] w w1) as [[Hinv _] Hr];
    [by rewrite Hw..|done|].
  by rewrite Hw.
Qed.

(** One iteration of the reader: a read of 63 octets, then a sleep. *)
Lemma fifo_iter w w' :
  rtthread_hci_uart_entry_iter os w = Ok (tt, w') ->
  port (calls w') = arrive cap arr (fetch 63%Z (port (calls w))) /\
  read_octets (calls w') =
    read_octets (calls w) ++ take 63 (pending (port (calls w))).
Proof.
  intros Hiter.
  destruct (entry_iter_calls os w w' Hiter) as (hs & -> & Hhs).
  rewrite fifo_after_app, read_octets_app. cbn [foldl fifo_call].
  rewrite foldl_app.
  destruct (fifo_sinks (fetch 63%Z (port (calls w))) hs Hhs) as [-> Hr].
  split; [done|].
  rewrite read_octets_cons, read_octets_app, Hr. cbn.
  by rewrite app_nil_r.
Qed.

Lemma arrive_conserves q :
  length (pending (arrive cap arr q)) + lost (arrive cap arr q) +
    length (incoming (arrive cap arr q)) =
  length (pending q) + lost q + length (incoming q) /\
  length (pending (arrive cap arr q)) <= cap.
Proof.
  unfold arrive. cbn. rewrite !length_drop, !length_app, !length_take. lia.
Qed.

(** *** Any reader: where the octets are *)

Lemma accounted_iter n w w' :
  rtthread_hci_uart_entry_iter os w = Ok (tt, w') ->
  accounted cap arr stream n w -> accounted cap arr stream (S n) w'.
Proof.
  intros Hiter (Hsum & Hread & Hcap & Hin & Hn). unfold accounted.
  destruct (fifo_iter w w' Hiter) as [-> ->].
  destruct (arrive_conserves (fetch 63%Z (port (calls w)))) as [Hc ?].
  cbn [fetch pending lost incoming] in Hc. rewrite length_drop in Hc.
  change (Z.to_nat 63) with 63 in Hc. rewrite length_app, length_take.
  split_and!; [lia|lia|done|..]; unfold arrive; cbn [fetch incoming periods].
  - by rewrite Hin, Hn, drop_drop, arrived_S.
  - by rewrite Hn.
Qed.

Lemma accounted_run k n w w' :
  rtthread_hci_uart_entry os n w = Ok (tt, w') ->
  accounted cap arr stream k w -> accounted cap arr stream (k + n) w'.
Proof.
  revert k w. induction n as [|n IH]; intros k w Hrun Hacc.
  { injection Hrun as <-. by rewrite Nat.add_0_r. }
  cbn in Hrun. apply bind_ok_inv in Hrun as ([] & w1 & Hiter & Hrun).
  rewrite Nat.add_succ_r. apply (IH (S k) w1 Hrun).
  by apply (accounted_iter k w).
Qed.

(** *** A reader that keeps up: nothing is lost *)

Section KeepsUp.
Variable fs : list frame.
Hypothesis Hstream : stream = h4_stream fs.
Hypothesis Hvalid : Forall valid_frame fs.
Hypothesis Hhost : forallb to_host fs = true.
Hypothesis Hup : keeps_up cap arr.

Lemma in_step_iter n w :
  in_step cap arr stream n w ->
  exists w', rtthread_hci_uart_entry_iter os w = Ok (tt, w') /\
             in_step cap arr stream (S n) w'.
Proof.
  intros (Hq & Hr & Hinv). pose proof (arrived_pred arr n) as Hle.
  assert (length (pending (port (calls w))) <= 63) as Hlen.
  { rewrite Hq. cbn. rewrite length_drop, length_take.
    destruct n as [|n]; [cbn; lia|]. rewrite arrived_S.
    destruct (Hup n). cbn [pred]. lia. }
  assert (read_octets (calls w) ++ pending (port (calls w)) =
          take (arrived arr n) stream) as Hnext
    by (rewrite Hr, Hq; by apply take_drop_take).
  destruct (entry_iter_next os fs w Hvalid Hhost Hinv) as (w' & Hiter & Hok & _).
  { change (read_device os _ _ _ _) with (take 63 (pending (port (calls w)))).
    rewrite (take_ge _ 63 Hlen), Hnext, <- Hstream. apply prefix_take. }
  destruct (fifo_iter w w' Hiter) as [Hq' Hr']. exists w'. split; [done|].
  rewrite take_ge in Hr' by done. split_and!; [|by rewrite Hr'|apply Hok].
  rewrite Hq', Hq. rewrite Hq in Hlen. cbn [pending] in Hlen.
  unfold arrive, fetch. cbn [pending incoming lost periods pred].
  rewrite (drop_ge _ (Z.to_nat 63) Hlen), arrived_S. cbn [app].
  replace (_ - cap) with 0
    by (rewrite length_take; destruct (Hup n); lia).
  by rewrite drop_0, take_drop_commute, drop_drop.
Qed.

Lemma in_step_run k n w :
  in_step cap arr stream k w ->
  exists w', rtthread_hci_uart_entry os n w = Ok (tt, w') /\
             in_step cap arr stream (k + n) w'.
Proof.
  revert k w. induction n as [|n IH]; intros k w Hk.
  { exists w. by rewrite Nat.add_0_r. }
  destruct (in_step_iter k w Hk) as (w1 & Hiter & Hk1).
  destruct (IH (S k) w1 Hk1) as (w' & Hrun & Hkn). exists w'.
  rewrite Nat.add_succ_r. split; [|done]. cbn.
  by rewrite (bind_ok _ _ _ _ _ Hiter).
Qed.

End KeepsUp.

End Port.

(** ** The theorems *)

Section Theorems.
Variable cap : nat.
Variable arr : nat -> nat.

(** C8: the reader keeps up.  On a port whose peer sends valid ACL and
    event packets, when no more octets arrive between two reads than one
    read takes (63) and than the buffer holds, every number of iterations
    of the reader returns without assertion, no octet is overwritten, the
    reader has read all that arrived before its last sleep, and the host
    has been handed the packets those octets complete, in order: all of
    them once the stream has arrived. *)
Theorem reader_keeps_up fs n w w1 :
  keeps_up cap arr -> Forall valid_frame fs -> forallb to_host fs = true ->
  calls w = [] ->
  ble_transport_rtthread_init (fifo_rtos cap arr (h4_stream fs)) w =
    Ok (0%Z, w1) ->
  exists w',
    rtthread_hci_uart_entry (fifo_rtos cap arr (h4_stream fs)) n w1 =
      Ok (tt, w') /\
    lost (fifo_after cap arr (h4_stream fs) (calls w')) = 0 /\
    read_octets (calls w') = take (arrived arr (pred n)) (h4_stream fs) /\
    delivered (calls w') `prefix_of` fs /\
    (length (h4_stream fs) <= arrived arr (pred n) ->
     delivered (calls w') = fs /\ g_hci_h4sm (drv w') = W4_PKT_TYPE).
Proof.
  intros Hup Hvalid Hhost Hw Hinit.
  destruct (fifo_init cap arr _ w w1 Hw Hinit) as (Hq & Hinv & Hr).
  destruct (in_step_run cap arr _ fs eq_refl Hvalid Hhost Hup 0 n w1)
    as (w' & Hrun & Hq' & Hr' & Hinv'); [by unfold in_step; rewrite Hq, Hr|].
  exists w'. rewrite Hq', Hr'. split_and!; [done..| |].
  - apply (reader_ok_delivered fs w' Hvalid). split; [done|].
    rewrite Hr'. apply prefix_take.
  - intros Hall. apply (reader_ok_delivered fs w' Hvalid).
    + split; [done|]. rewrite Hr'. apply prefix_take.
    + by rewrite Hr', take_ge.
Qed.

(** C16: the reader cannot take more than 63 octets per period.  Whatever
    the peer sends and however it arrives, [n] iterations of the reader
    either stop at an assertion of the decoder or of the callback, or
    return; then every octet that has arrived was read, is in the buffer or
    was overwritten; no more than 63 octets were read per iteration and the
    buffer holds no more than its size: what arrived beyond that is
    lost. *)
Theorem reader_overrun stream n w w1 :
  calls w = [] ->
  ble_transport_rtthread_init (fifo_rtos cap arr stream) w = Ok (0%Z, w1) ->
  match rtthread_hci_uart_entry (fifo_rtos cap arr stream) n w1 with
  | Ok (_, w') =>
      let q := fifo_after cap arr stream (calls w') in
      length (read_octets (calls w')) + length (pending q) + lost q =
        arrived arr n `min` length stream /\
      length (read_octets (calls w')) <= 63 * n /\
      length (pending q) <= cap /\
      arrived arr n `min` length stream - 63 * n - cap <= lost q
  | Abort e => e = assert_pkt_type \/ e = assert_frame_cb
  end.
Proof.
  intros Hw Hinit.
  destruct (rtthread_hci_uart_entry _ n w1) as [[[] w']|e] eqn:Hrun;
    [|by apply (entry_abort _ n w1)].
  intros q. destruct (fifo_init cap arr _ w w1 Hw Hinit) as (Hq & _ & Hr).
  destruct (accounted_run cap arr stream 0 n w1 w' Hrun)
    as (Hsum & Hread & Hcap & Hin & _).
  { unfold accounted. rewrite Hq, Hr. cbn. split_and!; [lia..|done|done]. }
  fold q in Hsum, Hcap, Hin. rewrite Hin, length_drop in Hsum.
  rewrite Nat.add_0_l in *. lia.
Qed.

End Theorems.

(** ** The default line *)

(** At the default line configuration the reader keeps up when its
    periods last no more than 5 milliseconds and the buffer holds 63
    octets. *)
Lemma default_line_keeps_up ms cap arr :
  (0 <= ms <= 5)%Z -> 63 <= cap ->
  (forall k,
    (Z.of_nat (arr k) <= octets_per_period RT_SERIAL_CONFIG_DEFAULT ms)%Z) ->
  keeps_up cap arr.
Proof.
  intros Hms Hcap Harr k. specialize (Harr k).
  assert (octets_per_period RT_SERIAL_CONFIG_DEFAULT ms < 59)%Z
    by (apply Z.div_lt_upper_bound; cbn; lia). lia.
Qed.

(** ** The theorems at concrete ports

    The default line sends at most 58 octets in 5 milliseconds and at most
    116 in 10.  A port with a buffer of 64 octets on which the reader's
    periods last 5 milliseconds, one on which they last 10, and one on
    which they last 10 once the header of a long ACL data packet has
    arrived. *)

Definition arr_5ms (k : nat) : nat :=
  Z.to_nat (octets_per_period RT_SERIAL_CONFIG_DEFAULT 5).

Definition arr_10ms (k : nat) : nat :=
  Z.to_nat (octets_per_period RT_SERIAL_CONFIG_DEFAULT 10).

Definition arr_10ms_late (k : nat) : nat :=
  if decide (k = 0) then 5 else arr_10ms k.

Definition acl_long : frame :=
  (HCI_H4_ACL, [1; 0; 144; 1]%Z ++ replicate 400 7%Z).

(** Where four iterations on the last port end. *)
Definition w_overrun : tworld :=
  Eval vm_compute in
    tfinal (rtthread_hci_uart_entry
              (fifo_rtos 64 arr_10ms_late (h4_stream [acl_long])) 4)
      w_peer_init.

(** That run returns, with 158 octets lost. *)
Lemma overrun_loses :
  rtthread_hci_uart_entry
    (fifo_rtos 64 arr_10ms_late (h4_stream [acl_long])) 4 w_peer_init =
    Ok (tt, w_overrun) /\
  lost (fifo_after 64 arr_10ms_late (h4_stream [acl_long]) (calls w_overrun))
    = 158.
Proof. split; by vm_compute. Qed.

(** With periods of 10 milliseconds a peer that sends sixty events without
    a pause stops the reader: octets are overwritten while it sleeps, the
    decoder takes the type of one event for the last octet of another and
    the next octet for a packet type, and asserts. *)
Lemma overrun_asserts :
  rtthread_hci_uart_entry
    (fifo_rtos 64 arr_10ms (h4_stream (replicate 60 evt1))) 3 w_peer_init =
  Abort assert_pkt_type.
Proof. by vm_compute. Qed.

Lemma reader_keeps_up_witness :
  exists w',
    rtthread_hci_uart_entry (fifo_rtos 64 arr_5ms (h4_stream [evt1; acl1])) 3
      w_peer_init = Ok (tt, w') /\
    lost (fifo_after 64 arr_5ms (h4_stream [evt1; acl1]) (calls w')) = 0 /\
    read_octets (calls w') =
      take (arrived arr_5ms (pred 3)) (h4_stream [evt1; acl1]) /\
    delivered (calls w') `prefix_of` [evt1; acl1] /\
    (length (h4_stream [evt1; acl1]) <= arrived arr_5ms (pred 3) ->
     delivered (calls w') = [evt1; acl1] /\
     g_hci_h4sm (drv w') = W4_PKT_TYPE).
Proof.
  apply (reader_keeps_up 64 arr_5ms [evt1; acl1] 3 w_off w_peer_init);
    [|by repeat constructor|done..].
  intros k. vm_compute. lia.
Defined.

Lemma reader_overrun_witness :
  match rtthread_hci_uart_entry
          (fifo_rtos 64 arr_10ms_late (h4_stream [acl_long])) 4 w_peer_init
  with
  | Ok (_, w') =>
      let q := fifo_after 64 arr_10ms_late (h4_stream [acl_long]) (calls w') in
      length (read_octets (calls w')) + length (pending q) + lost q =
        arrived arr_10ms_late 4 `min` length (h4_stream [acl_long]) /\
      length (read_octets (calls w')) <= 63 * 4 /\
      length (pending q) <= 64 /\
      arrived arr_10ms_late 4 `min` length (h4_stream [acl_long]) - 63 * 4
        - 64 <= lost q
  | Abort e => e = assert_pkt_type \/ e = assert_frame_cb
  end.
Proof.
  apply (reader_overrun 64 arr_10ms_late (h4_stream [acl_long]) 4 w_off
           w_peer_init); [done|by vm_compute].
Defined.
