(* ===== verification/Channel.v ===== *)
(** * Channel: what the transport promises its users

    To the host the transport is a pair of queues of packets: what the
    host sends goes out in the order it was sent, and what the peer sends
    comes in, in the order the peer sent it.  [chan] is that pair,
    [chan_step] what an operation does to it: a send appends one packet to
    the outgoing queue; an iteration of the reader brings in zero or more
    of the peer's next packets.

    The operations of the driver after its initialisation are [op]: a
    request served by one of the senders, or one iteration of the reader;
    [drive] runs one, [drive_all] a sequence.  [chan_rel] relates a world of
    the driver to a state of the channel: the wire holds the encodings of
    the outgoing queue, the host has been handed the incoming queue.

    [Channel.transport_refines_channel]: from the world a successful
    initialisation leaves, every sequence of operations runs to its end and
    is a run of the channel, related to it by [chan_rel] at every step. *)

From Stdlib Require Import ZArith Lia String.
From stdpp Require Import base tactics option list numbers strings.
From S2P Require Import Prelude HciH4 Rtos Transport Loopback.

#[local] Open Scope Z_scope.
#[local] Open Scope nimble_scope.

(** ** The channel *)

(** The packets put on the wire and the packets handed to the host. *)
Record chan : Type := Chan { outq : list frame; inq : list frame }.

(** An operation of the driver: a request to send, or one iteration of the
    reader thread. *)
Inductive op : Type :=
| Send (t : tx)
| Poll.

#[export] Instance chan_eq_dec : EqDecision chan.
Proof. solve_decision. Defined.

Section Spec.
(** The packets the peer sends. *)
Variable fs : list frame.

Inductive chan_step : chan -> op -> chan -> Prop :=
| chan_send c t :
    chan_step c (Send t) (Chan (outq c ++ [tx_frame t]) (inq c))
| chan_poll c k :
    (length (inq c) <= k)%nat -> chan_step c Poll (Chan (outq c) (take k fs)).

Inductive chan_run : chan -> list op -> chan -> Prop :=
| chan_nil c : chan_run c [] c
| chan_cons c o c1 ops c' :
    chan_step c o c1 -> chan_run c1 ops c' -> chan_run c (o :: ops) c'.

End Spec.

(** ** The driver *)

Section Drive.
Variable os : rtos.

Definition drive (fuel : nat) (o : op) : M tworld unit :=
  match o with
  | Send t => _ <- send os fuel t ;; ret tt
  | Poll => rtthread_hci_uart_entry_iter os
  end.

Fixpoint drive_all (fuel : nat) (ops : list op) : M tworld unit :=
  match ops with
  | [] => ret tt
  | o :: ops => drive fuel o ;; drive_all fuel ops
  end.

End Drive.

(** ** Specifications *)

(** The requests among the operations. *)
Definition sent (ops : list op) : list tx :=
  omap (fun o => match o with Send t => Some t | Poll => None end) ops.

(** An operation the driver can serve with [fuel] iterations per write. *)
Definition op_ok (fuel : nat) (o : op) : Prop :=
  match o with Send t => tx_ok fuel t | Poll => True end.

#[export] Instance op_ok_dec fuel o : Decision (op_ok fuel o).
Proof. destruct o; apply _. Defined.

(** The driver in the world [w] implements the channel in the state [c],
    while the peer sends [fs]. *)
Definition chan_rel (fs : list frame) (w : tworld) (c : chan) : Prop :=
  g_hci_uart (drv w) <> RT_NULL /\ reader_ok fs w /\
  wire (calls w) = h4_stream (outq c) /\ delivered (calls w) = inq c.

(** ** Facts about the channel *)

Lemma prefix_take_le {A} (l fs : list A) k :
  l `prefix_of` fs -> (length l <= k)%nat -> l `prefix_of` take k fs.
Proof.
  intros [rest ->] Hk. rewrite take_app_ge by done. by apply prefix_app_r.
Qed.

Lemma prefix_is_take {A} (l fs : list A) :
  l `prefix_of` fs -> l = take (length l) fs.
Proof. intros [rest ->]. by rewrite take_app_length. Qed.

Section SpecFacts.
Variable fs : list frame.

(** The outgoing queue is the packets of the requests, in order. *)
Lemma chan_run_out c ops c' :
  chan_run fs c ops c' -> outq c' = outq c ++ (tx_frame <$> sent ops).
Proof.
  induction 1 as [c|c o c1 ops c' Hs _ IH]; [by rewrite app_nil_r|].
  rewrite IH. destruct Hs; cbn; [|done]. by rewrite <- app_assoc.
Qed.

(** The incoming queue grows, and is always a prefix of what the peer
    sends: no packet is lost, repeated or reordered. *)
Lemma chan_run_inp c ops c' :
  chan_run fs c ops c' -> inq c `prefix_of` fs ->
  inq c `prefix_of` inq c' /\ inq c' `prefix_of` fs.
Proof.
  induction 1 as [c|c o c1 ops c' Hs _ IH]; intros Hp; [done|].
  destruct Hs as [c t|c k Hk]; cbn in IH; [by apply IH|].
  destruct IH as [IH1 IH2]; [apply prefix_take|]. split; [|done].
  etrans; [|exact IH1]. by apply prefix_take_le.
Qed.

End SpecFacts.

(** ** The simulation *)

(** A successful initialisation writes nothing and leaves a device
    handle. *)
Lemma init_up os w w1 :
  ble_transport_rtthread_init os w = Ok (0, w1) ->
  g_hci_uart (drv w1) <> RT_NULL /\ wire (calls w1) = wire (calls w).
Proof.
  intros Hinit.
  destruct (answers_exist os (calls w)) as (dev & rc1 & rc2 & tid & Ha).
  rewrite (ble_transport_rtthread_init_cases os w dev rc1 rc2 tid Ha) in Hinit.
  revert Hinit. cbn. repeat case_decide; intros; simplify_eq/=.
  split; [done|]. by rewrite wire_app, app_nil_r.
Qed.

Section Simulation.
Variable os : rtos.
Variable fs : list frame.
Context `{!SaneDevice os, !ProgressingDevice os, !PeerSends os fs}.

(** The world after a successful initialisation from power-on implements
    the empty channel. *)
Lemma chan_rel_init w w1 :
  calls w = [] -> ble_transport_rtthread_init os w = Ok (0, w1) ->
  chan_rel fs w1 (Chan [] []).
Proof.
  intros Hw Hinit. destruct (init_up os w w1 Hinit) as [Hu Hwire].
  destruct (init_reader_ok os fs w w1) as [Hok Hr]; [by rewrite Hw..|done|].
  split_and!; [done..|by rewrite Hwire, Hw|].
  destruct Hok as [Hinv _]. unfold reader_inv in Hinv. rewrite Hr in Hinv.
  by simplify_eq/=.
Qed.

(** Serving a request appends its packet to the outgoing queue. *)
Lemma drive_send fuel t w c :
  chan_rel fs w c -> tx_ok fuel t ->
  exists w', drive os fuel (Send t) w = Ok (tt, w') /\
             chan_rel fs w' (Chan (outq c ++ [tx_frame t]) (inq c)).
Proof.
  intros (Hu & [Hinv Hpre] & Hw & Hd) Ht.
  destruct (send_ok os fuel t w Hu Ht)
    as (_ & w' & Hs & Hdrv & Hw' & Hr' & Hd').
  exists w'. cbn [drive]. rewrite (bind_ok _ _ _ _ _ Hs).
  unfold chan_rel, reader_ok, reader_inv. rewrite Hdrv, Hw', Hr', Hd'.
  cbn [outq inq]. split_and!; [done..| |done].
  rewrite Hw, h4_stream_app, h4_stream_cons. cbn. by rewrite app_nil_r.
Qed.

(** An iteration of the reader brings in the peer's next packets. *)
Lemma drive_poll fuel w c :
  chan_rel fs w c ->
  exists w' k, drive os fuel Poll w = Ok (tt, w') /\ (length (inq c) <= k)%nat /\
               chan_rel fs w' (Chan (outq c) (take k fs)).
Proof.
  intros (Hu & Hok & Hw & Hd).
  destruct (entry_iter_peer os fs w Hok) as (w' & Hw' & Hok' & Hp & _).
  destruct (entry_iter_sound os w w' Hw') as (sm' & f2 & _ & Ht).
  destruct (took_calls _ _ _ _ _ Ht) as (Hwire & _ & Hdel).
  exists w', (length (delivered (calls w'))). split; [done|]. split.
  { rewrite <- Hd, Hdel, length_app. lia. }
  unfold chan_rel. rewrite (took_drv _ _ _ _ _ Ht), Hwire. cbn.
  split_and!; [done..|]. by apply prefix_is_take.
Qed.

(** One operation of the driver is one step of the channel. *)
Lemma drive_sim fuel o w c :
  chan_rel fs w c -> op_ok fuel o ->
  exists w' c', drive os fuel o w = Ok (tt, w') /\ chan_step fs c o c' /\
                chan_rel fs w' c'.
Proof.
  intros Hrel Ho. destruct o as [t|].
  - destruct (drive_send fuel t w c Hrel Ho) as (w' & ? & ?).
    eexists w', _. split_and!; [done| |done]. constructor.
  - destruct (drive_poll fuel w c Hrel) as (w' & k & ? & ? & ?).
    eexists w', _. split_and!; [done| |done]. by constructor.
Qed.

(** Any sequence of operations is a run of the channel. *)
Lemma drive_all_sim fuel ops w c :
  chan_rel fs w c -> Forall (op_ok fuel) ops ->
  exists w' c', drive_all os fuel ops w = Ok (tt, w') /\
                chan_run fs c ops c' /\ chan_rel fs w' c'.
Proof.
  intros Hrel Hops. revert w c Hrel.
  induction Hops as [|o ops Ho _ IH]; intros w c Hrel.
  { exists w, c. split_and!; [done| |done]. constructor. }
  destruct (drive_sim fuel o w c Hrel Ho) as (w1 & c1 & Hd & Hs & Hrel1).
  destruct (IH w1 c1 Hrel1) as (w' & c' & Hall & Hrun & Hrel').
  exists w', c'. split_and!; [|by econstructor|done].
  cbn. by rewrite (bind_ok _ _ _ _ _ Hd).
Qed.

(** C4: the transport implements the channel.  After a successful
    initialisation from power-on, on a device that makes progress and
    while the peer sends valid ACL and event packets, every sequence of
    requests the senders can serve and of iterations of the reader runs to
    its end without assertion and is a run of the channel from the empty
    channel: the wire holds the encodings of the packets of the requests,
    in the order of the requests, and the host has been handed a prefix,
    in order, of the packets the peer sends. *)
Theorem transport_refines_channel fuel ops w w1 :
  calls w = [] -> ble_transport_rtthread_init os w = Ok (0, w1) ->
  Forall (op_ok fuel) ops ->
  exists w' c',
    drive_all os fuel ops w1 = Ok (tt, w') /\
    chan_run fs (Chan [] []) ops c' /\ chan_rel fs w' c' /\
    wire (calls w') = h4_stream (tx_frame <$> sent ops) /\
    delivered (calls w') `prefix_of` fs.
Proof.
  intros Hw Hinit Hops.
  destruct (drive_all_sim fuel ops w1 _ (chan_rel_init w w1 Hw Hinit) Hops)
    as (w' & c' & Hall & Hrun & Hrel).
  exists w', c'. split_and!; [done..| |].
  - destruct Hrel as (_ & _ & -> & _). by rewrite (chan_run_out fs _ _ _ Hrun).
  - destruct Hrel as (_ & _ & _ & ->).
    by apply (chan_run_inp fs _ _ _ Hrun), prefix_nil.
Qed.

End Simulation.

(** ** The theorem at a concrete run

    On the reference peer of [Transport], which sends [evt1] and [acl1]: a
    command, an iteration, an ACL data chain, two iterations. *)

Definition ops1 : list op :=
  [Send (TxCmd cmd1); Poll; Send (TxAcl om_acl1); Poll; Poll].

Lemma transport_refines_channel_witness :
  exists w' c',
    drive_all ref_peer 4 ops1 w_peer_init = Ok (tt, w') /\
    chan_run [evt1; acl1] (Chan [] []) ops1 c' /\
    chan_rel [evt1; acl1] w' c' /\
    wire (calls w') = h4_stream (tx_frame <$> sent ops1) /\
    delivered (calls w') `prefix_of` [evt1; acl1].
Proof.
  apply (transport_refines_channel ref_peer [evt1; acl1] 4 ops1 w_off
           w_peer_init); [done..|].
  by apply (bool_decide_unpack _).
Defined.
