(* ===== verification/System.v ===== *)
(** * System: from the callbacks of the host to the octets on the wire

    blehr.c and ble_hci_rtthread.c meet in the host: what the application
    asks of the host (an address, advertising, a notification) the host
    turns into HCI commands and ACL data and hands to the senders of the
    transport, inside the call, so in the order of the calls.  The host's
    encoding is not part of the sources: it is the parameter [egress].

    A state of the system is a world of the application and a world of the
    transport.  An operation is a callback of the host into the
    application, after which the host sends what the callback asked for,
    or an iteration of the reader thread.

    [System.system_refines_spec]: from power-on, while the environment
    behaves as the specification assumes, nothing aborts and the wire holds
    the encodings of the outputs of the specification's machine, in their
    order. *)

From Stdlib Require Import ZArith Lia String.
From stdpp Require Import base tactics option list numbers strings.
From S2P Require Import Prelude Host Blehr Reliable Lifecycle HciH4 Rtos.
From S2P Require Import Transport Loopback Channel.

#[local] Open Scope Z_scope.
#[local] Open Scope nimble_scope.

(** ** The host between the application and the transport *)

(** What the host hands to the transport for an output of the
    application. *)
Class HostEgress : Type := { egress : Lifecycle.out -> list tx }.

(** The two worlds. *)
Record sys (H : Type) : Type := Sys { upper : world H; lower : tworld }.

Arguments Sys {H} upper lower.
Arguments upper {H} s.
Arguments lower {H} s.

(** A callback of the host into the application, or an iteration of the
    reader thread. *)
Inductive sys_op : Type :=
| Callback (i : input)
| Iterate.

(** The outputs the log [l'] shows and the log [l], its beginning, did
    not. *)
Definition new_outs (l l' : list host_call) : list Lifecycle.out :=
  drop (length (observe l)) (observe l').

Section System.
Context {H : Type} `{HostStack H} `{HostEgress}.
Variable os : rtos.
Variable hrm : Z.
Variable fuel : nat.

Definition sys_step (o : sys_op) : M (sys H) unit :=
  fun s =>
    match o with
    | Callback i =>
        match step hrm i (upper s) with
        | Ok (_, w') =>
            let outs :=
              new_outs (host_log (host (upper s))) (host_log (host w')) in
            match send_all os fuel (outs ≫= egress) (lower s) with
            | Ok (_, t') => Ok (tt, Sys w' t')
            | Abort e => Abort e
            end
        | Abort e => Abort e
        end
    | Iterate =>
        match rtthread_hci_uart_entry_iter os (lower s) with
        | Ok (_, t') => Ok (tt, Sys (upper s) t')
        | Abort e => Abort e
        end
    end.

Fixpoint sys_run (ops : list sys_op) : M (sys H) unit :=
  match ops with
  | [] => ret tt
  | o :: ops => sys_step o ;; sys_run ops
  end.

End System.

(** ** Specifications *)

(** The callbacks among the operations. *)
Definition callbacks (ops : list sys_op) : list input :=
  omap (fun o => match o with Callback i => Some i | Iterate => None end) ops.

(** The packets the host sends for a sequence of outputs. *)
Definition packets `{HostEgress} (outs : list Lifecycle.out) : list frame :=
  tx_frame <$> (outs ≫= egress).

(** The system in the state [s] implements the specification's machine in
    the state [sp] after the outputs [outs]: the application represents
    [sp], the host has been asked for [outs] since the log showed [o0], and
    the transport has put their packets on the wire and taken a prefix of
    the packets [fs] of the peer. *)
Definition sys_rel `{HostReliable H} `{HostEgress} (fs : list frame)
    (o0 : list Lifecycle.out) (s : sys H) (sp : spec_state)
    (outs : list Lifecycle.out) : Prop :=
  R (upper s) sp /\ reliable (host (upper s)) /\
  observe (host_log (host (upper s))) = o0 ++ outs /\
  exists q, chan_rel fs (lower s) (Chan (packets outs) q) /\ q `prefix_of` fs.

(** ** Facts *)

Lemma packets_app `{HostEgress} a b : packets (a ++ b) = packets a ++ packets b.
Proof. unfold packets. by rewrite bind_app, fmap_app. Qed.

Section Simulation.
Context {H : Type} `{HostStackLaws H} `{!HostReliable H} `{HostEgress}.
Variable os : rtos.
Variable fs : list frame.
Context `{!SaneDevice os, !ProgressingDevice os, !PeerSends os fs}.
Variable hrm : Z.
Variable fuel : nat.

(** The host sends what a callback asked for. *)
Lemma sends_sim t q outs outs' :
  chan_rel fs t (Chan (packets outs) q) ->
  Forall (tx_ok fuel) (outs' ≫= egress) ->
  exists t', send_all os fuel (outs' ≫= egress) t = Ok (tt, t') /\
             chan_rel fs t' (Chan (packets (outs ++ outs')) q).
Proof.
  intros (Hu & [Hinv Hpre] & Hw & Hd) Hok. cbn in Hw, Hd.
  destruct (send_all_ok os fuel _ t Hu Hok)
    as (_ & t' & Hs & Hdrv & Hw' & Hr' & Hd').
  exists t'. split; [done|].
  unfold chan_rel, reader_ok, reader_inv. rewrite Hdrv, Hw', Hr', Hd'.
  cbn [outq inq]. split_and!; [done..| |done].
  by rewrite Hw, packets_app, h4_stream_app.
Qed.

(** One operation: a step of the specification's machine for a callback
    the specification allows, none for an iteration of the reader. *)
Lemma sys_step_sim o0 o s sp outs :
  sys_rel fs o0 s sp outs ->
  let sp' := match o with Callback i => spec_step hrm sp i | Iterate => (sp, []) end in
  match o with Callback i => allowed hrm sp i = true | Iterate => True end ->
  Forall (tx_ok fuel) (sp'.2 ≫= egress) ->
  exists s', sys_step os hrm fuel o s = Ok (tt, s') /\
             sys_rel fs o0 s' sp'.1 (outs ++ sp'.2).
Proof.
  intros (HR & Hr & Ho & q & Hrel & Hq) sp' Hal Hok.
  destruct o as [i|]; subst sp'; cbn [fst snd] in *.
  - destruct (step_refines hrm i _ sp HR Hr Hal)
      as ([] & w' & Hs & HR' & Hr' & Ho').
    destruct (sends_sim _ q outs _ Hrel Hok) as (t' & Ht' & Hrel').
    exists (Sys w' t'). unfold sys_step, new_outs.
    rewrite Hs, Ho', drop_app_length, Ht'. split; [done|].
    split_and!; [done..|by cbn; rewrite Ho', Ho, app_assoc|by exists q].
  - destruct (drive_poll os fs fuel _ _ Hrel) as (t' & k & Ht' & Hk & Hrel').
    change (drive os fuel Poll) with (rtthread_hci_uart_entry_iter os) in Ht'.
    exists (Sys (upper s) t'). unfold sys_step. rewrite Ht'.
    split; [done|]. rewrite app_nil_r.
    split_and!; [done..|]. exists (take k fs). split; [done|apply prefix_take].
Qed.

(** Any sequence of operations whose callbacks the specification allows. *)
Lemma sys_run_sim o0 ops s sp outs :
  sys_rel fs o0 s sp outs ->
  env_ok hrm sp (callbacks ops) = true ->
  Forall (tx_ok fuel) ((spec_run hrm sp (callbacks ops)).2 ≫= egress) ->
  exists s', sys_run os hrm fuel ops s = Ok (tt, s') /\
             sys_rel fs o0 s' (spec_run hrm sp (callbacks ops)).1
               (outs ++ (spec_run hrm sp (callbacks ops)).2).
Proof.
  revert s sp outs. induction ops as [|o ops IH]; intros s sp outs Hrel Henv Hok.
  { exists s. cbn. by rewrite app_nil_r. }
  destruct o as [i|]; cbn [callbacks omap] in *; cbn -[sys_step] in *.
  - apply andb_true_iff in Henv as [Hal Henv].
    rewrite bind_app in Hok. apply Forall_app in Hok as [Hok1 Hok2].
    destruct (sys_step_sim o0 (Callback i) s sp outs Hrel Hal Hok1)
      as (s1 & Hs1 & Hrel1).
    destruct (IH s1 _ _ Hrel1 Henv Hok2) as (s' & Hs' & Hrel').
    exists s'. rewrite (bind_ok _ _ _ _ _ Hs1). by rewrite app_assoc.
  - destruct (sys_step_sim o0 Iterate s sp outs Hrel I) as (s1 & Hs1 & Hrel1);
      [done|]. cbn in Hrel1. rewrite app_nil_r in Hrel1.
    destruct (IH s1 _ _ Hrel1 Henv Hok) as (s' & Hs' & Hrel').
    exists s'. by rewrite (bind_ok _ _ _ _ _ Hs1).
Qed.

End Simulation.

Section Refinement.
Context {H : Type} `{HostStackLaws H} `{!HostReliable H} `{HostEgress}.
Variable os : rtos.
Variable fs : list frame.
Context `{!SaneDevice os, !ProgressingDevice os, !PeerSends os fs}.
Variable hrm : Z.
Variable fuel : nat.

(** After [ble_hr] on a host that accepts every request and a successful
    initialisation of the transport, the system implements the initial
    state of the specification's machine. *)
Lemma sys_rel_init h t0 t1 :
  reliable h -> calls t0 = [] ->
  ble_transport_rtthread_init os t0 = Ok (0, t1) ->
  exists w1,
    ble_hr (World blehr_init h) = Ok (0, w1) /\
    sys_rel fs (observe (host_log (host w1))) (Sys w1 t1) spec_init [].
Proof.
  intros Hr Ht0 Hinit.
  destruct (ble_hr_first_did (World blehr_init h) Hr eq_refl)
    as (rc & w1 & Hhr & Ha & Hl & Hc & Hr1).
  exists w1. split; [done|]. split_and!; cbn [upper lower].
  - unfold R. rewrite Ha, Hc. solve_rel.
  - done.
  - by rewrite app_nil_r.
  - exists []. split; [|apply prefix_nil].
    apply (chan_rel_init os fs t0 t1 Ht0 Hinit).
Qed.

(** C3: the system refines the specification, from power-on to the wire.
    After [ble_hr] on a host that accepts every request and a successful
    initialisation of the transport, every sequence of callbacks and
    iterations of the reader whose callbacks the specification's
    environment allows, and whose packets the senders can serve, runs
    without a failed assertion; the application ends in statics that
    represent the state of the specification's machine; the wire holds the
    packets of the outputs of that machine, in their order, each whole; and
    the host has been handed a prefix of the packets the peer sent. *)
Theorem system_refines_spec ops h t0 t1 :
  reliable h -> calls t0 = [] ->
  ble_transport_rtthread_init os t0 = Ok (0, t1) ->
  env_ok hrm spec_init (callbacks ops) = true ->
  Forall (tx_ok fuel)
    ((spec_run hrm spec_init (callbacks ops)).2 ≫= egress) ->
  exists w1 s',
    ble_hr (World blehr_init h) = Ok (0, w1) /\
    sys_run os hrm fuel ops (Sys w1 t1) = Ok (tt, s') /\
    R (upper s') (spec_run hrm spec_init (callbacks ops)).1 /\
    wire (calls (lower s')) =
      h4_stream (packets (spec_run hrm spec_init (callbacks ops)).2) /\
    delivered (calls (lower s')) `prefix_of` fs.
Proof.
  intros Hr Ht0 Hinit Henv Hok.
  destruct (sys_rel_init h t0 t1 Hr Ht0 Hinit) as (w1 & Hhr & Hrel).
  destruct (sys_run_sim os fs hrm fuel _ ops _ _ _ Hrel Henv Hok)
    as (s' & Hrun & HR & _ & _ & q & (_ & _ & Hw & Hd) & Hq).
  exists w1, s'. cbn in Hw, Hd. by rewrite Hd.
Qed.

End Refinement.

(** ** The theorem at a concrete run

    A host that encodes the requests of the application as the Bluetooth
    core specification has them: LE Set Random Address, LE Set Advertising
    Enable, and an ACL data packet that carries the notification (L2CAP
    header, ATT Handle Value Notification) in a chain of two segments. *)

Definition att_notify (conn attr : Z) (payload : list Z) : list os_mbuf :=
  let n := Z.of_nat (length payload) in
  [{| om_data := [conn; 0; n + 7; 0]; om_len := 4 |};
   {| om_data := [n + 3; 0; 4; 0; 0x1b; attr; 0] ++ payload;
      om_len := n + 7 |}].

#[export] Instance ref_egress : HostEgress := {
  egress o :=
    match o with
    | OSetAddr addr => [TxCmd ([0x05; 0x20; 6] ++ addr)]
    | OAdvertise _ => [TxCmd [0x0a; 0x20; 1; 1]]
    | ONotify conn attr payload => [TxAcl (att_notify conn attr payload)]
    end
}.

(** The session of [Lifecycle] with an iteration of the reader after the
    connection and after each tick. *)
Definition ops_session : list sys_op :=
  [Callback ISync; Callback (IGap (BLE_GAP_EVENT_CONNECT 0)); Iterate;
   Callback (IGap (BLE_GAP_EVENT_SUBSCRIBE 3 true 1));
   Callback ITick; Iterate; Callback ITick; Iterate;
   Callback (IGap (BLE_GAP_EVENT_SUBSCRIBE 3 false 1)); Callback ITick;
   Callback (IGap (BLE_GAP_EVENT_DISCONNECT 19))].

Lemma system_refines_spec_witness :
  exists w1 s',
    ble_hr (w_start []) = Ok (0, w1) /\
    sys_run ref_peer 3 9 ops_session (Sys w1 w_peer_init) = Ok (tt, s') /\
    R (upper s') (spec_run 3 spec_init (callbacks ops_session)).1 /\
    wire (calls (lower s')) =
      h4_stream (packets (spec_run 3 spec_init (callbacks ops_session)).2) /\
    delivered (calls (lower s')) `prefix_of` [evt1; acl1].
Proof.
  apply (system_refines_spec ref_peer [evt1; acl1] 3 9 ops_session
           (rh_init []) w_off w_peer_init); [done..|].
  by apply (bool_decide_unpack _).
Defined.
