(* ===== verification/Duplex.v ===== *)
(** * Duplex: the reader thread scheduled against the senders

    [rtthread_hci_uart_init] starts the reader thread; from then on it runs
    beside whatever tasks call [ble_transport_to_ll_cmd_impl] and
    [ble_transport_to_ll_acl_impl].  The reader writes the decoder state
    and nothing else; the senders read [g_hci_uart] and write no static.

    - [reader] is where the reader thread is in its loop, [reader_step] what
      it does until it can next be preempted: the call of [rt_device_read],
      one octet of [hci_h4_sm_rx] with the callback that octet completes,
      or the call of [rt_thread_mdelay].
    - [run_tasks] runs the reader and two senders (the threads of
      [Interleave]) under a schedule that names the task of each step.
    - [rx_view] and [tx_view] are what the calls so far look like from the
      receiving and from the sending side; [FullDuplex] is a device whose
      two directions do not influence each other.

    That the reader's steps make up the iterations of [Transport] is a
    lemma about the model ([reader_steps_refine_entry]).  The theorems: a
    run of the three tasks is, seen from each side, that side running by
    itself, so what is proved of the reader alone and of the senders alone
    holds under every schedule; and a schedule matters only through the
    slots it gives each side: runs under schedules with the same slots end
    in worlds related by [same_world], which [wire], [read_octets] and
    [delivered] respect. *)

From Stdlib Require Import ZArith Lia String.
From stdpp Require Import base tactics option list numbers strings.
From S2P Require Import Prelude HciH4 Rtos Transport Interleave Loopback.

#[local] Open Scope Z_scope.
#[local] Open Scope nimble_scope.

(** ** The reader thread, step by step *)

(** Where the reader is: before [rt_device_read]; inside [hci_h4_sm_rx]
    with the octets [rest] of [rx] still to decode; before
    [rt_thread_mdelay]. *)
Inductive reader : Type :=
| Reading
| Feeding (rest : list Z)
| Sleeping.

#[export] Instance reader_eq_dec : EqDecision reader.
Proof. solve_decision. Defined.

(** The octets read and not yet decoded. *)
Definition unfed (r : reader) : list Z :=
  match r with Feeding rest => rest | _ => [] end.

(** The tasks of the driver: the reader thread and two senders. *)
Inductive task : Type :=
| Reader
| Sender (first : bool).

#[export] Instance task_eq_dec : EqDecision task.
Proof. solve_decision. Defined.

Section Steps.
Variable os : rtos.

(** One step of [rtthread_hci_uart_entry]. *)
Definition reader_step (r : reader) : M tworld reader :=
  match r with
  | Reading =>
      uart <- get_drv g_hci_uart ;;
      rx <- env (rt_device_read os uart 0 (ARRAY_SIZE sizeof_rx 1)) ;;
      let len := Z.of_nat (length rx) in
      (if sizeof_rx <? len then abort oob_rx else ret tt) ;;
      ret (if 0 <? len then Feeding rx else Sleeping)
  | Feeding [] => ret Sleeping
  | Feeding (b :: rest) =>
      g_hci_h4sm_rx os [b] ;;
      ret (match rest with [] => Sleeping | _ => Feeding rest end)
  | Sleeping => env_ (rt_thread_mdelay 1) ;; ret Reading
  end.

(** [k] steps of the reader by itself. *)
Fixpoint reader_steps (k : nat) (r : reader) : M tworld reader :=
  match k with
  | O => ret r
  | S k => r' <- reader_step r ;; reader_steps k r'
  end.

(** The three tasks under a schedule; a sender that has returned is
    skipped, the reader never returns. *)
Fixpoint run_tasks (sched : list task) (r : reader) (t1 t2 : thread)
    (w : tworld) : res (reader * thread * thread * tworld) :=
  match sched with
  | [] => Ok (r, t1, t2, w)
  | Reader :: sched =>
      match reader_step r w with
      | Ok (r', w') => run_tasks sched r' t1 t2 w'
      | Abort e => Abort e
      end
  | Sender b :: sched =>
      match thread_step os (g_hci_uart (drv w)) (if b then t1 else t2)
              (calls w) with
      | Ok (Some (t', l')) =>
          if b then run_tasks sched r t' t2 (TWorld (drv w) l')
          else run_tasks sched r t1 t' (TWorld (drv w) l')
      | Ok None => run_tasks sched r t1 t2 w
      | Abort e => Abort e
      end
  end.

End Steps.

(** ** Specifications *)

(** The steps of an iteration of the reader that starts in [w]: the read,
    one per octet read, the sleep. *)
Definition iter_steps (os : rtos) (w : tworld) : nat :=
  2 + length (read_device os (calls w) (g_hci_uart (drv w)) 0
                (ARRAY_SIZE sizeof_rx 1)).

(** The steps of its first [n] iterations. *)
Fixpoint entry_steps (os : rtos) (n : nat) (w : tworld) : nat :=
  match n with
  | O => O
  | S n =>
      iter_steps os w +
      match rtthread_hci_uart_entry_iter os w with
      | Ok (_, w') => entry_steps os n w'
      | Abort _ => 0
      end
  end.

(** The calls of the senders, and the calls of the reader. *)
Definition tx_side (c : rt_call) : bool :=
  match c with
  | device_write_call _ _ _ _ | transport_free_call _
  | mbuf_free_chain_call _ => true
  | _ => false
  end.

Definition rx_side (c : rt_call) : bool :=
  match c with
  | device_read_call _ _ _ _ | thread_mdelay_call _
  | to_hs_acl_call _ _ | to_hs_evt_call _ _ => true
  | _ => false
  end.

(** The calls as the receiving side sees them: all but the senders'. *)
Definition rx_view (l : list rt_call) : list rt_call :=
  filter (fun c => tx_side c = false) l.

(** The calls as the sending side sees them: all but the reader's. *)
Definition tx_view (l : list rt_call) : list rt_call :=
  filter (fun c => rx_side c = false) l.

Definition rx_world (w : tworld) : tworld :=
  TWorld (drv w) (rx_view (calls w)).

(** A device whose directions are independent: what a read returns and
    what the host answers to a packet do not depend on the senders' calls,
    what a write accepts does not depend on the reader's. *)
Class FullDuplex (os : rtos) : Prop := {
  read_rx l dev pos size :
    read_device os l dev pos size = read_device os (rx_view l) dev pos size;
  hs_acl_rx l data : hs_acl os l data = hs_acl os (rx_view l) data;
  hs_evt_rx l data : hs_evt os l data = hs_evt os (rx_view l) data;
  write_tx l dev pos data :
    write_device os l dev pos data = write_device os (tx_view l) dev pos data;
}.

(** The steps a schedule gives to the reader, and its schedule of the two
    senders. *)
Definition reader_slots (sched : list task) : nat :=
  length (filter (fun k => k = Reader) sched).

Definition senders (sched : list task) : list bool :=
  omap (fun k => match k with Sender b => Some b | Reader => None end) sched.

(** The reader's invariant between two steps, while the peer sends [fs]:
    the decoder state and the packets delivered are those of the decoder
    run on the octets read so far, less those of the last read that are
    still to decode. *)
Definition reader_mid (fs : list frame) (r : reader) (w : tworld) : Prop :=
  exists fed,
    read_octets (calls w) = fed ++ unfed r /\
    h4_feed W4_PKT_TYPE fed = Some (g_hci_h4sm (drv w), delivered (calls w)) /\
    read_octets (calls w) `prefix_of` h4_stream fs.

(** A thread all of whose last calls are calls of the sending side. *)
Definition tx_only (t : thread) : Prop :=
  forallb tx_side (last_calls t) = true.

(** A computation of the receiving side: it does the same on the calls as
    the receiving side sees them, and leaves the sending side's view and
    the device handle alone. *)
Definition rx_local {A} (m : M tworld A) : Prop :=
  forall w,
    m (rx_world w) =
      match m w with
      | Ok (a, w') => Ok (a, rx_world w')
      | Abort e => Abort e
      end /\
    forall a w', m w = Ok (a, w') ->
      tx_view (calls w') = tx_view (calls w) /\
      g_hci_uart (drv w') = g_hci_uart (drv w).

(** Call logs that differ only in how the calls of the two sides are
    interleaved, worlds with the same statics and such logs, and schedules
    that give the reader as many steps and the senders the same schedule:
    neither side can tell them apart. *)
Definition same_sides : relation (list rt_call) := fun l l' =>
  rx_view l = rx_view l' /\ tx_view l = tx_view l'.

Definition same_world : relation tworld := fun w w' =>
  drv w = drv w' /\ same_sides (calls w) (calls w').

Definition same_slots : relation (list task) := fun s s' =>
  reader_slots s = reader_slots s' /\ senders s = senders s'.

(** Two runs that both abort, or both return and return related values. *)
Definition same_outcome {A} (R : relation A) : relation (res A) := fun x y =>
  match x, y with
  | Ok a, Ok b => R a b
  | Abort _, Abort _ => True
  | _, _ => False
  end.

(** ** Facts about the views *)

Lemma rx_view_app l1 l2 : rx_view (l1 ++ l2) = rx_view l1 ++ rx_view l2.
Proof. apply filter_app. Qed.

Lemma tx_view_app l1 l2 : tx_view (l1 ++ l2) = tx_view l1 ++ tx_view l2.
Proof. apply filter_app. Qed.

Lemma rx_view_snoc l c :
  rx_view (l ++ [c]) = rx_view l ++ (if tx_side c then [] else [c]).
Proof. rewrite rx_view_app. by destruct c. Qed.

Lemma tx_view_snoc l c :
  tx_view (l ++ [c]) = tx_view l ++ (if rx_side c then [] else [c]).
Proof. rewrite tx_view_app. by destruct c. Qed.

Lemma rx_view_snoc_tx l c : tx_side c = true -> rx_view (l ++ [c]) = rx_view l.
Proof. intros Hc. by rewrite rx_view_snoc, Hc, app_nil_r. Qed.

(** Each observation belongs to one side. *)
Lemma wire_tx_view l : wire (tx_view l) = wire l.
Proof.
  induction l as [|c l IH]; [done|]. unfold tx_view in *.
  rewrite filter_cons. case_decide; rewrite ?wire_cons, IH; [done|].
  by destruct c.
Qed.

Lemma read_octets_rx_view l : read_octets (rx_view l) = read_octets l.
Proof.
  induction l as [|c l IH]; [done|]. unfold rx_view, read_octets in *.
  rewrite filter_cons. case_decide; cbn; rewrite IH; [done|]. by destruct c.
Qed.

Lemma delivered_rx_view l : delivered (rx_view l) = delivered l.
Proof.
  induction l as [|c l IH]; [done|]. unfold rx_view, delivered in *.
  rewrite filter_cons. case_decide; cbn; rewrite IH; [done|]. by destruct c.
Qed.

#[export] Instance ref_rtos_duplex wchunk rchunk stream :
  FullDuplex (ref_rtos wchunk rchunk stream).
Proof. split; intros; cbn; by rewrite ?read_octets_rx_view. Qed.

(** ** Computations of the receiving side *)

Lemma rx_local_ret {A} (a : A) : rx_local (ret a).
Proof. intros w. split; [done|]. by intros ?? [= _ <-]. Qed.

Lemma rx_local_abort {A} e : rx_local (abort e : M tworld A).
Proof. by intros w. Qed.

Lemma rx_local_bind {A B} (m : M tworld A) (k : A -> M tworld B) :
  rx_local m -> (forall a, rx_local (k a)) -> rx_local (bind m k).
Proof.
  intros Hm Hk w. destruct (Hm w) as [Hv Ht]. unfold bind. rewrite Hv.
  destruct (m w) as [[a w1]|e]; [|done].
  destruct (Ht a w1 eq_refl) as [Ht1 Hu1], (Hk a w1) as [Hv2 Ht2].
  split; [done|]. intros b w' Hb. destruct (Ht2 b w' Hb). split; congruence.
Qed.

Lemma rx_local_get_drv {A} (f : transport -> A) : rx_local (get_drv f).
Proof. intros w. split; [done|]. by intros ?? [= _ <-]. Qed.

(** Writing the decoder state. *)
Lemma rx_local_set_h4sm sm :
  rx_local (modify (fun w => TWorld (set_g_hci_h4sm sm (drv w)) (calls w))).
Proof. intros w. split; [done|]. by intros ?? [= _ <-]. Qed.

(** A call of the receiving side whose answer does not depend on the
    sending side. *)
Lemma rx_local_env {A} (f : list rt_call -> A * list rt_call)
    (c : list rt_call -> rt_call) :
  (forall l, tx_side (c l) = false /\ rx_side (c l) = true /\
             (f l).2 = l ++ [c l] /\ (f (rx_view l)).1 = (f l).1 /\
             c (rx_view l) = c l) ->
  rx_local (env f).
Proof.
  intros Hf w. destruct (Hf (calls w)) as (Htx & Hrx & Hl & Ha & Hc).
  destruct (Hf (rx_view (calls w))) as (_ & _ & Hl' & _).
  unfold env, rx_world. cbn. split.
  - by rewrite Ha, Hl, Hl', Hc, rx_view_snoc, Htx.
  - intros a w' [= _ <-]. cbn. by rewrite Hl, tx_view_snoc, Hrx, app_nil_r.
Qed.

Lemma rx_local_mdelay ms : rx_local (env_ (rt_thread_mdelay ms)).
Proof.
  intros w. unfold env_, rx_world, rt_thread_mdelay. cbn. split.
  - by rewrite rx_view_snoc.
  - intros a w' [= _ <-]. cbn. by rewrite tx_view_snoc, app_nil_r.
Qed.

Section Local.
Variable os : rtos.
Context `{!FullDuplex os}.

Lemma rx_local_read dev pos size : rx_local (env (rt_device_read os dev pos size)).
Proof.
  apply (rx_local_env _ (fun l =>
    device_read_call dev pos size (read_device os l dev pos size))).
  intros l. cbn. by rewrite <- read_rx.
Qed.

Lemma rx_local_frame_cb t data : rx_local (rtthread_ble_hci_frame_cb os t data).
Proof.
  unfold rtthread_ble_hci_frame_cb. case_eqbs; [| |apply rx_local_abort].
  - apply (rx_local_env _ (fun l => to_hs_acl_call data (hs_acl os l data))).
    intros l. cbn. by rewrite <- hs_acl_rx.
  - apply (rx_local_env _ (fun l => to_hs_evt_call data (hs_evt os l data))).
    intros l. cbn. by rewrite <- hs_evt_rx.
Qed.

Lemma rx_local_rx buf : rx_local (g_hci_h4sm_rx os buf).
Proof.
  unfold g_hci_h4sm_rx. induction buf as [|b buf IH]; [apply rx_local_ret|].
  cbn [hci_h4_sm_rx]. apply rx_local_bind; [apply rx_local_get_drv|].
  intros sm. destruct (h4_byte sm b) as [[sm' [f|]]|];
    [| |apply rx_local_abort];
    (apply rx_local_bind; [apply rx_local_set_h4sm|intros _]); [|done].
  apply rx_local_bind; [apply rx_local_frame_cb|done].
Qed.

Lemma rx_local_step r : rx_local (reader_step os r).
Proof.
  destruct r as [|[|b rest]|]; cbn [reader_step].
  - apply rx_local_bind; [apply rx_local_get_drv|intros uart].
    apply rx_local_bind; [apply rx_local_read|intros rx]. cbv zeta.
    apply rx_local_bind; [|intros; apply rx_local_ret].
    case_ltb; [apply rx_local_abort|apply rx_local_ret].
  - apply rx_local_ret.
  - apply rx_local_bind; [apply rx_local_rx|intros; apply rx_local_ret].
  - apply rx_local_bind; [apply rx_local_mdelay|intros; apply rx_local_ret].
Qed.

Lemma rx_local_steps k r : rx_local (reader_steps os k r).
Proof.
  revert r. induction k as [|k IH]; intros r; [apply rx_local_ret|].
  cbn. apply rx_local_bind; [apply rx_local_step|done].
Qed.

End Local.

(** ** The senders, seen from the sending side *)

Lemma tx_side_not_rx c : tx_side c = true -> rx_side c = false.
Proof. by destruct c. Qed.

Lemma run_tasks_reader os sched r t1 t2 w :
  run_tasks os (Reader :: sched) r t1 t2 w =
  match reader_step os r w with
  | Ok (r', w') => run_tasks os sched r' t1 t2 w'
  | Abort e => Abort e
  end /\
  reader_slots (Reader :: sched) = S (reader_slots sched) /\
  senders (Reader :: sched) = senders sched.
Proof. done. Qed.

Lemma run_tasks_sender os b sched r t1 t2 w :
  run_tasks os (Sender b :: sched) r t1 t2 w =
  match thread_step os (g_hci_uart (drv w)) (if b then t1 else t2)
          (calls w) with
  | Ok (Some (t', l')) =>
      if b then run_tasks os sched r t' t2 (TWorld (drv w) l')
      else run_tasks os sched r t1 t' (TWorld (drv w) l')
  | Ok None => run_tasks os sched r t1 t2 w
  | Abort e => Abort e
  end /\
  reader_slots (Sender b :: sched) = reader_slots sched /\
  senders (Sender b :: sched) = b :: senders sched.
Proof. done. Qed.

Section Independence.
Variable os : rtos.
Context `{!FullDuplex os}.

(** A step of a sender is the same step on the sending side's view, and
    the receiving side does not see it. *)
Lemma thread_step_view uart t l :
  tx_only t ->
  thread_step os uart t (tx_view l) =
    match thread_step os uart t l with
    | Ok (Some (t', l')) => Ok (Some (t', tx_view l'))
    | r => r
    end /\
  forall t' l', thread_step os uart t l = Ok (Some (t', l')) ->
    rx_view l' = rx_view l /\ tx_only t'.
Proof.
  intros Ht. unfold thread_step, tx_only in *.
  destruct (next_job (jobs t)) as [|[buf r] js].
  - destruct (last_calls t) as [|c cs]; [done|]. cbn in Ht.
    apply andb_true_iff in Ht as [Hc Hcs].
    rewrite tx_view_snoc, (tx_side_not_rx c Hc).
    split; [done|]. intros ?? [= <- <-]. by rewrite rx_view_snoc_tx.
  - case_ltb; [done|]. cbn. rewrite <- write_tx, tx_view_snoc. cbn.
    split; [done|]. intros ?? [= <- <-]. by rewrite rx_view_snoc_tx.
Qed.

(** A run of the three tasks and the runs of each side by itself, on its
    own view of the calls, determine each other. *)
Lemma run_tasks_views sched r t1 t2 w r' t1' t2' wr lt :
  tx_only t1 -> tx_only t2 ->
  (exists w', run_tasks os sched r t1 t2 w = Ok (r', t1', t2', w') /\
              rx_world w' = wr /\ tx_view (calls w') = lt) <->
  reader_steps os (reader_slots sched) r (rx_world w) = Ok (r', wr) /\
  run_sched os (g_hci_uart (drv w)) (senders sched) t1 t2 (tx_view (calls w))
    = Ok (t1', t2', lt).
Proof.
  revert r t1 t2 w.
  induction sched as [|[|b] sched IH]; intros r t1 t2 w H1 H2.
  - cbn. unfold ret. split.
    + by intros (w' & [= <- <- <- <-] & <- & <-).
    + intros [[= <- <-] [= <- <- <-]]. by exists w.
  - destruct (run_tasks_reader os sched r t1 t2 w) as (-> & -> & ->).
    cbn [reader_steps]. unfold bind.
    destruct (rx_local_step os r w) as [-> Ht].
    destruct (reader_step os r w) as [[r1 w1]|e];
      [|split; [by intros (? & ? & _)|by intros [? _]]].
    destruct (Ht _ _ eq_refl) as [<- <-]. by apply IH.
  - destruct (run_tasks_sender os b sched r t1 t2 w) as (-> & -> & ->).
    assert (tx_only (if b then t1 else t2)) as Hb by by destruct b.
    destruct (thread_step_view (g_hci_uart (drv w)) _ (calls w) Hb)
      as [Hv Ht].
    replace (run_sched os _ (b :: _) t1 t2 _) with
      (match thread_step os (g_hci_uart (drv w)) (if b then t1 else t2)
               (tx_view (calls w)) with
       | Ok (Some (t', l')) =>
           if b then run_sched os (g_hci_uart (drv w)) (senders sched) t' t2 l'
           else run_sched os (g_hci_uart (drv w)) (senders sched) t1 t' l'
       | Ok None => run_sched os (g_hci_uart (drv w)) (senders sched) t1 t2
                      (tx_view (calls w))
       | Abort e => Abort e
       end) by by destruct b.
    rewrite Hv.
    destruct (thread_step _ _ _ (calls w)) as [[[t' l']|]|e];
      [|by apply IH|split; [by intros (? & ? & _)|by intros [_ ?]]].
    destruct (Ht _ _ eq_refl) as [Hrx Hto].
    destruct b; rewrite IH by done; unfold rx_world; cbn [drv calls];
      by rewrite Hrx.
Qed.

End Independence.

(** ** Runs the two sides cannot tell apart *)

#[export] Instance same_sides_equiv : Equivalence same_sides.
Proof.
  unfold same_sides. split; [done|by intros ?? []|].
  intros ??? [-> ->] [-> ->]. done.
Qed.

#[export] Instance same_world_equiv : Equivalence same_world.
Proof.
  unfold same_world. split; [done|by intros ?? [-> ->]|].
  intros ??? [-> ->] [-> ->]. done.
Qed.

#[export] Instance same_slots_equiv : Equivalence same_slots.
Proof.
  unfold same_slots. split; [done|by intros ?? []|].
  intros ??? [-> ->] [-> ->]. done.
Qed.

#[export] Instance calls_proper : Proper (same_world ==> same_sides) calls.
Proof. by intros ?? [_ ?]. Qed.

#[export] Instance drv_proper : Proper (same_world ==> eq) drv.
Proof. by intros ?? [? _]. Qed.

#[export] Instance wire_proper : Proper (same_sides ==> eq) wire.
Proof. intros l l' [_ Ht]. by rewrite <- (wire_tx_view l), Ht, wire_tx_view. Qed.

#[export] Instance read_octets_proper : Proper (same_sides ==> eq) read_octets.
Proof.
  intros l l' [Hr _].
  by rewrite <- (read_octets_rx_view l), Hr, read_octets_rx_view.
Qed.

#[export] Instance delivered_proper : Proper (same_sides ==> eq) delivered.
Proof.
  intros l l' [Hr _]. by rewrite <- (delivered_rx_view l), Hr, delivered_rx_view.
Qed.

Section Schedules.
Variable os : rtos.
Context `{!FullDuplex os}.

(** A run that returns under one schedule returns under every schedule
    with the same slots, from every world the sides cannot tell from the
    first, the same tasks and a world they cannot tell from the first
    run's. *)
Lemma run_tasks_same sched sched' r t1 t2 w w' x w1 :
  tx_only t1 -> tx_only t2 -> same_slots sched sched' -> same_world w w' ->
  run_tasks os sched r t1 t2 w = Ok (x, w1) ->
  exists w2, run_tasks os sched' r t1 t2 w' = Ok (x, w2) /\ same_world w1 w2.
Proof.
  intros H1 H2 [Hk Hs] (Hd & Hr & Ht) Hrun. destruct x as [[r' t1'] t2'].
  destruct (proj1 (run_tasks_views os sched r t1 t2 w r' t1' t2' _ _ H1 H2)
              (ex_intro _ w1 (conj Hrun (conj eq_refl eq_refl)))) as [Hrd Hsd].
  unfold rx_world in Hrd. rewrite Hk, Hd, Hr in Hrd. rewrite Hs, Hd, Ht in Hsd.
  destruct (proj2 (run_tasks_views os sched' r t1 t2 w' r' t1' t2' _ _ H1 H2)
              (conj Hrd Hsd)) as (w2 & Hrun' & [= Hd2 Hr2] & Ht2).
  by exists w2.
Qed.

End Schedules.

(** ** The reader's steps make up its iterations *)

Section Iteration.
Variable os : rtos.

Lemma reader_steps_app a b r w :
  reader_steps os (a + b) r w =
  (r' <- reader_steps os a r ;; reader_steps os b r') w.
Proof.
  revert r w. induction a as [|a IH]; intros r w; [done|].
  cbn [Nat.add reader_steps]. unfold bind.
  destruct (reader_step os r w) as [[r1 w1]|e]; [apply IH|done].
Qed.

(** The step that reads. *)
Lemma reader_step_reading w :
  let rx := read_device os (calls w) (g_hci_uart (drv w)) 0 63 in
  reader_step os Reading w =
  if 64 <? Z.of_nat (length rx) then Abort oob_rx
  else Ok (if 0 <? Z.of_nat (length rx) then Feeding rx else Sleeping,
           TWorld (drv w)
             (calls w ++ [device_read_call (g_hci_uart (drv w)) 0 63 rx])).
Proof.
  intros rx. cbn [reader_step]. trun.
  change (ARRAY_SIZE sizeof_rx 1) with 63. fold rx. unfold sizeof_rx.
  by case_ltb.
Qed.

(** Decoding what was read, one octet per step. *)
Lemma feeding_steps rest w :
  rest <> [] ->
  reader_steps os (length rest) (Feeding rest) w =
  (g_hci_h4sm_rx os rest ;; ret Sleeping) w.
Proof.
  revert w. induction rest as [|b rest IH]; intros w Hne; [done|].
  cbn [length reader_steps reader_step]. unfold g_hci_h4sm_rx in *.
  change (b :: rest) with ([b] ++ rest).
  unfold bind. rewrite hci_h4_sm_rx_app. unfold bind.
  destruct (hci_h4_sm_rx _ _ _ [b] w) as [[[] w1]|e]; [|done].
  destruct rest as [|x rest]; [done|]. by apply IH.
Qed.

Lemma reader_steps_iter w :
  reader_steps os (iter_steps os w) Reading w =
  (rtthread_hci_uart_entry_iter os ;; ret Reading) w.
Proof.
  unfold iter_steps. change (ARRAY_SIZE sizeof_rx 1) with 63.
  replace (2 + length _)%nat with (1 + (length
    (read_device os (calls w) (g_hci_uart (drv w)) 0 63) + 1))%nat by lia.
  rewrite reader_steps_app. cbn [reader_steps]. unfold bind, ret.
  rewrite reader_step_reading, entry_iter_eq. cbv zeta.
  set (rx := read_device _ _ _ _ _). case_ltb; [done|]. set (w1 := TWorld _ _).
  rewrite reader_steps_app. unfold bind. case_ltb.
  - rewrite feeding_steps by (intros Hrx; rewrite Hrx in *; cbn in *; lia).
    unfold bind. by destruct (g_hci_h4sm_rx os rx w1) as [[[] w2]|e].
  - by assert (rx = []) as -> by (apply nil_length_inv; lia).
Qed.

Lemma reader_steps_entry_eq n w :
  reader_steps os (entry_steps os n w) Reading w =
  (rtthread_hci_uart_entry os n ;; ret Reading) w.
Proof.
  revert w. induction n as [|n IH]; intros w; [done|].
  cbn [entry_steps rtthread_hci_uart_entry].
  rewrite reader_steps_app. unfold bind. rewrite reader_steps_iter.
  unfold bind.
  destruct (rtthread_hci_uart_entry_iter os w) as [[[] w1]|e]; [|done].
  exact (IH w1).
Qed.

End Iteration.

(** ** The reader between two steps, while the peer sends *)

Section Peer.
Variable os : rtos.
Variable fs : list frame.
Context `{!SaneDevice os, !PeerSends os fs}.

Lemma reader_ok_mid w : reader_ok fs w <-> reader_mid fs Reading w.
Proof.
  unfold reader_ok, reader_inv, reader_mid. cbn. split.
  - intros [Hinv Hpre]. exists (read_octets (calls w)).
    by rewrite app_nil_r.
  - intros (fed & Hfed & Hinv & Hpre). rewrite app_nil_r in Hfed.
    by subst fed.
Qed.

(** What the decoder has delivered of a prefix of the stream is a prefix
    of the packets. *)
Lemma reader_mid_prefix r w :
  reader_mid fs r w -> delivered (calls w) `prefix_of` fs.
Proof.
  intros (fed & Hfed & Hinv & Hpre).
  assert (fed ++ [] `prefix_of` h4_stream fs) as Hp0.
  { rewrite app_nil_r. etrans; [|exact Hpre]. rewrite Hfed.
    by apply prefix_app_r. }
  destruct (h4_feed_next fs fed [] _ _ peer_valid Hp0 Hinv)
    as (sm' & f2 & Hf & _ & Hp & _).
  simplify_eq/=. by rewrite app_nil_r in Hp.
Qed.

Lemma reader_mid_view r w : reader_mid fs r w <-> reader_mid fs r (rx_world w).
Proof.
  unfold reader_mid, rx_world. cbn.
  by rewrite read_octets_rx_view, delivered_rx_view.
Qed.

(** A step keeps the invariant and takes back no packet. *)
Lemma reader_step_peer r w :
  reader_mid fs r w ->
  exists r' w', reader_step os r w = Ok (r', w') /\ reader_mid fs r' w' /\
                delivered (calls w) `prefix_of` delivered (calls w').
Proof.
  intros (fed & Hfed & Hinv & Hpre). destruct r as [|[|b rest]|].
  - rewrite reader_step_reading. cbv zeta.
    pose proof (read_le (calls w) (g_hci_uart (drv w)) 0 63) as Hle.
    pose proof (peer_prefix (calls w) (g_hci_uart (drv w)) 0 63 Hpre) as Hn.
    set (rx := read_device _ _ _ _ _) in *. case_ltb; [lia|].
    eexists _, _. split; [done|]. cbn in Hfed |- *.
    rewrite delivered_app, app_nil_r. split; [|done]. exists fed. cbn.
    rewrite read_octets_app, delivered_app. cbn.
    rewrite !app_nil_r in *. subst fed. split_and!; [|done..].
    case_ltb; [done|]. by assert (rx = []) as -> by (apply nil_length_inv; lia).
  - eexists _, _. split; [done|]. split; [by exists fed|done].
  - cbn in Hfed. change (b :: rest) with ([b] ++ rest) in Hfed.
    rewrite (assoc_L (++)) in Hfed.
    assert (fed ++ [b] `prefix_of` h4_stream fs) as Hp0.
    { etrans; [|exact Hpre]. rewrite Hfed. by apply prefix_app_r. }
    destruct (h4_feed_next fs fed [b] _ _ peer_valid Hp0 Hinv)
      as (sm' & f2 & Hf & Hall & Hp & _).
    assert (forallb to_host f2 = true) as Hf2.
    { destruct Hp as [g Hg]. pose proof peer_to_host as Hh.
      rewrite Hg, !forallb_app in Hh.
      by repeat apply andb_true_iff in Hh as [Hh ?]. }
    destruct (rx_ok os [b] w sm' f2 Hf Hf2) as (w' & Hw' & Ht).
    destruct (took_calls _ _ _ _ _ Ht) as (_ & Hr & Hd).
    cbn [reader_step]. rewrite (bind_ok _ _ _ _ _ Hw').
    eexists _, w'. split; [done|]. rewrite Hd.
    split; [|by apply prefix_app_r]. exists (fed ++ [b]).
    rewrite Hr, Hd, (took_drv _ _ _ _ _ Ht), app_nil_r. cbn.
    split_and!; [by destruct rest|done..].
  - exists Reading, (TWorld (drv w) (calls w ++ [thread_mdelay_call 1])).
    split; [done|]. cbn. rewrite delivered_app, app_nil_r. split; [|done].
    exists fed. cbn in Hfed |- *.
    rewrite read_octets_app, delivered_app, !app_nil_r in *. by cbn.
Qed.

(** Any number of steps. *)
Lemma reader_steps_peer k r w :
  reader_mid fs r w ->
  exists r' w', reader_steps os k r w = Ok (r', w') /\ reader_mid fs r' w' /\
                delivered (calls w) `prefix_of` delivered (calls w').
Proof.
  revert r w. induction k as [|k IH]; intros r w Hmid; [by exists r, w|].
  destruct (reader_step_peer r w Hmid) as (r1 & w1 & Hs & Hmid1 & Hd1).
  destruct (IH r1 w1 Hmid1) as (r' & w' & Hk & ? & Hd). exists r', w'.
  split_and!; [|done|by etrans]. cbn. by rewrite (bind_ok _ _ _ _ _ Hs).
Qed.

(** An iteration takes at most 65 steps. *)
Lemma entry_steps_le n w : (entry_steps os n w <= 65 * n)%nat.
Proof.
  revert w. induction n as [|n IH]; intros w; [done|]. cbn [entry_steps].
  pose proof (read_le (calls w) (g_hci_uart (drv w)) 0 63) as Hle.
  unfold iter_steps. change (ARRAY_SIZE sizeof_rx 1) with 63.
  destruct (rtthread_hci_uart_entry_iter os w) as [[[] w1]|e];
    [specialize (IH w1)|]; lia.
Qed.

Context `{!PeerDelivers os fs}.

(** With 65 steps per octet of the stream the reader has delivered every
    packet, and further steps change nothing of that. *)
Lemma reader_steps_all k w :
  reader_ok fs w -> (65 * length (h4_stream fs) <= k)%nat ->
  exists r' w', reader_steps os k Reading w = Ok (r', w') /\
                reader_mid fs r' w' /\ delivered (calls w') = fs.
Proof.
  intros Hok Hk. set (n := length (h4_stream fs)) in *.
  pose proof (entry_steps_le n w) as Hle.
  destruct (entry_peer_all os fs n w Hok) as (w1 & Hw1 & Hr1 & Hd1 & Hsm1);
    [unfold n; lia|].
  replace k with (entry_steps os n w + (k - entry_steps os n w))%nat by lia.
  rewrite reader_steps_app, (bind_ok _ _ _ Reading w1)
    by (by rewrite reader_steps_entry_eq, (bind_ok _ _ _ _ _ Hw1)).
  destruct (reader_steps_peer (k - entry_steps os n w) Reading w1)
    as (r' & w' & Hs & Hmid & Hd).
  { exists (h4_stream fs). rewrite Hr1, Hd1, Hsm1, app_nil_r.
    by rewrite h4_feed_frames by apply peer_valid. }
  exists r', w'. split_and!; [done..|]. rewrite Hd1 in Hd.
  by apply (anti_symm prefix); [apply (reader_mid_prefix r')|].
Qed.

End Peer.

(** ** The theorems *)

Section Theorems.
Variable os : rtos.
Context `{!SaneDevice os}.

(** The reader step by step is the reader of [Transport].  The steps of
    the first [n] iterations, run from the head of the loop, return to the
    head of the loop in the world the [n] iterations end in, or abort as
    they do; an iteration takes at most 65 steps: the read, one per octet,
    the sleep. *)
Lemma reader_steps_refine_entry n w :
  reader_steps os (entry_steps os n w) Reading w =
    (rtthread_hci_uart_entry os n ;; ret Reading) w /\
  (entry_steps os n w <= 65 * n)%nat.
Proof. split; [apply reader_steps_entry_eq|exact (entry_steps_le os n w)]. Qed.

Context `{!FullDuplex os}.

(** C14: the two directions do not interfere.  When the reader and two
    senders run under any schedule on a device whose directions are
    independent, the reader has done what it does by itself in the steps
    the schedule gave it, and the senders what they do under their part of
    the schedule: the decoder state, the octets read and the packets
    handed to the host are the reader's, the octets on the wire the
    senders'. *)
Theorem tasks_independent sched r t1 t2 w r' t1' t2' w' :
  tx_only t1 -> tx_only t2 ->
  run_tasks os sched r t1 t2 w = Ok (r', t1', t2', w') ->
  exists wr lt,
    reader_steps os (reader_slots sched) r (rx_world w) = Ok (r', wr) /\
    run_sched os (g_hci_uart (drv w)) (senders sched) t1 t2
      (tx_view (calls w)) = Ok (t1', t2', lt) /\
    drv w' = drv wr /\ read_octets (calls w') = read_octets (calls wr) /\
    delivered (calls w') = delivered (calls wr) /\
    wire (calls w') = wire lt.
Proof.
  intros H1 H2 Hrun. exists (rx_world w'), (tx_view (calls w')).
  rewrite (assoc and). split.
  - apply (run_tasks_views os sched r t1 t2 w); [done..|by exists w'].
  - unfold rx_world. cbn.
    by rewrite read_octets_rx_view, delivered_rx_view, wire_tx_view.
Qed.

(** C15: the schedule matters only through the slots it gives.  On a device
    whose directions are independent, two schedules that give the reader as
    many steps and the senders the same schedule end alike: both runs
    abort, or both return, with the tasks in the same state, the same
    statics, the same octets on the wire, the same octets read and the same
    packets handed to the host. *)
Theorem schedule_irrelevant sched sched' r t1 t2 w :
  tx_only t1 -> tx_only t2 -> same_slots sched sched' ->
  same_outcome
    (fun x y => x.1 = y.1 /\ drv x.2 = drv y.2 /\
                wire (calls x.2) = wire (calls y.2) /\
                read_octets (calls x.2) = read_octets (calls y.2) /\
                delivered (calls x.2) = delivered (calls y.2))
    (run_tasks os sched r t1 t2 w) (run_tasks os sched' r t1 t2 w).
Proof.
  intros H1 H2 Hs.
  destruct (run_tasks os sched r t1 t2 w) as [[x w1]|e] eqn:Hrun.
  - destruct (run_tasks_same os sched sched' r t1 t2 w w x w1)
      as (w2 & -> & Hw); [done..|]. cbn. by rewrite Hw.
  - destruct (run_tasks os sched' r t1 t2 w) as [[y w2]|e'] eqn:Hrun'; [|done].
    destruct (run_tasks_same os sched' sched r t1 t2 w w y w2)
      as (w1 & Hrun1 & _); [done..|]. congruence.
Qed.

Variable fs : list frame.
Context `{!ProgressingDevice os, !PeerSends os fs, !PeerDelivers os fs}.

(** C7: sending and receiving at once.  While the peer sends valid ACL and
    event packets, a command sender and an ACL sender run beside the
    reader: under every schedule no task aborts; the packets handed to the
    host are a prefix of the packets sent; once each sender has had as
    many steps as it has work, the wire has gained an interleaving of the
    two encodings; once the reader has had 65 steps per octet of the
    stream, the host has every packet. *)
Theorem tasks_send_and_receive sched buf n om w :
  reader_ok fs w ->
  is_u8 n -> 3 + n <= Z.of_nat (length buf) -> Forall seg_ok om ->
  exists r' t1' t2' w',
    run_tasks os sched Reading (cmd_thread buf n) (acl_thread om) w =
      Ok (r', t1', t2', w') /\
    delivered (calls w') `prefix_of` fs /\
    (work (cmd_thread buf n) <= Z.of_nat (slots true (senders sched)) ->
     work (acl_thread om) <= Z.of_nat (slots false (senders sched)) ->
     exists ws,
       wire (calls w') = wire (calls w) ++ ws /\
       shuffle (h4_encode (HCI_H4_CMD, take (Z.to_nat (3 + n)) buf))
               (h4_encode (HCI_H4_ACL, os_mbuf_flat om)) ws) /\
    ((65 * length (h4_stream fs) <= reader_slots sched)%nat ->
     delivered (calls w') = fs).
Proof.
  intros Hok Hn Hlen Hom.
  pose proof (cmd_thread_ok buf n Hn Hlen) as Hc.
  pose proof (acl_thread_ok om Hom) as Ha.
  destruct (reader_steps_peer os fs (reader_slots sched) Reading (rx_world w))
    as (r' & wr & Hr & Hmid & _);
    [by apply (proj1 (reader_mid_view fs Reading w)), reader_ok_mid|].
  destruct (run_sched_shuffles os (g_hci_uart (drv w)) (senders sched)
              _ _ (tx_view (calls w)) Hc Ha)
    as (t1' & t2' & lt & _ & _ & _ & Hs & _).
  destruct (proj2 (run_tasks_views os sched Reading (cmd_thread buf n)
                     (acl_thread om) w r' t1' t2' wr lt eq_refl eq_refl)
              (conj Hr Hs)) as (w' & Hrun & <- & <-).
  exists r', t1', t2', w'. apply (proj2 (reader_mid_view fs r' w')) in Hmid.
  split_and!; [done|by apply (reader_mid_prefix os fs r')|..].
  - intros Hk1 Hk2.
    destruct (run_sched_complete os (g_hci_uart (drv w)) (senders sched)
                _ _ (tx_view (calls w)) Hc Ha Hk1 Hk2)
      as (? & ? & ? & ws & Hs' & Hw & Hsh).
    rewrite Hs in Hs'. simplify_eq. exists ws.
    by rewrite <- cmd_thread_wire, <- acl_thread_wire,
      <- (wire_tx_view (calls w')), Hw, wire_tx_view.
  - intros Hk.
    destruct (reader_steps_all os fs _ (rx_world w)
                (proj2 (reader_ok_mid fs _)
                   (proj1 (reader_mid_view fs _ _)
                      (proj1 (reader_ok_mid fs _) Hok))) Hk)
      as (? & ? & Hr' & _ & Hd).
    rewrite Hr in Hr'. injection Hr' as <- <-. cbn in Hd.
    by rewrite delivered_rx_view in Hd.
Qed.

End Theorems.

(** ** The theorems at a concrete run

    The reference peer sends [evt1] and [acl1], four octets per read; the
    command [cmd1] and the chain [om1] are sent meanwhile, two octets per
    write, under a schedule of twenty steps. *)

Definition sched1 : list task :=
  [Reader; Sender true; Reader; Sender false; Sender true; Reader; Reader;
   Sender false; Sender true; Sender true; Sender true; Reader; Sender false;
   Sender false; Sender false; Sender false; Sender false; Sender false;
   Reader; Reader].

(** Where that run ends. *)
Definition duplex_end : reader * thread * thread * tworld :=
  match run_tasks ref_peer sched1 Reading (cmd_thread cmd1 0) (acl_thread om1)
          w_up with
  | Ok x => x
  | Abort _ => (Reading, Thread [] [], Thread [] [], w_up)
  end.

Lemma reader_steps_refine_entry_witness :
  reader_steps ref_peer (entry_steps ref_peer 3 w_up) Reading w_up =
    (rtthread_hci_uart_entry ref_peer 3 ;; ret Reading) w_up /\
  (entry_steps ref_peer 3 w_up <= 65 * 3)%nat.
Proof. apply (reader_steps_refine_entry ref_peer 3 w_up). Defined.

Lemma tasks_independent_witness :
  exists wr lt,
    reader_steps ref_peer (reader_slots sched1) Reading (rx_world w_up) =
      Ok (duplex_end.1.1.1, wr) /\
    run_sched ref_peer (g_hci_uart (drv w_up)) (senders sched1)
      (cmd_thread cmd1 0) (acl_thread om1) (tx_view (calls w_up)) =
      Ok (duplex_end.1.1.2, duplex_end.1.2, lt) /\
    drv duplex_end.2 = drv wr /\
    read_octets (calls duplex_end.2) = read_octets (calls wr) /\
    delivered (calls duplex_end.2) = delivered (calls wr) /\
    wire (calls duplex_end.2) = wire lt.
Proof.
  apply (tasks_independent ref_peer sched1 Reading (cmd_thread cmd1 0)
           (acl_thread om1) w_up); reflexivity.
Defined.

Lemma tasks_send_and_receive_witness :
  exists r' t1' t2' w',
    run_tasks ref_peer sched1 Reading (cmd_thread cmd1 0) (acl_thread om1)
      w_up = Ok (r', t1', t2', w') /\
    delivered (calls w') `prefix_of` [evt1; acl1] /\
    (work (cmd_thread cmd1 0) <= Z.of_nat (slots true (senders sched1)) ->
     work (acl_thread om1) <= Z.of_nat (slots false (senders sched1)) ->
     exists ws,
       wire (calls w') = wire (calls w_up) ++ ws /\
       shuffle (h4_encode (HCI_H4_CMD, take (Z.to_nat (3 + 0)) cmd1))
               (h4_encode (HCI_H4_ACL, os_mbuf_flat om1)) ws) /\
    ((65 * length (h4_stream [evt1; acl1]) <= reader_slots sched1)%nat ->
     delivered (calls w') = [evt1; acl1]).
Proof.
  apply (tasks_send_and_receive ref_peer [evt1; acl1] sched1 cmd1 0 om1 w_up).
  - split; [reflexivity|apply prefix_nil].
  - unfold is_u8. lia.
  - cbn. lia.
  - unfold om1. repeat constructor; cbn; lia.
Defined.

(** The schedule that runs the reader first and the senders after it. *)
Definition sched1_serial : list task :=
  replicate (reader_slots sched1) Reader ++ (Sender <$> senders sched1).

Lemma schedule_irrelevant_witness :
  same_outcome
    (fun x y => x.1 = y.1 /\ drv x.2 = drv y.2 /\
                wire (calls x.2) = wire (calls y.2) /\
                read_octets (calls x.2) = read_octets (calls y.2) /\
                delivered (calls x.2) = delivered (calls y.2))
    (run_tasks ref_peer sched1 Reading (cmd_thread cmd1 0) (acl_thread om1)
       w_up)
    (run_tasks ref_peer sched1_serial Reading (cmd_thread cmd1 0)
       (acl_thread om1) w_up).
Proof.
  apply (schedule_irrelevant ref_peer sched1 sched1_serial Reading
           (cmd_thread cmd1 0) (acl_thread om1) w_up); [reflexivity..|done].
Defined.
