(* ===== verification/ReaderLoop.v ===== *)
(** * ReaderLoop: the reader thread as a program that never returns

    [rtthread_hci_uart_entry] is [while (1)]: [Transport] models its first
    [n] iterations, [Duplex] its first [k] steps.  Here the whole loop is
    one interaction tree: the events [readerE] are what the function does
    to the statics and asks of its environment, [entry_body] is the body of
    the loop and [entry_tree] the loop, a tree of type [itree readerE void]
    that has no result.

    - [handle] answers the events from an environment [os : rtos], in the
      worlds of [Transport]; [runs t m] says that the tree [t] handled this
      way is the monadic function [m]: same result and same world where [m]
      returns, same fault where it aborts.  The body of the loop is the
      iteration of [Transport] in this sense ([runs_entry_body]), which is
      what makes the tree and the functions of [Transport] two renderings
      of one program.  Of the whole loop, which has no result, the relation
      sees the fault only: the loop stops where the first [n] iterations
      abort, and is the loop again where they return
      ([entry_tree_unfolds]).  These are lemmas about the model, not
      properties of the driver.
    - [polite] is a property of the tree itself, whatever the environment
      answers and for as long as the loop runs: every read asks for the 63
      octets of [ARRAY_SIZE(rx)] at offset 0, and between two reads the
      thread sleeps ([ReaderLoop.entry_tree_polite]).  It is coinductive,
      defined and proved with Paco. *)

From Stdlib Require Import ZArith Lia String List Morphisms.
From stdpp Require Import base tactics list.
From ITree Require Import ITree ITreeFacts Events.State Events.StateFacts
  Events.Exception.
From Paco Require Import paco.
From S2P Require Import Prelude HciH4 Rtos Transport.

(** The notations of [Prelude], for trees. *)
Notation "x <- m ;; k" := (ITree.bind m (fun x => k))
  (at level 100, m at next level, right associativity) : itree_scope.
Notation "m ;; k" := (ITree.bind m (fun _ => k))
  (at level 100, right associativity) : itree_scope.

#[local] Open Scope Z_scope.
#[local] Open Scope itree_scope.

(** ** The reader as a tree *)

(** What the reader does: it reads [g_hci_uart], reads and writes
    [g_hci_h4sm], calls [rt_device_read], [ble_transport_to_hs_acl],
    [ble_transport_to_hs_evt] and [rt_thread_mdelay], or fails an
    assertion, after which nothing follows. *)
Variant readerE : Type -> Type :=
| GetUart : readerE Z
| GetSm : readerE hci_h4_sm
| SetSm (sm : hci_h4_sm) : readerE unit
| DeviceRead (dev pos size : Z) : readerE (list Z)
| ToHsAcl (data : list Z) : readerE Z
| ToHsEvt (data : list Z) : readerE Z
| Mdelay (ms : Z) : readerE unit
| Failed (e : fault) : readerE void.

(** A failed assertion, where a value of any type is expected. *)
Definition failed {A} (e : fault) : itree readerE A :=
  v <- ITree.trigger (Failed e) ;; match v : void with end.

(** [rtthread_ble_hci_frame_cb]. *)
Definition frame_cb_tree (pkt_type : Z) (data : list Z) : itree readerE Z :=
  if pkt_type =? HCI_H4_ACL then ITree.trigger (ToHsAcl data)
  else if pkt_type =? HCI_H4_EVT then ITree.trigger (ToHsEvt data)
  else failed assert_frame_cb.

(** [hci_h4_sm_rx(&g_hci_h4sm, buf, len)] with that callback. *)
Fixpoint rx_tree (buf : list Z) : itree readerE unit :=
  match buf with
  | [] => Ret tt
  | b :: buf =>
      sm <- ITree.trigger GetSm ;;
      match h4_byte sm b with
      | None => failed assert_pkt_type
      | Some (sm', o) =>
          ITree.trigger (SetSm sm') ;;
          match o with
          | Some f => frame_cb_tree (fst f) (snd f) ;; rx_tree buf
          | None => rx_tree buf
          end
      end
  end.

(** The body of the loop of [rtthread_hci_uart_entry]. *)
Definition entry_body : itree readerE unit :=
  uart <- ITree.trigger GetUart ;;
  rx <- ITree.trigger (DeviceRead uart 0 (ARRAY_SIZE sizeof_rx 1)) ;;
  let len := Z.of_nat (length rx) in
  (if sizeof_rx <? len then failed oob_rx else Ret tt) ;;
  (if 0 <? len then rx_tree rx else Ret tt) ;;
  ITree.trigger (Mdelay 1).

(** [rtthread_hci_uart_entry]: [while (1)]. *)
Definition entry_tree : itree readerE void := ITree.forever entry_body.

(** ** The environment as a handler *)

(** A program stopped by the fault [e]. *)
Definition halt {A} (e : fault) : itree (exceptE fault) A :=
  Vis (Throw e) (fun v : void => match v with end).

(** An outcome of [Prelude] as a tree without events but [Throw]. *)
Definition outcome {A} (r : res (A * tworld)) :
    itree (exceptE fault) (tworld * A) :=
  match r with
  | Ok (a, w) => Ret (w, a)
  | Abort e => halt e
  end.

Section Handler.
Variable os : rtos.

(** Each event is the operation of [Transport] and [Rtos] it stands for. *)
Definition handle :
    forall T, readerE T -> Monads.stateT tworld (itree (exceptE fault)) T :=
  fun _ e w =>
    match e with
    | GetUart => outcome (get_drv g_hci_uart w)
    | GetSm => outcome (get_drv g_hci_h4sm w)
    | SetSm sm => outcome (set_drv (set_g_hci_h4sm sm) w)
    | DeviceRead dev pos size => outcome (env (rt_device_read os dev pos size) w)
    | ToHsAcl data => outcome (env (ble_transport_to_hs_acl os data) w)
    | ToHsEvt data => outcome (env (ble_transport_to_hs_evt os data) w)
    | Mdelay ms => outcome (env_ (rt_thread_mdelay ms) w)
    | Failed e => halt e
    end.

(** The tree [t], handled, is the function [m]. *)
Definition runs {A} (t : itree readerE A) (m : M tworld A) : Prop :=
  forall w, interp_state handle t w ≈ outcome (m w).

End Handler.

(** ** A polite reader *)

(** The events that neither read the device nor sleep. *)
Definition quiet {T} (e : readerE T) : Prop :=
  match e with DeviceRead _ _ _ | Mdelay _ => False | _ => True end.

(** One step of a polite tree: a read asks for 63 octets at offset 0 and
    comes after a sleep; [slept] says whether the thread has slept since
    its last read. *)
Inductive polite_genF (r : bool -> itree readerE void -> Prop) (slept : bool) :
    itree' readerE void -> Prop :=
| polite_tau t : r slept t -> polite_genF r slept (TauF t)
| polite_read dev k :
    slept = true -> (forall rx, r false (k rx)) ->
    polite_genF r slept (VisF (DeviceRead dev 0 63) k)
| polite_sleep ms k :
    (forall u, r true (k u)) -> polite_genF r slept (VisF (Mdelay ms) k)
| polite_vis T (e : readerE T) k :
    quiet e -> (forall u, r slept (k u)) -> polite_genF r slept (VisF e k).

Definition polite_gen (r : bool -> itree readerE void -> Prop) (slept : bool)
    (t : itree readerE void) : Prop :=
  polite_genF r slept (observe t).

(** Polite for ever, whatever the answers. *)
Definition polite (slept : bool) (t : itree readerE void) : Prop :=
  paco2 polite_gen bot2 slept t.

(** ** Tactics *)

(** [polite_step_as x]: the next event of the tree is allowed; go on with
    the tree after the answer [x]. *)
Ltac polite_step_as x :=
  pfold; unfold polite_gen; cbn;
  first [ apply polite_vis; [exact I|] | apply polite_sleep
        | apply polite_read; [reflexivity|] ];
  intros x; left.

Ltac polite_step := let x := fresh "u" in polite_step_as x.

(** ** Facts about the handler *)

Section Runs.
Variable os : rtos.

(** Nothing follows a fault. *)
Lemma halt_bind {A B} e (k : A -> itree (exceptE fault) B) :
  ITree.bind (halt e) k ≈ halt e.
Proof. unfold halt. rewrite bind_vis. apply eqit_Vis. intros []. Qed.

Lemma runs_ret {A} (a : A) : runs os (Ret a) (ret a).
Proof. intros w. by rewrite interp_state_ret. Qed.

Lemma runs_bind {A B} (t : itree readerE A) (k : A -> itree readerE B) m k' :
  runs os t m -> (forall a, runs os (k a) (k' a)) ->
  runs os (ITree.bind t k) (bind m k').
Proof.
  intros Ht Hk w. rewrite interp_state_bind, (Ht w). unfold bind.
  destruct (m w) as [[a w1]|e]; cbn; [|apply halt_bind].
  rewrite Eqit.bind_ret_l. apply Hk.
Qed.

Lemma runs_failed {A} e : runs os (failed e) (abort e : M tworld A).
Proof.
  intros w. unfold failed. rewrite interp_state_bind, interp_state_trigger.
  apply halt_bind.
Qed.

Lemma runs_trigger {A} (e : readerE A) (m : M tworld A) :
  (forall w, handle os _ e w = outcome (m w)) -> runs os (ITree.trigger e) m.
Proof. intros He w. by rewrite interp_state_trigger, He. Qed.

Lemma runs_frame_cb t data :
  runs os (frame_cb_tree t data) (rtthread_ble_hci_frame_cb os t data).
Proof.
  unfold frame_cb_tree, rtthread_ble_hci_frame_cb.
  destruct (t =? HCI_H4_ACL); [by apply runs_trigger|].
  destruct (t =? HCI_H4_EVT); [by apply runs_trigger|apply runs_failed].
Qed.

Lemma runs_rx buf : runs os (rx_tree buf) (g_hci_h4sm_rx os buf).
Proof.
  unfold g_hci_h4sm_rx. induction buf as [|b buf IH]; [apply runs_ret|].
  cbn [rx_tree hci_h4_sm_rx]. apply runs_bind; [by apply runs_trigger|].
  intros sm. destruct (h4_byte sm b) as [[sm' [f|]]|]; [| |apply runs_failed];
    (apply runs_bind; [by apply runs_trigger|intros _]); [|done].
  apply runs_bind; [apply runs_frame_cb|done].
Qed.

(** The body of the loop is the iteration of [Transport]. *)
Lemma runs_entry_body : runs os entry_body (rtthread_hci_uart_entry_iter os).
Proof.
  unfold entry_body, rtthread_hci_uart_entry_iter.
  apply runs_bind; [by apply runs_trigger|intros uart].
  apply runs_bind; [by apply runs_trigger|intros rx]. cbv zeta.
  apply runs_bind;
    [|intros _; apply runs_bind; [|intros _; by apply runs_trigger]].
  - destruct (sizeof_rx <? _); [apply runs_failed|apply runs_ret].
  - destruct (0 <? _); [apply runs_rx|apply runs_ret].
Qed.

End Runs.

(** ** Facts about polite trees *)

Lemma polite_gen_mon : monotone2 polite_gen.
Proof.
  intros b t r r' H LE. unfold polite_gen in *. destruct H; econstructor; eauto.
Qed.

#[export] Hint Resolve polite_gen_mon : paco.

(** Politeness looks at the tree through [observe] only. *)
Lemma polite_observe r b t t' :
  observe t = observe t' -> paco2 polite_gen r b t -> paco2 polite_gen r b t'.
Proof.
  intros Ho H. punfold H. pfold. unfold polite_gen in *. by rewrite <- Ho.
Qed.

(** [polite_conv H]: the goal's tree starts as the tree of [H] does. *)
Ltac polite_conv H := eapply polite_observe; [|apply H]; reflexivity.

(** The decoder reads nothing and does not sleep: it is as polite as what
    follows it. *)
Lemma polite_rx r b buf (g : unit -> itree readerE unit)
    (k : unit -> itree readerE void) :
  (forall u, paco2 polite_gen r b (ITree.bind (g u) k)) ->
  paco2 polite_gen r b (ITree.bind (ITree.bind (rx_tree buf) g) k).
Proof.
  intros Hk. induction buf as [|x buf IH]; [polite_conv (Hk tt)|].
  cbn [rx_tree]. polite_step_as sm.
  apply (polite_observe r b (ITree.bind (ITree.bind
    match h4_byte sm x with
    | Some (sm', o) =>
        ITree.trigger (SetSm sm') ;;
        match o with
        | Some f => frame_cb_tree (fst f) (snd f) ;; rx_tree buf
        | None => rx_tree buf
        end
    | None => failed assert_pkt_type
    end g) k)); [done|].
  destruct (h4_byte sm x) as [[sm' [f|]]|]; polite_step;
    [|polite_conv IH|done].
  unfold frame_cb_tree.
  destruct (_ =? HCI_H4_ACL); [|destruct (_ =? HCI_H4_EVT)]; polite_step;
    [polite_conv IH..|done].
Qed.

(** The loop and its iterations.  If the first [n] iterations of
    [Transport] abort from [w], the loop run from [w] stops with the same
    fault; if they return, it is the loop run from the world they end in.
    The loop has no result, so the equivalence compares faults: what an
    iteration does to the world is [runs_entry_body]. *)
Lemma entry_tree_unfolds os n w :
  interp_state (handle os) entry_tree w ≈
  match rtthread_hci_uart_entry os n w with
  | Ok (_, w') => interp_state (handle os) entry_tree w'
  | Abort e => halt e
  end.
Proof.
  revert w. induction n as [|n IH]; intros w; [reflexivity|].
  unfold entry_tree at 1. rewrite unfold_forever, interp_state_bind.
  rewrite (runs_entry_body os w). cbn [rtthread_hci_uart_entry]. unfold bind.
  destruct (rtthread_hci_uart_entry_iter os w) as [[[] w1]|e]; cbn;
    [|apply halt_bind].
  rewrite Eqit.bind_ret_l. cbn. rewrite interp_state_tau, tau_eutt. apply IH.
Qed.

(** ** The theorem *)

(** C21: the reader polls politely, for ever.  Whatever the device returns
    and the host answers, every call of [rt_device_read] the loop makes
    asks for 63 octets at offset 0, which fit the buffer of 64, and between
    two reads the thread calls [rt_thread_mdelay]: the loop never spins on
    the device. *)
Theorem entry_tree_polite : polite true entry_tree.
Proof.
  unfold polite. pcofix CIH.
  set (k := (fun _ => Tau entry_tree) : unit -> itree readerE void).
  assert (forall u, paco2 polite_gen r true (ITree.bind (Ret u) k)) as Hk.
  { intros u. pfold. unfold polite_gen. cbn. apply polite_tau. by right. }
  apply (polite_observe r true (ITree.bind entry_body k)); [done|].
  unfold entry_body. polite_step_as uart. polite_step_as rx.
  apply (polite_observe r false (ITree.bind
    ((if sizeof_rx <? Z.of_nat (length rx) then failed oob_rx else Ret tt) ;;
     (if 0 <? Z.of_nat (length rx) then rx_tree rx else Ret tt) ;;
     ITree.trigger (Mdelay 1)) k)); [done|].
  destruct (sizeof_rx <? _); [polite_step; done|].
  apply (polite_observe r false (ITree.bind
    ((if 0 <? Z.of_nat (length rx) then rx_tree rx else Ret tt) ;;
     ITree.trigger (Mdelay 1)) k)); [done|].
  destruct (0 <? _); [apply polite_rx; intros _|]; polite_step; apply Hk.
Qed.
